(** * Instruction lifting: ARM32 condition evaluator and the AVR ESIL lifter

    A shallow embedding of
    - [librz/analysis/arch/arm/arm_il32.c]  (the condition evaluator [cond],
      the guard wrapper [rz_arm_cs_32_il], the register and operand helpers
      and the instruction lifters), and
    - [librz/analysis/p/analysis_avr.c]     (CPU model registry, descriptor
      table, semantic handlers, decode engine, custom ESIL operations, the
      register-write hook and the plugin callbacks),
    followed by the properties established about them.

    Conventions.  C integers are [Z] with wrap-around written out where the
    source can overflow; [ut8] buffers are [list Z]; C strings are [string];
    pointers into the two global arrays ([cpu_models], [opcodes]) are
    indices, [None] being the NULL pointer; the mutable globals are threaded
    explicitly. *)

From Stdlib Require Import ZArith List String Ascii Bool Lia.
From Stdlib Require Import DecimalString HexadecimalString.
Import ListNotations.

Local Open Scope string_scope.
Local Open Scope Z_scope.

(* ================================================================= *)
(** ** ARM32: [arm_il32.c] *)

Module Arm.

(** Capstone's [arm_cc] enumeration. *)
Inductive arm_cc : Type :=
| ARM_CC_INVALID
| ARM_CC_EQ | ARM_CC_NE | ARM_CC_HS | ARM_CC_LO
| ARM_CC_MI | ARM_CC_PL | ARM_CC_VS | ARM_CC_VC
| ARM_CC_HI | ARM_CC_LS | ARM_CC_GE | ARM_CC_LT
| ARM_CC_GT | ARM_CC_LE | ARM_CC_AL.

(** Boolean IL expressions, as built by the op-builder macros
    [VARG], [INV], [AND], [OR], [XOR]. *)
Inductive RzILOpBool : Type :=
| VARG (v : string)
| INV (x : RzILOpBool)
| AND (x y : RzILOpBool)
| OR (x y : RzILOpBool)
| XOR (x y : RzILOpBool).

(** [cond]: IL for an arm condition; unconditional is [None] (NULL). *)
Definition cond (c : arm_cc) : option RzILOpBool :=
  match c with
  | ARM_CC_EQ => Some (VARG "zf")
  | ARM_CC_NE => Some (INV (VARG "zf"))
  | ARM_CC_HS => Some (VARG "cf")
  | ARM_CC_LO => Some (INV (VARG "cf"))
  | ARM_CC_MI => Some (VARG "nf")
  | ARM_CC_PL => Some (INV (VARG "nf"))
  | ARM_CC_VS => Some (VARG "vf")
  | ARM_CC_VC => Some (INV (VARG "vf"))
  | ARM_CC_HI => Some (AND (VARG "cf") (INV (VARG "zf")))
  | ARM_CC_LS => Some (AND (INV (VARG "cf")) (VARG "zf"))
  | ARM_CC_GE => Some (INV (XOR (VARG "nf") (VARG "vf")))
  | ARM_CC_LT => Some (XOR (VARG "nf") (VARG "vf"))
  | ARM_CC_GT => Some (AND (INV (VARG "zf")) (INV (XOR (VARG "nf") (VARG "vf"))))
  | ARM_CC_LE => Some (AND (VARG "zf") (XOR (VARG "nf") (VARG "vf")))
  | ARM_CC_AL | ARM_CC_INVALID => None
  end.

(** Effects: only the two constructors the wrapper itself builds are
    spelled out; [EFF] carries whatever [il_unconditional] produced. *)
Inductive RzILOpEffect (E : Type) : Type :=
| EFF (e : E)
| NOP
| BRANCH (c : RzILOpBool) (t f : RzILOpEffect E).
Arguments EFF {E} e.
Arguments NOP {E}.
Arguments BRANCH {E} c t f.

(** [rz_arm_cs_32_il], given the result of [il_unconditional] for the
    instruction and the instruction's condition code. *)
Definition rz_arm_cs_32_il {E : Type} (il_unconditional : option E) (cc : arm_cc)
  : option (RzILOpEffect E) :=
  match il_unconditional with
  | None => None
  | Some eff =>
      match cond cc with
      | Some c => Some (BRANCH c (EFF eff) NOP)
      | None => Some (EFF eff)
      end
  end.

(** Flag state and the value of a boolean expression in it. *)
Record flags : Type := { Zf : bool; Cf : bool; Nf : bool; Vf : bool }.

Definition read_flag (s : flags) (v : string) : bool :=
  if String.eqb v "zf" then Zf s
  else if String.eqb v "cf" then Cf s
  else if String.eqb v "nf" then Nf s
  else if String.eqb v "vf" then Vf s
  else false.

Fixpoint eval (s : flags) (e : RzILOpBool) : bool :=
  match e with
  | VARG v => read_flag s v
  | INV x => negb (eval s x)
  | AND x y => eval s x && eval s y
  | OR x y => eval s x || eval s y
  | XOR x y => xorb (eval s x) (eval s y)
  end.

(** The expressions the specification lists for the six composite codes. *)
Definition spec_cond (c : arm_cc) : option RzILOpBool :=
  match c with
  | ARM_CC_GE => Some (INV (XOR (VARG "nf") (VARG "vf")))
  | ARM_CC_LT => Some (XOR (VARG "nf") (VARG "vf"))
  | ARM_CC_GT => Some (AND (INV (VARG "zf")) (INV (XOR (VARG "nf") (VARG "vf"))))
  | ARM_CC_LE => Some (OR (VARG "zf") (XOR (VARG "nf") (VARG "vf")))
  | ARM_CC_HI => Some (AND (VARG "cf") (INV (VARG "zf")))
  | ARM_CC_LS => Some (OR (INV (VARG "cf")) (VARG "zf"))
  | _ => cond c
  end.

End Arm.

(* ================================================================= *)
(** ** AVR: [analysis_avr.c] *)

Module Avr.

(* ----------------------------------------------------------------- *)
(** *** C integers, strings, formatting *)

Definition ut8 (z : Z) : Z := z mod 2 ^ 8.
Definition ut16 (z : Z) : Z := z mod 2 ^ 16.
Definition ut32 (z : Z) : Z := z mod 2 ^ 32.
Definition ut64 (z : Z) : Z := z mod 2 ^ 64.
(** Conversion of a 64-bit unsigned value to [int] / to [long long]. *)
Definition to_int (z : Z) : Z := (z + 2 ^ 31) mod 2 ^ 32 - 2 ^ 31.
Definition st64 (z : Z) : Z := (z + 2 ^ 63) mod 2 ^ 64 - 2 ^ 63.
Definition UT64_MAX : Z := 2 ^ 64 - 1.

(** C truth value of an integer. *)
Definition truthy (z : Z) : bool := negb (z =? 0).

(** [printf] conversions used by the handlers. *)
Definition fmt_d (z : Z) : string := DecimalString.NilZero.string_of_int (Z.to_int z).
Definition fmt_x (z : Z) : string :=
  HexadecimalString.NilZero.string_of_uint (N.to_hex_uint (Z.to_N z)).
(** ["%" PFMT64d] applied to a [ut64]: printed as a signed 64-bit number. *)
Definition fmt_lld (z : Z) : string := fmt_d (st64 z).
Definition fmt_c (c : ascii) : string := String c EmptyString.
(** The newline character of the [eprintf] messages. *)
Definition nl : string := String (ascii_of_nat 10) EmptyString.

Definition tolower (c : ascii) : ascii :=
  let n := nat_of_ascii c in
  if (Nat.leb 65 n && Nat.leb n 90)%bool then ascii_of_nat (n + 32) else c.

Fixpoint lower (s : string) : string :=
  match s with
  | EmptyString => EmptyString
  | String c r => String (tolower c) (lower r)
  end.

(** Modelled from the spec: [rz_str_casecmp] and [rz_str_ncasecmp] live in
    librz/util, outside the files embedded here; they are the usual
    case-insensitive comparisons ([strcasecmp], [strncasecmp]).  Only
    "zero or not" is ever tested by the callers. *)
Definition rz_str_casecmp (a b : string) : Z :=
  if String.eqb (lower a) (lower b) then 0 else 1.
Definition rz_str_ncasecmp (a b : string) (n : nat) : Z :=
  if String.eqb (lower (substring 0 n a)) (lower (substring 0 n b)) then 0 else 1.
Definition STR_BEGINS (i s : string) : Z := rz_str_ncasecmp i s (String.length s).
Definition strcmp (a b : string) : Z := if String.eqb a b then 0 else 1.

(** [buf[i]] *)
Definition at_ (buf : list Z) (i : nat) : Z := nth i buf 0.
(** [buf + n] *)
Definition advance (buf : list Z) (n : Z) : list Z := skipn (Z.to_nat n) buf.

(** [MASK(bits)]: the whole computation is done in [ut32].  A shift count
    above 31 is undefined in C; no caller in this file reaches it with the
    tables below. *)
Definition MASK (bits : Z) : Z :=
  if bits =? 32 then 0xffffffff
  else ut32 (Z.lnot (ut32 (Z.shiftl 0xffffffff bits))).

(* ----------------------------------------------------------------- *)
(** *** CPU models and their constants *)

Definition CPU_CONST_NONE : Z := 0.
Definition CPU_CONST_PARAM : Z := 1.
Definition CPU_CONST_REG : Z := 2.

Record CPU_CONST : Type := {
  key : string;
  ctype : Z;
  value : Z;
  csize : Z
}.

(** [inherit_cpu_p] is the lazily filled back-pointer: an index into the
    model array, [None] while NULL.  [consts] is the NULL-terminated array
    of NULL-key-terminated groups. *)
Record CPU_MODEL : Type := {
  model : string;
  pc : Z;
  inherit : option string;
  inherit_cpu_p : option nat;
  consts : list (list CPU_CONST)
}.

Definition cpu_reg_common : list CPU_CONST := [
  {| key := "spl"; ctype := CPU_CONST_REG; value := 0x3d; csize := 1 |};
  {| key := "sph"; ctype := CPU_CONST_REG; value := 0x3e; csize := 1 |};
  {| key := "sreg"; ctype := CPU_CONST_REG; value := 0x3f; csize := 1 |};
  {| key := "spmcsr"; ctype := CPU_CONST_REG; value := 0x37; csize := 1 |} ].

Definition cpu_memsize_common : list CPU_CONST := [
  {| key := "eeprom_size"; ctype := CPU_CONST_PARAM; value := 512; csize := 4 |};
  {| key := "io_size"; ctype := CPU_CONST_PARAM; value := 0x40; csize := 4 |};
  {| key := "sram_start"; ctype := CPU_CONST_PARAM; value := 0x60; csize := 4 |};
  {| key := "sram_size"; ctype := CPU_CONST_PARAM; value := 1024; csize := 4 |} ].

Definition cpu_memsize_m640_m1280m_m1281_m2560_m2561 : list CPU_CONST := [
  {| key := "eeprom_size"; ctype := CPU_CONST_PARAM; value := 512; csize := 4 |};
  {| key := "io_size"; ctype := CPU_CONST_PARAM; value := 0x1ff; csize := 4 |};
  {| key := "sram_start"; ctype := CPU_CONST_PARAM; value := 0x200; csize := 4 |};
  {| key := "sram_size"; ctype := CPU_CONST_PARAM; value := 0x2000; csize := 4 |} ].

Definition cpu_memsize_xmega128a4u : list CPU_CONST := [
  {| key := "eeprom_size"; ctype := CPU_CONST_PARAM; value := 0x800; csize := 4 |};
  {| key := "io_size"; ctype := CPU_CONST_PARAM; value := 0x1000; csize := 4 |};
  {| key := "sram_start"; ctype := CPU_CONST_PARAM; value := 0x800; csize := 4 |};
  {| key := "sram_size"; ctype := CPU_CONST_PARAM; value := 0x2000; csize := 4 |} ].

Definition cpu_pagesize_5_bits : list CPU_CONST := [
  {| key := "page_size"; ctype := CPU_CONST_PARAM; value := 5; csize := 1 |} ].

Definition cpu_pagesize_7_bits : list CPU_CONST := [
  {| key := "page_size"; ctype := CPU_CONST_PARAM; value := 7; csize := 1 |} ].

Definition cpu_models : list CPU_MODEL := [
  {| model := "ATmega640"; pc := 15; inherit := None; inherit_cpu_p := None;
     consts := [cpu_reg_common; cpu_memsize_m640_m1280m_m1281_m2560_m2561; cpu_pagesize_7_bits] |};
  {| model := "ATxmega128a4u"; pc := 17; inherit := None; inherit_cpu_p := None;
     consts := [cpu_reg_common; cpu_memsize_xmega128a4u; cpu_pagesize_7_bits] |};
  {| model := "ATmega1280"; pc := 16; inherit := Some "ATmega640"; inherit_cpu_p := None; consts := [] |};
  {| model := "ATmega1281"; pc := 16; inherit := Some "ATmega640"; inherit_cpu_p := None; consts := [] |};
  {| model := "ATmega2560"; pc := 17; inherit := Some "ATmega640"; inherit_cpu_p := None; consts := [] |};
  {| model := "ATmega2561"; pc := 17; inherit := Some "ATmega640"; inherit_cpu_p := None; consts := [] |};
  {| model := "ATmega88"; pc := 8; inherit := Some "ATmega8"; inherit_cpu_p := None; consts := [] |};
  (* last model is the default AVR *)
  {| model := "ATmega8"; pc := 13; inherit := None; inherit_cpu_p := None;
     consts := [cpu_reg_common; cpu_memsize_common; cpu_pagesize_5_bits] |} ].

(** The mutable registry: the [cpu_models] array (its [inherit_cpu_p]
    fields change), the function-static [cpu] of [get_cpu_model], and what
    [eprintf] has written. *)
Record Registry : Type := {
  models : list CPU_MODEL;
  cached : option nat;
  errlog : list string
}.

Definition null_model : CPU_MODEL :=
  {| model := ""; pc := 0; inherit := None; inherit_cpu_p := None; consts := [] |}.

(** [cpu_models[i]] *)
Definition model_at (ms : list CPU_MODEL) (i : nat) : CPU_MODEL := nth i ms null_model.

Definition set_inherit_cpu_p (p : option nat) (m : CPU_MODEL) : CPU_MODEL :=
  {| model := model m; pc := pc m; inherit := inherit m; inherit_cpu_p := p; consts := consts m |}.

Fixpoint update_at {A : Type} (i : nat) (f : A -> A) (l : list A) : list A :=
  match l, i with
  | [], _ => []
  | x :: r, O => f x :: r
  | x :: r, S j => x :: update_at j f r
  end.

Definition eprintf (s : string) (g : Registry) : Registry :=
  {| models := models g; cached := cached g; errlog := errlog g ++ [s] |}.

(** The search loop of [__get_cpu_model_recursive]: the last array element
    is never compared, it is where the loop ends when nothing matched. *)
Fixpoint find_model (ms : list CPU_MODEL) (name : string) (i : nat) : nat :=
  match ms with
  | [] => i
  | [_] => i
  | m :: rest => if rz_str_casecmp name (model m) =? 0 then i else find_model rest name (S i)
  end.

(** [get_cpu_model] and [__get_cpu_model_recursive] call each other along
    the inheritance chain; [fuel] bounds the number of calls. *)
Fixpoint get_cpu_model (fuel : nat) (g : Registry) (name : string)
  : option (option nat * Registry) :=
  match fuel with
  | O => None
  | S fuel' =>
      let hit :=
        match cached g with
        | Some c => rz_str_casecmp name (model (model_at (models g) c)) =? 0
        | None => false
        end in
      if hit then Some (cached g, g)
      else
        match __get_cpu_model_recursive fuel' g name with
        | None => None
        | Some (cpu, g') =>
            Some (cpu, {| models := models g'; cached := cpu; errlog := errlog g' |})
        end
  end
with __get_cpu_model_recursive (fuel : nat) (g : Registry) (name : string)
  : option (option nat * Registry) :=
  match fuel with
  | O => None
  | S fuel' =>
      let cpu := find_model (models g) name 0 in
      let m := model_at (models g) cpu in
      match inherit m, inherit_cpu_p m with
      | Some parent, None =>
          match get_cpu_model fuel' g parent with
          | None => None
          | Some (p, g') =>
              let g'' := {| models := update_at cpu (set_inherit_cpu_p p) (models g');
                            cached := cached g'; errlog := errlog g' |} in
              let g''' :=
                match p with
                | None => eprintf ("ERROR: Cannot inherit from unknown CPU model '" ++ parent ++ "'." ++ nl) g''
                | Some _ => g''
                end in
              Some (Some cpu, g''')
          end
      | _, _ => Some (Some cpu, g)
      end
  end.

(** [const_get_value] *)
Definition const_get_value (c : option CPU_CONST) : Z :=
  match c with
  | Some c => Z.land (MASK (csize c * 8)) (value c)
  | None => 0
  end.

(** The two nested [for] loops shared by [const_by_name] and
    [const_by_value]: groups in order, items in order, first hit. *)
Fixpoint scan_consts (hit : CPU_CONST -> bool) (clist : list (list CPU_CONST))
  : option CPU_CONST :=
  match clist with
  | [] => None
  | citems :: rest =>
      match find hit citems with
      | Some c => Some c
      | None => scan_consts hit rest
      end
  end.

Definition type_ok (type : Z) (c : CPU_CONST) : bool :=
  (type =? CPU_CONST_NONE) || (type =? ctype c).

(** [const_by_name]; recursion follows [inherit_cpu_p]. The result is the
    item found (or NULL) and the error log. *)
Fixpoint const_by_name (fuel : nat) (g : Registry) (cpu : nat) (type : Z) (c : string)
  : option (option CPU_CONST * Registry) :=
  match fuel with
  | O => None
  | S fuel' =>
      let m := model_at (models g) cpu in
      match scan_consts (fun citem => (strcmp c (key citem) =? 0) && type_ok type citem) (consts m) with
      | Some citem => Some (Some citem, g)
      | None =>
          match inherit_cpu_p m with
          | Some p => const_by_name fuel' g p type c
          | None => Some (None, eprintf ("ERROR: CONSTANT key[" ++ c ++ "] NOT FOUND." ++ nl) g)
          end
      end
  end.

(** [const_by_value] *)
Fixpoint const_by_value (fuel : nat) (ms : list CPU_MODEL) (cpu : nat) (type : Z) (v : Z)
  : option (option CPU_CONST) :=
  match fuel with
  | O => None
  | S fuel' =>
      let m := model_at ms cpu in
      match scan_consts (fun citem => (value citem =? Z.land (MASK (csize citem * 8)) v) && type_ok type citem) (consts m) with
      | Some citem => Some (Some citem)
      | None =>
          match inherit_cpu_p m with
          | Some p => const_by_value fuel' ms p type v
          | None => Some None
          end
      end
  end.

(** [CPU_PC_MASK], [CPU_PC_SIZE] *)
Definition CPU_PC_MASK (cpu : CPU_MODEL) : Z := MASK (pc cpu).
Definition CPU_PC_SIZE (cpu : CPU_MODEL) : Z :=
  Z.shiftr (pc cpu) 3 + (if truthy (Z.land (pc cpu) 0x07) then 1 else 0).

(* ----------------------------------------------------------------- *)
(** *** The analysis record and the interpreter state *)

(** [RZ_ANALYSIS_OP_TYPE_*] (value 0 is [NULL]) and
    [RZ_ANALYSIS_OP_FAMILY_*] (value 0 is [CPU]), as far as this plugin
    uses them. *)
Inductive OpType : Type :=
| RZ_ANALYSIS_OP_TYPE_NULL | RZ_ANALYSIS_OP_TYPE_UNK
| RZ_ANALYSIS_OP_TYPE_TRAP | RZ_ANALYSIS_OP_TYPE_UCALL | RZ_ANALYSIS_OP_TYPE_UJMP
| RZ_ANALYSIS_OP_TYPE_LOAD | RZ_ANALYSIS_OP_TYPE_NOP | RZ_ANALYSIS_OP_TYPE_RET
| RZ_ANALYSIS_OP_TYPE_MOV | RZ_ANALYSIS_OP_TYPE_MUL | RZ_ANALYSIS_OP_TYPE_AND
| RZ_ANALYSIS_OP_TYPE_CRYPTO | RZ_ANALYSIS_OP_TYPE_ADD | RZ_ANALYSIS_OP_TYPE_SUB
| RZ_ANALYSIS_OP_TYPE_IO | RZ_ANALYSIS_OP_TYPE_SAR | RZ_ANALYSIS_OP_TYPE_NOT
| RZ_ANALYSIS_OP_TYPE_STORE | RZ_ANALYSIS_OP_TYPE_SHR | RZ_ANALYSIS_OP_TYPE_POP
| RZ_ANALYSIS_OP_TYPE_PUSH | RZ_ANALYSIS_OP_TYPE_CALL | RZ_ANALYSIS_OP_TYPE_JMP
| RZ_ANALYSIS_OP_TYPE_CJMP | RZ_ANALYSIS_OP_TYPE_CMP | RZ_ANALYSIS_OP_TYPE_XOR
| RZ_ANALYSIS_OP_TYPE_OR.

Inductive OpFamily : Type :=
| RZ_ANALYSIS_OP_FAMILY_UNKNOWN | RZ_ANALYSIS_OP_FAMILY_CPU
| RZ_ANALYSIS_OP_FAMILY_PRIV | RZ_ANALYSIS_OP_FAMILY_IO.

(** [t == RZ_ANALYSIS_OP_TYPE_UNK] *)
Definition is_UNK (t : OpType) : bool :=
  match t with RZ_ANALYSIS_OP_TYPE_UNK => true | _ => false end.

(** The fields of [RzAnalysisOp] this plugin touches. *)
Record RzAnalysisOp : Type := {
  mnemonic : string;
  addr : Z;
  type : OpType;
  type2 : Z;
  nopcode : Z;
  cycles : Z;
  family : OpFamily;
  eob : bool;
  size : Z;
  jump : Z;
  fail : Z;
  ptr : Z;
  val : Z;
  mmio_address : Z;
  esil : string
}.

(** [RzAnalysisOp x = { 0 }] *)
Definition op_zero : RzAnalysisOp :=
  {| mnemonic := ""; addr := 0; type := RZ_ANALYSIS_OP_TYPE_NULL; type2 := 0;
     nopcode := 0; cycles := 0; family := RZ_ANALYSIS_OP_FAMILY_CPU; eob := false;
     size := 0; jump := 0; fail := 0; ptr := 0; val := 0; mmio_address := 0; esil := "" |}.

Definition set_mnemonic (v : string) (o : RzAnalysisOp) : RzAnalysisOp :=
  {| mnemonic := v; addr := addr o; type := type o; type2 := type2 o; nopcode := nopcode o;
     cycles := cycles o; family := family o; eob := eob o; size := size o; jump := jump o;
     fail := fail o; ptr := ptr o; val := val o; mmio_address := mmio_address o; esil := esil o |}.
Definition set_addr (v : Z) (o : RzAnalysisOp) : RzAnalysisOp :=
  {| mnemonic := mnemonic o; addr := v; type := type o; type2 := type2 o; nopcode := nopcode o;
     cycles := cycles o; family := family o; eob := eob o; size := size o; jump := jump o;
     fail := fail o; ptr := ptr o; val := val o; mmio_address := mmio_address o; esil := esil o |}.
Definition set_type (v : OpType) (o : RzAnalysisOp) : RzAnalysisOp :=
  {| mnemonic := mnemonic o; addr := addr o; type := v; type2 := type2 o; nopcode := nopcode o;
     cycles := cycles o; family := family o; eob := eob o; size := size o; jump := jump o;
     fail := fail o; ptr := ptr o; val := val o; mmio_address := mmio_address o; esil := esil o |}.
Definition set_type2 (v : Z) (o : RzAnalysisOp) : RzAnalysisOp :=
  {| mnemonic := mnemonic o; addr := addr o; type := type o; type2 := v; nopcode := nopcode o;
     cycles := cycles o; family := family o; eob := eob o; size := size o; jump := jump o;
     fail := fail o; ptr := ptr o; val := val o; mmio_address := mmio_address o; esil := esil o |}.
Definition set_nopcode (v : Z) (o : RzAnalysisOp) : RzAnalysisOp :=
  {| mnemonic := mnemonic o; addr := addr o; type := type o; type2 := type2 o; nopcode := v;
     cycles := cycles o; family := family o; eob := eob o; size := size o; jump := jump o;
     fail := fail o; ptr := ptr o; val := val o; mmio_address := mmio_address o; esil := esil o |}.
Definition set_cycles (v : Z) (o : RzAnalysisOp) : RzAnalysisOp :=
  {| mnemonic := mnemonic o; addr := addr o; type := type o; type2 := type2 o; nopcode := nopcode o;
     cycles := v; family := family o; eob := eob o; size := size o; jump := jump o;
     fail := fail o; ptr := ptr o; val := val o; mmio_address := mmio_address o; esil := esil o |}.
Definition set_family (v : OpFamily) (o : RzAnalysisOp) : RzAnalysisOp :=
  {| mnemonic := mnemonic o; addr := addr o; type := type o; type2 := type2 o; nopcode := nopcode o;
     cycles := cycles o; family := v; eob := eob o; size := size o; jump := jump o;
     fail := fail o; ptr := ptr o; val := val o; mmio_address := mmio_address o; esil := esil o |}.
Definition set_eob (v : bool) (o : RzAnalysisOp) : RzAnalysisOp :=
  {| mnemonic := mnemonic o; addr := addr o; type := type o; type2 := type2 o; nopcode := nopcode o;
     cycles := cycles o; family := family o; eob := v; size := size o; jump := jump o;
     fail := fail o; ptr := ptr o; val := val o; mmio_address := mmio_address o; esil := esil o |}.
Definition set_size (v : Z) (o : RzAnalysisOp) : RzAnalysisOp :=
  {| mnemonic := mnemonic o; addr := addr o; type := type o; type2 := type2 o; nopcode := nopcode o;
     cycles := cycles o; family := family o; eob := eob o; size := v; jump := jump o;
     fail := fail o; ptr := ptr o; val := val o; mmio_address := mmio_address o; esil := esil o |}.
Definition set_jump (v : Z) (o : RzAnalysisOp) : RzAnalysisOp :=
  {| mnemonic := mnemonic o; addr := addr o; type := type o; type2 := type2 o; nopcode := nopcode o;
     cycles := cycles o; family := family o; eob := eob o; size := size o; jump := v;
     fail := fail o; ptr := ptr o; val := val o; mmio_address := mmio_address o; esil := esil o |}.
Definition set_fail (v : Z) (o : RzAnalysisOp) : RzAnalysisOp :=
  {| mnemonic := mnemonic o; addr := addr o; type := type o; type2 := type2 o; nopcode := nopcode o;
     cycles := cycles o; family := family o; eob := eob o; size := size o; jump := jump o;
     fail := v; ptr := ptr o; val := val o; mmio_address := mmio_address o; esil := esil o |}.
Definition set_ptr (v : Z) (o : RzAnalysisOp) : RzAnalysisOp :=
  {| mnemonic := mnemonic o; addr := addr o; type := type o; type2 := type2 o; nopcode := nopcode o;
     cycles := cycles o; family := family o; eob := eob o; size := size o; jump := jump o;
     fail := fail o; ptr := v; val := val o; mmio_address := mmio_address o; esil := esil o |}.
Definition set_val (v : Z) (o : RzAnalysisOp) : RzAnalysisOp :=
  {| mnemonic := mnemonic o; addr := addr o; type := type o; type2 := type2 o; nopcode := nopcode o;
     cycles := cycles o; family := family o; eob := eob o; size := size o; jump := jump o;
     fail := fail o; ptr := ptr o; val := v; mmio_address := mmio_address o; esil := esil o |}.
Definition set_mmio_address (v : Z) (o : RzAnalysisOp) : RzAnalysisOp :=
  {| mnemonic := mnemonic o; addr := addr o; type := type o; type2 := type2 o; nopcode := nopcode o;
     cycles := cycles o; family := family o; eob := eob o; size := size o; jump := jump o;
     fail := fail o; ptr := ptr o; val := val o; mmio_address := v; esil := esil o |}.
Definition set_esil (v : string) (o : RzAnalysisOp) : RzAnalysisOp :=
  {| mnemonic := mnemonic o; addr := addr o; type := type o; type2 := type2 o; nopcode := nopcode o;
     cycles := cycles o; family := family o; eob := eob o; size := size o; jump := jump o;
     fail := fail o; ptr := ptr o; val := val o; mmio_address := mmio_address o; esil := v |}.

(** [ESIL_A(fmt, ...)]: append to [op->esil]. *)
Definition ESIL_A (s : string) (o : RzAnalysisOp) : RzAnalysisOp := set_esil (esil o ++ s) o.

(** Modelled from the spec: the interpreter ([RzAnalysisEsil]) is outside the
    files embedded here.  Following the specification's "named-register/flag
    state and byte-addressable memory" plus the operand stack of the flat
    stack-program form, it is a stack of textual operands, a register file
    and a memory of bytes. *)
Record RzAnalysisEsil : Type := {
  stack : list string;
  regs : string -> Z;
  mem : Z -> Z
}.

Definition rz_analysis_esil_reg_read (e : RzAnalysisEsil) (name : string) : Z := regs e name.

Definition rz_analysis_esil_reg_write (e : RzAnalysisEsil) (name : string) (v : Z) : RzAnalysisEsil :=
  {| stack := stack e;
     regs := fun n => if String.eqb n name then v else regs e n;
     mem := mem e |}.

(** One-byte [rz_analysis_esil_mem_write]. *)
Definition rz_analysis_esil_mem_write (e : RzAnalysisEsil) (a : Z) (c : Z) : RzAnalysisEsil :=
  {| stack := stack e;
     regs := regs e;
     mem := fun x => if x =? a then c else mem e x |}.

(** [rz_analysis_esil_pop]: the top operand, NULL on an empty stack. *)
Definition rz_analysis_esil_pop (e : RzAnalysisEsil) : option string * RzAnalysisEsil :=
  match stack e with
  | [] => (None, e)
  | t :: r => (Some t, {| stack := r; regs := regs e; mem := mem e |})
  end.

(** The parts of [RzAnalysis] read by the plugin: the CPU name, the byte
    order, the attached interpreter and the target profile.  The handlers
    dereference [analysis->esil] unconditionally, so the interpreter is
    taken to be attached. *)
Record RzAnalysis : Type := {
  cpu : string;
  big_endian : bool;
  a_esil : RzAnalysisEsil;
  profile_pc : Z;
  profile_sram_start : Z;
  profile_sram_size : Z;
  profile_eeprom_size : Z
}.

(* ----------------------------------------------------------------- *)
(** *** Helpers shared by the handlers *)

Notation "a &&& b" := (Z.land a b) (at level 40, left associativity).
Notation "a ||| b" := (Z.lor a b) (at level 50, left associativity).
Notation "a <<< b" := (Z.shiftl a b) (at level 30, no associativity).
Notation "a >>> b" := (Z.shiftr a b) (at level 30, no associativity).

(** The recursion bound handed to [const_by_value]/[const_by_name]/
    [get_cpu_model]: a walk along [inherit_cpu_p] that visits more models
    than the array holds has entered a cycle, where the C code does not
    return either. *)
Definition chain_fuel (ms : list CPU_MODEL) : nat := 2 * S (List.length ms).

(** [__generic_io_dest]: the contents of the returned string buffer. *)
Definition __generic_io_dest (port : Z) (write : Z) (ms : list CPU_MODEL) (cpu : nat)
  : option string :=
  let port := ut8 port in
  match const_by_value (chain_fuel ms) ms cpu CPU_CONST_REG port with
  | None => None
  | Some (Some c) => Some (key c ++ (if truthy write then ",=" else ""))
  | Some None => Some ("_io," ++ fmt_d port ++ ",+," ++ (if truthy write then "=" else "") ++ "[1]")
  end.

(** [ireg == 0] is the NUL character. *)
Definition no_ireg : ascii := ascii_of_nat 0.

(** [__generic_ld_st] *)
Definition __generic_ld_st (op : RzAnalysisOp) (mem : string) (ireg : ascii)
    (use_ramp : Z) (prepostdec : Z) (offset : Z) (st : Z) : RzAnalysisOp :=
  let has_ireg := negb (Ascii.eqb ireg no_ireg) in
  let op :=
    if has_ireg then
      (* preincrement index register *)
      let op := if prepostdec <? 0
                then ESIL_A ("1," ++ fmt_c ireg ++ ",-," ++ fmt_c ireg ++ ",=,") op else op in
      (* set register index address *)
      let op := ESIL_A (fmt_c ireg ++ ",") op in
      (* add offset *)
      if negb (offset =? 0) then ESIL_A (fmt_d offset ++ ",+,") op else op
    else ESIL_A (fmt_d offset ++ ",") op in
  let op := if truthy use_ramp
            then ESIL_A ("16,ramp" ++ fmt_c (if has_ireg then ireg else "d"%char) ++ ",<<,+,") op
            else op in
  (* set SRAM base address *)
  let op := ESIL_A ("_" ++ mem ++ ",+,") op in
  (* read/write from SRAM *)
  let op := ESIL_A ((if truthy st then "=" else "") ++ "[1],") op in
  (* postincrement index register *)
  if has_ireg && (prepostdec >? 0)
  then ESIL_A ("1," ++ fmt_c ireg ++ ",+," ++ fmt_c ireg ++ ",=,") op
  else op.

(** [__generic_pop] *)
Definition __generic_pop (op : RzAnalysisOp) (sz : Z) : RzAnalysisOp :=
  if sz >? 1 then
    let op := ESIL_A "1,sp,+,_ram,+," op in
    let op := ESIL_A ("[" ++ fmt_d sz ++ "],") op in
    ESIL_A (fmt_d sz ++ ",sp,+=,") op
  else
    ESIL_A "1,sp,+=,sp,_ram,+,[1]," op.

(** [__generic_push] *)
Definition __generic_push (op : RzAnalysisOp) (sz : Z) : RzAnalysisOp :=
  let op := ESIL_A "sp,_ram,+," op in
  let op := if sz >? 1 then ESIL_A ("-" ++ fmt_d (sz - 1) ++ ",+,") op else op in
  let op := ESIL_A ("=[" ++ fmt_d sz ++ "],") op in
  ESIL_A ("-" ++ fmt_d sz ++ ",sp,+=,") op.

(* ----------------------------------------------------------------- *)
(** *** Handlers that only read the buffer *)

Section BufferHandlers.
Variable buf : list Z.
Variable len : Z.
Notation "'b0'" := (at_ buf 0).
Notation "'b1'" := (at_ buf 1).
Notation "'b2'" := (at_ buf 2).
Notation "'b3'" := (at_ buf 3).

Definition _inst__adc (op : RzAnalysisOp) : RzAnalysisOp :=
  if len <? 2 then op else
  let d := ((b0 >>> 4) &&& 0xf) ||| ((b1 &&& 1) <<< 4) in
  let r := (b0 &&& 0xf) ||| ((b1 &&& 2) <<< 3) in
  let op := ESIL_A ("r" ++ fmt_d r ++ ",cf,+,r" ++ fmt_d d ++ ",+=,") op in
  let op := ESIL_A "$z,zf,:=," op in
  let op := ESIL_A "3,$c,hf,:=," op in
  let op := ESIL_A "7,$c,cf,:=," op in
  let op := ESIL_A "7,$o,vf,:=," op in
  ESIL_A ("0x80,r" ++ fmt_d d ++ ",&,!,!,nf,:=") op.

Definition _inst__add (op : RzAnalysisOp) : RzAnalysisOp :=
  if len <? 2 then op else
  let d := ((b0 >>> 4) &&& 0xf) ||| ((b1 &&& 1) <<< 4) in
  let r := (b0 &&& 0xf) ||| ((b1 &&& 2) <<< 3) in
  let op := ESIL_A ("r" ++ fmt_d r ++ ",r" ++ fmt_d d ++ ",+=,") op in
  let op := ESIL_A "$z,zf,:=," op in
  let op := ESIL_A "3,$c,hf,:=," op in
  let op := ESIL_A "7,$c,cf,:=," op in
  let op := ESIL_A "7,$o,vf,:=," op in
  ESIL_A ("0x80,r" ++ fmt_d d ++ ",&,!,!,nf,:=,") op.

Definition _inst__adiw (op : RzAnalysisOp) : RzAnalysisOp :=
  if len <? 1 then op else
  let d := ((b0 &&& 0x30) >>> 3) + 24 in
  let k := (b0 &&& 0x0f) ||| ((b0 >>> 2) &&& 0x30) in
  let op := set_val k op in
  let op := ESIL_A ("7,r" ++ fmt_d (d + 1) ++ ",>>,") op in
  let op := ESIL_A ("8," ++ fmt_d k ++ ",8,r" ++ fmt_d (d + 1) ++ ",<<,r" ++ fmt_d d
                    ++ ",|,+,DUP,r" ++ fmt_d d ++ ",=,>>,r" ++ fmt_d (d + 1) ++ ",=,") op in
  let op := ESIL_A ("DUP,!,7,r" ++ fmt_d (d + 1) ++ ",>>,&,vf,:=,") op in
  let op := ESIL_A ("r" ++ fmt_d (d + 1) ++ ",0x80,&,!,!,nf,:=,") op in
  let op := ESIL_A ("8,r" ++ fmt_d (d + 1) ++ ",<<,r" ++ fmt_d d ++ ",|,!,zf,:=,") op in
  let op := ESIL_A ("7,r" ++ fmt_d (d + 1) ++ ",>>,!,&,cf,:=,") op in
  ESIL_A "vf,nf,^,sf,:=" op.

Definition _inst__and (op : RzAnalysisOp) : RzAnalysisOp :=
  if len <? 2 then op else
  let d := ((b0 >>> 4) &&& 0xf) ||| ((b1 &&& 1) <<< 4) in
  let r := (b0 &&& 0xf) ||| ((b1 &&& 2) <<< 3) in
  ESIL_A ("r" ++ fmt_d r ++ ",r" ++ fmt_d d ++ ",&=,$z,zf,:=,r" ++ fmt_d d
          ++ ",0x80,&,!,!,nf,:=,0,vf,:=,nf,sf,:=,") op.

Definition _inst__andi (op : RzAnalysisOp) : RzAnalysisOp :=
  if len <? 2 then op else
  let d := ((b0 >>> 4) &&& 0xf) + 16 in
  let k := ((b1 &&& 0x0f) <<< 4) ||| (b0 &&& 0x0f) in
  let op := set_val k op in
  ESIL_A (fmt_d k ++ ",r" ++ fmt_d d ++ ",&=,$z,zf,:=,r" ++ fmt_d d
          ++ ",0x80,&,!,!,nf,:=,0,vf,:=,nf,sf,:=,") op.

Definition _inst__asr (op : RzAnalysisOp) : RzAnalysisOp :=
  if len <? 2 then op else
  let d := ((b0 >>> 4) &&& 0xf) ||| ((b1 &&& 1) <<< 4) in
  let op := ESIL_A ("r" ++ fmt_d d ++ ",0x1,&,cf,:=,0x1,r" ++ fmt_d d ++ ",>>,r" ++ fmt_d d
                    ++ ",0x80,&,|,") op in
  let op := ESIL_A "$z,zf,:=," op in
  let op := ESIL_A ("r" ++ fmt_d d ++ ",0x80,&,!,!,nf,:=,") op in
  let op := ESIL_A "nf,cf,^,vf,:=," op in
  ESIL_A "nf,vf,^,sf,:=," op.

Definition _inst__bclr (op : RzAnalysisOp) : RzAnalysisOp :=
  if len <? 1 then op else
  let s := (b0 >>> 4) &&& 0x7 in
  ESIL_A ("0xff," ++ fmt_d s ++ ",1,<<,^,sreg,&=,") op.

Definition _inst__bld (op : RzAnalysisOp) : RzAnalysisOp :=
  if len <? 2 then op else
  let d := ((b1 &&& 0x01) <<< 4) ||| ((b0 >>> 4) &&& 0xf) in
  let b := b0 &&& 0x7 in
  let op := ESIL_A ("r" ++ fmt_d d ++ "," ++ fmt_d b ++ ",1,<<,0xff,^,&,") op in
  ESIL_A (fmt_d b ++ ",tf,<<,|,r" ++ fmt_d d ++ ",=,") op.

Definition _inst__brbx (op : RzAnalysisOp) : RzAnalysisOp :=
  if len <? 2 then op else
  let s := b0 &&& 0x7 in
  let op := set_jump (ut64 (addr op
              + ((((b1 &&& 0x03) <<< 6) ||| ((b0 &&& 0xf8) >>> 2))
                 ||| (if truthy (b1 &&& 0x2) then Z.lnot 0x7f else 0))
              + 2)) op in
  let op := set_fail (ut64 (addr op + size op)) op in
  let op := set_cycles 1 op in
  let op := ESIL_A (fmt_d s ++ ",1,<<,sreg,&,") op in
  let op := ESIL_A (if truthy (b1 &&& 0x4) then "!," else "!,!,") op in
  ESIL_A ("?{," ++ fmt_lld (jump op) ++ ",pc,=,},") op.

Definition _inst__break (op : RzAnalysisOp) : RzAnalysisOp :=
  ESIL_A "BREAK" op.

Definition _inst__bset (op : RzAnalysisOp) : RzAnalysisOp :=
  if len <? 1 then op else
  let s := (b0 >>> 4) &&& 0x7 in
  ESIL_A (fmt_d s ++ ",1,<<,sreg,|=,") op.

Definition _inst__bst (op : RzAnalysisOp) : RzAnalysisOp :=
  if len <? 2 then op else
  ESIL_A ("r" ++ fmt_d (((b1 &&& 1) <<< 4) ||| ((b0 >>> 4) &&& 0xf))
          ++ "," ++ fmt_d (b0 &&& 0x7) ++ ",1,<<,&,!,!,tf,=,") op.

Definition _inst__com (op : RzAnalysisOp) : RzAnalysisOp :=
  if len <? 2 then op else
  let r := ((b0 >>> 4) &&& 0x0f) ||| ((b1 &&& 1) <<< 4) in
  ESIL_A ("r" ++ fmt_d r ++ ",0xff,-,r" ++ fmt_d r
          ++ ",=,$z,zf,:=,0,cf,:=,0,vf,:=,r" ++ fmt_d r ++ ",0x80,&,!,!,nf,:=,vf,nf,^,sf,:=") op.

Definition _inst__cp (op : RzAnalysisOp) : RzAnalysisOp :=
  if len <? 2 then op else
  let r := (b0 &&& 0x0f) ||| ((b1 <<< 3) &&& 0x10) in
  let d := ((b0 >>> 4) &&& 0x0f) ||| ((b1 <<< 4) &&& 0x10) in
  let op := ESIL_A ("r" ++ fmt_d r ++ ",r" ++ fmt_d d ++ ",-,0x80,&,!,!,nf,:=,") op in
  let op := ESIL_A ("r" ++ fmt_d r ++ ",r" ++ fmt_d d ++ ",==,") op in
  let op := ESIL_A "$z,zf,:=," op in
  let op := ESIL_A "3,$b,hf,:=," op in
  let op := ESIL_A "8,$b,cf,:=," op in
  let op := ESIL_A "7,$o,vf,:=," op in
  ESIL_A "vf,nf,^,sf,:=" op.

Definition _inst__cpc (op : RzAnalysisOp) : RzAnalysisOp :=
  if len <? 2 then op else
  let r := (b0 &&& 0x0f) ||| ((b1 <<< 3) &&& 0x10) in
  let d := ((b0 >>> 4) &&& 0x0f) ||| ((b1 <<< 4) &&& 0x10) in
  let op := ESIL_A ("cf,r" ++ fmt_d r ++ ",+,DUP,r" ++ fmt_d d ++ ",-,0x80,&,!,!,nf,:=,") op in
  let op := ESIL_A ("r" ++ fmt_d d ++ ",==,") op in
  let op := ESIL_A "$z,zf,:=," op in
  let op := ESIL_A "3,$b,hf,:=," op in
  let op := ESIL_A "8,$b,cf,:=," op in
  let op := ESIL_A "7,$o,vf,:=," op in
  ESIL_A "vf,nf,^,sf,:=" op.

Definition _inst__cpi (op : RzAnalysisOp) : RzAnalysisOp :=
  if len <? 2 then op else
  let d := ((b0 >>> 4) &&& 0xf) + 16 in
  let k := (b0 &&& 0xf) ||| ((b1 &&& 0xf) <<< 4) in
  let op := ESIL_A (fmt_d k ++ ",r" ++ fmt_d d ++ ",-,0x80,&,!,!,nf,:=,") op in
  let op := ESIL_A (fmt_d k ++ ",r" ++ fmt_d d ++ ",==,") op in
  let op := ESIL_A "$z,zf,:=," op in
  let op := ESIL_A "3,$b,hf,:=," op in
  let op := ESIL_A "8,$b,cf,:=," op in
  let op := ESIL_A "7,$o,vf,:=," op in
  ESIL_A "vf,nf,^,sf,:=" op.

Definition _inst__dec (op : RzAnalysisOp) : RzAnalysisOp :=
  if len <? 2 then op else
  let d := ((b0 >>> 4) &&& 0xf) ||| ((b1 &&& 0x1) <<< 4) in
  let op := ESIL_A ("0x1,r" ++ fmt_d d ++ ",-=,") op in
  let op := ESIL_A "7,$o,vf,:=," op in
  let op := ESIL_A ("r" ++ fmt_d d ++ ",0x80,&,!,!,nf,:=,") op in
  let op := ESIL_A "$z,zf,:=," op in
  ESIL_A "vf,nf,^,sf,:=," op.

Definition _inst__des (op : RzAnalysisOp) : RzAnalysisOp :=
  let op := set_type RZ_ANALYSIS_OP_TYPE_CRYPTO op in
  let op := set_cycles 1 op in
  let round := b0 >>> 4 in
  set_esil (fmt_d round ++ ",des") op.

Definition _inst__elpm (op : RzAnalysisOp) : RzAnalysisOp :=
  if len <? 2 then op else
  let d := if (b1 &&& 0xfe) =? 0x90
           then ((b1 &&& 1) <<< 4) ||| ((b0 >>> 4) &&& 0xf)
           else 0 in
  let op := ESIL_A "16,rampz,<<,z,+,_prog,+,[1]," op in
  let op := ESIL_A ("r" ++ fmt_d d ++ ",=,") op in
  if ((b1 &&& 0xfe) =? 0x90) && ((b0 &&& 0xf) =? 0x7)
  then ESIL_A "16,1,z,+,DUP,z,=,>>,1,&,rampz,+=," op
  else op.

Definition _inst__eor (op : RzAnalysisOp) : RzAnalysisOp :=
  if len <? 2 then op else
  let d := ((b0 >>> 4) &&& 0xf) ||| ((b1 &&& 1) <<< 4) in
  let r := (b0 &&& 0xf) ||| ((b1 &&& 2) <<< 3) in
  ESIL_A ("r" ++ fmt_d r ++ ",r" ++ fmt_d d ++ ",^=,$z,zf,:=,0,vf,:=,r" ++ fmt_d d
          ++ ",0x80,&,!,!,nf,:=,nf,sf,:=") op.

Definition _inst__fmul (op : RzAnalysisOp) : RzAnalysisOp :=
  if len <? 1 then op else
  let d := ((b0 >>> 4) &&& 0x7) + 16 in
  let r := (b0 &&& 0x7) + 16 in
  let op := ESIL_A "8," op in
  let op := ESIL_A ("0xffff,1,r" ++ fmt_d r ++ ",r" ++ fmt_d d ++ ",*,<<,&,DUP,r0,=,>>,r1,=,") op in
  let op := ESIL_A "8,r1,<<,r0,|,DUP,0x8000,&,!,!,cf,:=," op in
  ESIL_A "!,zf,:=" op.

Definition _inst__fmuls (op : RzAnalysisOp) : RzAnalysisOp :=
  if len <? 1 then op else
  let d := ((b0 >>> 4) &&& 0x7) + 16 in
  let r := (b0 &&& 0x7) + 16 in
  let op := ESIL_A "8,1," op in
  let op := ESIL_A ("r" ++ fmt_d d ++ ",DUP,0x80,&,?{,0xff00,|,},") op in
  let op := ESIL_A ("r" ++ fmt_d r ++ ",DUP,0x80,&,?{,0xff00,|,},") op in
  let op := ESIL_A "*,<<,DUP,r0,=,>>,r1,=," op in
  let op := ESIL_A "8,r1,<<,r0,|,DUP,0x8000,&,!,!,cf,:=," op in
  ESIL_A "!,zf,:=" op.

Definition _inst__fmulsu (op : RzAnalysisOp) : RzAnalysisOp :=
  if len <? 1 then op else
  let d := ((b0 >>> 4) &&& 0x7) + 16 in
  let r := (b0 &&& 0x7) + 16 in
  let op := ESIL_A "8,1," op in
  let op := ESIL_A ("r" ++ fmt_d d ++ ",DUP,0x80,&,?{,0xff00,|,},") op in
  let op := ESIL_A ("r" ++ fmt_d r ++ ",*,<<,DUP,r0,=,>>,r1,=,") op in
  let op := ESIL_A "8,r1,<<,r0,|,DUP,0x8000,&,!,!,cf,:=," op in
  ESIL_A "!,zf,:=" op.

Definition _inst__inc (op : RzAnalysisOp) : RzAnalysisOp :=
  if len <? 2 then op else
  let d := ((b0 >>> 4) &&& 0xf) ||| ((b1 &&& 0x1) <<< 4) in
  let op := ESIL_A ("1,r" ++ fmt_d d ++ ",+=,") op in
  let op := ESIL_A "7,$o,vf,:=," op in
  let op := ESIL_A ("r" ++ fmt_d d ++ ",0x80,&,!,!,nf,:=,") op in
  let op := ESIL_A "$z,zf,:=," op in
  ESIL_A "vf,nf,^,sf,:=," op.

Definition _inst__jmp (op : RzAnalysisOp) : RzAnalysisOp :=
  if len <? 4 then op else
  let op := set_jump (ut64 ((b2 <<< 1) ||| (b3 <<< 9) ||| ((b1 &&& 0x01) <<< 23)
                            ||| ((b0 &&& 0x01) <<< 17) ||| ((b0 &&& 0xf0) <<< 14))) op in
  let op := set_cycles 3 op in
  ESIL_A (fmt_lld (jump op) ++ ",pc,=,") op.

Definition _inst__lac (op : RzAnalysisOp) : RzAnalysisOp :=
  if len <? 2 then op else
  let d := ((b0 >>> 4) &&& 0xf) ||| ((b1 &&& 0x1) <<< 4) in
  let op := __generic_ld_st op "ram" "z"%char 1 0 0 0 in
  let op := ESIL_A ("r" ++ fmt_d d ++ ",0xff,^,&,") op in
  let op := ESIL_A ("DUP,r" ++ fmt_d d ++ ",=,") op in
  __generic_ld_st op "ram" "z"%char 1 0 0 1.

Definition _inst__las (op : RzAnalysisOp) : RzAnalysisOp :=
  if len <? 2 then op else
  let d := ((b0 >>> 4) &&& 0xf) ||| ((b1 &&& 0x1) <<< 4) in
  let op := __generic_ld_st op "ram" "z"%char 1 0 0 0 in
  let op := ESIL_A ("r" ++ fmt_d d ++ ",|,") op in
  let op := ESIL_A ("DUP,r" ++ fmt_d d ++ ",=,") op in
  __generic_ld_st op "ram" "z"%char 1 0 0 1.

Definition _inst__lat (op : RzAnalysisOp) : RzAnalysisOp :=
  if len <? 2 then op else
  let d := ((b0 >>> 4) &&& 0xf) ||| ((b1 &&& 0x1) <<< 4) in
  let op := __generic_ld_st op "ram" "z"%char 1 0 0 0 in
  let op := ESIL_A ("r" ++ fmt_d d ++ ",^,") op in
  let op := ESIL_A ("DUP,r" ++ fmt_d d ++ ",=,") op in
  __generic_ld_st op "ram" "z"%char 1 0 0 1.

Definition _inst__ldi (op : RzAnalysisOp) : RzAnalysisOp :=
  if len <? 2 then op else
  let k := (b0 &&& 0xf) + ((b1 &&& 0xf) <<< 4) in
  let d := ((b0 >>> 4) &&& 0xf) + 16 in
  let op := set_val k op in
  ESIL_A ("0x" ++ fmt_x k ++ ",r" ++ fmt_d d ++ ",=,") op.

Definition _inst__lds (op : RzAnalysisOp) : RzAnalysisOp :=
  if len <? 4 then op else
  let d := ((b0 >>> 4) &&& 0xf) ||| ((b1 &&& 0x1) <<< 4) in
  let k := (b3 <<< 8) ||| b2 in
  let op := set_ptr k op in
  let op := __generic_ld_st op "ram" no_ireg 1 0 k 0 in
  ESIL_A ("r" ++ fmt_d d ++ ",=,") op.

Definition _inst__sts (op : RzAnalysisOp) : RzAnalysisOp :=
  if len <? 4 then op else
  let r := ((b0 >>> 4) &&& 0xf) ||| ((b1 &&& 0x1) <<< 4) in
  let k := (b3 <<< 8) ||| b2 in
  let op := set_ptr k op in
  let op := ESIL_A ("r" ++ fmt_d r ++ ",") op in
  let op := __generic_ld_st op "ram" no_ireg 1 0 k 1 in
  set_cycles 2 op.

Definition _inst__lpm (op : RzAnalysisOp) : RzAnalysisOp :=
  if len <? 2 then op else
  let ins := ut16 ((ut16 b1 <<< 8) ||| ut16 b0) in
  let op := __generic_ld_st op "prog" "z"%char 1
              (if (ins &&& 0xfe0f) =? 0x9005 then 1 else 0) 0 0 in
  ESIL_A ("r" ++ fmt_d (if ins =? 0x95c8 then 0
                        else ((b0 >>> 4) &&& 0xf) ||| ((b1 &&& 0x1) <<< 4)) ++ ",=,") op.

Definition _inst__lsr (op : RzAnalysisOp) : RzAnalysisOp :=
  if len <? 2 then op else
  let d := ((b0 >>> 4) &&& 0xf) ||| ((b1 &&& 1) <<< 4) in
  let op := ESIL_A ("r" ++ fmt_d d ++ ",0x1,&,cf,:=,") op in
  let op := ESIL_A ("1,r" ++ fmt_d d ++ ",>>=,") op in
  let op := ESIL_A "$z,zf,:=," op in
  let op := ESIL_A "0,nf,:=," op in
  let op := ESIL_A "cf,vf,:=," op in
  ESIL_A "cf,sf,:=," op.

Definition _inst__mov (op : RzAnalysisOp) : RzAnalysisOp :=
  if len <? 2 then op else
  let d := ((b1 <<< 4) &&& 0x10) ||| ((b0 >>> 4) &&& 0x0f) in
  let r := ((b1 <<< 3) &&& 0x10) ||| (b0 &&& 0x0f) in
  ESIL_A ("r" ++ fmt_d r ++ ",r" ++ fmt_d d ++ ",=,") op.

Definition _inst__movw (op : RzAnalysisOp) : RzAnalysisOp :=
  if len <? 1 then op else
  let d := (b0 &&& 0xf0) >>> 3 in
  let r := (b0 &&& 0x0f) <<< 1 in
  ESIL_A ("r" ++ fmt_d r ++ ",r" ++ fmt_d d ++ ",=,r" ++ fmt_d (r + 1) ++ ",r" ++ fmt_d (d + 1) ++ ",=,") op.

Definition _inst__mul (op : RzAnalysisOp) : RzAnalysisOp :=
  if len <? 2 then op else
  let d := ((b1 <<< 4) &&& 0x10) ||| ((b0 >>> 4) &&& 0x0f) in
  let r := ((b1 <<< 3) &&& 0x10) ||| (b0 &&& 0x0f) in
  let op := ESIL_A ("8,r" ++ fmt_d r ++ ",r" ++ fmt_d d ++ ",*,DUP,r0,=,>>,r1,=,") op in
  let op := ESIL_A "8,r1,<<,r0,|,DUP,0x8000,&,!,!,cf,:=," op in
  ESIL_A "!,zf,:=" op.

Definition _inst__muls (op : RzAnalysisOp) : RzAnalysisOp :=
  if len <? 1 then op else
  let d := ((b0 >>> 4) &&& 0x0f) + 16 in
  let r := (b0 &&& 0x0f) + 16 in
  let op := ESIL_A "8," op in
  let op := ESIL_A ("r" ++ fmt_d d ++ ",DUP,0x80,&,?{,0xff00,|,},") op in
  let op := ESIL_A ("r" ++ fmt_d r ++ ",DUP,0x80,&,?{,0xff00,|,},") op in
  let op := ESIL_A "*,DUP,r0,=,>>,r1,=," op in
  let op := ESIL_A "8,r1,<<,r0,|,DUP,0x8000,&,!,!,cf,:=," op in
  ESIL_A "!,zf,:=" op.

Definition _inst__mulsu (op : RzAnalysisOp) : RzAnalysisOp :=
  if len <? 1 then op else
  let d := ((b0 >>> 4) &&& 0x07) + 16 in
  let r := (b0 &&& 0x07) + 16 in
  let op := ESIL_A "8," op in
  let op := ESIL_A ("r" ++ fmt_d d ++ ",DUP,0x80,&,?{,0xff00,|,},") op in
  let op := ESIL_A ("r" ++ fmt_d r ++ ",*,DUP,r0,=,>>,r1,=,") op in
  let op := ESIL_A "8,r1,<<,r0,|,DUP,0x8000,&,!,!,cf,:=," op in
  ESIL_A "!,zf,:=" op.

Definition _inst__neg (op : RzAnalysisOp) : RzAnalysisOp :=
  if len <? 2 then op else
  let d := ((b0 >>> 4) &&& 0xf) ||| ((b1 &&& 1) <<< 4) in
  let op := ESIL_A ("r" ++ fmt_d d ++ ",0x00,-,0xff,&,") op in
  let op := ESIL_A ("DUP,r" ++ fmt_d d ++ ",0xff,^,|,0x08,&,!,!,hf,=,") op in
  let op := ESIL_A "DUP,0x80,-,!,vf,=," op in
  let op := ESIL_A "DUP,0x80,&,!,!,nf,=," op in
  let op := ESIL_A "DUP,!,zf,=," op in
  let op := ESIL_A "DUP,!,!,cf,=," op in
  let op := ESIL_A "vf,nf,^,sf,=," op in
  ESIL_A ("r" ++ fmt_d d ++ ",=,") op.

Definition _inst__nop (op : RzAnalysisOp) : RzAnalysisOp :=
  ESIL_A ",," op.

Definition _inst__or (op : RzAnalysisOp) : RzAnalysisOp :=
  if len <? 2 then op else
  let d := ((b0 >>> 4) &&& 0xf) ||| ((b1 &&& 1) <<< 4) in
  let r := (b0 &&& 0xf) ||| ((b1 &&& 2) <<< 3) in
  let op := ESIL_A ("r" ++ fmt_d r ++ ",r" ++ fmt_d d ++ ",|=,") op in
  let op := ESIL_A "$z,zf,:=," op in
  let op := ESIL_A ("r" ++ fmt_d d ++ ",&,!,!,nf,:=,") op in
  let op := ESIL_A "0,vf,:=," op in
  ESIL_A "nf,sf,:=" op.

Definition _inst__ori (op : RzAnalysisOp) : RzAnalysisOp :=
  if len <? 2 then op else
  let d := ((b0 >>> 4) &&& 0xf) + 16 in
  let k := (b0 &&& 0xf) ||| ((b1 &&& 0xf) <<< 4) in
  let op := set_val k op in
  let op := ESIL_A (fmt_d k ++ ",r" ++ fmt_d d ++ ",|=,") op in
  let op := ESIL_A "$z,zf,:=," op in
  let op := ESIL_A ("r" ++ fmt_d d ++ ",0x80,&,!,!,nf,:=,") op in
  let op := ESIL_A "0,vf,:=," op in
  ESIL_A "nf,sf,:=" op.

Definition _inst__pop (op : RzAnalysisOp) : RzAnalysisOp :=
  if len <? 2 then op else
  let d := ((b1 &&& 0x1) <<< 4) ||| ((b0 >>> 4) &&& 0xf) in
  let op := __generic_pop op 1 in
  ESIL_A ("r" ++ fmt_d d ++ ",=,") op.

Definition _inst__rjmp (op : RzAnalysisOp) : RzAnalysisOp :=
  let jump := ((((b1 &&& 0xf) <<< 9) ||| (b0 <<< 1))
               ||| (if truthy (b1 &&& 0x8) then Z.lnot 0x1fff else 0)) + 2 in
  let op := set_jump (ut64 (addr op + jump)) op in
  ESIL_A (fmt_lld (Avr.jump op) ++ ",pc,=,") op.

Definition _inst__ror (op : RzAnalysisOp) : RzAnalysisOp :=
  let d := ((b0 >>> 4) &&& 0x0f) ||| ((b1 <<< 4) &&& 0x10) in
  let op := ESIL_A "cf,nf,:=," op in
  let op := ESIL_A ("r" ++ fmt_d d ++ ",0x1,&,") op in
  let op := ESIL_A ("1,r" ++ fmt_d d ++ ",>>,7,cf,<<,|,r" ++ fmt_d d ++ ",=,cf,:=,") op in
  let op := ESIL_A "$z,zf,:=," op in
  let op := ESIL_A "nf,cf,^,vf,:=," op in
  ESIL_A "vf,nf,^,sf,:=" op.

Definition _inst__sbc (op : RzAnalysisOp) : RzAnalysisOp :=
  if len <? 2 then op else
  let r := (b0 &&& 0x0f) ||| ((b1 &&& 0x2) <<< 3) in
  let d := ((b0 >>> 4) &&& 0xf) ||| ((b1 &&& 0x1) <<< 4) in
  let op := ESIL_A ("cf,r" ++ fmt_d r ++ ",+,r" ++ fmt_d d ++ ",-=,") op in
  let op := ESIL_A "$z,zf,:=," op in
  let op := ESIL_A "3,$b,hf,:=," op in
  let op := ESIL_A "8,$b,cf,:=," op in
  let op := ESIL_A "7,$o,vf,:=," op in
  let op := ESIL_A ("0x80,r" ++ fmt_d d ++ ",&,!,!,nf,:=,") op in
  ESIL_A "vf,nf,^,sf,:=" op.

Definition _inst__sbci (op : RzAnalysisOp) : RzAnalysisOp :=
  if len <? 2 then op else
  let d := ((b0 >>> 4) &&& 0xf) + 16 in
  let k := ((b1 &&& 0xf) <<< 4) ||| (b0 &&& 0xf) in
  let op := set_val k op in
  let op := ESIL_A ("cf," ++ fmt_d k ++ ",+,r" ++ fmt_d d ++ ",-=,") op in
  let op := ESIL_A "$z,zf,:=," op in
  let op := ESIL_A "3,$b,hf,:=," op in
  let op := ESIL_A "8,$b,cf,:=," op in
  let op := ESIL_A "7,$o,vf,:=," op in
  let op := ESIL_A ("0x80,r" ++ fmt_d d ++ ",&,!,!,nf,:=,") op in
  ESIL_A "vf,nf,^,sf,:=" op.

Definition _inst__sub (op : RzAnalysisOp) : RzAnalysisOp :=
  if len <? 2 then op else
  let d := ((b0 >>> 4) &&& 0xf) ||| ((b1 &&& 1) <<< 4) in
  let r := (b0 &&& 0xf) ||| ((b1 &&& 2) <<< 3) in
  let op := ESIL_A ("r" ++ fmt_d r ++ ",r" ++ fmt_d d ++ ",-=,") op in
  let op := ESIL_A "$z,zf,:=," op in
  let op := ESIL_A "3,$b,hf,:=," op in
  let op := ESIL_A "8,$b,cf,:=," op in
  let op := ESIL_A "7,$o,vf,:=," op in
  let op := ESIL_A ("0x80,r" ++ fmt_d d ++ ",&,!,!,nf,:=,") op in
  ESIL_A "vf,nf,^,sf,:=" op.

Definition _inst__subi (op : RzAnalysisOp) : RzAnalysisOp :=
  if len <? 2 then op else
  let d := ((b0 >>> 4) &&& 0xf) + 16 in
  let k := ((b1 &&& 0xf) <<< 4) ||| (b0 &&& 0xf) in
  let op := set_val k op in
  let op := ESIL_A (fmt_d k ++ ",r" ++ fmt_d d ++ ",-=,") op in
  let op := ESIL_A "$z,zf,:=," op in
  let op := ESIL_A "3,$b,hf,:=," op in
  let op := ESIL_A "8,$b,cf,:=," op in
  let op := ESIL_A "7,$o,vf,:=," op in
  let op := ESIL_A ("0x80,r" ++ fmt_d d ++ ",&,!,!,nf,:=,") op in
  ESIL_A "vf,nf,^,sf,:=" op.

Definition _inst__sbiw (op : RzAnalysisOp) : RzAnalysisOp :=
  if len <? 1 then op else
  let d := ((b0 &&& 0x30) >>> 3) + 24 in
  let k := (b0 &&& 0xf) ||| ((b0 >>> 2) &&& 0x30) in
  let op := set_val k op in
  let op := ESIL_A ("7,r" ++ fmt_d (d + 1) ++ ",>>,") op in
  let op := ESIL_A ("8," ++ fmt_d k ++ ",8,r" ++ fmt_d (d + 1) ++ ",<<,r" ++ fmt_d d
                    ++ ",|,-,DUP,r" ++ fmt_d d ++ ",=,>>,r" ++ fmt_d (d + 1) ++ ",=,") op in
  let op := ESIL_A "$z,zf,:=," op in
  let op := ESIL_A ("DUP,!,7,r" ++ fmt_d (d + 1) ++ ",>>,&,cf,:=,") op in
  let op := ESIL_A ("r" ++ fmt_d (d + 1) ++ ",0x80,&,!,!,nf,:=,") op in
  let op := ESIL_A ("7,r" ++ fmt_d (d + 1) ++ ",>>,!,&,vf,:=,") op in
  ESIL_A "vf,nf,^,sf,:=" op.

Definition _inst__sleep (op : RzAnalysisOp) : RzAnalysisOp :=
  ESIL_A "BREAK" op.

Definition _inst__st (op : RzAnalysisOp) : RzAnalysisOp :=
  if len <? 2 then op else
  let op := ESIL_A ("r" ++ fmt_d (((b1 &&& 1) <<< 4) ||| ((b0 >>> 4) &&& 0xf)) ++ ",") op in
  __generic_ld_st op "ram" "x"%char 0
    (if (b0 &&& 0xf) =? 0xe then -1 else if (b0 &&& 0xf) =? 0xd then 1 else 0)
    0 1.

Definition _inst__std (op : RzAnalysisOp) : RzAnalysisOp :=
  if len <? 2 then op else
  let op := ESIL_A ("r" ++ fmt_d (((b1 &&& 1) <<< 4) ||| ((b0 >>> 4) &&& 0xf)) ++ ",") op in
  __generic_ld_st op "ram"
    (if truthy (b0 &&& 0x8) then "y"%char else "z"%char)
    0
    (if negb (truthy (b1 &&& 0x10)) then 0 else if truthy (b0 &&& 0x1) then 1 else -1)
    (if negb (truthy (b1 &&& 0x10))
     then (b1 &&& 0x20) ||| ((b1 &&& 0xc) <<< 1) ||| (b0 &&& 0x7)
     else 0)
    1.

Definition _inst__swap (op : RzAnalysisOp) : RzAnalysisOp :=
  if len <? 2 then op else
  let d := ((b1 &&& 0x1) <<< 4) ||| ((b0 >>> 4) &&& 0xf) in
  let op := ESIL_A ("4,r" ++ fmt_d d ++ ",>>,0x0f,&,") op in
  let op := ESIL_A ("4,r" ++ fmt_d d ++ ",<<,0xf0,&,") op in
  let op := ESIL_A "|," op in
  ESIL_A ("r" ++ fmt_d d ++ ",=,") op.

End BufferHandlers.

(* ----------------------------------------------------------------- *)
(** *** The descriptor table and the mutable globals *)

(** One tag per [INST_HANDLER] function. *)
Inductive inst_handler_t : Type :=
| H_adc | H_add | H_adiw | H_and | H_andi | H_asr | H_bclr | H_bld | H_brbx
| H_break | H_bset | H_bst | H_call | H_cbi | H_com | H_cp | H_cpc | H_cpi
| H_cpse | H_dec | H_des | H_eijmp | H_eicall | H_elpm | H_eor | H_fmul
| H_fmuls | H_fmulsu | H_ijmp | H_icall | H_in | H_inc | H_jmp | H_lac | H_las
| H_lat | H_ld | H_ldd | H_ldi | H_lds | H_sts | H_lpm | H_lsr | H_mov | H_movw
| H_mul | H_muls | H_mulsu | H_neg | H_nop | H_or | H_ori | H_out | H_pop
| H_push | H_rcall | H_ret | H_reti | H_rjmp | H_ror | H_sbc | H_sbci | H_sub
| H_subi | H_sbi | H_sbix | H_sbiw | H_sbrx | H_sleep | H_spm | H_st | H_std
| H_swap.

Record OPCODE_DESC : Type := {
  d_name : string;
  d_mask : Z;
  d_selector : Z;
  d_handler : option inst_handler_t;
  d_cycles : Z;
  d_size : Z;
  d_type : OpType
}.

Definition INST_DECL (n : string) (h : inst_handler_t) (m sl c sz : Z) (t : OpType) : OPCODE_DESC :=
  {| d_name := n; d_mask := m; d_selector := sl; d_handler := Some h;
     d_cycles := c; d_size := sz; d_type := t |}.

Definition INST_LAST : OPCODE_DESC :=
  {| d_name := "unknown"; d_mask := 0; d_selector := 0; d_handler := None;
     d_cycles := 2; d_size := 1; d_type := RZ_ANALYSIS_OP_TYPE_UNK |}.

Definition opcodes : list OPCODE_DESC := [
  INST_DECL "break" H_break 0xffff 0x9698 1 2 RZ_ANALYSIS_OP_TYPE_TRAP;
  INST_DECL "eicall" H_eicall 0xffff 0x9519 0 2 RZ_ANALYSIS_OP_TYPE_UCALL;
  INST_DECL "eijmp" H_eijmp 0xffff 0x9419 0 2 RZ_ANALYSIS_OP_TYPE_UJMP;
  INST_DECL "icall" H_icall 0xffff 0x9509 0 2 RZ_ANALYSIS_OP_TYPE_UCALL;
  INST_DECL "ijmp" H_ijmp 0xffff 0x9409 0 2 RZ_ANALYSIS_OP_TYPE_UJMP;
  INST_DECL "lpm" H_lpm 0xffff 0x95c8 3 2 RZ_ANALYSIS_OP_TYPE_LOAD;
  INST_DECL "nop" H_nop 0xffff 0x0000 1 2 RZ_ANALYSIS_OP_TYPE_NOP;
  INST_DECL "ret" H_ret 0xffff 0x9508 4 2 RZ_ANALYSIS_OP_TYPE_RET;
  INST_DECL "reti" H_reti 0xffff 0x9518 4 2 RZ_ANALYSIS_OP_TYPE_RET;
  INST_DECL "sleep" H_sleep 0xffff 0x9588 1 2 RZ_ANALYSIS_OP_TYPE_NOP;
  INST_DECL "spm" H_spm 0xffff 0x95e8 1 2 RZ_ANALYSIS_OP_TYPE_TRAP;
  INST_DECL "bclr" H_bclr 0xff8f 0x9488 1 2 RZ_ANALYSIS_OP_TYPE_MOV;
  INST_DECL "bset" H_bset 0xff8f 0x9408 1 2 RZ_ANALYSIS_OP_TYPE_MOV;
  INST_DECL "fmul" H_fmul 0xff88 0x0308 2 2 RZ_ANALYSIS_OP_TYPE_MUL;
  INST_DECL "fmuls" H_fmuls 0xff88 0x0380 2 2 RZ_ANALYSIS_OP_TYPE_MUL;
  INST_DECL "fmulsu" H_fmulsu 0xff88 0x0388 2 2 RZ_ANALYSIS_OP_TYPE_MUL;
  INST_DECL "mulsu" H_mulsu 0xff88 0x0300 2 2 RZ_ANALYSIS_OP_TYPE_AND;
  INST_DECL "des" H_des 0xff0f 0x940b 0 2 RZ_ANALYSIS_OP_TYPE_CRYPTO;
  INST_DECL "adiw" H_adiw 0xff00 0x9600 2 2 RZ_ANALYSIS_OP_TYPE_ADD;
  INST_DECL "sbiw" H_sbiw 0xff00 0x9700 2 2 RZ_ANALYSIS_OP_TYPE_SUB;
  INST_DECL "cbi" H_cbi 0xff00 0x9800 1 2 RZ_ANALYSIS_OP_TYPE_IO;
  INST_DECL "sbi" H_sbi 0xff00 0x9a00 1 2 RZ_ANALYSIS_OP_TYPE_IO;
  INST_DECL "movw" H_movw 0xff00 0x0100 1 2 RZ_ANALYSIS_OP_TYPE_MOV;
  INST_DECL "muls" H_muls 0xff00 0x0200 2 2 RZ_ANALYSIS_OP_TYPE_AND;
  INST_DECL "asr" H_asr 0xfe0f 0x9405 1 2 RZ_ANALYSIS_OP_TYPE_SAR;
  INST_DECL "com" H_com 0xfe0f 0x9400 1 2 RZ_ANALYSIS_OP_TYPE_NOT;
  INST_DECL "dec" H_dec 0xfe0f 0x940a 1 2 RZ_ANALYSIS_OP_TYPE_SUB;
  INST_DECL "elpm" H_elpm 0xfe0f 0x9006 0 2 RZ_ANALYSIS_OP_TYPE_LOAD;
  INST_DECL "elpm" H_elpm 0xfe0f 0x9007 0 2 RZ_ANALYSIS_OP_TYPE_LOAD;
  INST_DECL "inc" H_inc 0xfe0f 0x9403 1 2 RZ_ANALYSIS_OP_TYPE_ADD;
  INST_DECL "lac" H_lac 0xfe0f 0x9206 2 2 RZ_ANALYSIS_OP_TYPE_LOAD;
  INST_DECL "las" H_las 0xfe0f 0x9205 2 2 RZ_ANALYSIS_OP_TYPE_LOAD;
  INST_DECL "lat" H_lat 0xfe0f 0x9207 2 2 RZ_ANALYSIS_OP_TYPE_LOAD;
  INST_DECL "ld" H_ld 0xfe0f 0x900c 0 2 RZ_ANALYSIS_OP_TYPE_LOAD;
  INST_DECL "ld" H_ld 0xfe0f 0x900d 0 2 RZ_ANALYSIS_OP_TYPE_LOAD;
  INST_DECL "ld" H_ld 0xfe0f 0x900e 0 2 RZ_ANALYSIS_OP_TYPE_LOAD;
  INST_DECL "lds" H_lds 0xfe0f 0x9000 0 4 RZ_ANALYSIS_OP_TYPE_LOAD;
  INST_DECL "sts" H_sts 0xfe0f 0x9200 2 4 RZ_ANALYSIS_OP_TYPE_STORE;
  INST_DECL "lpm" H_lpm 0xfe0f 0x9004 3 2 RZ_ANALYSIS_OP_TYPE_LOAD;
  INST_DECL "lpm" H_lpm 0xfe0f 0x9005 3 2 RZ_ANALYSIS_OP_TYPE_LOAD;
  INST_DECL "lsr" H_lsr 0xfe0f 0x9406 1 2 RZ_ANALYSIS_OP_TYPE_SHR;
  INST_DECL "neg" H_neg 0xfe0f 0x9401 2 2 RZ_ANALYSIS_OP_TYPE_SUB;
  INST_DECL "pop" H_pop 0xfe0f 0x900f 2 2 RZ_ANALYSIS_OP_TYPE_POP;
  INST_DECL "push" H_push 0xfe0f 0x920f 0 2 RZ_ANALYSIS_OP_TYPE_PUSH;
  INST_DECL "ror" H_ror 0xfe0f 0x9407 1 2 RZ_ANALYSIS_OP_TYPE_SAR;
  INST_DECL "st" H_st 0xfe0f 0x920c 2 2 RZ_ANALYSIS_OP_TYPE_STORE;
  INST_DECL "st" H_st 0xfe0f 0x920d 0 2 RZ_ANALYSIS_OP_TYPE_STORE;
  INST_DECL "st" H_st 0xfe0f 0x920e 0 2 RZ_ANALYSIS_OP_TYPE_STORE;
  INST_DECL "swap" H_swap 0xfe0f 0x9402 1 2 RZ_ANALYSIS_OP_TYPE_SAR;
  INST_DECL "call" H_call 0xfe0e 0x940e 0 4 RZ_ANALYSIS_OP_TYPE_CALL;
  INST_DECL "jmp" H_jmp 0xfe0e 0x940c 2 4 RZ_ANALYSIS_OP_TYPE_JMP;
  INST_DECL "bld" H_bld 0xfe08 0xf800 1 2 RZ_ANALYSIS_OP_TYPE_MOV;
  INST_DECL "bst" H_bst 0xfe08 0xfa00 1 2 RZ_ANALYSIS_OP_TYPE_MOV;
  INST_DECL "sbix" H_sbix 0xff00 0x9900 2 2 RZ_ANALYSIS_OP_TYPE_CJMP;
  INST_DECL "sbix" H_sbix 0xff00 0x9b00 2 2 RZ_ANALYSIS_OP_TYPE_CJMP;
  INST_DECL "sbrx" H_sbrx 0xfe08 0xfc00 2 2 RZ_ANALYSIS_OP_TYPE_CJMP;
  INST_DECL "sbrx" H_sbrx 0xfe08 0xfe00 2 2 RZ_ANALYSIS_OP_TYPE_CJMP;
  INST_DECL "ldd" H_ldd 0xfe07 0x9001 0 2 RZ_ANALYSIS_OP_TYPE_LOAD;
  INST_DECL "ldd" H_ldd 0xfe07 0x9002 0 2 RZ_ANALYSIS_OP_TYPE_LOAD;
  INST_DECL "std" H_std 0xfe07 0x9201 0 2 RZ_ANALYSIS_OP_TYPE_STORE;
  INST_DECL "std" H_std 0xfe07 0x9202 0 2 RZ_ANALYSIS_OP_TYPE_STORE;
  INST_DECL "adc" H_adc 0xfc00 0x1c00 1 2 RZ_ANALYSIS_OP_TYPE_ADD;
  INST_DECL "add" H_add 0xfc00 0x0c00 1 2 RZ_ANALYSIS_OP_TYPE_ADD;
  INST_DECL "and" H_and 0xfc00 0x2000 1 2 RZ_ANALYSIS_OP_TYPE_AND;
  INST_DECL "brbx" H_brbx 0xfc00 0xf000 0 2 RZ_ANALYSIS_OP_TYPE_CJMP;
  INST_DECL "brbx" H_brbx 0xfc00 0xf400 0 2 RZ_ANALYSIS_OP_TYPE_CJMP;
  INST_DECL "cp" H_cp 0xfc00 0x1400 1 2 RZ_ANALYSIS_OP_TYPE_CMP;
  INST_DECL "cpc" H_cpc 0xfc00 0x0400 1 2 RZ_ANALYSIS_OP_TYPE_CMP;
  INST_DECL "cpse" H_cpse 0xfc00 0x1000 0 2 RZ_ANALYSIS_OP_TYPE_CJMP;
  INST_DECL "eor" H_eor 0xfc00 0x2400 1 2 RZ_ANALYSIS_OP_TYPE_XOR;
  INST_DECL "mov" H_mov 0xfc00 0x2c00 1 2 RZ_ANALYSIS_OP_TYPE_MOV;
  INST_DECL "mul" H_mul 0xfc00 0x9c00 2 2 RZ_ANALYSIS_OP_TYPE_AND;
  INST_DECL "or" H_or 0xfc00 0x2800 1 2 RZ_ANALYSIS_OP_TYPE_OR;
  INST_DECL "sbc" H_sbc 0xfc00 0x0800 1 2 RZ_ANALYSIS_OP_TYPE_SUB;
  INST_DECL "sub" H_sub 0xfc00 0x1800 1 2 RZ_ANALYSIS_OP_TYPE_SUB;
  INST_DECL "in" H_in 0xf800 0xb000 1 2 RZ_ANALYSIS_OP_TYPE_IO;
  INST_DECL "out" H_out 0xf800 0xb800 1 2 RZ_ANALYSIS_OP_TYPE_IO;
  INST_DECL "andi" H_andi 0xf000 0x7000 1 2 RZ_ANALYSIS_OP_TYPE_AND;
  INST_DECL "cpi" H_cpi 0xf000 0x3000 1 2 RZ_ANALYSIS_OP_TYPE_CMP;
  INST_DECL "ldi" H_ldi 0xf000 0xe000 1 2 RZ_ANALYSIS_OP_TYPE_LOAD;
  INST_DECL "ori" H_ori 0xf000 0x6000 1 2 RZ_ANALYSIS_OP_TYPE_OR;
  INST_DECL "rcall" H_rcall 0xf000 0xd000 0 2 RZ_ANALYSIS_OP_TYPE_CALL;
  INST_DECL "rjmp" H_rjmp 0xf000 0xc000 2 2 RZ_ANALYSIS_OP_TYPE_JMP;
  INST_DECL "sbci" H_sbci 0xf000 0x4000 1 2 RZ_ANALYSIS_OP_TYPE_SUB;
  INST_DECL "subi" H_subi 0xf000 0x5000 1 2 RZ_ANALYSIS_OP_TYPE_SUB;
  INST_DECL "ldd" H_ldd 0xd200 0x8000 0 2 RZ_ANALYSIS_OP_TYPE_LOAD;
  INST_DECL "std" H_std 0xd200 0x8200 0 2 RZ_ANALYSIS_OP_TYPE_STORE;
  INST_LAST ].

(** The process-wide mutable state: the CPU registry and the descriptor
    array (whose [cycles] fields the engine overwrites). *)
Record Globals : Type := {
  registry : Registry;
  opcodes_g : list OPCODE_DESC
}.

Definition set_d_cycles (c : Z) (d : OPCODE_DESC) : OPCODE_DESC :=
  {| d_name := d_name d; d_mask := d_mask d; d_selector := d_selector d;
     d_handler := d_handler d; d_cycles := c; d_size := d_size d; d_type := d_type d |}.

Definition globals_init : Globals :=
  {| registry := {| models := cpu_models; cached := None; errlog := [] |};
     opcodes_g := opcodes |}.

(** What a handler leaves behind: the op, the [*fail] flag, the globals, and
    - not program data - [h_nested], the length of the longest chain of
      nested [avr_op_analyze] calls the handler started. *)
Record Handled : Type := {
  h_op : RzAnalysisOp;
  h_fail : Z;
  h_globals : Globals;
  h_nested : nat
}.

(** What [avr_op_analyze] leaves behind: the returned descriptor pointer
    (an index into [opcodes], [None] for NULL), the op, the globals and the
    nesting depth reached below this call. *)
Record Analyzed : Type := {
  r_desc : option nat;
  r_op : RzAnalysisOp;
  r_globals : Globals;
  r_nested : nat
}.

Definition handled (g : Globals) (op : RzAnalysisOp) : option Handled :=
  Some {| h_op := op; h_fail := 0; h_globals := g; h_nested := 0 |}.

(* ----------------------------------------------------------------- *)
(** *** Handlers that read the CPU model or the interpreter *)

Section CpuHandlers.
Variable analysis : RzAnalysis.
Variable ms : list CPU_MODEL.
Variable cpui : nat.
Variable buf : list Z.
Variable len : Z.
Notation "'b0'" := (at_ buf 0).
Notation "'b1'" := (at_ buf 1).
Notation "'b2'" := (at_ buf 2).
Notation "'b3'" := (at_ buf 3).
(** [cpu->...] *)
Notation "'cpu_'" := (model_at ms cpui).

Definition _inst__call (op : RzAnalysisOp) : RzAnalysisOp :=
  if len <? 4 then op else
  let op := set_jump (ut64 ((b2 <<< 1) ||| (b3 <<< 9) ||| ((b1 &&& 0x01) <<< 23)
                            ||| ((b0 &&& 0x01) <<< 17) ||| ((b0 &&& 0xf0) <<< 14))) op in
  let op := set_fail (ut64 (addr op + size op)) op in
  let op := set_cycles (if pc cpu_ <=? 16 then 3 else 4) op in
  let op := if STR_BEGINS (model cpu_) "ATxmega" =? 0 then set_cycles (cycles op - 1) op else op in
  let op := ESIL_A "pc," op in
  let op := __generic_push op (CPU_PC_SIZE cpu_) in
  ESIL_A (fmt_lld (jump op) ++ ",pc,=,") op.

Definition _inst__cbi (op : RzAnalysisOp) : option RzAnalysisOp :=
  if len <? 1 then Some op else
  let a := (b0 >>> 3) &&& 0x1f in
  let b := b0 &&& 0x07 in
  let op := set_family RZ_ANALYSIS_OP_FAMILY_IO op in
  let op := set_type2 1 op in
  let op := set_val a op in
  match __generic_io_dest a 0 ms cpui with
  | None => None
  | Some io_port =>
      let op := ESIL_A ("0xff," ++ fmt_d b ++ ",1,<<,^," ++ io_port ++ ",&,") op in
      match __generic_io_dest a 1 ms cpui with
      | None => None
      | Some io_port => Some (ESIL_A (io_port ++ ",") op)
      end
  end.

Definition _inst__eijmp (op : RzAnalysisOp) : RzAnalysisOp :=
  let z := rz_analysis_esil_reg_read (a_esil analysis) "z" in
  let eind := rz_analysis_esil_reg_read (a_esil analysis) "eind" in
  let op := set_jump (ut64 (ut64 (ut64 (eind <<< 16) + z) <<< 1)) op in
  let op := ESIL_A "1,z,16,eind,<<,+,<<,pc,=," op in
  set_cycles 2 op.

Definition _inst__eicall (op : RzAnalysisOp) : RzAnalysisOp :=
  let op := ESIL_A "pc," op in
  let op := __generic_push op (CPU_PC_SIZE cpu_) in
  let op := _inst__eijmp op in
  set_cycles (if STR_BEGINS (model cpu_) "ATxmega" =? 0 then 3 else 4) op.

Definition _inst__ijmp (op : RzAnalysisOp) : RzAnalysisOp :=
  let z := rz_analysis_esil_reg_read (a_esil analysis) "z" in
  let op := set_jump (ut64 (z <<< 1)) op in
  let op := set_cycles 2 op in
  ESIL_A "1,z,<<,pc,=," op.

Definition _inst__icall (op : RzAnalysisOp) : RzAnalysisOp :=
  let op := ESIL_A "pc," op in
  let op := __generic_push op (CPU_PC_SIZE cpu_) in
  let op := _inst__ijmp op in
  if STR_BEGINS (model cpu_) "ATxmega" =? 0 then set_cycles (cycles op - 1) op else op.

Definition _inst__in (op : RzAnalysisOp) : option RzAnalysisOp :=
  if len <? 2 then Some op else
  let r := ((b0 >>> 4) &&& 0x0f) ||| ((b1 &&& 0x01) <<< 4) in
  let a := (b0 &&& 0x0f) ||| ((b1 &&& 0x6) <<< 3) in
  match __generic_io_dest a 0 ms cpui with
  | None => None
  | Some io_src =>
      let op := set_type2 0 op in
      let op := set_val a op in
      let op := set_mmio_address a op in
      let op := set_family RZ_ANALYSIS_OP_FAMILY_IO op in
      Some (ESIL_A (io_src ++ ",r" ++ fmt_d r ++ ",=,") op)
  end.

Definition _inst__ld (op : RzAnalysisOp) : RzAnalysisOp :=
  if len <? 2 then op else
  let op := __generic_ld_st op "ram" "x"%char 0
              (if (b0 &&& 0xf) =? 0xe then -1 else if (b0 &&& 0xf) =? 0xd then 1 else 0)
              0 0 in
  let op := ESIL_A ("r" ++ fmt_d (((b1 &&& 1) <<< 4) ||| ((b0 >>> 4) &&& 0xf)) ++ ",=,") op in
  let op := set_cycles (if (b0 &&& 0x3) =? 0 then 2 else if (b0 &&& 0x3) =? 1 then 2 else 3) op in
  if (STR_BEGINS (model cpu_) "ATxmega" =? 0) && (cycles op >? 1)
  then set_cycles (cycles op - 1) op else op.

Definition _inst__ldd (op : RzAnalysisOp) : RzAnalysisOp :=
  if len <? 2 then op else
  let offset := (b1 &&& 0x20) ||| ((b1 &&& 0xc) <<< 1) ||| (b0 &&& 0x7) in
  let op := __generic_ld_st op "ram"
              (if truthy (b0 &&& 0x8) then "y"%char else "z"%char)
              0
              (if negb (truthy (b1 &&& 0x10)) then 0 else if truthy (b0 &&& 0x1) then 1 else -1)
              (if negb (truthy (b1 &&& 0x10)) then offset else 0)
              0 in
  let op := ESIL_A ("r" ++ fmt_d (((b1 &&& 1) <<< 4) ||| ((b0 >>> 4) &&& 0xf)) ++ ",=,") op in
  let op := set_cycles
              (if (b1 &&& 0x10) =? 0 then (if negb (truthy offset) then 1 else 3)
               else if (b0 &&& 0x3) =? 0 then 1
               else if (b0 &&& 0x3) =? 1 then 2
               else 3) op in
  if (STR_BEGINS (model cpu_) "ATxmega" =? 0) && (cycles op >? 1)
  then set_cycles (cycles op - 1) op else op.

Definition _inst__out (op : RzAnalysisOp) : option RzAnalysisOp :=
  if len <? 2 then Some op else
  let r := ((b0 >>> 4) &&& 0x0f) ||| ((b1 &&& 0x01) <<< 4) in
  let a := (b0 &&& 0x0f) ||| ((b1 &&& 0x6) <<< 3) in
  match __generic_io_dest a 1 ms cpui with
  | None => None
  | Some io_dst =>
      let op := set_type2 1 op in
      let op := set_val a op in
      let op := set_mmio_address a op in
      let op := set_family RZ_ANALYSIS_OP_FAMILY_IO op in
      Some (ESIL_A ("r" ++ fmt_d r ++ "," ++ io_dst ++ ",") op)
  end.

Definition _inst__push (op : RzAnalysisOp) : RzAnalysisOp :=
  if len <? 2 then op else
  let r := ((b1 &&& 0x1) <<< 4) ||| ((b0 >>> 4) &&& 0xf) in
  let op := ESIL_A ("r" ++ fmt_d r ++ ",") op in
  let op := __generic_push op 1 in
  set_cycles (if STR_BEGINS (model cpu_) "ATxmega" =? 0 then 1 else 2) op.

Definition _inst__rcall (op : RzAnalysisOp) : RzAnalysisOp :=
  if len <? 2 then op else
  let op := set_jump (ut64 (addr op
              + ((((((b1 &&& 0xf) <<< 8) ||| b0) <<< 1)
                  ||| (if truthy (b1 &&& 0x8) then Z.lnot 0x1fff else 0)) + 2))) op in
  let op := set_fail (ut64 (addr op + size op)) op in
  let op := ESIL_A "pc," op in
  let op := __generic_push op (CPU_PC_SIZE cpu_) in
  let op := ESIL_A (fmt_lld (jump op) ++ ",pc,=,") op in
  if rz_str_ncasecmp (model cpu_) "ATtiny" 6 =? 0 then set_cycles 4 op
  else
    let op := set_cycles (if pc cpu_ <=? 16 then 3 else 4) op in
    if STR_BEGINS (model cpu_) "ATxmega" =? 0 then set_cycles (cycles op - 1) op else op.

Definition _inst__ret (op : RzAnalysisOp) : RzAnalysisOp :=
  let op := set_eob true op in
  let op := __generic_pop op (CPU_PC_SIZE cpu_) in
  let op := ESIL_A "pc,=," op in
  if CPU_PC_SIZE cpu_ >? 2 then set_cycles (cycles op + 1) op else op.

Definition _inst__reti (op : RzAnalysisOp) : RzAnalysisOp :=
  let op := set_family RZ_ANALYSIS_OP_FAMILY_PRIV op in
  let op := _inst__ret op in
  ESIL_A "1,if,=," op.

Definition _inst__sbi (op : RzAnalysisOp) : option RzAnalysisOp :=
  if len <? 1 then Some op else
  let a := (b0 >>> 3) &&& 0x1f in
  let b := b0 &&& 0x07 in
  let op := set_type2 1 op in
  let op := set_val a op in
  let op := set_family RZ_ANALYSIS_OP_FAMILY_IO op in
  match __generic_io_dest a 0 ms cpui with
  | None => None
  | Some io_port =>
      let op := ESIL_A ("0xff," ++ fmt_d b ++ ",1,<<,|," ++ io_port ++ ",&,") op in
      match __generic_io_dest a 1 ms cpui with
      | None => None
      | Some io_port => Some (ESIL_A (io_port ++ ",") op)
      end
  end.

(** ["%02x"] *)
Definition fmt_02x (z : Z) : string :=
  let s := fmt_x z in if Nat.ltb (String.length s) 2 then "0" ++ s else s.

(** [spm] also writes to stderr, hence the registry in its result. *)
Definition _inst__spm (g : Globals) (op : RzAnalysisOp) : Globals * RzAnalysisOp :=
  let spmcsr := rz_analysis_esil_reg_read (a_esil analysis) "spmcsr" in
  let op := ESIL_A "0x7c,spmcsr,&=," op in
  let sel := spmcsr &&& 0x7f in
  let '(g, op) :=
    if sel =? 0x03 then
      let op := ESIL_A "16,rampz,<<,z,+," op in
      (g, ESIL_A "SPM_PAGE_ERASE," op)
    else if sel =? 0x01 then
      let op := ESIL_A "r1,r0," op in
      let op := ESIL_A "z," op in
      (g, ESIL_A "SPM_PAGE_FILL," op)
    else if sel =? 0x05 then
      let op := ESIL_A "16,rampz,<<,z,+," op in
      (g, ESIL_A "SPM_PAGE_WRITE," op)
    else
      ({| registry := eprintf ("SPM: I dont know what to do with SPMCSR "
                               ++ fmt_02x (ut32 spmcsr) ++ "." ++ nl) (registry g);
          opcodes_g := opcodes_g g |}, op) in
  (g, set_cycles 1 op).

(** The three compare-and-skip handlers call [avr_op_analyze] on the
    following instruction; [analyze g next_op addr buf len] stands for that
    call (same [analysis] and [cpu]). *)
Variable analyze : Globals -> RzAnalysisOp -> Z -> list Z -> Z -> option Analyzed.

Definition _inst__cpse (g : Globals) (op : RzAnalysisOp) : option Handled :=
  if len <? 2 then handled g op else
  let r := (b0 &&& 0xf) ||| ((b1 &&& 0x2) <<< 3) in
  let d := ((b0 >>> 4) &&& 0xf) ||| ((b1 &&& 0x1) <<< 4) in
  match analyze g op_zero (ut64 (addr op + size op)) (advance buf (size op)) (len - size op) with
  | None => None
  | Some nx =>
      let next_op := r_op nx in
      let op := set_jump (ut64 (addr op + size next_op + 2)) op in
      let op := set_fail (ut64 (addr op + 2)) op in
      let op := set_cycles 1 op in
      let op := ESIL_A ("r" ++ fmt_d r ++ ",r" ++ fmt_d d ++ ",^,!,") op in
      let op := ESIL_A ("?{," ++ fmt_lld (jump op) ++ ",pc,=,},") op in
      Some {| h_op := op; h_fail := 0; h_globals := r_globals nx; h_nested := S (r_nested nx) |}
  end.

Definition _inst__sbix (g : Globals) (op : RzAnalysisOp) : option Handled :=
  if len <? 2 then handled g op else
  let a := (b0 >>> 3) &&& 0x1f in
  let b := b0 &&& 0x07 in
  let op := set_type2 0 op in
  let op := set_val a op in
  let op := set_family RZ_ANALYSIS_OP_FAMILY_IO op in
  match analyze g op_zero (ut64 (addr op + size op)) (advance buf (size op)) (len - size op) with
  | None => None
  | Some nx =>
      let next_op := r_op nx in
      let op := set_jump (ut64 (addr op + size next_op + 2)) op in
      let op := set_fail (ut64 (addr op + size op)) op in
      let op := set_cycles 1 op in
      match __generic_io_dest a 0 ms cpui with
      | None => None
      | Some io_port =>
          let op := ESIL_A (fmt_d b ++ ",1,<<," ++ io_port ++ ",&,") op in
          let op := ESIL_A (if (b1 &&& 0xe) =? 0xc then "!," else "!,!,") op in
          let op := ESIL_A ("?{," ++ fmt_lld (jump op) ++ ",pc,=,},") op in
          Some {| h_op := op; h_fail := 0; h_globals := r_globals nx; h_nested := S (r_nested nx) |}
      end
  end.

Definition _inst__sbrx (g : Globals) (op : RzAnalysisOp) : option Handled :=
  if len <? 2 then handled g op else
  let b := b0 &&& 0x7 in
  let r := ((b0 >>> 4) &&& 0xf) ||| ((b1 &&& 0x01) <<< 4) in
  match analyze g op_zero (ut64 (addr op + size op)) (advance buf (size op)) (len - size op) with
  | None => None
  | Some nx =>
      let next_op := r_op nx in
      let op := set_jump (ut64 (addr op + size next_op + 2)) op in
      let op := set_fail (ut64 (addr op + 2)) op in
      let op := set_cycles 1 op in
      let op := ESIL_A (fmt_d b ++ ",1,<<,r" ++ fmt_d r ++ ",&,") op in
      let op := ESIL_A (if (b1 &&& 0xe) =? 0xc then "!," else "!,!,") op in
      let op := ESIL_A ("?{," ++ fmt_lld (jump op) ++ ",pc,=,},") op in
      Some {| h_op := op; h_fail := 0; h_globals := r_globals nx; h_nested := S (r_nested nx) |}
  end.

(** Dispatch through the handler pointer of a descriptor. *)
Definition call_handler (h : inst_handler_t) (g : Globals) (op : RzAnalysisOp)
  : option Handled :=
  let pure (o : RzAnalysisOp) := handled g o in
  let opt (o : option RzAnalysisOp) :=
    match o with Some o => handled g o | None => None end in
  match h with
  | H_adc => pure (_inst__adc buf len op)
  | H_add => pure (_inst__add buf len op)
  | H_adiw => pure (_inst__adiw buf len op)
  | H_and => pure (_inst__and buf len op)
  | H_andi => pure (_inst__andi buf len op)
  | H_asr => pure (_inst__asr buf len op)
  | H_bclr => pure (_inst__bclr buf len op)
  | H_bld => pure (_inst__bld buf len op)
  | H_brbx => pure (_inst__brbx buf len op)
  | H_break => pure (_inst__break op)
  | H_bset => pure (_inst__bset buf len op)
  | H_bst => pure (_inst__bst buf len op)
  | H_call => pure (_inst__call op)
  | H_cbi => opt (_inst__cbi op)
  | H_com => pure (_inst__com buf len op)
  | H_cp => pure (_inst__cp buf len op)
  | H_cpc => pure (_inst__cpc buf len op)
  | H_cpi => pure (_inst__cpi buf len op)
  | H_cpse => _inst__cpse g op
  | H_dec => pure (_inst__dec buf len op)
  | H_des => pure (_inst__des buf op)
  | H_eijmp => pure (_inst__eijmp op)
  | H_eicall => pure (_inst__eicall op)
  | H_elpm => pure (_inst__elpm buf len op)
  | H_eor => pure (_inst__eor buf len op)
  | H_fmul => pure (_inst__fmul buf len op)
  | H_fmuls => pure (_inst__fmuls buf len op)
  | H_fmulsu => pure (_inst__fmulsu buf len op)
  | H_ijmp => pure (_inst__ijmp op)
  | H_icall => pure (_inst__icall op)
  | H_in => opt (_inst__in op)
  | H_inc => pure (_inst__inc buf len op)
  | H_jmp => pure (_inst__jmp buf len op)
  | H_lac => pure (_inst__lac buf len op)
  | H_las => pure (_inst__las buf len op)
  | H_lat => pure (_inst__lat buf len op)
  | H_ld => pure (_inst__ld op)
  | H_ldd => pure (_inst__ldd op)
  | H_ldi => pure (_inst__ldi buf len op)
  | H_lds => pure (_inst__lds buf len op)
  | H_sts => pure (_inst__sts buf len op)
  | H_lpm => pure (_inst__lpm buf len op)
  | H_lsr => pure (_inst__lsr buf len op)
  | H_mov => pure (_inst__mov buf len op)
  | H_movw => pure (_inst__movw buf len op)
  | H_mul => pure (_inst__mul buf len op)
  | H_muls => pure (_inst__muls buf len op)
  | H_mulsu => pure (_inst__mulsu buf len op)
  | H_neg => pure (_inst__neg buf len op)
  | H_nop => pure (_inst__nop op)
  | H_or => pure (_inst__or buf len op)
  | H_ori => pure (_inst__ori buf len op)
  | H_out => opt (_inst__out op)
  | H_pop => pure (_inst__pop buf len op)
  | H_push => pure (_inst__push op)
  | H_rcall => pure (_inst__rcall op)
  | H_ret => pure (_inst__ret op)
  | H_reti => pure (_inst__reti op)
  | H_rjmp => pure (_inst__rjmp buf op)
  | H_ror => pure (_inst__ror buf op)
  | H_sbc => pure (_inst__sbc buf len op)
  | H_sbci => pure (_inst__sbci buf len op)
  | H_sub => pure (_inst__sub buf len op)
  | H_subi => pure (_inst__subi buf len op)
  | H_sbi => opt (_inst__sbi op)
  | H_sbix => _inst__sbix g op
  | H_sbiw => pure (_inst__sbiw buf len op)
  | H_sbrx => _inst__sbrx g op
  | H_sleep => pure (_inst__sleep op)
  | H_spm => let '(g', o) := _inst__spm g op in handled g' o
  | H_st => pure (_inst__st buf len op)
  | H_std => pure (_inst__std buf len op)
  | H_swap => pure (_inst__swap buf len op)
  end.

End CpuHandlers.

(* ----------------------------------------------------------------- *)
(** *** The decode engine *)

(** [set_invalid_op] *)
Definition set_invalid_op (op : RzAnalysisOp) (addr : Z) : RzAnalysisOp :=
  let op := set_family RZ_ANALYSIS_OP_FAMILY_UNKNOWN op in
  let op := set_type RZ_ANALYSIS_OP_TYPE_UNK op in
  let op := set_addr addr op in
  let op := set_nopcode 1 op in
  let op := set_cycles 1 op in
  let op := set_size 2 op in
  set_esil "1,$" op.

(** The [for] loop over [opcodes]: it stops at the first descriptor whose
    handler is NULL, and enters its body at the first match. *)
Fixpoint scan_opcodes (ins : Z) (tbl : list OPCODE_DESC) (i : nat)
  : option (nat * OPCODE_DESC * inst_handler_t) :=
  match tbl with
  | [] => None
  | d :: rest =>
      match d_handler d with
      | None => None
      | Some h =>
          if (ins &&& d_mask d) =? d_selector d then Some (i, d, h)
          else scan_opcodes ins rest (S i)
      end
  end.

(** The last character of a string, and the string without it. *)
Fixpoint last_char (s : string) : option ascii :=
  match s with
  | EmptyString => None
  | String c EmptyString => Some c
  | String _ r => last_char r
  end.

Fixpoint drop_last (s : string) : string :=
  match s with
  | EmptyString => EmptyString
  | String c EmptyString => EmptyString
  | String c r => String c (drop_last r)
  end.

(** "remove trailing coma" *)
Definition trim_trailing_comma (t : string) : string :=
  if Nat.ltb 1 (String.length t) then
    match last_char t with
    | Some c => if Ascii.eqb c ","%char then drop_last t else t
    | None => t
    end
  else t.

(** [avr_op_analyze].  [fuel] bounds the chain of nested calls made by the
    compare-and-skip handlers. *)
Fixpoint avr_op_analyze (fuel : nat) (analysis : RzAnalysis) (cpu : nat)
    (g : Globals) (op : RzAnalysisOp) (addr : Z) (buf : list Z) (len : Z)
  : option Analyzed :=
  match fuel with
  | O => None
  | S fuel' =>
      if len <? 2 then Some {| r_desc := None; r_op := op; r_globals := g; r_nested := 0 |}
      else
        let ins := ut16 ((at_ buf 1 <<< 8) ||| at_ buf 0) in
        match scan_opcodes ins (opcodes_g g) 0 with
        | Some (i, opcode_desc, handler) =>
            (* copy default cycles/size values *)
            let op := set_cycles (d_cycles opcode_desc) op in
            let op := set_size (d_size opcode_desc) op in
            let op := set_type (d_type opcode_desc) op in
            let op := set_jump UT64_MAX op in
            let op := set_fail UT64_MAX op in
            let op := set_addr addr op in
            (* start void esil expression *)
            let op := set_esil "" op in
            (* handle opcode *)
            match call_handler analysis (models (registry g)) cpu buf len
                    (avr_op_analyze fuel' analysis cpu) handler g op with
            | None => None
            | Some hd =>
                let op := h_op hd in
                let g := h_globals hd in
                if truthy (h_fail hd) then
                  Some {| r_desc := None; r_op := set_invalid_op op addr;
                          r_globals := g; r_nested := h_nested hd |}
                else
                  let g :=
                    if cycles op <=? 0
                    then {| registry := registry g;
                            opcodes_g := update_at i (set_d_cycles 2) (opcodes_g g) |}
                    else g in
                  let op := set_nopcode (if is_UNK (type op) then 1 else 0) op in
                  let op := set_esil (trim_trailing_comma (esil op)) op in
                  Some {| r_desc := Some i; r_op := op; r_globals := g;
                          r_nested := h_nested hd |}
            end
        | None =>
            Some {| r_desc := None; r_op := set_invalid_op op addr;
                    r_globals := g; r_nested := 0 |}
        end
  end.

(** Enough fuel for a buffer of [len] bytes: every nested call receives a
    buffer shorter by the descriptor's (positive) size. *)
Definition analyze_fuel (len : Z) : nat := S (Z.to_nat len).

Section Plugin.
(** [avr_disassembler] (librz/asm/arch/avr) is outside the files embedded
    here: it is a parameter.  Given buffer, length, address and byte order
    it returns the size and the mnemonic written to the string buffer. *)
Variable avr_disassembler : list Z -> Z -> Z -> bool -> Z * string.

(** The result of [avr_op]: return value, the op, the globals, and the
    interpreter (whose memory-layout registers are set). *)
Record OpResult : Type := {
  o_ret : Z;
  o_op : RzAnalysisOp;
  o_globals : Globals;
  o_esil : RzAnalysisEsil
}.

(** [avr_op] *)
Definition avr_op (analysis : RzAnalysis) (g : Globals) (op : RzAnalysisOp)
    (addr : Z) (buf : list Z) (len : Z) : option OpResult :=
  let size := -1 in
  let op := set_invalid_op op addr in
  let sb := "invalid" in
  let '(size, sb) :=
    if len >? 1 then avr_disassembler buf len addr (big_endian analysis) else (size, sb) in
  let op := set_mnemonic sb op in
  if strcmp (mnemonic op) "invalid" =? 0 then
    Some {| o_ret := -1; o_op := set_eob true op; o_globals := g; o_esil := a_esil analysis |}
  else
    (* select cpu info *)
    match get_cpu_model (chain_fuel (models (registry g))) (registry g) (cpu analysis) with
    | None | Some (None, _) => None
    | Some (Some cpu, reg') =>
        let g := {| registry := reg'; opcodes_g := opcodes_g g |} in
        (* set memory layout registers *)
        let e := a_esil analysis in
        let offset := 0 in
        let e := rz_analysis_esil_reg_write e "_prog" offset in
        let offset := ut64 (offset + to_int (1 <<< profile_pc analysis)) in
        let e := rz_analysis_esil_reg_write e "_io" offset in
        let offset := ut64 (offset + profile_sram_start analysis) in
        let e := rz_analysis_esil_reg_write e "_sram" offset in
        let offset := ut64 (offset + profile_sram_size analysis) in
        let e := rz_analysis_esil_reg_write e "_eeprom" offset in
        let offset := ut64 (offset + profile_eeprom_size analysis) in
        let e := rz_analysis_esil_reg_write e "_page" offset in
        let analysis := {| cpu := Avr.cpu analysis; big_endian := big_endian analysis; a_esil := e;
                           profile_pc := profile_pc analysis;
                           profile_sram_start := profile_sram_start analysis;
                           profile_sram_size := profile_sram_size analysis;
                           profile_eeprom_size := profile_eeprom_size analysis |} in
        (* process opcode *)
        match avr_op_analyze (analyze_fuel len) analysis cpu g op addr buf len with
        | None => None
        | Some r =>
            Some {| o_ret := size; o_op := set_size size (r_op r);
                    o_globals := r_globals r; o_esil := e |}
        end
    end.

End Plugin.

(* ----------------------------------------------------------------- *)
(** *** Custom ESIL operations *)

Section CustomOps.
(** [rz_analysis_esil_get_parm] belongs to the interpreter: given the
    interpreter and an operand it yields the operand's 64-bit value, or
    fails.  It is a parameter. *)
Variable rz_analysis_esil_get_parm : RzAnalysisEsil -> string -> option Z.

(** The DES primitives of [rz_crypto]; each returns what the C function
    leaves in the words it is handed by pointer. *)
Variable rz_des_permute_key : Z * Z -> Z * Z.
Variable rz_des_shift_key : Z -> bool -> Z * Z -> Z * Z.
Variable rz_des_pc2 : Z * Z -> Z * Z.
Variable rz_des_permute_block0 : Z * Z -> Z * Z.
Variable rz_des_round : Z * Z -> Z * Z -> Z * Z.
Variable rz_des_permute_block1 : Z * Z -> Z * Z.
Variable rz_des_permute_key_inv : Z * Z -> Z * Z.

(** [__esil_pop_argument]: success flag, the value, the interpreter. *)
Definition __esil_pop_argument (esil : RzAnalysisEsil) : bool * Z * RzAnalysisEsil :=
  let '(t, esil') := rz_analysis_esil_pop esil in
  match t with
  | None => (false, 0, esil')
  | Some t =>
      match rz_analysis_esil_get_parm esil' t with
      | None => (false, 0, esil')
      | Some v => (true, ut64 v, esil')
      end
  end.

(** [rz_read_at_le32], [rz_write_at_le32] on a byte array. *)
Definition rz_read_at_le32 (regs : list Z) (off : nat) : Z :=
  nth off regs 0 ||| (nth (off + 1) regs 0 <<< 8)
  ||| (nth (off + 2) regs 0 <<< 16) ||| (nth (off + 3) regs 0 <<< 24).

Fixpoint store_byte (regs : list Z) (i : nat) (v : Z) : list Z :=
  match regs, i with
  | [], _ => []
  | _ :: r, O => v :: r
  | x :: r, S j => x :: store_byte r j v
  end.

Definition rz_write_at_le32 (regs : list Z) (v : Z) (off : nat) : list Z :=
  let regs := store_byte regs off (ut8 v) in
  let regs := store_byte regs (off + 1) (ut8 (v >>> 8)) in
  let regs := store_byte regs (off + 2) (ut8 (v >>> 16)) in
  store_byte regs (off + 3) (ut8 (v >>> 24)).

Definition reg_names : list string := [
  "r0"; "r1"; "r2"; "r3"; "r4"; "r5"; "r6"; "r7";
  "r8"; "r9"; "r10"; "r11"; "r12"; "r13"; "r14"; "r15" ].

(** The sanity test at the head of every custom operation,
    [!esil || !esil->analysis || !esil->analysis->reg], is about pointers
    the embedding does not have: [sane] is its outcome. *)
Variable sane : bool.

(** [avr_custom_des] *)
Definition avr_custom_des (esil : RzAnalysisEsil) : bool * RzAnalysisEsil :=
  if negb sane then (false, esil) else
  let '(ok, arg, esil) := __esil_pop_argument esil in
  if negb ok then (false, esil) else
  let round := to_int arg in
  if (round <? 0) || (round >? 15) then (false, esil) else
  let decrypt := rz_analysis_esil_reg_read esil "hf" in
  let round := if truthy decrypt then 15 - round else round in
  let regs := map (fun n => ut8 (rz_analysis_esil_reg_read esil n)) reg_names in
  let buf_hi := rz_read_at_le32 regs 0 in
  let buf_lo := rz_read_at_le32 regs 4 in
  let key_orig_hi := rz_read_at_le32 regs 8 in
  let key_orig_lo := rz_read_at_le32 regs 12 in
  let key_lo := key_orig_lo in
  let key_hi := key_orig_hi in
  let '(key_lo, key_hi) := rz_des_permute_key (key_lo, key_hi) in
  let i := round in
  let '(key_lo, key_hi) :=
    if negb (truthy decrypt) then rz_des_shift_key i false (key_lo, key_hi)
    else (key_lo, key_hi) in
  let '(round_key_lo, round_key_hi) := rz_des_pc2 (key_lo, key_hi) in
  let '(key_lo, key_hi) :=
    if truthy decrypt then rz_des_shift_key i true (key_lo, key_hi)
    else (key_lo, key_hi) in
  let '(buf_lo, buf_hi) := rz_des_permute_block0 (buf_lo, buf_hi) in
  let '(buf_lo, buf_hi) := rz_des_round (buf_lo, buf_hi) (round_key_lo, round_key_hi) in
  let '(buf_lo, buf_hi) :=
    if arg <? 15 then rz_des_permute_block1 (buf_lo, buf_hi)
    else
      let '(buf_hi, buf_lo) := rz_des_permute_block1 (buf_hi, buf_lo) in
      let buf_lo := Z.lxor buf_lo buf_hi in
      let buf_hi := Z.lxor buf_hi buf_lo in
      let buf_lo := Z.lxor buf_lo buf_hi in
      (buf_lo, buf_hi) in
  let '(key_lo, key_hi) := rz_des_permute_key_inv (key_lo, key_hi) in
  let key_lo := key_lo ||| (key_orig_hi &&& 0x01010101) in
  let key_hi := key_hi ||| (key_orig_lo &&& 0x01010101) in
  let regs := rz_write_at_le32 regs buf_hi 0 in
  let regs := rz_write_at_le32 regs buf_lo 4 in
  let regs := rz_write_at_le32 regs key_lo 8 in
  let regs := rz_write_at_le32 regs key_hi 12 in
  let esil :=
    fold_left (fun e nv => rz_analysis_esil_reg_write e (fst nv) (snd nv))
              (combine reg_names regs) esil in
  (true, esil).

(** The [for] loop of [avr_custom_spm_page_erase]: [n] iterations left,
    [i] the loop variable. *)
Fixpoint erase_loop (n : nat) (i : Z) (addr : Z) (pc_mask : Z) (esil : RzAnalysisEsil)
  : RzAnalysisEsil :=
  match n with
  | O => esil
  | S n' =>
      erase_loop n' (i + 1) addr pc_mask
        (rz_analysis_esil_mem_write esil (ut64 (addr + i) &&& pc_mask) 0xff)
  end.

(** [avr_custom_spm_page_erase].  [cpu_name] is [esil->analysis->cpu].  The
    result is [None] only where the C code would not return (exhausted
    inheritance walk). *)
Definition avr_custom_spm_page_erase (cpu_name : string) (reg : Registry)
    (esil : RzAnalysisEsil) : option (bool * Registry * RzAnalysisEsil) :=
  if negb sane then Some (false, reg, esil) else
  (* get target address *)
  let '(ok, addr, esil) := __esil_pop_argument esil in
  if negb ok then Some (false, reg, esil) else
  (* get details about current MCU and fix input address *)
  match get_cpu_model (chain_fuel (models reg)) reg cpu_name with
  | None | Some (None, _) => None
  | Some (Some cpu, reg) =>
      match const_by_name (chain_fuel (models reg)) reg cpu CPU_CONST_PARAM "page_size" with
      | None => None
      | Some (c, reg) =>
          let page_size_bits := const_get_value c in
          (* align base address to page_size_bits *)
          let addr := addr &&& ut32 (Z.lnot (MASK page_size_bits)) in
          (* perform erase *)
          let esil := erase_loop (Z.to_nat (ut64 (1 <<< page_size_bits))) 0 addr
                        (CPU_PC_MASK (model_at (models reg) cpu)) esil in
          Some (true, reg, esil)
      end
  end.

End CustomOps.

End Avr.


(* ================================================================= *)
(** ** Vocabulary of the properties *)

Module AvrAux.
Import Avr.

(** Sample surroundings used by the closed examples. *)
Definition esil0 : RzAnalysisEsil :=
  {| stack := []; regs := fun _ => 0; mem := fun _ => 0 |}.

Definition analysis0 : RzAnalysis :=
  {| cpu := "ATmega8"; big_endian := false; a_esil := esil0; profile_pc := 13;
     profile_sram_start := 0x60; profile_sram_size := 1024; profile_eeprom_size := 512 |}.

(** A stand-in for the external disassembler, for closed examples only. *)
Definition disassembler0 (buf : list Z) (len addr : Z) (be : bool) : Z * string :=
  (2, "insn").

(** Operands that are decimal numerals, for closed examples. *)
Definition decimal_parm (_ : RzAnalysisEsil) (t : string) : option Z :=
  option_map (fun u => Z.of_N (N.of_uint u)) (DecimalString.NilZero.uint_of_string t).

(** The text [__generic_push] appends for an item of [n] bytes: address the
    slot below the stack pointer, store [n] bytes there, lower the stack
    pointer by [n]. *)
Definition push_text (n : Z) : string :=
  "sp,_ram,+," ++ (if n >? 1 then "-" ++ fmt_d (n - 1) ++ ",+," else "")
  ++ "=[" ++ fmt_d n ++ "]," ++ "-" ++ fmt_d n ++ ",sp,+=,".

(** The model a model's [inherit] names, as an index into [cpu_models]. *)
Definition static_parent (m : CPU_MODEL) : option nat :=
  match inherit m with
  | Some n => Some (find_model cpu_models n 0)
  | None => None
  end.

(** [cpu_models] with the back-pointers of the flagged models filled in. *)
Definition resolved_by (rs : list bool) : list CPU_MODEL :=
  map (fun rm : bool * CPU_MODEL => if fst rm then set_inherit_cpu_p (static_parent (snd rm)) (snd rm) else snd rm)
      (combine rs cpu_models).

(** The registries the code can be in: every back-pointer is either still
    NULL or points where [inherit] says, and a cached model, if any, is a
    model of the array whose own back-pointer has been filled in. *)
Definition wf_registry (g : Registry) : Prop :=
  (exists rs, List.length rs = 8%nat /\ models g = resolved_by rs) /\
  match cached g with
  | None => True
  | Some c => (c < 8)%nat /\
              inherit_cpu_p (model_at (models g) c) = static_parent (model_at cpu_models c)
  end.

(** The body of [__get_cpu_model_recursive] after its search loop, and the
    part of [get_cpu_model] after the cache test, as functions of the index
    the loop ended at. *)
Definition fix_inheritance (fuel' : nat) (g : Registry) (cpu : nat)
  : option (option nat * Registry) :=
  let m := model_at (models g) cpu in
  match inherit m, inherit_cpu_p m with
  | Some parent, None =>
      match get_cpu_model fuel' g parent with
      | None => None
      | Some (p, g') =>
          let g'' := {| models := update_at cpu (set_inherit_cpu_p p) (models g');
                        cached := cached g'; errlog := errlog g' |} in
          let g''' :=
            match p with
            | None => eprintf ("ERROR: Cannot inherit from unknown CPU model '" ++ parent ++ "'." ++ nl) g''
            | Some _ => g''
            end in
          Some (Some cpu, g''')
      end
  | _, _ => Some (Some cpu, g)
  end.

Definition search_from_index (fuel' : nat) (g : Registry) (cpu : nat)
  : option (option nat * Registry) :=
  match fix_inheritance fuel' g cpu with
  | None => None
  | Some (cpu, g') => Some (cpu, {| models := models g'; cached := cpu; errlog := errlog g' |})
  end.

(** The specification's constant lookup, on the static table: the variant's
    own groups first, then the parent's, first match wins. *)
Fixpoint lookup_chain (fuel : nat) (i : nat) (type : Z) (c : string) : option CPU_CONST :=
  match fuel with
  | O => None
  | S fuel' =>
      let m := model_at cpu_models i in
      match scan_consts (fun citem => (strcmp c (key citem) =? 0) && type_ok type citem) (consts m) with
      | Some citem => Some citem
      | None =>
          match static_parent m with
          | Some p => lookup_chain fuel' p type c
          | None => None
          end
      end
  end.

Definition not_found_message (c : string) : string :=
  "ERROR: CONSTANT key[" ++ c ++ "] NOT FOUND." ++ nl.

(* ----------------------------------------------------------------- *)
(** *** Relating two runs of the decoder *)

(** A descriptor without its mutable field. *)
Definition strip (d : OPCODE_DESC) : OPCODE_DESC := set_d_cycles 0 d.

(** The descriptor arrays the code can be in: [opcodes] up to the [cycles]
    fields. *)
Definition tbl_ok (t : list OPCODE_DESC) : Prop := map strip t = map strip opcodes.

Definition globals_ok (g : Globals) : Prop :=
  wf_registry (registry g) /\ tbl_ok (opcodes_g g).

(** The compare-and-skip handlers. *)
Definition is_skip (h : inst_handler_t) : bool :=
  match h with H_cpse | H_sbix | H_sbrx => true | _ => false end.

(** Two buffers with the same first [len] bytes. *)
Definition agree (len : Z) (b b' : list Z) : Prop :=
  forall i : nat, Z.of_nat i < len -> at_ b i = at_ b' i.

Definition erase_cycles (o : RzAnalysisOp) : RzAnalysisOp := set_cycles 0 o.

(** Equal ops ([true]) or ops equal up to the cycle estimate ([false]). *)
Definition op_rel (b : bool) (o o' : RzAnalysisOp) : Prop :=
  if b then o = o' else erase_cycles o = erase_cycles o'.

(** Equal descriptor arrays ([true]) or arrays equal up to the cycle
    defaults ([false]); reachable in both cases. *)
Definition tbl_rel (b : bool) (t t' : list OPCODE_DESC) : Prop :=
  tbl_ok t /\ tbl_ok t' /\ (b = true -> t = t').

(** Interpreters that agree on the three registers the handlers read. *)
Definition regs_agree (an an' : RzAnalysis) : Prop :=
  regs (a_esil an) "z" = regs (a_esil an') "z" /\
  regs (a_esil an) "eind" = regs (a_esil an') "eind" /\
  regs (a_esil an) "spmcsr" = regs (a_esil an') "spmcsr".

(** Model arrays that look the same from model [cpu]: name, width, and
    every I/O port resolution. *)
Definition view_agree (ms ms' : list CPU_MODEL) (cpu : nat) : Prop :=
  model (model_at ms cpu) = model (model_at ms' cpu) /\
  pc (model_at ms cpu) = pc (model_at ms' cpu) /\
  forall port write, __generic_io_dest port write ms cpu = __generic_io_dest port write ms' cpu.

(** "Same but for the cycle estimate", on ops and on optional ops. *)
Definition sbc (a b : RzAnalysisOp) : Prop := erase_cycles a = erase_cycles b.
Definition sbc_opt (a b : option RzAnalysisOp) : Prop :=
  option_map erase_cycles a = option_map erase_cycles b.

(** What a handler hands back, globals aside. *)
Definition outcome (hd : Handled) : RzAnalysisOp * Z * nat :=
  (h_op hd, h_fail hd, h_nested hd).

(** A field [f] of the ops [a] and [b] that two calls left in records that
    held [p] and [p'] before: written alike by both calls, or written by
    neither, so that each record still has what it had. *)
Definition kept {T : Type} (f : RzAnalysisOp -> T) (p p' a b : RzAnalysisOp) : Prop :=
  f a = f b \/ (f a = f p /\ f b = f p').

(** Two ops that agree wherever the decoder always writes - the cycle
    estimate apart - and whose other fields are [kept]. *)
Definition same_written (p p' a b : RzAnalysisOp) : Prop :=
  mnemonic a = mnemonic b /\ addr a = addr b /\ type a = type b /\
  nopcode a = nopcode b /\ family a = family b /\ size a = size b /\
  esil a = esil b /\
  kept type2 p p' a b /\ kept eob p p' a b /\ kept jump p p' a b /\
  kept fail p p' a b /\ kept ptr p p' a b /\ kept val p p' a b /\
  kept mmio_address p p' a b.

(** Records that agree on the fields a decode can leave unwritten. *)
Definition same_carried (p p' : RzAnalysisOp) : Prop :=
  type2 p = type2 p' /\ eob p = eob p' /\ jump p = jump p' /\ fail p = fail p' /\
  ptr p = ptr p' /\ val p = val p' /\ mmio_address p = mmio_address p'.

(** The relation between the ops of two runs of one handler: the descriptor
    defaults have been copied, so cycle estimate, jump and fail address
    agree as well. *)
Definition carried (p p' a b : RzAnalysisOp) : Prop :=
  same_written p p' a b /\ cycles a = cycles b /\ jump a = jump b /\ fail a = fail b.

Definition carried_opt (p p' : RzAnalysisOp) (a b : option RzAnalysisOp) : Prop :=
  match a, b with
  | Some a, Some b => carried p p' a b
  | None, None => True
  | _, _ => False
  end.

(** An interpreter state with a non-zero [z], and globals as an earlier run
    may have left them, for closed examples. *)
Definition analysis_z : RzAnalysis :=
  {| cpu := cpu analysis0; big_endian := big_endian analysis0;
     a_esil := rz_analysis_esil_reg_write esil0 "z" 0x100;
     profile_pc := profile_pc analysis0;
     profile_sram_start := profile_sram_start analysis0;
     profile_sram_size := profile_sram_size analysis0;
     profile_eeprom_size := profile_eeprom_size analysis0 |}.

Definition globals_later : Globals :=
  {| registry := {| models := cpu_models; cached := Some 7%nat;
                    errlog := ["earlier message"] |};
     opcodes_g := update_at 27 (set_d_cycles 2) opcodes |}.

End AvrAux.

(* ================================================================= *)
(** ** AVR: the remaining custom operations, the register-write hook and
       the plugin's constant callbacks *)

Module AvrEsil.
Import Avr.

(** Modelled from the spec: the interpreter's memory is byte-addressable, so
    [rz_analysis_esil_mem_read] and [rz_analysis_esil_mem_write] on a run of
    [n] bytes act on the addresses [a], [a + 1], ... in that order, each a
    64-bit address. *)
Fixpoint esil_mem_read_bytes (e : RzAnalysisEsil) (a : Z) (n : nat) : list Z :=
  match n with
  | O => []
  | S n' => mem e (ut64 a) :: esil_mem_read_bytes e (a + 1) n'
  end.

Fixpoint esil_mem_write_bytes (e : RzAnalysisEsil) (a : Z) (bytes : list Z) : RzAnalysisEsil :=
  match bytes with
  | [] => e
  | b :: r => esil_mem_write_bytes (rz_analysis_esil_mem_write e (ut64 a) b) (a + 1) r
  end.

Section FlashOps.
(** As for the operations above: the operand evaluator of the interpreter
    and the outcome of the pointer sanity test are parameters. *)
Variable rz_analysis_esil_get_parm : RzAnalysisEsil -> string -> option Z.
Variable sane : bool.
(** [malloc] is outside the file; [malloc_ok n] tells whether a request for
    [n] bytes is granted. *)
Variable malloc_ok : Z -> bool.

(** [avr_custom_spm_page_fill].  [cpu_name] is [esil->analysis->cpu]. *)
Definition avr_custom_spm_page_fill (cpu_name : string) (reg : Registry)
    (esil : RzAnalysisEsil) : option (bool * Registry * RzAnalysisEsil) :=
  if negb sane then Some (false, reg, esil) else
  (* get target address, r0, r1 *)
  let '(ok, addr, esil) := __esil_pop_argument rz_analysis_esil_get_parm esil in
  if negb ok then Some (false, reg, esil) else
  let '(ok, i, esil) := __esil_pop_argument rz_analysis_esil_get_parm esil in
  if negb ok then Some (false, reg, esil) else
  let r0 := ut8 i in
  let '(ok, i, esil) := __esil_pop_argument rz_analysis_esil_get_parm esil in
  if negb ok then Some (false, reg, esil) else
  let r1 := ut8 i in
  (* get details about current MCU and fix input address *)
  match get_cpu_model (chain_fuel (models reg)) reg cpu_name with
  | None | Some (None, _) => None
  | Some (Some cpu, reg) =>
      match const_by_name (chain_fuel (models reg)) reg cpu CPU_CONST_PARAM "page_size" with
      | None => None
      | Some (c, reg) =>
          let page_size_bits := const_get_value c in
          (* align and crop base address *)
          let addr := addr &&& ut32 (Z.lxor (MASK page_size_bits) 1) in
          (* perform write to temporary page *)
          let esil := rz_analysis_esil_mem_write esil addr r0 in
          let addr := ut64 (addr + 1) in
          let esil := rz_analysis_esil_mem_write esil addr r1 in
          Some (true, reg, esil)
      end
  end.

(** [avr_custom_spm_page_write] *)
Definition avr_custom_spm_page_write (cpu_name : string) (reg : Registry)
    (esil : RzAnalysisEsil) : option (bool * Registry * RzAnalysisEsil) :=
  if negb sane then Some (false, reg, esil) else
  (* get target address *)
  let '(ok, addr, esil) := __esil_pop_argument rz_analysis_esil_get_parm esil in
  if negb ok then Some (false, reg, esil) else
  (* get details about current MCU and fix input address and base address
     of the internal temporary page *)
  match get_cpu_model (chain_fuel (models reg)) reg cpu_name with
  | None | Some (None, _) => None
  | Some (Some cpu, reg) =>
      match const_by_name (chain_fuel (models reg)) reg cpu CPU_CONST_PARAM "page_size" with
      | None => None
      | Some (c, reg) =>
          let page_size_bits := const_get_value c in
          let tmp_page := rz_analysis_esil_reg_read esil "_page" in
          (* align base address to page_size_bits *)
          let addr := addr &&& (ut32 (Z.lnot (MASK page_size_bits))
                                &&& CPU_PC_MASK (model_at (models reg) cpu)) in
          (* perform writing *)
          let n := to_int (1 <<< page_size_bits) in
          if negb (malloc_ok n) then
            Some (false,
                  eprintf ("Cannot alloc a buffer for copying the temporary page." ++ nl) reg,
                  esil)
          else
            let t := esil_mem_read_bytes esil tmp_page (Z.to_nat n) in
            let esil := esil_mem_write_bytes esil addr t in
            Some (true, reg, esil)
      end
  end.

(** [esil_avr_hook_reg_write]: the return value, the value left in [*val],
    and the registry.  Its sanity test is [!esil || !esil->analysis]. *)
Definition esil_avr_hook_reg_write (cpu_name : string) (reg : Registry)
    (name : string) (val : Z) : option (Z * Z * Registry) :=
  if negb sane then Some (0, val, reg) else
  (* select cpu info *)
  match get_cpu_model (chain_fuel (models reg)) reg cpu_name with
  | None | Some (None, _) => None
  | Some (Some cpu, reg) =>
      let m := model_at (models reg) cpu in
      (* crop registers and force certain values *)
      let val :=
        if strcmp name "pc" =? 0 then val &&& CPU_PC_MASK m
        else if strcmp name "pcl" =? 0 then
          (if pc m <? 8 then val &&& MASK 8 else val)
        else if strcmp name "pch" =? 0 then
          (if pc m >? 8 then val &&& MASK (pc m - 8) else 0)
        else val in
      Some (0, val, reg)
  end.

End FlashOps.

(** The queries of [archinfo] ([RZ_ANALYSIS_ARCHINFO_*]); any other value
    is [ARCHINFO_other]. *)
Inductive ArchInfo : Type :=
| RZ_ANALYSIS_ARCHINFO_MIN_OP_SIZE
| RZ_ANALYSIS_ARCHINFO_MAX_OP_SIZE
| RZ_ANALYSIS_ARCHINFO_ALIGN
| ARCHINFO_other.

(** [archinfo] *)
Definition archinfo (q : ArchInfo) : Z :=
  match q with
  | RZ_ANALYSIS_ARCHINFO_ALIGN => 2
  | RZ_ANALYSIS_ARCHINFO_MAX_OP_SIZE => 4
  | RZ_ANALYSIS_ARCHINFO_MIN_OP_SIZE => 2
  | ARCHINFO_other => 2
  end.

(** [address_bits] *)
Definition address_bits (bits : Z) : Z := if bits =? 8 then 16 else -1.

Section Mask.
(** [rz_analysis_op_new] and [malloc] are outside the file: the op the
    former returns (NULL when it fails) and whether a request for [n] bytes
    is granted are parameters. *)
Variable rz_analysis_op_new : option RzAnalysisOp.
Variable malloc_ok : Z -> bool.

(** The result buffer together with a mark - not program data - that tells
    whether some store went to an index outside of it. *)
Definition MaskBuf : Type := (list Z * bool)%type.

(** [ret[i] = v] *)
Definition ret_store (ret : MaskBuf) (i : Z) (v : Z) : MaskBuf :=
  if (0 <=? i) && (i <? Z.of_nat (List.length (fst ret)))
  then (store_byte (fst ret) (Z.to_nat i) v, snd ret)
  else (fst ret, true).

(** The [for] loop of [analysis_mask_avr]; [fuel] bounds its iterations.
    The same [op] is handed to every decode. *)
Fixpoint mask_loop (fuel : nat) (analysis : RzAnalysis) (cpu : nat) (size : Z)
    (data : list Z) (at_addr : Z) (idx : Z) (g : Globals) (op : RzAnalysisOp)
    (ret : MaskBuf) : option (MaskBuf * Globals) :=
  match fuel with
  | O => None
  | S fuel' =>
      if idx + 1 <? size then
        match avr_op_analyze (analyze_fuel (size - idx)) analysis cpu g op
                (ut64 (at_addr + idx)) (advance data idx) (size - idx) with
        | None => None
        | Some r =>
            let opcode_desc := r_desc r in
            let op := r_op r in
            let g := r_globals r in
            if Avr.size op <? 1 then Some (ret, g)
            else
              match opcode_desc with
              | None => (* invalid instruction *)
                  mask_loop fuel' analysis cpu size data at_addr (idx + Avr.size op) g op ret
              | Some i =>
                  let d := nth i (opcodes_g g) INST_LAST in
                  (* the additional data for "long" opcodes (4 bytes) *)
                  let ret :=
                    if Avr.size op =? 4
                    then ret_store (ret_store ret (idx + 2) 0) (idx + 3) 0
                    else ret in
                  let ret :=
                    if negb (ptr op =? UT64_MAX) || negb (jump op =? UT64_MAX)
                    then ret_store (ret_store ret idx (ut8 (d_mask d)))
                           (idx + 1) (ut8 (d_mask d >>> 8))
                    else ret in
                  mask_loop fuel' analysis cpu size data at_addr (idx + Avr.size op) g op ret
              end
        end
      else Some (ret, g)
  end.

(** [analysis_mask_avr]: the returned buffer (NULL is [None]) with its
    mark, and the globals; the outer [None] is for the runs where the C code
    would not return. *)
Definition analysis_mask_avr (analysis : RzAnalysis) (size : Z) (data : list Z) (at_addr : Z)
    (g : Globals) : option (option MaskBuf * Globals) :=
  match rz_analysis_op_new with
  | None => Some (None, g)
  | Some op =>
      if negb (malloc_ok size) then Some (None, g)
      else
        let ret : MaskBuf := (repeat 0xff (Z.to_nat size), false) in
        match get_cpu_model (chain_fuel (models (registry g))) (registry g) (cpu analysis) with
        | None | Some (None, _) => None
        | Some (Some cpu, reg') =>
            let g := {| registry := reg'; opcodes_g := opcodes_g g |} in
            match mask_loop (S (Z.to_nat size)) analysis cpu size data at_addr 0 g op ret with
            | None => None
            | Some (ret, g) => Some (Some ret, g)
            end
        end
  end.

End Mask.

End AvrEsil.

(* ================================================================= *)
(** ** Vocabulary of the further AVR properties *)

Module AvrEsilAux.
Import Avr AvrAux AvrEsil.

(** What the hook leaves in [*val] for a model with a [w]-bit program
    counter. *)
Definition cropped (w : Z) (name : string) (val : Z) : Z :=
  if String.eqb name "pc" then val mod 2 ^ w
  else if String.eqb name "pcl" then (if w <? 8 then val mod 2 ^ 8 else val)
  else if String.eqb name "pch" then (if w >? 8 then val mod 2 ^ (w - 8) else 0)
  else val.

(** An interpreter with the address 8200 on its stack, a temporary page at
    0x10000 and a recognisable memory, for the closed examples. *)
Definition esil_with_page : RzAnalysisEsil :=
  {| stack := ["8200"];
     regs := fun n => if String.eqb n "_page" then 0x10000 else 0;
     mem := fun a => a mod 251 |}.

(** The fields of an op no handler writes: address, size, mnemonic and
    [nopcode]. *)
Definition same_frame (a b : RzAnalysisOp) : Prop :=
  addr a = addr b /\ size a = size b /\ mnemonic a = mnemonic b /\ nopcode a = nopcode b.

Definition same_frame_opt (x : option RzAnalysisOp) (b : RzAnalysisOp) : Prop :=
  match x with Some a => same_frame a b | None => True end.

(** The [n]-bit two's-complement reading of [x], for [0 <= x < 2^n]. *)
Definition signed (n x : Z) : Z := if x <? 2 ^ (n - 1) then x else x - 2 ^ n.

(** The displacement expressions of [rjmp]/[rcall] and of [brbx], as
    functions of the two instruction bytes. *)
Definition disp_rjmp (b0 b1 : Z) : Z :=
  Z.lor (Z.lor (Z.shiftl (Z.land b1 0xf) 9) (Z.shiftl b0 1))
        (if truthy (Z.land b1 0x8) then Z.lnot 0x1fff else 0) + 2.
Definition disp_rcall (b0 b1 : Z) : Z :=
  Z.lor (Z.shiftl (Z.lor (Z.shiftl (Z.land b1 0xf) 8) b0) 1)
        (if truthy (Z.land b1 0x8) then Z.lnot 0x1fff else 0) + 2.
Definition disp_brbx (b0 b1 : Z) : Z :=
  Z.lor (Z.lor (Z.shiftl (Z.land b1 0x03) 6) (Z.shiftr (Z.land b0 0xf8) 2))
        (if truthy (Z.land b1 0x2) then Z.lnot 0x7f else 0) + 2.

(** All byte values. *)
Definition bytes256 : list Z := map Z.of_nat (seq 0 256).

(** A registry with every back-pointer filled in. *)
Definition registry_resolved : Registry :=
  {| models := resolved_by [true; true; true; true; true; true; true; true];
     cached := None; errlog := [] |}.

(** The read and write destinations of port [p] of model [i] are consistent
    with the register names: a name that looks up to [p], or the generic
    expression. *)
Definition io_dest_consistent (i : nat) (p : Z) : bool :=
  match __generic_io_dest p 0 (models registry_resolved) i,
        __generic_io_dest p 1 (models registry_resolved) i with
  | Some r, Some wr =>
      match lookup_chain 8 i CPU_CONST_REG r with
      | Some c => (const_get_value (Some c) =? p) && String.eqb wr (r ++ ",=")
      | None => String.eqb r ("_io," ++ fmt_d p ++ ",+,[1]")
                && String.eqb wr ("_io," ++ fmt_d p ++ ",+,=[1]")
      end
  | _, _ => false
  end.

End AvrEsilAux.

(* ================================================================= *)
(** ** ARM32: registers, operands and the instruction lifters of
       [arm_il32.c] *)

Module ArmIL.

(** Capstone's [arm_reg], restricted to the registers this file names;
    any other register, inside or outside the [names] array of
    [reg_var_name], is [ARM_REG_other]. *)
Inductive arm_reg : Type :=
| ARM_REG_INVALID
| ARM_REG_LR | ARM_REG_PC | ARM_REG_SP
| ARM_REG_Q0 | ARM_REG_Q1 | ARM_REG_Q2 | ARM_REG_Q3
| ARM_REG_Q4 | ARM_REG_Q5 | ARM_REG_Q6 | ARM_REG_Q7
| ARM_REG_Q8 | ARM_REG_Q9 | ARM_REG_Q10 | ARM_REG_Q11
| ARM_REG_Q12 | ARM_REG_Q13 | ARM_REG_Q14 | ARM_REG_Q15
| ARM_REG_R0 | ARM_REG_R1 | ARM_REG_R2 | ARM_REG_R3
| ARM_REG_R4 | ARM_REG_R5 | ARM_REG_R6 | ARM_REG_R7
| ARM_REG_R8 | ARM_REG_R9 | ARM_REG_R10 | ARM_REG_R11
| ARM_REG_R12
| ARM_REG_other (n : Z).

Definition is_PC (r : arm_reg) : bool :=
  match r with ARM_REG_PC => true | _ => false end.
Definition is_INVALID (r : arm_reg) : bool :=
  match r with ARM_REG_INVALID => true | _ => false end.

(** [arm_shifter], [arm_op_type] and the instruction ids [il_unconditional]
    switches on. *)
Inductive arm_shifter : Type :=
| ARM_SFT_INVALID | ARM_SFT_ASR | ARM_SFT_LSL | ARM_SFT_LSR | ARM_SFT_ROR | ARM_SFT_RRX
| ARM_SFT_other.

Inductive arm_op_type : Type :=
| ARM_OP_INVALID | ARM_OP_REG | ARM_OP_IMM | ARM_OP_MEM | ARM_OP_other.

Inductive arm_insn : Type :=
| ARM_INS_B | ARM_INS_MOV | ARM_INS_ADD | ARM_INS_ADC
| ARM_INS_LDR | ARM_INS_LDRB | ARM_INS_LDRH
| ARM_INS_STR | ARM_INS_STRB | ARM_INS_STRH
| ARM_INS_other.

(** The fields of [cs_arm_op] and [cs_insn] the file reads directly. *)
Record cs_arm_op : Type := {
  op_type : arm_op_type;
  mem_base : arm_reg;
  mem_index : arm_reg;
  shift_type : arm_shifter;
  shift_value : Z
}.

Record cs_insn : Type := {
  id : arm_insn;
  address : Z;
  mnemonic : string;
  update_flags : bool;
  cc : Arm.arm_cc;
  operands : nat -> cs_arm_op
}.

(** Pure IL expressions, as built by the op-builder macros. *)
Inductive RzILOpPure : Type :=
| VARG (v : string)
| VARL (v : string)
| UN (len : Z) (val : Z)
| IL_TRUE
| IL_FALSE
| INV (x : RzILOpPure)
| AND (x y : RzILOpPure)
| XOR (x y : RzILOpPure)
| SHIFTRA (v dist : RzILOpPure)
| SHIFTL0 (v dist : RzILOpPure)
| SHIFTR0 (v dist : RzILOpPure)
| SHIFTR (fill v dist : RzILOpPure)
| LOGOR (x y : RzILOpPure)
| ADD (x y : RzILOpPure)
| SUB (x y : RzILOpPure)
| IS_ZERO (x : RzILOpPure)
| MSB (x : RzILOpPure)
| ITE (c x y : RzILOpPure)
| UNSIGNED (n : Z) (x : RzILOpPure)
| LOAD (addr : RzILOpPure)
| LOADW (n : Z) (addr : RzILOpPure).

(** Effects, as built by [SETG], [SETL], [JMP], [STORE], [STOREW] and the
    [SEQn] macros. *)
Inductive RzILOpEffect : Type :=
| SETG (v : string) (x : RzILOpPure)
| SETL (v : string) (x : RzILOpPure)
| JMP (dst : RzILOpPure)
| STORE (addr x : RzILOpPure)
| STOREW (addr x : RzILOpPure)
| SEQ (es : list RzILOpEffect).

Definition U32 (val : Z) : RzILOpPure := UN 32 val.
(** [DUP] copies an expression. *)
Definition DUP (x : RzILOpPure) : RzILOpPure := x.

(** The builders return NULL when handed NULL ([rz_return_val_if_fail], as
    in [write_reg] below): [b1], [b2], [b3] lift a constructor
    accordingly. *)
Definition b1 {A B : Type} (f : A -> B) (x : option A) : option B :=
  match x with Some a => Some (f a) | None => None end.
Definition b2 {A B C : Type} (f : A -> B -> C) (x : option A) (y : option B) : option C :=
  match x, y with Some a, Some b => Some (f a b) | _, _ => None end.
Definition b3 {A B C D : Type} (f : A -> B -> C -> D)
    (x : option A) (y : option B) (z : option C) : option D :=
  match x, y, z with Some a, Some b, Some c => Some (f a b c) | _, _, _ => None end.

(** All effects of a list, if none is NULL. *)
Fixpoint all_present (l : list (option RzILOpEffect)) : option (list RzILOpEffect) :=
  match l with
  | [] => Some []
  | Some e :: r => match all_present r with Some es => Some (e :: es) | None => None end
  | None :: _ => None
  end.

(** [regs_bound_32]: all regs available as global IL variables. *)
Definition regs_bound_32 : list string := [
  "lr"; "sp";
  "vf"; "cf"; "zf"; "nf";
  "r0"; "r1"; "r2"; "r3"; "r4"; "r5"; "r6"; "r7"; "r8"; "r9"; "r10"; "r11"; "r12";
  "q0"; "q1"; "q2"; "q3"; "q4"; "q5"; "q6"; "q7"; "q8"; "q9"; "q10"; "q11"; "q12";
  "q13"; "q14"; "q15" ].

(** [reg_var_name]: variable name for a register given by cs; NULL for a
    register outside the array or in one of its gaps. *)
Definition reg_var_name (reg : arm_reg) : option string :=
  match reg with
  | ARM_REG_LR => Some "lr"
  | ARM_REG_SP => Some "sp"
  | ARM_REG_Q0 => Some "q0"
  | ARM_REG_Q1 => Some "q1"
  | ARM_REG_Q2 => Some "q2"
  | ARM_REG_Q3 => Some "q3"
  | ARM_REG_Q4 => Some "q4"
  | ARM_REG_Q5 => Some "q5"
  | ARM_REG_Q6 => Some "q6"
  | ARM_REG_Q7 => Some "q7"
  | ARM_REG_Q8 => Some "q8"
  | ARM_REG_Q9 => Some "q9"
  | ARM_REG_Q10 => Some "q10"
  | ARM_REG_Q11 => Some "q11"
  | ARM_REG_Q12 => Some "q12"
  | ARM_REG_Q13 => Some "q13"
  | ARM_REG_Q14 => Some "q14"
  | ARM_REG_Q15 => Some "q15"
  | ARM_REG_R0 => Some "r0"
  | ARM_REG_R1 => Some "r1"
  | ARM_REG_R2 => Some "r2"
  | ARM_REG_R3 => Some "r3"
  | ARM_REG_R4 => Some "r4"
  | ARM_REG_R5 => Some "r5"
  | ARM_REG_R6 => Some "r6"
  | ARM_REG_R7 => Some "r7"
  | ARM_REG_R8 => Some "r8"
  | ARM_REG_R9 => Some "r9"
  | ARM_REG_R10 => Some "r10"
  | ARM_REG_R11 => Some "r11"
  | ARM_REG_R12 => Some "r12"
  | ARM_REG_INVALID | ARM_REG_PC | ARM_REG_other _ => None
  end.

(** [read_reg]: IL to read the given capstone reg. *)
Definition read_reg (addr : Z) (reg : arm_reg) : option RzILOpPure :=
  if is_PC reg then Some (U32 addr)
  else
    match reg_var_name reg with
    | Some var => Some (VARG var)
    | None => None
    end.

(** [write_reg]: IL to write the given capstone reg. *)
Definition write_reg (reg : arm_reg) (v : option RzILOpPure) : option RzILOpEffect :=
  match v with
  | None => None
  | Some v =>
      match reg_var_name reg with
      | Some var => Some (SETG var v)
      | None => None
      end
  end.

(** [shift]; [dist] is a [ut8]. *)
Definition shift (val : option RzILOpPure) (type : arm_shifter) (dist : Z)
  : option RzILOpPure :=
  match type with
  | ARM_SFT_ASR => b2 SHIFTRA val (Some (UN 5 dist))
  | ARM_SFT_LSL => b2 SHIFTL0 val (Some (UN 5 dist))
  | ARM_SFT_LSR => b2 SHIFTR0 val (Some (UN 5 dist))
  | ARM_SFT_ROR =>
      b2 LOGOR
        (b2 SHIFTR0 val (Some (UN 5 dist)))
        (b2 SHIFTL0 (b1 DUP val) (Some (UN 5 (Avr.ut64 (32 - dist)))))
  | ARM_SFT_RRX => b3 SHIFTR (Some (VARG "cf")) val (Some (UN 5 1))
  | _ => val
  end.

Section Lifters.
(** The operand accessors of [arm_accessors32.h] are outside the files
    embedded here: they are parameters, each a function of the instruction
    and the operand index. *)
Variable ISREG : cs_insn -> nat -> bool.
Variable ISIMM : cs_insn -> nat -> bool.
Variable ISMEM : cs_insn -> nat -> bool.
Variable REGID : cs_insn -> nat -> arm_reg.
(** [IMM] is a [ut32], [MEMDISP] an [int]. *)
Variable IMM : cs_insn -> nat -> Z.
Variable MEMDISP : cs_insn -> nat -> Z.
Variable OPCOUNT : cs_insn -> Z.

(** The sequence builders ([rz_il_op_new_seq], [rz_il_op_new_seqn]) are
    outside too.  Handed effects that are all present they build the
    sequence; what they return when one of them is NULL is the parameter
    [seq_with_null]. *)
Variable seq_with_null : list (option RzILOpEffect) -> option RzILOpEffect.

Definition SEQN (l : list (option RzILOpEffect)) : option RzILOpEffect :=
  match all_present l with
  | Some es => Some (SEQ es)
  | None => seq_with_null l
  end.

(** [REG(n)], [MEMBASE(x)], [MEMINDEX(x)] *)
Definition REG (insn : cs_insn) (n : nat) : option RzILOpPure :=
  read_reg (address insn) (REGID insn n).
Definition MEMBASE (insn : cs_insn) (x : nat) : option RzILOpPure :=
  read_reg (address insn) (mem_base (operands insn x)).
Definition MEMINDEX (insn : cs_insn) (x : nat) : option RzILOpPure :=
  read_reg (address insn) (mem_index (operands insn x)).

(** [arg]: IL to retrieve the value of the [n]-th arg of [insn].  The second
    component is what is left in [*carry_out] ([want_carry] tells whether
    the pointer was given): the carry value, or NULL if it does not
    change. *)
Definition arg (insn : cs_insn) (n : nat) (want_carry : bool)
  : option RzILOpPure * option RzILOpPure :=
  let op := operands insn n in
  match op_type op with
  | ARM_OP_REG => (REG insn n, None)
  | ARM_OP_IMM =>
      let imm := Avr.ut32 (IMM insn n) in
      let carry_out :=
        if want_carry && (ISIMM insn (n + 1) || (imm >? 0xff))
        then Some (if Z.testbit imm 31 then IL_TRUE else IL_FALSE)
        else None in
      (Some (U32 imm), carry_out)
  | ARM_OP_MEM =>
      let addr := MEMBASE insn n in
      let disp := MEMDISP insn n in
      let addr :=
        if disp >? 0 then b2 ADD addr (Some (U32 (Avr.ut64 disp)))
        else if disp <? 0 then b2 SUB addr (Some (U32 (Avr.ut64 (- disp))))
        else addr in
      let addr :=
        if negb (is_INVALID (mem_index op))
        then b2 ADD addr (shift (MEMINDEX insn n) (shift_type op) (Avr.ut8 (shift_value op)))
        else addr in
      (addr, None)
  | _ => (None, None)
  end.

(** [ARG(n)] *)
Definition ARG (insn : cs_insn) (n : nat) : option RzILOpPure := fst (arg insn n false).

(** [update_flags_zn]: zf := v == 0, nf := msb v *)
Definition update_flags_zn (v : option RzILOpPure) : option RzILOpEffect :=
  SEQN [ b1 (SETG "zf") (b1 IS_ZERO v);
         b1 (SETG "nf") (b1 MSB (b1 DUP v)) ].

(** [mov]: mov, movs *)
Definition mov (insn : cs_insn) : option RzILOpEffect :=
  if negb (ISREG insn 0) || (negb (ISIMM insn 1) && negb (ISREG insn 1)) then None else
  let flags := update_flags insn in
  let '(val, carry) := arg insn 1 flags in
  match val with
  | None => None
  | Some v =>
      if is_PC (REGID insn 0) then
        (if update_flags insn then None else Some (JMP v))
      else
        match write_reg (REGID insn 0) (Some v) with
        | None => None
        | Some eff =>
            if flags then
              let zn := update_flags_zn (Some (DUP v)) in
              match carry with
              | Some c => SEQN [Some eff; Some (SETG "cf" c); zn]
              | None => SEQN [Some eff; zn]
              end
            else Some eff
        end
  end.

(** [add]: add, adds, adc, adcs *)
Definition add (insn : cs_insn) : option RzILOpEffect :=
  if negb (ISREG insn 0) then None else
  let a := ARG insn (if OPCOUNT insn >? 2 then 1 else 0)%nat in
  let b := ARG insn (if OPCOUNT insn >? 2 then 2 else 1)%nat in
  match a, b with
  | Some a, Some b =>
      let res := ADD a b in
      let with_carry := match id insn with ARM_INS_ADC => true | _ => false end in
      let res := if with_carry then ADD res (ITE (VARG "cf") (U32 1) (U32 0)) else res in
      if is_PC (REGID insn 0) then
        (if update_flags insn then None else Some (JMP res))
      else
        let set := write_reg (REGID insn 0) (Some res) in
        let flags := update_flags insn in
        let flags :=
          if Avr.strcmp (mnemonic insn) "adc" =? 0 then false else flags in
        if flags then
          let extended_res := ADD (UNSIGNED 33 (VARL "a")) (UNSIGNED 33 (VARL "b")) in
          let extended_res :=
            if with_carry then ADD extended_res (ITE (VARG "cf") (UN 33 1) (UN 33 0))
            else extended_res in
          SEQN [ Some (SETL "a" (DUP a));
                 Some (SETL "b" (DUP b));
                 set;
                 Some (SETG "cf" (MSB extended_res));
                 b1 (SETG "vf")
                    (b2 AND (Some (INV (XOR (MSB (VARL "a")) (MSB (VARL "b")))))
                            (b2 XOR (Some (MSB (VARL "a"))) (b1 MSB (REG insn 0))));
                 update_flags_zn (REG insn 0) ]
        else set
  | _, _ => None
  end.

(** [ldr]: ldr, ldrb, ldrh *)
Definition ldr (insn : cs_insn) : option RzILOpEffect :=
  if negb (ISREG insn 0) || negb (ISMEM insn 1) then None else
  match ARG insn 1 with
  | None => None
  | Some addr =>
      let data :=
        match id insn with
        | ARM_INS_LDRB => UNSIGNED 32 (LOAD addr)
        | ARM_INS_LDRH => UNSIGNED 32 (LOADW 16 addr)
        | _ => LOADW 32 addr
        end in
      if is_PC (REGID insn 0) then Some (JMP data)
      else write_reg (REGID insn 0) (Some data)
  end.

(** [str]: str, strb, strh *)
Definition str (insn : cs_insn) : option RzILOpEffect :=
  if negb (ISREG insn 0) || negb (ISMEM insn 1) then None else
  match ARG insn 1 with
  | None => None
  | Some addr =>
      match ARG insn 0 with
      | None => None
      | Some val =>
          Some match id insn with
               | ARM_INS_STRB => STORE addr (UNSIGNED 8 val)
               | ARM_INS_STRH => STOREW addr (UNSIGNED 16 val)
               | _ => STOREW addr val
               end
      end
  end.

(** [il_unconditional] *)
Definition il_unconditional (insn : cs_insn) : option RzILOpEffect :=
  match id insn with
  | ARM_INS_B => b1 JMP (ARG insn 0)
  | ARM_INS_MOV => mov insn
  | ARM_INS_ADD | ARM_INS_ADC => add insn
  | ARM_INS_LDR | ARM_INS_LDRB | ARM_INS_LDRH => ldr insn
  | ARM_INS_STR | ARM_INS_STRB | ARM_INS_STRH => str insn
  | ARM_INS_other => None
  end.

(** [rz_arm_cs_32_il] on an instruction: the unconditional effect, wrapped
    by the guard of the instruction's condition code. *)
Definition rz_arm_cs_32_il_insn (insn : cs_insn)
  : option (Arm.RzILOpEffect RzILOpEffect) :=
  Arm.rz_arm_cs_32_il (il_unconditional insn) (cc insn).

End Lifters.

End ArmIL.

(* ================================================================= *)
(** ** Vocabulary of the ARM lifter's properties *)

Module ArmILAux.
Import ArmIL.

(** The four flag variables. *)
Definition flag_names : list string := ["vf"; "cf"; "zf"; "nf"].

(** Global and local variables read by a pure expression. *)
Fixpoint pure_globals (x : RzILOpPure) : list string :=
  match x with
  | VARG v => [v]
  | VARL _ | UN _ _ | IL_TRUE | IL_FALSE => []
  | INV a | IS_ZERO a | MSB a | UNSIGNED _ a | LOAD a | LOADW _ a => pure_globals a
  | AND a b | XOR a b | SHIFTRA a b | SHIFTL0 a b | SHIFTR0 a b
  | LOGOR a b | ADD a b | SUB a b => pure_globals a ++ pure_globals b
  | SHIFTR a b c | ITE a b c => pure_globals a ++ pure_globals b ++ pure_globals c
  end.

Fixpoint pure_locals (x : RzILOpPure) : list string :=
  match x with
  | VARL v => [v]
  | VARG _ | UN _ _ | IL_TRUE | IL_FALSE => []
  | INV a | IS_ZERO a | MSB a | UNSIGNED _ a | LOAD a | LOADW _ a => pure_locals a
  | AND a b | XOR a b | SHIFTRA a b | SHIFTL0 a b | SHIFTR0 a b
  | LOGOR a b | ADD a b | SUB a b => pure_locals a ++ pure_locals b
  | SHIFTR a b c | ITE a b c => pure_locals a ++ pure_locals b ++ pure_locals c
  end.

(** Global variables an effect reads or assigns, and those it assigns, in
    program order. *)
Fixpoint eff_globals (e : RzILOpEffect) : list string :=
  match e with
  | SETG v x => v :: pure_globals x
  | SETL _ x | JMP x => pure_globals x
  | STORE a x | STOREW a x => pure_globals a ++ pure_globals x
  | SEQ es => flat_map eff_globals es
  end.

Fixpoint eff_writes (e : RzILOpEffect) : list string :=
  match e with
  | SETG v _ => [v]
  | SETL _ _ | JMP _ | STORE _ _ | STOREW _ _ => []
  | SEQ es => flat_map eff_writes es
  end.

(** Does the effect store to memory, does it jump. *)
Fixpoint eff_stores (e : RzILOpEffect) : bool :=
  match e with
  | STORE _ _ | STOREW _ _ => true
  | SETG _ _ | SETL _ _ | JMP _ => false
  | SEQ es => existsb eff_stores es
  end.

(** Local variables in scope after an effect that starts with the locals
    [defd] in scope; [None] if the effect reads a local that is not. *)
Fixpoint scoped (defd : list string) (e : RzILOpEffect) : option (list string) :=
  let ok x := forallb (fun v => existsb (String.eqb v) defd) (pure_locals x) in
  match e with
  | SETG _ x | JMP x => if ok x then Some defd else None
  | SETL v x => if ok x then Some (v :: defd) else None
  | STORE a x | STOREW a x => if ok a && ok x then Some defd else None
  | SEQ es =>
      fold_left (fun acc e' => match acc with Some d => scoped d e' | None => None end)
                es (Some defd)
  end.

(** The same for the guarded effect [rz_arm_cs_32_il] returns. *)
Fixpoint bool_globals (b : Arm.RzILOpBool) : list string :=
  match b with
  | Arm.VARG v => [v]
  | Arm.INV x => bool_globals x
  | Arm.AND x y | Arm.OR x y | Arm.XOR x y => bool_globals x ++ bool_globals y
  end.

Fixpoint guarded_globals (e : Arm.RzILOpEffect RzILOpEffect) : list string :=
  match e with
  | Arm.EFF e' => eff_globals e'
  | Arm.NOP => []
  | Arm.BRANCH c t f => bool_globals c ++ guarded_globals t ++ guarded_globals f
  end.

Fixpoint guarded_scoped (e : Arm.RzILOpEffect RzILOpEffect) : bool :=
  match e with
  | Arm.EFF e' => match scoped [] e' with Some _ => true | None => false end
  | Arm.NOP => true
  | Arm.BRANCH _ t f => guarded_scoped t && guarded_scoped f
  end.

(** The accessors as plain field reads of a sample operand table, for the
    closed examples. *)
Record sample_op : Type := {
  s_type : arm_op_type;
  s_reg : arm_reg;
  s_imm : Z;
  s_base : arm_reg;
  s_index : arm_reg;
  s_disp : Z
}.

Definition sample_none : sample_op :=
  {| s_type := ARM_OP_INVALID; s_reg := ARM_REG_INVALID; s_imm := 0;
     s_base := ARM_REG_INVALID; s_index := ARM_REG_INVALID; s_disp := 0 |}.

Definition sample_insn (i : arm_insn) (name : string) (flags : bool) (c : Arm.arm_cc)
    (ops : list sample_op) : cs_insn :=
  {| id := i; address := 0x8000; mnemonic := name; update_flags := flags; cc := c;
     operands := fun n =>
       let o := nth n ops sample_none in
       {| op_type := s_type o; mem_base := s_base o; mem_index := s_index o;
          shift_type := ARM_SFT_INVALID; shift_value := 0 |} |}.

(** The operand accessors read off a table of sample operands. *)
Definition sample_ISREG (ops : list sample_op) (_ : cs_insn) (n : nat) : bool :=
  match s_type (nth n ops sample_none) with ARM_OP_REG => true | _ => false end.
Definition sample_ISIMM (ops : list sample_op) (_ : cs_insn) (n : nat) : bool :=
  match s_type (nth n ops sample_none) with ARM_OP_IMM => true | _ => false end.
Definition sample_ISMEM (ops : list sample_op) (_ : cs_insn) (n : nat) : bool :=
  match s_type (nth n ops sample_none) with ARM_OP_MEM => true | _ => false end.
Definition sample_REGID (ops : list sample_op) (_ : cs_insn) (n : nat) : arm_reg :=
  s_reg (nth n ops sample_none).
Definition sample_IMM (ops : list sample_op) (_ : cs_insn) (n : nat) : Z :=
  s_imm (nth n ops sample_none).
Definition sample_MEMDISP (ops : list sample_op) (_ : cs_insn) (n : nat) : Z :=
  s_disp (nth n ops sample_none).
Definition sample_OPCOUNT (ops : list sample_op) (_ : cs_insn) : Z :=
  Z.of_nat (List.length ops).

(** A sequence builder that gives up on a NULL argument, for the closed
    examples. *)
Definition sample_seq_with_null (_ : list (option RzILOpEffect)) : option RzILOpEffect := None.

(** The lifters over the sample accessors. *)
Definition sample_lift (ops : list sample_op) (insn : cs_insn) : option RzILOpEffect :=
  il_unconditional (sample_ISREG ops) (sample_ISIMM ops) (sample_ISMEM ops) (sample_REGID ops)
    (sample_IMM ops) (sample_MEMDISP ops) (sample_OPCOUNT ops) sample_seq_with_null insn.

Definition sample_il (ops : list sample_op) (insn : cs_insn)
  : option (Arm.RzILOpEffect RzILOpEffect) :=
  rz_arm_cs_32_il_insn (sample_ISREG ops) (sample_ISIMM ops) (sample_ISMEM ops)
    (sample_REGID ops) (sample_IMM ops) (sample_MEMDISP ops) (sample_OPCOUNT ops)
    sample_seq_with_null insn.

Definition sample_reg (r : arm_reg) : sample_op :=
  {| s_type := ARM_OP_REG; s_reg := r; s_imm := 0;
     s_base := ARM_REG_INVALID; s_index := ARM_REG_INVALID; s_disp := 0 |}.
Definition sample_imm (v : Z) : sample_op :=
  {| s_type := ARM_OP_IMM; s_reg := ARM_REG_INVALID; s_imm := v;
     s_base := ARM_REG_INVALID; s_index := ARM_REG_INVALID; s_disp := 0 |}.

(** "addsne r0, r1, r2" and "movs r3, #0x80000000". *)
Definition ops_adds : list sample_op :=
  [sample_reg ARM_REG_R0; sample_reg ARM_REG_R1; sample_reg ARM_REG_R2].
Definition insn_adds : cs_insn := sample_insn ARM_INS_ADD "adds" true Arm.ARM_CC_NE ops_adds.
Definition ops_movs : list sample_op := [sample_reg ARM_REG_R3; sample_imm 0x80000000].
Definition insn_movs : cs_insn := sample_insn ARM_INS_MOV "movs" true Arm.ARM_CC_AL ops_movs.

(** Membership in a list of names, as a test. *)
Definition mem_str (v : string) (l : list string) : bool := existsb (String.eqb v) l.

(** A list of names all of which are bound registers. *)
Definition bound (l : list string) : Prop :=
  forallb (fun v => mem_str v regs_bound_32) l = true.

(** Is the instruction one of the two [add] lifts. *)
Definition is_add (i : arm_insn) : bool :=
  match i with ARM_INS_ADD | ARM_INS_ADC => true | _ => false end.

Definition is_str (i : arm_insn) : bool :=
  match i with ARM_INS_STR | ARM_INS_STRB | ARM_INS_STRH => true | _ => false end.

(** Does the lift of the instruction go on to assign flags: [mov] on
    [update_flags], [add] on [update_flags] unless the mnemonic is "adc". *)
Definition sets_flags (insn : cs_insn) : bool :=
  match id insn with
  | ARM_INS_MOV => update_flags insn
  | ARM_INS_ADD | ARM_INS_ADC =>
      update_flags insn && negb (Avr.strcmp (mnemonic insn) "adc" =? 0)
  | _ => false
  end.

(** Every assigned name is the destination [dest] or, if [flags], a flag. *)
Definition writes_ok (dest : option string) (flags : bool) (l : list string) : bool :=
  forallb (fun v => match dest with Some n => String.eqb v n | None => false end
                    || (flags && mem_str v flag_names)) l.

(** What the properties below need of one lifted effect of an instruction
    with destination register [dest]: every global it mentions is bound,
    its locals are in scope, it assigns the destination and flags only, and
    it stores to memory exactly if the instruction is a store. *)
Definition facts (dest : arm_reg) (insn : cs_insn) (e : RzILOpEffect) : Prop :=
  bound (eff_globals e) /\
  (exists d, scoped [] e = Some d) /\
  writes_ok (reg_var_name dest) (sets_flags insn) (eff_writes e) = true /\
  eff_stores e = is_str (id insn).

End ArmILAux.

(* ================================================================= *)
(** ** Properties of the ARM32 condition evaluator *)

Module ArmProps.
Import Arm.

(** Apart from LS and LE, [cond] builds exactly the listed expressions. *)
Lemma cond_agrees_with_spec (c : arm_cc) :
  c <> ARM_CC_LS -> c <> ARM_CC_LE -> cond c = spec_cond c.
Proof. destruct c; intros HLS HLE; try reflexivity; congruence. Qed.

(** The always condition produces no guard: the effect is returned as is. *)
Lemma always_is_unguarded {E : Type} (eff : E) :
  cond ARM_CC_AL = None /\ rz_arm_cs_32_il (Some eff) ARM_CC_AL = Some (EFF eff).
Proof. split; reflexivity. Qed.

(** Every other valid code wraps the effect in a branch on its condition. *)
Lemma conditional_is_guarded {E : Type} (eff : E) (c : arm_cc) (b : RzILOpBool) :
  cond c = Some b -> rz_arm_cs_32_il (Some eff) c = Some (BRANCH b (EFF eff) NOP).
Proof. intros H; unfold rz_arm_cs_32_il; rewrite H; reflexivity. Qed.

(** The sibling pairs EQ/NE, HS/LO, MI/PL, VS/VC, GE/LT evaluate to opposite
    values in every flag state. *)
Lemma sibling_codes_are_complementary (s : flags) :
  let v c := option_map (eval s) (cond c) in
  v ARM_CC_NE = option_map negb (v ARM_CC_EQ) /\
  v ARM_CC_LO = option_map negb (v ARM_CC_HS) /\
  v ARM_CC_PL = option_map negb (v ARM_CC_MI) /\
  v ARM_CC_VC = option_map negb (v ARM_CC_VS) /\
  v ARM_CC_GE = option_map negb (v ARM_CC_LT).
Proof. destruct s as [[] [] [] []]; repeat split. Qed.

(** C1 (fails on the code): for LS and LE [cond] conjoins where the listed
    expression disjoins.  With C clear and Z clear (an unsigned "lower"
    outcome) the LS guard built by [cond] is false although (not C) or Z
    holds; with Z set and N = V (an "equal" outcome) the LE guard is false
    although Z or (N xor V) holds.  LS is then not the complement of HI, and
    LE not the complement of GT. *)
Theorem cond_ls_le_conjoin_instead_of_disjoin :
  cond ARM_CC_LS = Some (AND (INV (VARG "cf")) (VARG "zf")) /\
  cond ARM_CC_LE = Some (AND (VARG "zf") (XOR (VARG "nf") (VARG "vf"))) /\
  (let lower := {| Zf := false; Cf := false; Nf := true; Vf := false |} in
   option_map (eval lower) (cond ARM_CC_LS) = Some false /\
   option_map (eval lower) (spec_cond ARM_CC_LS) = Some true /\
   option_map (eval lower) (cond ARM_CC_HI) = Some false) /\
  (let equal := {| Zf := true; Cf := true; Nf := false; Vf := false |} in
   option_map (eval equal) (cond ARM_CC_LE) = Some false /\
   option_map (eval equal) (spec_cond ARM_CC_LE) = Some true /\
   option_map (eval equal) (cond ARM_CC_GT) = Some false).
Proof. repeat split. Qed.

End ArmProps.

(* ================================================================= *)
(** ** Properties of the AVR lifter *)

Module AvrProps.
Import Avr.

Import AvrAux.

(* ----------------------------------------------------------------- *)
(** *** Strings *)

Lemma append_assoc (a b c : string) : (a ++ b) ++ c = a ++ (b ++ c).
Proof. induction a as [|x a IH]; simpl; [reflexivity | now rewrite IH]. Qed.

Lemma esil_ESIL_A (s : string) (o : RzAnalysisOp) : esil (ESIL_A s o) = esil o ++ s.
Proof. reflexivity. Qed.

(* ----------------------------------------------------------------- *)
(** *** Short buffers *)

(** C6: on a buffer shorter than two bytes [avr_op] yields the invalid
    record: size 2 (the architecture minimum), type unknown, and the ESIL
    program ["1,$"], a single trap; it returns -1 and leaves the globals and
    the interpreter alone. *)
Theorem avr_op_short_buffer_is_invalid
    (dis : list Z -> Z -> Z -> bool -> Z * string)
    (analysis : RzAnalysis) (g : Globals) (op : RzAnalysisOp)
    (addr : Z) (buf : list Z) (len : Z) :
  len < 2 ->
  exists r, avr_op dis analysis g op addr buf len = Some r /\
    o_ret r = -1 /\
    size (o_op r) = 2 /\
    esil (o_op r) = "1,$" /\
    type (o_op r) = RZ_ANALYSIS_OP_TYPE_UNK /\
    family (o_op r) = RZ_ANALYSIS_OP_FAMILY_UNKNOWN /\
    addr = Avr.addr (o_op r) /\
    cycles (o_op r) = 1 /\
    eob (o_op r) = true /\
    o_globals r = g /\
    o_esil r = a_esil analysis.
Proof.
  intros Hlen. unfold avr_op.
  assert (Hgt : (len >? 1) = false) by (rewrite Z.gtb_ltb; apply Z.ltb_ge; lia).
  rewrite Hgt. lazy. eexists; split; [reflexivity|]. lazy. repeat split.
Qed.

Lemma avr_op_short_buffer_is_invalid_witness :
  1 < 2 /\
  exists r, avr_op disassembler0 analysis0 globals_init op_zero 0x100 [0x0c] 1 = Some r /\
    o_ret r = -1 /\ size (o_op r) = 2 /\ esil (o_op r) = "1,$" /\
    type (o_op r) = RZ_ANALYSIS_OP_TYPE_UNK /\
    family (o_op r) = RZ_ANALYSIS_OP_FAMILY_UNKNOWN /\
    0x100 = Avr.addr (o_op r) /\ cycles (o_op r) = 1 /\ eob (o_op r) = true /\
    o_globals r = globals_init /\ o_esil r = a_esil analysis0.
Proof.
  split; [lia|].
  apply (avr_op_short_buffer_is_invalid disassembler0 analysis0 globals_init op_zero 0x100 [0x0c] 1).
  lia.
Defined.

(* ----------------------------------------------------------------- *)
(** *** Cycle counts *)

(** C3 (fails on the code): ELPM r0 (bytes 06 90) matches descriptor 27,
    whose default cycle count is 0 and whose handler sets none.  The engine
    reacts to the non-positive count by storing 2 into the descriptor, not
    into the op: the first decode returns 0 cycles, and only the next decode
    of the same bytes returns 2. *)
Theorem elpm_first_decode_returns_zero_cycles
    (analysis : RzAnalysis) (cpu : nat) (reg : Registry) (op : RzAnalysisOp) (addr : Z) :
  let g := {| registry := reg; opcodes_g := opcodes |} in
  exists r1 r2,
    avr_op_analyze (analyze_fuel 2) analysis cpu g op addr [0x06; 0x90] 2 = Some r1 /\
    r_desc r1 = Some 27%nat /\
    cycles (r_op r1) = 0 /\
    option_map d_cycles (nth_error opcodes 27) = Some 0 /\
    option_map d_cycles (nth_error (opcodes_g (r_globals r1)) 27) = Some 2 /\
    avr_op_analyze (analyze_fuel 2) analysis cpu (r_globals r1) op addr [0x06; 0x90] 2 = Some r2 /\
    cycles (r_op r2) = 2.
Proof.
  intros g. eexists. eexists.
  split; [vm_compute; reflexivity|].
  split; [reflexivity|]. split; [reflexivity|]. split; [reflexivity|].
  split; [reflexivity|]. split; [vm_compute; reflexivity|]. reflexivity.
Qed.

(* ----------------------------------------------------------------- *)
(** *** Call handlers *)

(** [CPU_PC_SIZE] is the program-counter width in bytes, rounded up. *)
Lemma CPU_PC_SIZE_is_ceiling (m : CPU_MODEL) : CPU_PC_SIZE m = (pc m + 7) / 8.
Proof.
  unfold CPU_PC_SIZE, truthy.
  change 0x07 with (Z.ones 3). rewrite Z.land_ones by lia.
  rewrite Z.shiftr_div_pow2 by lia. change (2 ^ 3) with 8. change (Z.ones 3) with 7.
  destruct (Z.eqb_spec (pc m mod 8) 0); cbn [negb];
    Z.div_mod_to_equations; lia.
Qed.

Lemma generic_push_text (op : RzAnalysisOp) (n : Z) :
  esil (__generic_push op n) = esil op ++ push_text n /\
  set_esil "" (__generic_push op n) = set_esil "" op.
Proof.
  unfold __generic_push, push_text. destruct (n >? 1); cbn [esil ESIL_A set_esil];
    rewrite ?append_assoc; split; reflexivity.
Qed.

(** C8 fails as stated: the CALL handler returns at once when fewer than
    four bytes are available.  On the first three bytes of CALL 0x1234
    (0e 94 34) the decoder selects the CALL descriptor and the handler
    pushes nothing and emits no jump: the expression stays empty and the
    jump target stays at the decoder's default. *)
Lemma truncated_call_pushes_nothing :
  let r := avr_op_analyze (analyze_fuel 3) analysis0 7 globals_init op_zero 0x100
             [0x0e; 0x94; 0x34] 3 in
  option_map r_desc r = Some (Some 49%nat) /\
  option_map (fun x => d_name x) (nth_error opcodes 49) = Some "call" /\
  option_map (fun x => esil (r_op x)) r = Some "" /\
  option_map (fun x => jump (r_op x)) r = Some UT64_MAX /\
  (pc (model_at cpu_models 7) + 7) / 8 = 2.
Proof.
  split; [vm_compute; reflexivity|]. split; [reflexivity|].
  split; [vm_compute; reflexivity|]. split; [vm_compute; reflexivity|].
  reflexivity.
Qed.

(** C8 (as amended): the RCALL handler given its two bytes, the CALL handler
    given its four bytes, and the ICALL and EICALL handlers always (they
    read no operand bytes) emit ["pc,"], then the push of exactly
    ceil(pc/8) bytes (store width and stack adjustment both equal to it),
    and only then the jump to the target.  Given fewer than four bytes the
    CALL handler leaves the op as it found it, and so does the RCALL handler
    given fewer than two. *)
Theorem call_handlers_push_pc_size_bytes
    (analysis : RzAnalysis) (ms : list CPU_MODEL) (cpui : nat)
    (buf : list Z) (len : Z) (op : RzAnalysisOp) :
  let n := (pc (model_at ms cpui) + 7) / 8 in
  let o_call := _inst__call ms cpui buf len op in
  let o_rcall := _inst__rcall ms cpui buf len op in
  let o_icall := _inst__icall analysis ms cpui op in
  let o_eicall := _inst__eicall analysis ms cpui op in
  CPU_PC_SIZE (model_at ms cpui) = n /\
  (4 <= len ->
   esil o_call = esil op ++ "pc," ++ push_text n ++ fmt_lld (jump o_call) ++ ",pc,=,") /\
  (len < 4 -> o_call = op) /\
  (2 <= len ->
   esil o_rcall = esil op ++ "pc," ++ push_text n ++ fmt_lld (jump o_rcall) ++ ",pc,=,") /\
  (len < 2 -> o_rcall = op) /\
  esil o_icall = esil op ++ "pc," ++ push_text n ++ "1,z,<<,pc,=," /\
  esil o_eicall = esil op ++ "pc," ++ push_text n ++ "1,z,16,eind,<<,+,<<,pc,=,".
Proof.
  intros n o_call o_rcall o_icall o_eicall.
  pose proof (CPU_PC_SIZE_is_ceiling (model_at ms cpui)) as Hn. fold n in Hn.
  split; [exact Hn|].
  subst o_call o_rcall o_icall o_eicall.
  unfold _inst__call, _inst__rcall, _inst__icall, _inst__eicall, _inst__ijmp, _inst__eijmp.
  rewrite Hn.
  split; [|split; [|split; [|split; [|split]]]].
  - intros Hlen. rewrite (proj2 (Z.ltb_ge len 4) Hlen).
    destruct (STR_BEGINS _ _ =? 0);
      cbn [esil ESIL_A set_esil set_cycles set_jump set_fail jump];
      rewrite (proj1 (generic_push_text _ _));
      cbn [esil ESIL_A set_esil set_cycles set_jump set_fail jump];
      rewrite ?append_assoc; reflexivity.
  - intros Hlen. rewrite (proj2 (Z.ltb_lt len 4) Hlen). reflexivity.
  - intros Hlen. rewrite (proj2 (Z.ltb_ge len 2) Hlen).
    destruct (rz_str_ncasecmp _ _ _ =? 0); [|destruct (STR_BEGINS _ _ =? 0)];
      cbn [esil ESIL_A set_esil set_cycles set_jump set_fail jump];
      rewrite (proj1 (generic_push_text _ _));
      cbn [esil ESIL_A set_esil set_cycles set_jump set_fail jump];
      rewrite ?append_assoc; reflexivity.
  - intros Hlen. rewrite (proj2 (Z.ltb_lt len 2) Hlen). reflexivity.
  - destruct (STR_BEGINS _ _ =? 0);
      cbn [esil ESIL_A set_esil set_cycles set_jump set_fail jump];
      rewrite (proj1 (generic_push_text _ _));
      cbn [esil ESIL_A set_esil set_cycles set_jump set_fail jump];
      rewrite ?append_assoc; reflexivity.
  - cbn [esil ESIL_A set_esil set_cycles set_jump set_fail jump];
      rewrite (proj1 (generic_push_text _ _));
      cbn [esil ESIL_A set_esil set_cycles set_jump set_fail jump];
      rewrite ?append_assoc; reflexivity.
Qed.

Lemma call_handlers_push_pc_size_bytes_witness :
  esil (_inst__call cpu_models 4 [0x0e; 0x94; 0x34; 0x12] 4
          (set_size 4 (set_addr 0x100 op_zero)))
  = "pc,sp,_ram,+,-2,+,=[3],-3,sp,+=,9320,pc,=," /\
  esil (_inst__rcall cpu_models 4 [0x0e; 0x94; 0x34; 0x12] 4
          (set_size 4 (set_addr 0x100 op_zero)))
  = "pc,sp,_ram,+,-2,+,=[3],-3,sp,+=,2334,pc,=,".
Proof.
  pose proof (call_handlers_push_pc_size_bytes analysis0 cpu_models 4
                [0x0e; 0x94; 0x34; 0x12] 4 (set_size 4 (set_addr 0x100 op_zero)))
    as (_ & Hcall & _ & Hrcall & _).
  split.
  - exact (Hcall ltac:(lia)).
  - exact (Hrcall ltac:(lia)).
Defined.

(* ----------------------------------------------------------------- *)
(** *** The DES round operation *)

Section Des.
Variable get_parm : RzAnalysisEsil -> string -> option Z.
Variable permute_key : Z * Z -> Z * Z.
Variable shift_key : Z -> bool -> Z * Z -> Z * Z.
Variable pc2 : Z * Z -> Z * Z.
Variable permute_block0 : Z * Z -> Z * Z.
Variable round : Z * Z -> Z * Z -> Z * Z.
Variable permute_block1 : Z * Z -> Z * Z.
Variable permute_key_inv : Z * Z -> Z * Z.

Abbreviation des := (avr_custom_des get_parm permute_key shift_key pc2 permute_block0
                   round permute_block1 permute_key_inv).

Ltac split_pairs :=
  repeat match goal with
         | |- context [let '(_, _) := ?x in _] => destruct x
         end.

(** Popping changes the operand stack only. *)
Lemma pop_argument_keeps_regs_and_mem (e : RzAnalysisEsil) :
  let '(_, _, e') := __esil_pop_argument get_parm e in
  regs e' = regs e /\ mem e' = mem e.
Proof.
  unfold __esil_pop_argument, rz_analysis_esil_pop.
  destruct (stack e) as [|t r]; [split; reflexivity|].
  cbn. destruct (get_parm _ t); split; reflexivity.
Qed.

(** When the pop fails, or the popped value converted to [int] lies outside
    0..15, the operation fails and has written no register and no memory. *)
Lemma des_failure_writes_nothing (sane : bool) (e : RzAnalysisEsil) :
  let '(ok, arg, _) := __esil_pop_argument get_parm e in
  ok = false \/ to_int arg < 0 \/ 15 < to_int arg ->
  fst (des sane e) = false /\
  regs (snd (des sane e)) = regs e /\ mem (snd (des sane e)) = mem e.
Proof.
  pose proof (pop_argument_keeps_regs_and_mem e) as Hpop.
  unfold avr_custom_des.
  destruct (__esil_pop_argument get_parm e) as [[ok arg] e'].
  destruct Hpop as [Hr Hm]. intros H.
  destruct sane; cbn [negb]; [|repeat split].
  destruct ok; cbn [negb]; [|repeat split; assumption].
  destruct H as [H|H]; [discriminate|].
  assert (Hc : ((to_int arg <? 0) || (to_int arg >? 15))%bool = true).
  { apply orb_true_iff. rewrite Z.gtb_ltb, !Z.ltb_lt. exact H. }
  rewrite Hc. repeat split; assumption.
Qed.

(** When the pop succeeds and the converted value lies in 0..15, the
    operation succeeds. *)
Lemma des_success (e : RzAnalysisEsil) :
  let '(ok, arg, _) := __esil_pop_argument get_parm e in
  ok = true -> 0 <= to_int arg <= 15 -> fst (des true e) = true.
Proof.
  unfold avr_custom_des.
  destruct (__esil_pop_argument get_parm e) as [[ok arg] e'].
  intros Hok Hr. subst ok. cbn [negb].
  assert (Hc : ((to_int arg <? 0) || (to_int arg >? 15))%bool = false).
  { apply orb_false_iff. rewrite Z.gtb_ltb, !Z.ltb_ge. lia. }
  rewrite Hc. split_pairs. destruct (arg <? 15); split_pairs; reflexivity.
Qed.

End Des.

(** C10 (fails on the code): the popped 64-bit value is narrowed to [int]
    before the range test.  The operand 4294967299 (2^32 + 3) is outside
    0..15, yet it is taken for round 3: the operation reports success and
    goes on to write the sixteen registers. *)
Theorem des_accepts_round_index_beyond_32_bits
    (permute_key : Z * Z -> Z * Z) (shift_key : Z -> bool -> Z * Z -> Z * Z)
    (pc2 permute_block0 : Z * Z -> Z * Z) (round : Z * Z -> Z * Z -> Z * Z)
    (permute_block1 permute_key_inv : Z * Z -> Z * Z)
    (r : string -> Z) (m : Z -> Z) :
  let e := {| stack := ["4294967299"]; regs := r; mem := m |} in
  __esil_pop_argument decimal_parm e
    = (true, 4294967299, {| stack := []; regs := r; mem := m |}) /\
  ~ (0 <= 4294967299 <= 15) /\
  to_int 4294967299 = 3 /\
  fst (avr_custom_des decimal_parm permute_key shift_key pc2 permute_block0
         round permute_block1 permute_key_inv true e) = true.
Proof.
  intros e. split; [reflexivity|]. split; [lia|]. split; [reflexivity|].
  pose proof (des_success decimal_parm permute_key shift_key pc2 permute_block0
                round permute_block1 permute_key_inv e) as H.
  change (__esil_pop_argument decimal_parm e)
    with (true, 4294967299, {| stack := []; regs := r; mem := m |}) in H.
  apply H; [reflexivity|]. change (to_int 4294967299) with 3. lia.
Qed.

(* ----------------------------------------------------------------- *)
(** *** The CPU registry *)

Lemma casecmp_zero (a b : string) : rz_str_casecmp a b = 0 <-> lower a = lower b.
Proof.
  unfold rz_str_casecmp. destruct (String.eqb_spec (lower a) (lower b)); split; intros; try easy.
Qed.

Lemma get_cpu_model_S (f : nat) (g : Registry) (name : string) :
  get_cpu_model (S f) g name =
  if match cached g with
     | Some c => rz_str_casecmp name (model (model_at (models g) c)) =? 0
     | None => false
     end
  then Some (cached g, g)
  else match __get_cpu_model_recursive f g name with
       | None => None
       | Some (cpu, g') => Some (cpu, {| models := models g'; cached := cpu; errlog := errlog g' |})
       end.
Proof. reflexivity. Qed.

Lemma get_cpu_model_recursive_S (f : nat) (g : Registry) (name : string) :
  __get_cpu_model_recursive (S f) g name = fix_inheritance f g (find_model (models g) name 0).
Proof. reflexivity. Qed.

Ltac bools8 rs H :=
  destruct rs as [|?r0 [|?r1 [|?r2 [|?r3 [|?r4 [|?r5 [|?r6 [|?r7 [|? ?]]]]]]]]];
  try discriminate H.

Lemma find_model_static (rs : list bool) (name : string) :
  List.length rs = 8%nat -> find_model (resolved_by rs) name 0 = find_model cpu_models name 0.
Proof.
  intros H. bools8 rs H.
  destruct r0, r1, r2, r3, r4, r5, r6, r7; reflexivity.
Qed.

Lemma find_model_bound (name : string) : (find_model cpu_models name 0 < 8)%nat.
Proof.
  unfold find_model, cpu_models; cbn [model].
  repeat match goal with |- context [if ?b then _ else _] => destruct b end; lia.
Qed.

(** A name that matches model [c] is found at [c]: the names are pairwise
    distinct, also up to case. *)
Lemma find_model_hit (name : string) (c : nat) :
  (c < 8)%nat -> rz_str_casecmp name (model (model_at cpu_models c)) = 0 ->
  find_model cpu_models name 0 = c.
Proof.
  intros Hc H. apply casecmp_zero in H.
  unfold find_model, cpu_models, rz_str_casecmp; cbn [model].
  destruct c as [|[|[|[|[|[|[|[|c]]]]]]]]; try lia; cbn in H; rewrite H; reflexivity.
Qed.

(** Once the search loop has ended at [i], the lookup returns [i], fills in
    the back-pointer of [i], caches [i] and logs nothing. *)
Lemma search_from_index_explicit (r2 r3 r4 r5 r6 : bool) (c : option nat)
    (lg : list string) (i f : nat) :
  (i < 8)%nat -> match c with Some k => (k < 8)%nat | None => True end ->
  let ms := resolved_by [false; false; r2; r3; r4; r5; r6; false] in
  search_from_index (S (S f)) {| models := ms; cached := c; errlog := lg |} i
  = Some (Some i,
          {| models := update_at i (set_inherit_cpu_p (static_parent (model_at cpu_models i))) ms;
             cached := Some i; errlog := lg |}).
Proof.
  intros Hi Hc ms. subst ms.
  destruct i as [|[|[|[|[|[|[|[|i]]]]]]]]; try lia; clear Hi;
  (destruct c as [[|[|[|[|[|[|[|[|c]]]]]]]]|]; try lia; clear Hc);
  destruct r2, r3, r4, r5, r6; vm_compute; reflexivity.
Qed.

Lemma resolved_by_normal (r0 r1 r2 r3 r4 r5 r6 r7 : bool) :
  resolved_by [r0; r1; r2; r3; r4; r5; r6; r7]
  = resolved_by [false; false; r2; r3; r4; r5; r6; false].
Proof. destruct r0, r1, r7; reflexivity. Qed.

Lemma update_resolved (r2 r3 r4 r5 r6 : bool) (i : nat) :
  (i < 8)%nat ->
  let ms := resolved_by [false; false; r2; r3; r4; r5; r6; false] in
  let ms' := update_at i (set_inherit_cpu_p (static_parent (model_at cpu_models i))) ms in
  (exists rs, List.length rs = 8%nat /\ ms' = resolved_by rs) /\
  inherit_cpu_p (model_at ms' i) = static_parent (model_at cpu_models i) /\
  (inherit_cpu_p (model_at ms i) = static_parent (model_at cpu_models i) -> ms' = ms).
Proof.
  intros Hi ms ms'. subst ms ms'.
  destruct i as [|[|[|[|[|[|[|[|i]]]]]]]]; try lia; clear Hi;
  (split; [| split; [destruct r2, r3, r4, r5, r6; reflexivity
                    | destruct r2, r3, r4, r5, r6; intros H; try reflexivity; discriminate H]]).
  all: first
    [ exists [false; false; r2; r3; r4; r5; r6; false]; split; [reflexivity|];
      destruct r2, r3, r4, r5, r6; reflexivity
    | exists [false; false; true; r3; r4; r5; r6; false]; split; [reflexivity|];
      destruct r2, r3, r4, r5, r6; reflexivity
    | exists [false; false; r2; true; r4; r5; r6; false]; split; [reflexivity|];
      destruct r2, r3, r4, r5, r6; reflexivity
    | exists [false; false; r2; r3; true; r5; r6; false]; split; [reflexivity|];
      destruct r2, r3, r4, r5, r6; reflexivity
    | exists [false; false; r2; r3; r4; true; r6; false]; split; [reflexivity|];
      destruct r2, r3, r4, r5, r6; reflexivity
    | exists [false; false; r2; r3; r4; r5; true; false]; split; [reflexivity|];
      destruct r2, r3, r4, r5, r6; reflexivity ].
Qed.

(** [get_cpu_model] from any reachable registry: the result is the index
    the name selects in the static table, whatever is cached; the returned
    model has its back-pointer filled in; nothing is logged. *)
Lemma get_cpu_model_resolves (fuel : nat) (g : Registry) (name : string) :
  wf_registry g -> (4 <= fuel)%nat ->
  let i := find_model cpu_models name 0 in
  exists g', get_cpu_model fuel g name = Some (Some i, g') /\
    wf_registry g' /\
    errlog g' = errlog g /\
    cached g' = Some i /\
    models g' = update_at i (set_inherit_cpu_p (static_parent (model_at cpu_models i))) (models g) /\
    inherit_cpu_p (model_at (models g') i) = static_parent (model_at cpu_models i).
Proof.
  intros [[rs [Hlen Hms]] Hc] Hfuel i.
  destruct g as [ms c lg]; cbn [models cached errlog] in *. subst ms.
  do 4 (destruct fuel as [|fuel]; [lia|]). clear Hfuel.
  pose proof (find_model_bound name) as Hi. fold i in Hi.
  rewrite get_cpu_model_S; cbn [models cached errlog].
  bools8 rs Hlen. clear Hlen.
  rewrite resolved_by_normal in *.
  pose proof (update_resolved r2 r3 r4 r5 r6 i Hi) as [Hwf [Hres Hsame]].
  destruct (match c with
            | Some c0 => rz_str_casecmp name (model (model_at _ c0)) =? 0
            | None => false
            end) eqn:Hhit.
  - (* cache hit *)
    destruct c as [c|]; [|discriminate]. destruct Hc as [Hc Hp].
    apply Z.eqb_eq in Hhit.
    assert (Hci : c = i).
    { symmetry. apply find_model_hit; [exact Hc|].
      revert Hhit. clear -Hc.
      destruct c as [|[|[|[|[|[|[|[|c]]]]]]]]; try lia;
        destruct r2, r3, r4, r5, r6; exact (fun H => H). }
    subst c. rewrite (Hsame Hp) in *.
    eexists. split; [reflexivity|]. cbn [models cached errlog].
    repeat split; try assumption.
  - (* real search *)
    rewrite get_cpu_model_recursive_S; cbn [models].
    rewrite find_model_static by reflexivity. fold i.
    assert (Hck : match c with Some k => (k < 8)%nat | None => True end)
      by (destruct c; [apply Hc | exact I]).
    pose proof (search_from_index_explicit r2 r3 r4 r5 r6 c lg i fuel Hi Hck) as Hs.
    cbv zeta in Hs. unfold search_from_index in Hs.
    destruct (fix_inheritance (S (S fuel)) _ i) as [[cpu g']|]; [|discriminate].
    injection Hs as Hcpu Hg. subst cpu. rewrite Hg.
    eexists. split; [reflexivity|]. cbn [models cached errlog].
    repeat split; try assumption.
Qed.

(** [chain_fuel] on a reachable registry. *)
Lemma chain_fuel_wf (g : Registry) : wf_registry g -> chain_fuel (models g) = 18%nat.
Proof.
  intros [[rs [Hlen Hms]] _]. unfold chain_fuel. rewrite Hms.
  bools8 rs Hlen. reflexivity.
Qed.

(** A name that matches no model selects the last array element. *)
Lemma find_model_unknown (name : string) :
  Forall (fun m => rz_str_casecmp name (model m) <> 0) cpu_models ->
  find_model cpu_models name 0 = 7%nat.
Proof.
  intros H. unfold cpu_models in H.
  repeat match goal with
         | H : Forall _ (_ :: _) |- _ =>
             let H1 := fresh "Hn" in let H2 := fresh "Ht" in
             apply Forall_cons_iff in H; destruct H as [H1 H2]; cbn [model] in H1
         end.
  unfold find_model, cpu_models; cbn [model].
  repeat match goal with
         | Hn : ?x <> 0 |- context [?x =? 0] =>
             rewrite (proj2 (Z.eqb_neq x 0) Hn)
         end.
  reflexivity.
Qed.

(** C5 (as amended): a name that matches no model of the table is not an
    error.  From any reachable registry the lookup returns the last array
    element, the default model ATmega8 - a valid model, not NULL; it logs
    nothing and leaves the model array as it was. *)
Theorem unknown_variant_yields_default_model (g : Registry) (name : string) :
  wf_registry g ->
  Forall (fun m => rz_str_casecmp name (model m) <> 0) cpu_models ->
  exists g', get_cpu_model (chain_fuel (models g)) g name = Some (Some 7%nat, g') /\
    model (model_at (models g') 7) = "ATmega8" /\
    models g' = models g /\
    errlog g' = errlog g /\
    cached g' = Some 7%nat.
Proof.
  intros Hwf Hname.
  pose proof (find_model_unknown name Hname) as H7.
  rewrite (chain_fuel_wf g Hwf).
  destruct (get_cpu_model_resolves 18 g name Hwf ltac:(lia)) as (g' & Hg & Hwf' & Hlog & Hc & Hms & Hp).
  rewrite H7 in *. exists g'. split; [exact Hg|].
  assert (Hsame : models g' = models g).
  { rewrite Hms. destruct Hwf as [[rs [Hlen Hrs]] _]. rewrite Hrs.
    bools8 rs Hlen. destruct r0, r1, r2, r3, r4, r5, r6, r7; reflexivity. }
  repeat split; try assumption.
  rewrite Hsame. destruct Hwf as [[rs [Hlen Hrs]] _]. rewrite Hrs.
  bools8 rs Hlen. destruct r0, r1, r2, r3, r4, r5, r6, r7; reflexivity.
Qed.

Lemma registry_init_wf : wf_registry (registry globals_init).
Proof.
  split; [|exact I]. exists [false; false; false; false; false; false; false; false].
  split; reflexivity.
Qed.

Lemma unknown_variant_yields_default_model_witness :
  exists g', get_cpu_model 18 (registry globals_init) "ATtiny13" = Some (Some 7%nat, g') /\
    model (model_at (models g') 7) = "ATmega8" /\
    models g' = cpu_models /\ errlog g' = [] /\ cached g' = Some 7%nat.
Proof.
  apply (unknown_variant_yields_default_model (registry globals_init) "ATtiny13").
  - exact registry_init_wf.
  - repeat constructor; discriminate.
Defined.

(** C5 fails as stated: for the unknown name "ATtiny13" the lookup does not
    return NULL and does not log; the caller receives model 7, ATmega8. *)
Lemma unknown_variant_is_not_null_nor_logged :
  let r := get_cpu_model 18 (registry globals_init) "ATtiny13" in
  Forall (fun m => rz_str_casecmp "ATtiny13" (model m) <> 0) cpu_models /\
  ~ (exists g', r = Some (None, g')) /\
  ~ (exists p g', r = Some (p, g') /\ errlog g' <> errlog (registry globals_init)) /\
  option_map fst r = Some (Some 7%nat) /\
  option_map (fun x => model (model_at (models (snd x)) 7)) r = Some "ATmega8".
Proof.
  split; [repeat constructor; discriminate|].
  split; [intros [g' H]; vm_compute in H; discriminate|].
  split; [|split; reflexivity].
  intros (p & g' & H & Hl). vm_compute in H. injection H as _ Hg. subst g'.
  apply Hl. reflexivity.
Qed.

(* ----------------------------------------------------------------- *)
(** *** Constant lookup *)

Lemma const_by_name_S (f : nat) (g : Registry) (cpu : nat) (type : Z) (c : string) :
  const_by_name (S f) g cpu type c =
  match scan_consts (fun citem => (strcmp c (key citem) =? 0) && type_ok type citem)
          (consts (model_at (models g) cpu)) with
  | Some citem => Some (Some citem, g)
  | None =>
      match inherit_cpu_p (model_at (models g) cpu) with
      | Some p => const_by_name f g p type c
      | None => Some (None, eprintf (not_found_message c) g)
      end
  end.
Proof. reflexivity. Qed.

Lemma lookup_chain_S (f i : nat) (type : Z) (c : string) :
  lookup_chain (S f) i type c =
  match scan_consts (fun citem => (strcmp c (key citem) =? 0) && type_ok type citem)
          (consts (model_at cpu_models i)) with
  | Some citem => Some citem
  | None =>
      match static_parent (model_at cpu_models i) with
      | Some p => lookup_chain f p type c
      | None => None
      end
  end.
Proof. reflexivity. Qed.

(** In a reachable registry the static fields are those of the table, a
    back-pointer is NULL or the static parent, and parents are roots. *)
Lemma wf_static_facts (g : Registry) (i : nat) :
  wf_registry g ->
  consts (model_at (models g) i) = consts (model_at cpu_models i) /\
  model (model_at (models g) i) = model (model_at cpu_models i) /\
  pc (model_at (models g) i) = pc (model_at cpu_models i) /\
  (inherit_cpu_p (model_at (models g) i) = None \/
   inherit_cpu_p (model_at (models g) i) = static_parent (model_at cpu_models i)) /\
  (forall p, static_parent (model_at cpu_models i) = Some p ->
     (p < 8)%nat /\
     static_parent (model_at cpu_models p) = None /\
     inherit_cpu_p (model_at (models g) p) = None).
Proof.
  intros [[rs [Hlen Hms]] _]. rewrite Hms. clear Hms g.
  bools8 rs Hlen. clear Hlen. rewrite resolved_by_normal.
  destruct i as [|[|[|[|[|[|[|[|[|i]]]]]]]]];
    (split; [destruct r2, r3, r4, r5, r6; reflexivity|]);
    (split; [destruct r2, r3, r4, r5, r6; reflexivity|]);
    (split; [destruct r2, r3, r4, r5, r6; reflexivity|]);
    (split; [destruct r2, r3, r4, r5, r6; (left; reflexivity) || (right; reflexivity)|]);
    intros p Hp; vm_compute in Hp; try discriminate Hp;
    injection Hp as <-; (split; [lia|]); split;
    destruct r2, r3, r4, r5, r6; reflexivity.
Qed.

(** The lookup through a model whose back-pointer has been filled in
    agrees with the static chain walk; it logs exactly when nothing is
    found. *)
Lemma const_by_name_resolved (g1 : Registry) (i : nat) (type : Z) (c : string) :
  wf_registry g1 ->
  inherit_cpu_p (model_at (models g1) i) = static_parent (model_at cpu_models i) ->
  const_by_name 18 g1 i type c
  = Some (lookup_chain 8 i type c,
          match lookup_chain 8 i type c with
          | Some _ => g1
          | None => eprintf (not_found_message c) g1
          end).
Proof.
  intros Hwf1 Hp.
  destruct (wf_static_facts g1 i Hwf1) as (Hconsts & _ & _ & _ & Hpar).
  rewrite !const_by_name_S, Hconsts, Hp, !lookup_chain_S.
  destruct (scan_consts _ (consts (model_at cpu_models i))) as [citem|]; [reflexivity|].
  destruct (static_parent (model_at cpu_models i)) as [p|] eqn:Hsp; [|reflexivity].
  destruct (Hpar p eq_refl) as (Hp8 & Hroot & Hnull).
  destruct (wf_static_facts g1 p Hwf1) as (Hconstsp & _).
  rewrite !const_by_name_S, Hconstsp, Hnull, !lookup_chain_S, Hroot.
  destruct (scan_consts _ (consts (model_at cpu_models p))); reflexivity.
Qed.



(* ----------------------------------------------------------------- *)
(** *** Page erase *)

Lemma land_ldiff_assoc (a b c : Z) : Z.land a (Z.ldiff b c) = Z.ldiff (Z.land a b) c.
Proof.
  apply Z.bits_inj'. intros n Hn.
  rewrite Z.land_spec, !Z.ldiff_spec, Z.land_spec. apply andb_assoc.
Qed.

(** Masking with [ut32 (~MASK(k))] keeps bits k..31: the low 32 bits,
    rounded down to a multiple of 2^k. *)
Lemma align_to_page (a k : Z) :
  0 <= k <= 32 ->
  Z.land a (Z.ldiff (Z.ones 32) (Z.ones k)) = (a mod 2 ^ 32) / 2 ^ k * 2 ^ k.
Proof.
  intros Hk. rewrite land_ldiff_assoc, Z.land_ones by lia.
  rewrite Z.ldiff_ones_r by lia.
  rewrite Z.shiftr_div_pow2, Z.shiftl_mul_pow2 by lia. reflexivity.
Qed.

Section EraseLoop.
Variables (addr pc_mask : Z).
Let target (j : Z) : Z := Z.land (ut64 (addr + j)) pc_mask.

(** The loop writes 0xff at the targets of [i0 .. i0+n-1] and nowhere else;
    it touches neither registers nor stack. *)
Lemma erase_loop_spec (n : nat) :
  forall (i0 : Z) (e : RzAnalysisEsil),
    let e' := erase_loop n i0 addr pc_mask e in
    regs e' = regs e /\ stack e' = stack e /\
    forall a,
      ((exists j, i0 <= j < i0 + Z.of_nat n /\ a = target j) -> mem e' a = 0xff) /\
      (~ (exists j, i0 <= j < i0 + Z.of_nat n /\ a = target j) -> mem e' a = mem e a).
Proof.
  induction n as [|n IH]; intros i0 e; cbn [erase_loop].
  - split; [reflexivity|]. split; [reflexivity|].
    intros a; split; [intros [j [Hj _]]; lia | reflexivity].
  - specialize (IH (i0 + 1) (rz_analysis_esil_mem_write e (Z.land (ut64 (addr + i0)) pc_mask) 255)).
    cbv zeta in IH. destruct IH as (Hr & Hs & Hm).
    split; [rewrite Hr; reflexivity|]. split; [rewrite Hs; reflexivity|].
    intros a. destruct (Hm a) as [Hin Hout]. split.
    + intros [j [Hj Ha]].
      destruct (Z.eq_dec j i0) as [->|Hne].
      * destruct (Z.eqb_spec a (target i0)) as [Heq|Hneq]; [|contradiction].
        assert (Hdec : (exists j, i0 + 1 <= j < i0 + 1 + Z.of_nat n /\ a = target j) \/
                       ~ (exists j, i0 + 1 <= j < i0 + 1 + Z.of_nat n /\ a = target j)).
        { clear. induction n as [|m IHm].
          - right. intros [j [Hj _]]. lia.
          - destruct IHm as [[j [Hj Hja]]|Hno].
            + left. exists j. split; [lia|exact Hja].
            + destruct (Z.eq_dec a (target (i0 + 1 + Z.of_nat m))) as [He|He].
              * left. exists (i0 + 1 + Z.of_nat m). split; [lia|exact He].
              * right. intros [j [Hj Hja]].
                destruct (Z.eq_dec j (i0 + 1 + Z.of_nat m)) as [->|Hj'];
                  [contradiction|]. apply Hno. exists j. split; [lia|exact Hja]. }
        destruct Hdec as [Hd|Hd]; [apply Hin; exact Hd|].
        rewrite (Hout Hd). cbn [mem rz_analysis_esil_mem_write].
        fold (target i0). rewrite Heq, Z.eqb_refl. reflexivity.
      * apply Hin. exists j. split; [lia|exact Ha].
    + intros Hno.
      rewrite Hout.
      * cbn [mem rz_analysis_esil_mem_write]. fold (target i0).
        destruct (Z.eqb_spec a (target i0)) as [Heq|Hneq]; [|reflexivity].
        exfalso. apply Hno. exists i0. split; [lia|exact Heq].
      * intros [j [Hj Ha]]. apply Hno. exists j. split; [lia|exact Ha].
Qed.
End EraseLoop.

Ltac pow_numerals :=
  repeat match goal with
         | |- context [2 ^ ?n] =>
             let v := eval vm_compute in (2 ^ n) in change (2 ^ n) with v
         | H : context [2 ^ ?n] |- _ =>
             let v := eval vm_compute in (2 ^ n) in change (2 ^ n) with v in H
         end.

(** The erase loop for the page sizes and program-counter widths of the
    table: the page of 2^k bytes that holds [A mod 2^w] is filled with 0xff,
    every other byte keeps its value. *)
Lemma erase_page_core (k w A : Z) (e : RzAnalysisEsil) :
  In (k, w) [(7, 15); (7, 16); (7, 17); (5, 8); (5, 13)] ->
  0 <= A < 2 ^ 64 ->
  let e' := erase_loop (Z.to_nat (ut64 (Z.shiftl 1 k))) 0
              (Z.land A (ut32 (Z.lnot (MASK k)))) (MASK w) e in
  let base := (A mod 2 ^ w) / 2 ^ k * 2 ^ k in
  regs e' = regs e /\ stack e' = stack e /\
  forall a, mem e' a = if (base <=? a) && (a <? base + 2 ^ k) then 0xff else mem e a.
Proof.
  intros Hkw HA.
  assert (Hcases : (k = 7 \/ k = 5) /\ (w = 15 \/ w = 16 \/ w = 17 \/ w = 8 \/ w = 13) /\
                   In (k, w) [(7, 15); (7, 16); (7, 17); (5, 8); (5, 13)]) by
    (repeat (destruct Hkw as [Hkw|Hkw]; [injection Hkw as <- <-; cbn; intuition lia|]);
     destruct Hkw).
  clear Hkw. destruct Hcases as (Hk & Hw & _).
  assert (Hmk : ut32 (Z.lnot (MASK k)) = Z.ldiff (Z.ones 32) (Z.ones k))
    by (destruct Hk as [-> | ->]; reflexivity).
  assert (Hmw : MASK w = Z.ones w)
    by (destruct Hw as [-> | [-> | [-> | [-> | ->]]]]; reflexivity).
  assert (Hn : Z.of_nat (Z.to_nat (ut64 (Z.shiftl 1 k))) = 2 ^ k)
    by (destruct Hk as [-> | ->]; reflexivity).
  intros e' base. subst e'.
  rewrite Hmk, Hmw, align_to_page by lia.
  set (addr := A mod 2 ^ 32 / 2 ^ k * 2 ^ k).
  destruct (erase_loop_spec addr (Z.ones w) (Z.to_nat (ut64 (Z.shiftl 1 k))) 0 e)
    as (Hr & Hs & Hm).
  split; [exact Hr|]. split; [exact Hs|]. intros a.
  destruct (Hm a) as [Hin Hout]. rewrite Hn in Hin, Hout.
  assert (Htarget : forall j, 0 <= j < 2 ^ k ->
            Z.land (ut64 (addr + j)) (Z.ones w) = base + j).
  { intros j Hj. rewrite Z.land_ones by lia. unfold ut64. subst addr base.
    destruct Hk as [-> | ->]; destruct Hw as [-> | [-> | [-> | [-> | ->]]]];
      pow_numerals; Z.div_mod_to_equations; lia. }
  destruct ((base <=? a) && (a <? base + 2 ^ k)) eqn:Hb.
  - apply andb_true_iff in Hb. destruct Hb as [H1 H2].
    apply Z.leb_le in H1. apply Z.ltb_lt in H2.
    apply Hin. exists (a - base). split; [lia|].
    rewrite Htarget by lia. lia.
  - apply Hout. intros [j [Hj Ha]]. rewrite Htarget in Ha by lia.
    apply andb_false_iff in Hb. rewrite Z.leb_gt, Z.ltb_ge in Hb.
    assert (0 <= base) by (subst base; destruct Hk as [-> | ->]; pow_numerals;
                           destruct Hw as [-> | [-> | [-> | [-> | ->]]]]; pow_numerals;
                           Z.div_mod_to_equations; lia).
    lia.
Qed.

(** Every model of the table has a page size and a program-counter width
    from the list covered above. *)
Lemma page_geometry (i : nat) :
  (i < 8)%nat ->
  lookup_chain 8 i CPU_CONST_PARAM "page_size" <> None /\
  In (const_get_value (lookup_chain 8 i CPU_CONST_PARAM "page_size"), pc (model_at cpu_models i))
     [(7, 15); (7, 16); (7, 17); (5, 8); (5, 13)].
Proof.
  intros Hi.
  destruct i as [|[|[|[|[|[|[|[|i]]]]]]]]; try lia;
    (split; [vm_compute; discriminate | vm_compute; tauto]).
Qed.

(** The straight-line part of the page erase: pop the address, look the
    variant up, read its page size, and enter the loop. *)
Lemma page_erase_run
    (get_parm : RzAnalysisEsil -> string -> option Z)
    (g : Registry) (name : string) (e : RzAnalysisEsil)
    (t : string) (rest : list string) (A : Z) :
  wf_registry g ->
  stack e = t :: rest ->
  get_parm {| stack := rest; regs := regs e; mem := mem e |} t = Some A ->
  0 <= A < 2 ^ 64 ->
  let i := find_model cpu_models name 0 in
  let k := const_get_value (lookup_chain 8 i CPU_CONST_PARAM "page_size") in
  let w := pc (model_at cpu_models i) in
  exists g',
    avr_custom_spm_page_erase get_parm true name g e
    = Some (true, g',
            erase_loop (Z.to_nat (ut64 (Z.shiftl 1 k))) 0
              (Z.land A (ut32 (Z.lnot (MASK k)))) (MASK w)
              {| stack := rest; regs := regs e; mem := mem e |}) /\
    errlog g' = errlog g /\
    In (k, w) [(7, 15); (7, 16); (7, 17); (5, 8); (5, 13)].
Proof.
  intros Hwf Hstack Hparm HA i k w.
  unfold avr_custom_spm_page_erase, __esil_pop_argument, rz_analysis_esil_pop.
  cbn [negb]. rewrite Hstack, Hparm. cbn [negb].
  rewrite (chain_fuel_wf g Hwf).
  destruct (get_cpu_model_resolves 18 g name Hwf ltac:(lia))
    as (g1 & Hg & Hwf1 & Hlog & Hc & Hms & Hp).
  fold i in Hg, Hp. rewrite Hg, (chain_fuel_wf g1 Hwf1).
  rewrite (const_by_name_resolved g1 i CPU_CONST_PARAM "page_size" Hwf1 Hp).
  pose proof (find_model_bound name) as Hi. fold i in Hi.
  destruct (page_geometry i Hi) as [Hfound Hkw]. fold k w in Hkw.
  destruct (lookup_chain 8 i CPU_CONST_PARAM "page_size") as [citem|] eqn:Hl;
    [|contradiction]. fold k.
  destruct (wf_static_facts g1 i Hwf1) as (_ & _ & Hpc & _).
  unfold CPU_PC_MASK. rewrite Hpc. fold w.
  assert (Hu : ut64 A = A) by (unfold ut64; apply Z.mod_small; exact HA).
  rewrite Hu. eexists. split; [reflexivity|]. split; [exact Hlog | exact Hkw].
Qed.

(** C7 (as amended): with the address operand [A] on the stack, the page
    erase of variant [name] succeeds and fills with 0xff exactly the 2^k
    bytes of the page that holds [A mod 2^w] - [k] the variant's page size
    in bits, [w] its program-counter width: the written addresses are
    wrapped to the width of the program counter.  Every other byte, every
    register and the rest of the stack are unchanged.  For [A < 2^w] the
    page is the one holding [A] itself. *)
Theorem page_erase_fills_page_modulo_pc_width
    (get_parm : RzAnalysisEsil -> string -> option Z)
    (g : Registry) (name : string) (e : RzAnalysisEsil)
    (t : string) (rest : list string) (A : Z) :
  wf_registry g ->
  stack e = t :: rest ->
  get_parm {| stack := rest; regs := regs e; mem := mem e |} t = Some A ->
  0 <= A < 2 ^ 64 ->
  let i := find_model cpu_models name 0 in
  let k := const_get_value (lookup_chain 8 i CPU_CONST_PARAM "page_size") in
  let w := pc (model_at cpu_models i) in
  let base := (A mod 2 ^ w) / 2 ^ k * 2 ^ k in
  exists g' e',
    avr_custom_spm_page_erase get_parm true name g e = Some (true, g', e') /\
    (forall a, mem e' a = if (base <=? a) && (a <? base + 2 ^ k) then 0xff else mem e a) /\
    regs e' = regs e /\
    stack e' = rest /\
    errlog g' = errlog g /\
    (A < 2 ^ w -> base = A / 2 ^ k * 2 ^ k).
Proof.
  intros Hwf Hstack Hparm HA i k w base.
  destruct (page_erase_run get_parm g name e t rest A Hwf Hstack Hparm HA)
    as (g' & Hrun & Hlog & Hkw).
  fold i k w in Hrun, Hkw.
  destruct (erase_page_core k w A {| stack := rest; regs := regs e; mem := mem e |} Hkw HA)
    as (Hr & Hs & Hm).
  eexists. eexists. split; [exact Hrun|].
  split; [exact Hm|]. split; [exact Hr|]. split; [exact Hs|]. split; [exact Hlog|].
  intros Hsmall. unfold base. rewrite (Z.mod_small A (2 ^ w)) by lia. reflexivity.
Qed.

Lemma page_erase_fills_page_modulo_pc_width_witness :
  exists g' e',
    avr_custom_spm_page_erase decimal_parm true "ATmega8" (registry globals_init)
      {| stack := ["8200"]; regs := fun _ => 0; mem := fun _ => 0 |} = Some (true, g', e') /\
    mem e' 0 = 0xff /\ mem e' 31 = 0xff /\ mem e' 32 = 0 /\ mem e' 8200 = 0.
Proof.
  destruct (page_erase_fills_page_modulo_pc_width decimal_parm (registry globals_init)
              "ATmega8" {| stack := ["8200"]; regs := fun _ => 0; mem := fun _ => 0 |}
              "8200" [] 8200 registry_init_wf eq_refl eq_refl ltac:(lia))
    as (g' & e' & Hrun & Hm & _).
  exists g', e'. split; [exact Hrun|].
  rewrite !Hm. repeat split.
Defined.

(** C7 fails as stated: on ATmega8 (13-bit program counter, 32-byte pages)
    the erase of address 0x2008 leaves the whole aligned range
    0x2000..0x201f untouched and fills 0x0000..0x001f, which lies outside
    it. *)
Lemma page_erase_wraps_address :
  exists g' e',
    avr_custom_spm_page_erase decimal_parm true "ATmega8" (registry globals_init)
      {| stack := ["8200"]; regs := fun _ => 0; mem := fun _ => 0 |} = Some (true, g', e') /\
    8200 / 2 ^ 5 * 2 ^ 5 = 8192 /\
    (forall a, 8192 <= a < 8192 + 2 ^ 5 -> mem e' a = 0) /\
    (forall a, 0 <= a < 2 ^ 5 -> mem e' a = 0xff).
Proof.
  destruct (page_erase_run decimal_parm (registry globals_init)
              "ATmega8" {| stack := ["8200"]; regs := fun _ => 0; mem := fun _ => 0 |}
              "8200" [] 8200 registry_init_wf eq_refl eq_refl ltac:(lia))
    as (g' & Hrun & _ & Hkw).
  set (e0 := {| stack := []; regs := fun _ : string => 0; mem := fun _ : Z => 0 |}) in *.
  destruct (erase_page_core _ _ 8200 e0 Hkw ltac:(lia)) as (_ & _ & Hm).
  eexists. eexists. split; [exact Hrun|]. split; [reflexivity|].
  change (const_get_value (lookup_chain 8 (find_model cpu_models "ATmega8" 0)
            CPU_CONST_PARAM "page_size")) with 5 in Hm.
  change (pc (model_at cpu_models (find_model cpu_models "ATmega8" 0))) with 13 in Hm.
  change (8200 mod 2 ^ 13 / 2 ^ 5 * 2 ^ 5) with 0 in Hm.
  change (2 ^ 5) with 32 in *.
  split; intros a Ha; rewrite Hm.
  - destruct (Z.leb_spec 0 a); destruct (Z.ltb_spec a (0 + 32)); try reflexivity; lia.
  - destruct (Z.leb_spec 0 a); destruct (Z.ltb_spec a (0 + 32)); try reflexivity; lia.
Qed.

(* ----------------------------------------------------------------- *)
(** *** Handlers, one at a time *)

Ltac unfold_handlers :=
  unfold _inst__adc, _inst__add, _inst__adiw, _inst__and, _inst__andi, _inst__asr,
    _inst__bclr, _inst__bld, _inst__brbx, _inst__break, _inst__bset, _inst__bst,
    _inst__call, _inst__cbi, _inst__com, _inst__cp, _inst__cpc, _inst__cpi,
    _inst__dec, _inst__des, _inst__eicall, _inst__elpm, _inst__eor,
    _inst__fmul, _inst__fmuls, _inst__fmulsu, _inst__icall, _inst__in,
    _inst__inc, _inst__jmp, _inst__lac, _inst__las, _inst__lat, _inst__ld, _inst__ldd,
    _inst__ldi, _inst__lds, _inst__sts, _inst__lpm, _inst__lsr, _inst__mov, _inst__movw,
    _inst__mul, _inst__muls, _inst__mulsu, _inst__neg, _inst__nop, _inst__or, _inst__ori,
    _inst__out, _inst__pop, _inst__push, _inst__rcall, _inst__reti, _inst__ret,
    _inst__rjmp, _inst__ror, _inst__sbc, _inst__sbci, _inst__sub, _inst__subi, _inst__sbi,
    _inst__sbiw, _inst__sleep, _inst__spm, _inst__st, _inst__std, _inst__swap,
    _inst__ijmp, _inst__eijmp, CPU_PC_SIZE, rz_analysis_esil_reg_read.

(** A handler other than the compare-and-skip ones sees its surroundings
    only through the bytes below [len], the three interpreter registers,
    and the model's name, width and port map. *)
Lemma handler_cong
    (an an' : RzAnalysis) (ms ms' : list CPU_MODEL) (cpu : nat)
    (buf buf' : list Z) (len : Z)
    (analyze analyze' : Globals -> RzAnalysisOp -> Z -> list Z -> Z -> option Analyzed)
    (h : inst_handler_t) (g g' : Globals) (op : RzAnalysisOp) :
  is_skip h = false ->
  regs_agree an an' -> view_agree ms ms' cpu ->
  at_ buf 0 = at_ buf' 0 -> at_ buf 1 = at_ buf' 1 ->
  (4 <= len -> at_ buf 2 = at_ buf' 2 /\ at_ buf 3 = at_ buf' 3) ->
  option_map outcome (call_handler an ms cpu buf len analyze h g op)
  = option_map outcome (call_handler an' ms' cpu buf' len analyze' h g' op).
Proof.
  intros Hskip (Hz & He & Hs) (Hm & Hpc & Hio) H0 H1 H23.
  destruct h; try discriminate Hskip; cbn [call_handler]; unfold handled, outcome;
    unfold_handlers;
    rewrite <- ?H0, <- ?H1, <- ?Hm, <- ?Hpc, <- ?Hio, <- ?Hz, <- ?He, <- ?Hs;
    try reflexivity.
  all: try (destruct (len <? 4) eqn:E; [reflexivity|];
            apply Z.ltb_ge in E; destruct (H23 E) as [H2 H3];
            rewrite <- ?H2, <- ?H3; reflexivity).
  all: repeat match goal with
              | |- context [if ?c then _ else _] => destruct c
              | |- context [match ?c with Some _ => _ | None => _ end] => destruct c
              end; reflexivity.
Qed.

(* ----------------------------------------------------------------- *)
(** *** Ops that differ in the cycle estimate only *)

Lemma sbc_refl (a : RzAnalysisOp) : sbc a a.
Proof. reflexivity. Qed.

Lemma sbc_reads (a b : RzAnalysisOp) :
  sbc a b ->
  addr a = addr b /\ size a = size b /\ jump a = jump b /\ esil a = esil b /\
  type a = type b.
Proof.
  unfold sbc, erase_cycles. destruct a, b; cbn. intros H.
  injection H as -> -> -> -> -> -> -> -> -> -> -> -> -> ->. repeat split.
Qed.

Ltac sbc_by_fields :=
  unfold sbc, erase_cycles;
  let a := fresh "a" in let b := fresh "b" in let H := fresh "H" in
  intros a b H; destruct a, b; cbn in *;
  injection H as -> -> -> -> -> -> -> -> -> -> -> -> -> ->; reflexivity.

Lemma sbc_set_cycles (v v' : Z) : forall a b, sbc a b -> sbc (set_cycles v a) (set_cycles v' b).
Proof. sbc_by_fields. Qed.
Lemma sbc_set_cycles_l (v : Z) : forall a b, sbc a b -> sbc (set_cycles v a) b.
Proof. sbc_by_fields. Qed.
Lemma sbc_set_cycles_r (v : Z) : forall a b, sbc a b -> sbc a (set_cycles v b).
Proof. sbc_by_fields. Qed.
Lemma sbc_set_mnemonic v : forall a b, sbc a b -> sbc (set_mnemonic v a) (set_mnemonic v b).
Proof. sbc_by_fields. Qed.
Lemma sbc_set_addr v : forall a b, sbc a b -> sbc (set_addr v a) (set_addr v b).
Proof. sbc_by_fields. Qed.
Lemma sbc_set_type v : forall a b, sbc a b -> sbc (set_type v a) (set_type v b).
Proof. sbc_by_fields. Qed.
Lemma sbc_set_type2 v : forall a b, sbc a b -> sbc (set_type2 v a) (set_type2 v b).
Proof. sbc_by_fields. Qed.
Lemma sbc_set_nopcode v : forall a b, sbc a b -> sbc (set_nopcode v a) (set_nopcode v b).
Proof. sbc_by_fields. Qed.
Lemma sbc_set_family v : forall a b, sbc a b -> sbc (set_family v a) (set_family v b).
Proof. sbc_by_fields. Qed.
Lemma sbc_set_eob v : forall a b, sbc a b -> sbc (set_eob v a) (set_eob v b).
Proof. sbc_by_fields. Qed.
Lemma sbc_set_size v : forall a b, sbc a b -> sbc (set_size v a) (set_size v b).
Proof. sbc_by_fields. Qed.
Lemma sbc_set_jump v : forall a b, sbc a b -> sbc (set_jump v a) (set_jump v b).
Proof. sbc_by_fields. Qed.
Lemma sbc_set_fail v : forall a b, sbc a b -> sbc (set_fail v a) (set_fail v b).
Proof. sbc_by_fields. Qed.
Lemma sbc_set_ptr v : forall a b, sbc a b -> sbc (set_ptr v a) (set_ptr v b).
Proof. sbc_by_fields. Qed.
Lemma sbc_set_val v : forall a b, sbc a b -> sbc (set_val v a) (set_val v b).
Proof. sbc_by_fields. Qed.
Lemma sbc_set_mmio_address v :
  forall a b, sbc a b -> sbc (set_mmio_address v a) (set_mmio_address v b).
Proof. sbc_by_fields. Qed.
Lemma sbc_set_esil v : forall a b, sbc a b -> sbc (set_esil v a) (set_esil v b).
Proof. sbc_by_fields. Qed.
Lemma sbc_ESIL_A s : forall a b, sbc a b -> sbc (ESIL_A s a) (ESIL_A s b).
Proof. unfold ESIL_A, set_esil. sbc_by_fields. Qed.

Lemma sbc_if (c : bool) (a a' b b' : RzAnalysisOp) :
  sbc a b -> sbc a' b' -> sbc (if c then a else a') (if c then b else b').
Proof. destruct c; auto. Qed.

Lemma sbc_if_any (c c' : bool) (a a' b b' : RzAnalysisOp) :
  sbc a b -> sbc a b' -> sbc a' b -> sbc a' b' ->
  sbc (if c then a else a') (if c' then b else b').
Proof. destruct c, c'; auto. Qed.

Lemma sbc_let_op (a a' : RzAnalysisOp) (f g : RzAnalysisOp -> RzAnalysisOp) :
  sbc a a' -> (forall x y, sbc x y -> sbc (f x) (g y)) ->
  sbc (let o := a in f o) (let o := a' in g o).
Proof. intros H K. exact (K a a' H). Qed.

Lemma sbc_let_val {T : Type} (a a' : T) (f g : T -> RzAnalysisOp) :
  a = a' -> (forall v, sbc (f v) (g v)) ->
  sbc (let x := a in f x) (let x := a' in g x).
Proof. intros <- K. exact (K a). Qed.

Lemma sbc_opt_let_op (a a' : RzAnalysisOp) (f g : RzAnalysisOp -> option RzAnalysisOp) :
  sbc a a' -> (forall x y, sbc x y -> sbc_opt (f x) (g y)) ->
  sbc_opt (let o := a in f o) (let o := a' in g o).
Proof. intros H K. exact (K a a' H). Qed.

Lemma sbc_opt_let_val {T : Type} (a a' : T) (f g : T -> option RzAnalysisOp) :
  a = a' -> (forall v, sbc_opt (f v) (g v)) ->
  sbc_opt (let x := a in f x) (let x := a' in g x).
Proof. intros <- K. exact (K a). Qed.

Lemma sbc_opt_some (a b : RzAnalysisOp) : sbc a b -> sbc_opt (Some a) (Some b).
Proof. unfold sbc, sbc_opt. cbn. intros ->. reflexivity. Qed.

Lemma sbc_opt_if (c : bool) (a a' b b' : option RzAnalysisOp) :
  sbc_opt a b -> sbc_opt a' b' -> sbc_opt (if c then a else a') (if c then b else b').
Proof. destruct c; auto. Qed.

Lemma sbc_opt_match {T : Type} (x : option T) (f g : T -> option RzAnalysisOp) :
  (forall v, sbc_opt (f v) (g v)) ->
  sbc_opt (match x with Some v => f v | None => None end)
          (match x with Some v => g v | None => None end).
Proof. destruct x; [auto | reflexivity]. Qed.

(** Walk two copies of a handler body in step. *)
Ltac sbc_use R :=
  let Ha := fresh in let Hs := fresh in let Hj := fresh in let He := fresh in
  let Ht := fresh in
  pose proof (sbc_reads _ _ R) as (Ha & Hs & Hj & He & Ht);
  rewrite ?Ha, ?Hs, ?Hj, ?He, ?Ht; clear Ha Hs Hj He Ht.

Ltac sbc_helper := fail.

Ltac sbc_solve :=
  lazymatch goal with
  | |- sbc (__generic_push _ _) _ => sbc_helper
  | |- sbc (__generic_pop _ _) _ => sbc_helper
  | |- sbc (__generic_ld_st _ _ _ _ _ _ _) _ => sbc_helper
  | |- sbc (let x := ?A in @?F x) (let y := ?A' in @?G y) =>
      lazymatch type of A with
      | RzAnalysisOp =>
          apply (sbc_let_op A A' F G);
          [ sbc_solve
          | let x := fresh "o" in let y := fresh "o" in let R := fresh "R" in
            intros x y R; cbv beta; sbc_use R; sbc_solve ]
      | _ =>
          apply (sbc_let_val A A' F G);
          [ reflexivity | let v := fresh "v" in intros v; cbv beta; sbc_solve ]
      end
  | |- sbc (if ?c then _ else _) (if ?c' then _ else _) =>
      first [ apply sbc_if; sbc_solve | apply sbc_if_any; sbc_solve ]
  | |- sbc (set_cycles _ _) (set_cycles _ _) => apply sbc_set_cycles; sbc_solve
  | |- sbc (set_mnemonic _ _) _ => apply sbc_set_mnemonic; sbc_solve
  | |- sbc (set_addr _ _) _ => apply sbc_set_addr; sbc_solve
  | |- sbc (set_type _ _) _ => apply sbc_set_type; sbc_solve
  | |- sbc (set_type2 _ _) _ => apply sbc_set_type2; sbc_solve
  | |- sbc (set_nopcode _ _) _ => apply sbc_set_nopcode; sbc_solve
  | |- sbc (set_family _ _) _ => apply sbc_set_family; sbc_solve
  | |- sbc (set_eob _ _) _ => apply sbc_set_eob; sbc_solve
  | |- sbc (set_size _ _) _ => apply sbc_set_size; sbc_solve
  | |- sbc (set_jump _ _) _ => apply sbc_set_jump; sbc_solve
  | |- sbc (set_fail _ _) _ => apply sbc_set_fail; sbc_solve
  | |- sbc (set_ptr _ _) _ => apply sbc_set_ptr; sbc_solve
  | |- sbc (set_val _ _) _ => apply sbc_set_val; sbc_solve
  | |- sbc (set_mmio_address _ _) _ => apply sbc_set_mmio_address; sbc_solve
  | |- sbc (set_esil _ _) _ => apply sbc_set_esil; sbc_solve
  | |- sbc (ESIL_A _ _) _ => apply sbc_ESIL_A; sbc_solve
  | |- sbc (set_cycles _ _) _ => apply sbc_set_cycles_l; sbc_solve
  | |- sbc _ (set_cycles _ _) => apply sbc_set_cycles_r; sbc_solve
  | |- sbc _ _ => first [ assumption | apply sbc_refl ]
  | |- sbc_opt (let x := ?A in @?F x) (let y := ?A' in @?G y) =>
      lazymatch type of A with
      | RzAnalysisOp =>
          apply (sbc_opt_let_op A A' F G);
          [ sbc_solve
          | let x := fresh "o" in let y := fresh "o" in let R := fresh "R" in
            intros x y R; cbv beta; sbc_use R; sbc_solve ]
      | _ =>
          apply (sbc_opt_let_val A A' F G);
          [ reflexivity | let v := fresh "v" in intros v; cbv beta; sbc_solve ]
      end
  | |- sbc_opt (if ?c then _ else _) (if ?c' then _ else _) => apply sbc_opt_if; sbc_solve
  | |- sbc_opt (Some _) (Some _) => apply sbc_opt_some; sbc_solve
  | |- sbc_opt (match ?x with Some v => @?F v | None => None end)
               (match ?x with Some w => @?G w | None => None end) =>
      apply (sbc_opt_match x F G); let v := fresh "v" in intros v; cbv beta; sbc_solve
  end.

Lemma sbc_generic_push (n : Z) :
  forall a b, sbc a b -> sbc (__generic_push a n) (__generic_push b n).
Proof. intros a b R. unfold __generic_push. sbc_solve. Qed.

Lemma sbc_generic_pop (n : Z) :
  forall a b, sbc a b -> sbc (__generic_pop a n) (__generic_pop b n).
Proof. intros a b R. unfold __generic_pop. sbc_solve. Qed.

Lemma sbc_generic_ld_st (m : string) (ireg : ascii) (use_ramp prepostdec offset st : Z) :
  forall a b, sbc a b ->
    sbc (__generic_ld_st a m ireg use_ramp prepostdec offset st)
        (__generic_ld_st b m ireg use_ramp prepostdec offset st).
Proof. intros a b R. unfold __generic_ld_st. sbc_solve. Qed.

(** Unfold a handler without touching its [let]s. *)
Ltac open_handlers :=
  cbv beta delta
   [_inst__adc _inst__add _inst__adiw _inst__and _inst__andi _inst__asr
    _inst__bclr _inst__bld _inst__brbx _inst__break _inst__bset _inst__bst
    _inst__call _inst__cbi _inst__com _inst__cp _inst__cpc _inst__cpi
    _inst__dec _inst__des _inst__eicall _inst__elpm _inst__eor
    _inst__fmul _inst__fmuls _inst__fmulsu _inst__icall _inst__in
    _inst__inc _inst__jmp _inst__lac _inst__las _inst__lat _inst__ld _inst__ldd
    _inst__ldi _inst__lds _inst__sts _inst__lpm _inst__lsr _inst__mov _inst__movw
    _inst__mul _inst__muls _inst__mulsu _inst__neg _inst__nop _inst__or _inst__ori
    _inst__out _inst__pop _inst__push _inst__rcall _inst__reti _inst__ret
    _inst__rjmp _inst__ror _inst__sbc _inst__sbci _inst__sub _inst__subi _inst__sbi
    _inst__sbiw _inst__sleep _inst__st _inst__std _inst__swap
    _inst__ijmp _inst__eijmp].

Ltac sbc_helper ::=
  first [ apply sbc_generic_push | apply sbc_generic_pop | apply sbc_generic_ld_st ];
  sbc_solve.

(** Apart from the cycle estimate itself, what a handler other than the
    compare-and-skip ones produces does not depend on the incoming cycle
    estimate. *)
Lemma handler_erase
    (an : RzAnalysis) (ms : list CPU_MODEL) (cpu : nat) (buf : list Z) (len : Z)
    (analyze : Globals -> RzAnalysisOp -> Z -> list Z -> Z -> option Analyzed)
    (h : inst_handler_t) (g : Globals) (op op' : RzAnalysisOp) :
  is_skip h = false ->
  sbc op op' ->
  option_map (fun hd => (erase_cycles (h_op hd), h_fail hd, h_nested hd))
    (call_handler an ms cpu buf len analyze h g op)
  = option_map (fun hd => (erase_cycles (h_op hd), h_fail hd, h_nested hd))
    (call_handler an ms cpu buf len analyze h g op').
Proof.
  intros Hskip R.
  assert (Hpure : forall g0 a b, sbc a b ->
            option_map (fun hd => (erase_cycles (h_op hd), h_fail hd, h_nested hd)) (handled g0 a)
            = option_map (fun hd => (erase_cycles (h_op hd), h_fail hd, h_nested hd)) (handled g0 b)).
  { intros g0 a b Hab. unfold handled. cbn [option_map h_op h_fail h_nested].
    unfold sbc in Hab. rewrite Hab. reflexivity. }
  assert (Hopt : forall a b, sbc_opt a b ->
            option_map (fun hd => (erase_cycles (h_op hd), h_fail hd, h_nested hd))
              (match a with Some o => handled g o | None => None end)
            = option_map (fun hd => (erase_cycles (h_op hd), h_fail hd, h_nested hd))
              (match b with Some o => handled g o | None => None end)).
  { intros [a|] [b|] Hab; unfold sbc_opt in Hab; cbn [option_map] in Hab;
      try discriminate Hab; [|reflexivity].
    pose proof (f_equal (fun o => match o with Some x => x | None => erase_cycles a end) Hab)
      as Hab'. cbv beta iota in Hab'.
    unfold handled. cbn [option_map h_op h_fail h_nested].
    rewrite Hab'. reflexivity. }
  destruct h; try discriminate Hskip; cbn [call_handler].
  all: lazymatch goal with
       | |- option_map _ (handled _ _) = option_map _ (handled _ _) =>
           apply Hpure; open_handlers; sbc_use R; sbc_solve
       | |- option_map _ (match _ with Some _ => _ | None => _ end) = _ =>
           apply Hopt; open_handlers; sbc_use R; sbc_solve
       | _ => idtac
       end.
  unfold _inst__spm. cbv zeta.
  repeat match goal with |- context [if ?c then _ else _] => destruct c end;
    cbv beta iota; apply Hpure; sbc_solve.
Qed.

(** What a handler other than the compare-and-skip ones leaves in the
    globals: it never raises the fail flag, starts no nested decode, and
    leaves the descriptor array and the model array as they are. *)
Lemma handler_globals
    (an : RzAnalysis) (ms : list CPU_MODEL) (cpu : nat) (buf : list Z) (len : Z)
    (analyze : Globals -> RzAnalysisOp -> Z -> list Z -> Z -> option Analyzed)
    (h : inst_handler_t) (g : Globals) (op : RzAnalysisOp) (hd : Handled) :
  is_skip h = false ->
  call_handler an ms cpu buf len analyze h g op = Some hd ->
  h_fail hd = 0 /\ h_nested hd = 0%nat /\
  opcodes_g (h_globals hd) = opcodes_g g /\
  models (registry (h_globals hd)) = models (registry g) /\
  cached (registry (h_globals hd)) = cached (registry g).
Proof.
  intros Hskip.
  destruct h; try discriminate Hskip; cbn [call_handler]; unfold handled.
  all: lazymatch goal with
       | |- Some _ = Some _ -> _ =>
           let H := fresh in intros H; injection H as <-; repeat split
       | |- match ?x with Some _ => _ | None => _ end = Some _ -> _ =>
           let H := fresh in destruct x; intros H; [|discriminate H];
           injection H as <-; repeat split
       | _ => idtac
       end.
  unfold _inst__spm. cbv zeta.
  repeat match goal with |- context [if ?c then _ else _] => destruct c end;
    cbv beta iota; intros H; injection H as <-; repeat split.
Qed.

(** ... and it returns as soon as the port lookups do. *)
Lemma handler_returns
    (an : RzAnalysis) (ms : list CPU_MODEL) (cpu : nat) (buf : list Z) (len : Z)
    (analyze : Globals -> RzAnalysisOp -> Z -> list Z -> Z -> option Analyzed)
    (h : inst_handler_t) (g : Globals) (op : RzAnalysisOp) :
  is_skip h = false ->
  (forall port write, __generic_io_dest port write ms cpu <> None) ->
  call_handler an ms cpu buf len analyze h g op <> None.
Proof.
  intros Hskip Hio.
  destruct h; try discriminate Hskip; cbn [call_handler]; unfold handled;
    try discriminate.
  all: try (unfold _inst__cbi, _inst__sbi, _inst__in, _inst__out; cbv zeta;
            repeat match goal with
                   | |- context [__generic_io_dest ?p ?w ?m ?c] =>
                       let E := fresh "E" in
                       destruct (__generic_io_dest p w m c) eqn:E;
                       [|exfalso; exact (Hio p w E)]
                   end;
            destruct (len <? 1); destruct (len <? 2); discriminate).
  unfold _inst__spm. cbv zeta.
  repeat match goal with |- context [if ?c then _ else _] => destruct c end;
    discriminate.
Qed.

(* ----------------------------------------------------------------- *)
(** *** The descriptor array *)

Lemma strip_fields (d d' : OPCODE_DESC) :
  strip d = strip d' ->
  d_mask d = d_mask d' /\ d_selector d = d_selector d' /\ d_handler d = d_handler d' /\
  d_size d = d_size d' /\ d_type d = d_type d' /\ d_name d = d_name d'.
Proof.
  destruct d, d'; unfold strip, set_d_cycles; cbn. intros H.
  injection H as -> -> -> -> -> ->. repeat split.
Qed.

Lemma strip_same_cycles (d d' : OPCODE_DESC) :
  strip d = strip d' -> d_cycles d = d_cycles d' -> d = d'.
Proof.
  destruct d, d'; unfold strip, set_d_cycles; cbn. intros H Hc.
  injection H as -> -> -> -> -> ->. subst. reflexivity.
Qed.

Lemma cons_eq_inv {A : Type} (x y : A) (l l' : list A) :
  x :: l = y :: l' -> x = y /\ l = l'.
Proof. intros H. injection H as -> ->. split; reflexivity. Qed.

(** The search loop does not look at the cycle defaults. *)
Lemma scan_rel (ins : Z) :
  forall (t t' : list OPCODE_DESC) (n : nat),
    map strip t = map strip t' ->
    match scan_opcodes ins t n, scan_opcodes ins t' n with
    | Some (i, d, h), Some (i', d', h') => i = i' /\ h = h' /\ strip d = strip d'
    | None, None => True
    | _, _ => False
    end.
Proof.
  induction t as [|d t IH]; intros [|d' t'] n H; cbn in H; try discriminate H;
    cbn [scan_opcodes]; [exact I|].
  apply cons_eq_inv in H. destruct H as [Hd Ht].
  destruct (strip_fields d d' Hd) as (Hm & Hs & Hh & _).
  rewrite <- Hh, <- Hm, <- Hs.
  destruct (d_handler d) as [h|]; [|exact I].
  destruct (Z.land ins (d_mask d) =? d_selector d);
    [split; [reflexivity|]; split; [reflexivity | exact Hd]|].
  apply IH. exact Ht.
Qed.

Lemma scan_in (ins : Z) :
  forall (t : list OPCODE_DESC) (n i : nat) (d : OPCODE_DESC) (h : inst_handler_t),
    scan_opcodes ins t n = Some (i, d, h) -> In d t /\ d_handler d = Some h.
Proof.
  induction t as [|x t IH]; intros n i d h; cbn [scan_opcodes]; [discriminate|].
  destruct (d_handler x) as [hx|] eqn:Hx; [|discriminate].
  destruct (Z.land ins (d_mask x) =? d_selector x).
  - intros H. injection H as <- <- <-. split; [left; reflexivity | exact Hx].
  - intros H. destruct (IH _ _ _ _ H) as [Hin Hh]. split; [right; exact Hin | exact Hh].
Qed.

Lemma update_strip (c : Z) :
  forall (t : list OPCODE_DESC) (i : nat),
    map strip (update_at i (set_d_cycles c) t) = map strip t.
Proof.
  induction t as [|d t IH]; intros [|i]; cbn [update_at map]; try reflexivity.
  rewrite IH. reflexivity.
Qed.

(** Every compare-and-skip descriptor has size 2. *)
Lemma skip_size_static :
  forallb (fun d => match d_handler d with
                    | Some h => if is_skip h then d_size d =? 2 else true
                    | None => true
                    end) opcodes = true.
Proof. vm_compute. reflexivity. Qed.

Lemma skip_size (ins : Z) (t : list OPCODE_DESC) (i : nat) (d : OPCODE_DESC)
    (h : inst_handler_t) :
  tbl_ok t -> scan_opcodes ins t 0 = Some (i, d, h) -> is_skip h = true -> d_size d = 2.
Proof.
  intros Ht Hscan Hskip.
  pose proof (scan_rel ins t opcodes 0 Ht) as Hrel. rewrite Hscan in Hrel.
  destruct (scan_opcodes ins opcodes 0) as [[[i0 d0] h0]|] eqn:H0; [|contradiction].
  destruct Hrel as (_ & <- & Hs).
  destruct (scan_in ins opcodes 0 i0 d0 h H0) as [Hin Hh].
  pose proof (proj1 (forallb_forall _ _) skip_size_static d0 Hin) as Hb.
  cbv beta in Hb. rewrite Hh, Hskip in Hb. apply Z.eqb_eq in Hb.
  destruct (strip_fields d d0 Hs) as (_ & _ & _ & Hsz & _). lia.
Qed.

(* ----------------------------------------------------------------- *)
(** *** Port lookups in a reachable registry *)

Lemma const_by_value_S (f : nat) (ms : list CPU_MODEL) (cpu : nat) (type v : Z) :
  const_by_value (S f) ms cpu type v =
  match scan_consts (fun citem => (value citem =? Z.land (MASK (csize citem * 8)) v)
                                  && type_ok type citem) (consts (model_at ms cpu)) with
  | Some citem => Some (Some citem)
  | None =>
      match inherit_cpu_p (model_at ms cpu) with
      | Some p => const_by_value f ms p type v
      | None => Some None
      end
  end.
Proof. reflexivity. Qed.

Lemma io_dest_total (r : Registry) (cpu : nat) (port write : Z) :
  wf_registry r -> __generic_io_dest port write (models r) cpu <> None.
Proof.
  intros Hwf. unfold __generic_io_dest. rewrite (chain_fuel_wf r Hwf).
  destruct (wf_static_facts r cpu Hwf) as (_ & _ & _ & Hp & Hpar).
  rewrite const_by_value_S.
  destruct (scan_consts _ _); [destruct (truthy write); discriminate|].
  destruct Hp as [Hp|Hp]; rewrite Hp; [discriminate|].
  destruct (static_parent (model_at cpu_models cpu)) as [p|] eqn:Hsp; [|discriminate].
  destruct (Hpar p eq_refl) as (_ & _ & Hnull).
  rewrite const_by_value_S, Hnull.
  destruct (scan_consts _ _); [destruct (truthy write)|]; discriminate.
Qed.

(** Two reachable registries look the same from a model whose back-pointer
    is the same in both. *)
Lemma view_agree_wf (r r' : Registry) (cpu : nat) :
  wf_registry r -> wf_registry r' ->
  inherit_cpu_p (model_at (models r) cpu) = inherit_cpu_p (model_at (models r') cpu) ->
  view_agree (models r) (models r') cpu.
Proof.
  intros Hwf Hwf' Hptr.
  destruct (wf_static_facts r cpu Hwf) as (Hc & Hm & Hpc & Hp & Hpar).
  destruct (wf_static_facts r' cpu Hwf') as (Hc' & Hm' & Hpc' & Hp' & Hpar').
  split; [congruence|]. split; [congruence|].
  intros port write. unfold __generic_io_dest.
  rewrite (chain_fuel_wf r Hwf), (chain_fuel_wf r' Hwf').
  rewrite !const_by_value_S, Hc, Hc', <- Hptr.
  destruct (scan_consts _ _); [reflexivity|].
  destruct Hp as [Hp|Hp]; rewrite Hp; [reflexivity|].
  destruct (static_parent (model_at cpu_models cpu)) as [p|] eqn:Hsp; [|reflexivity].
  destruct (Hpar p eq_refl) as (_ & _ & Hnull).
  destruct (Hpar' p eq_refl) as (_ & _ & Hnull').
  destruct (wf_static_facts r p Hwf) as (Hcp & _).
  destruct (wf_static_facts r' p Hwf') as (Hcp' & _).
  rewrite !const_by_value_S, Hnull, Hnull', Hcp, Hcp'. reflexivity.
Qed.

(* ----------------------------------------------------------------- *)
(** *** The compare-and-skip handlers *)

Lemma set_cycles_sbc (v : Z) : forall a b, sbc a b -> set_cycles v a = set_cycles v b.
Proof.
  unfold sbc, erase_cycles. intros a b H. destruct a, b; cbn in *.
  injection H as -> -> -> -> -> -> -> -> -> -> -> -> -> ->. reflexivity.
Qed.

(** A compare-and-skip handler makes exactly one nested call, on the bytes
    after its own; what it returns depends on that call only through the
    size of the next op, and its cycle estimate is always 1. *)
Lemma skip_handler_sim
    (an an' : RzAnalysis) (ms ms' : list CPU_MODEL) (cpu : nat)
    (buf buf' : list Z) (len : Z)
    (analyze analyze' : Globals -> RzAnalysisOp -> Z -> list Z -> Z -> option Analyzed)
    (h : inst_handler_t) (g g' : Globals) (op op' : RzAnalysisOp) :
  is_skip h = true -> 2 <= len -> sbc op op' ->
  view_agree ms ms' cpu ->
  at_ buf 0 = at_ buf' 0 -> at_ buf 1 = at_ buf' 1 ->
  match analyze g op_zero (ut64 (addr op + size op)) (advance buf (size op)) (len - size op),
        analyze' g' op_zero (ut64 (addr op' + size op')) (advance buf' (size op')) (len - size op')
  with
  | Some nx, Some nx' =>
      size (r_op nx) = size (r_op nx') ->
      match call_handler an ms cpu buf len analyze h g op,
            call_handler an' ms' cpu buf' len analyze' h g' op' with
      | Some hd, Some hd' =>
          h_op hd = h_op hd' /\ cycles (h_op hd) = 1 /\
          h_fail hd = 0 /\ h_fail hd' = 0 /\
          h_globals hd = r_globals nx /\ h_globals hd' = r_globals nx' /\
          h_nested hd = S (r_nested nx) /\ h_nested hd' = S (r_nested nx')
      | None, None => exists port write, __generic_io_dest port write ms cpu = None
      | _, _ => False
      end
  | None, None =>
      call_handler an ms cpu buf len analyze h g op = None /\
      call_handler an' ms' cpu buf' len analyze' h g' op' = None
  | _, _ => True
  end.
Proof.
  intros Hskip Hlen R (Hm & Hpc & Hio) H0 H1.
  assert (Hl : (len <? 2) = false) by (apply Z.ltb_ge; exact Hlen).
  unfold sbc, erase_cycles in R. destruct op, op'; cbn in R.
  injection R as -> -> -> -> -> -> -> -> -> -> -> -> -> ->.
  destruct h; try discriminate Hskip; cbn [call_handler];
    unfold _inst__cpse, _inst__sbix, _inst__sbrx; rewrite Hl; cbv zeta;
    cbn [addr size set_type2 set_val set_family];
    rewrite <- ?H0, <- ?H1, <- ?Hio;
    destruct (analyze g op_zero _ _ _) as [nx|];
    destruct (analyze' g' op_zero _ _ _) as [nx'|]; try exact I;
    try (split; reflexivity);
    intros Hsz; rewrite <- Hsz.
  - repeat split.
  - destruct (__generic_io_dest _ 0 ms cpu) as [io_port|] eqn:Eio;
      [|eexists; eexists; exact Eio].
    repeat split.
  - repeat split.
Qed.

(* ----------------------------------------------------------------- *)
(** *** Buffers that share a prefix *)

Lemma at_advance (buf : list Z) (n : Z) (i : nat) :
  at_ (advance buf n) i = at_ buf (Z.to_nat n + i).
Proof.
  unfold at_, advance. generalize (Z.to_nat n) as k.
  intros k. revert buf. induction k as [|k IH]; intros [|x buf]; cbn; auto.
  - destruct i; reflexivity.
Qed.

Lemma agree_advance (len n : Z) (buf buf' : list Z) :
  0 <= n -> agree len buf buf' -> agree (len - n) (advance buf n) (advance buf' n).
Proof.
  intros Hn H i Hi. rewrite !at_advance. apply H. lia.
Qed.

(* ----------------------------------------------------------------- *)
(** *** The relation on ops through the engine's own assignments *)

Lemma op_rel_refl (b : bool) (o : RzAnalysisOp) : op_rel b o o.
Proof. destruct b; reflexivity. Qed.

Lemma op_rel_sbc (b : bool) (o o' : RzAnalysisOp) : op_rel b o o' -> sbc o o'.
Proof. destruct b; cbn; [intros ->; reflexivity | auto]. Qed.

Ltac by_fields R :=
  unfold sbc, erase_cycles in R;
  lazymatch type of R with
  | set_cycles 0 ?a = set_cycles 0 ?b =>
      destruct a, b; cbn in R;
      injection R as -> -> -> -> -> -> -> -> -> -> -> -> -> ->
  end.

(** The defaults copied from the descriptor before the handler runs. *)
Lemma op_rel_defaults (b : bool) (d d' : OPCODE_DESC) (addr : Z) (o o' : RzAnalysisOp) :
  strip d = strip d' -> (b = true -> d = d') -> op_rel b o o' ->
  op_rel b
    (set_esil "" (set_addr addr (set_fail UT64_MAX (set_jump UT64_MAX
       (set_type (d_type d) (set_size (d_size d) (set_cycles (d_cycles d) o)))))))
    (set_esil "" (set_addr addr (set_fail UT64_MAX (set_jump UT64_MAX
       (set_type (d_type d') (set_size (d_size d') (set_cycles (d_cycles d') o'))))))).
Proof.
  intros Hs Hd R. destruct b; cbn in *.
  - rewrite (Hd eq_refl), R. reflexivity.
  - destruct (strip_fields _ _ Hs) as (_ & _ & _ & -> & -> & _).
    change (sbc o o') in R. by_fields R. reflexivity.
Qed.

Lemma op_rel_invalid (b : bool) (addr : Z) (o o' : RzAnalysisOp) :
  op_rel b o o' -> op_rel b (set_invalid_op o addr) (set_invalid_op o' addr).
Proof.
  intros R. destruct b; cbn in *.
  - rewrite R. reflexivity.
  - change (sbc o o') in R. by_fields R. reflexivity.
Qed.

(** The two assignments after the handler: [nopcode] and the trimmed
    expression. *)
Lemma op_rel_finish (b : bool) (o o' : RzAnalysisOp) :
  op_rel b o o' ->
  op_rel b
    (set_esil (trim_trailing_comma (esil (set_nopcode (if is_UNK (type o) then 1 else 0) o)))
       (set_nopcode (if is_UNK (type o) then 1 else 0) o))
    (set_esil (trim_trailing_comma (esil (set_nopcode (if is_UNK (type o') then 1 else 0) o')))
       (set_nopcode (if is_UNK (type o') then 1 else 0) o')).
Proof.
  intros R. destruct b; cbn in *.
  - rewrite R. reflexivity.
  - change (sbc o o') in R. by_fields R. reflexivity.
Qed.

(* ----------------------------------------------------------------- *)
(** *** One handler call, in two environments *)

Lemma handler_sim (b : bool)
    (an an' : RzAnalysis) (ms ms' : list CPU_MODEL) (cpu : nat)
    (buf buf' : list Z) (len : Z)
    (analyze analyze' : Globals -> RzAnalysisOp -> Z -> list Z -> Z -> option Analyzed)
    (h : inst_handler_t) (g g' : Globals) (op op' : RzAnalysisOp) :
  is_skip h = false ->
  regs_agree an an' -> view_agree ms ms' cpu ->
  at_ buf 0 = at_ buf' 0 -> at_ buf 1 = at_ buf' 1 ->
  (4 <= len -> at_ buf 2 = at_ buf' 2 /\ at_ buf 3 = at_ buf' 3) ->
  op_rel b op op' ->
  match call_handler an ms cpu buf len analyze h g op,
        call_handler an' ms' cpu buf' len analyze' h g' op' with
  | Some hd, Some hd' =>
      op_rel b (h_op hd) (h_op hd') /\ h_fail hd = h_fail hd' /\ h_nested hd = h_nested hd'
  | None, None => True
  | _, _ => False
  end.
Proof.
  intros Hskip Hregs Hview H0 H1 H23 R.
  pose proof (handler_cong an an' ms ms' cpu buf buf' len analyze analyze' h g g' op'
                Hskip Hregs Hview H0 H1 H23) as Hc.
  destruct b; cbn in R.
  - subst op'.
    destruct (call_handler an ms cpu buf len analyze h g op) as [hd|];
      destruct (call_handler an' ms' cpu buf' len analyze' h g' op) as [hd'|];
      cbn in Hc; try discriminate Hc; try exact I.
    unfold outcome in Hc. injection Hc as -> -> ->. cbn. repeat split.
  - pose proof (handler_erase an ms cpu buf len analyze h g op op' Hskip R) as He.
    destruct (call_handler an ms cpu buf len analyze h g op) as [hd|];
      destruct (call_handler an ms cpu buf len analyze h g op') as [hm|];
      destruct (call_handler an' ms' cpu buf' len analyze' h g' op') as [hd'|];
      cbn in Hc, He; try discriminate Hc; try discriminate He; try exact I.
    unfold outcome in Hc. injection Hc as Ho Hf Hn.
    pose proof (f_equal (option_map (fun t : RzAnalysisOp * Z * nat => fst (fst t))) He) as Ho'.
    pose proof (f_equal (option_map (fun t : RzAnalysisOp * Z * nat => snd (fst t))) He) as Hf'.
    pose proof (f_equal (option_map (fun t : RzAnalysisOp * Z * nat => snd t)) He) as Hn'.
    cbn [option_map fst snd] in Ho', Hf', Hn'.
    rewrite <- Ho, <- Hf, <- Hn. unfold op_rel.
    split; [congruence|split; congruence].
Qed.

(* ----------------------------------------------------------------- *)
(** *** The decode engine returns *)

Lemma wf_registry_same (r r' : Registry) :
  models r' = models r -> cached r' = cached r -> wf_registry r -> wf_registry r'.
Proof. unfold wf_registry. intros -> ->. auto. Qed.

Lemma half_step (len : Z) : 2 <= len -> (S (Z.to_nat ((len - 2) / 2)) <= Z.to_nat (len / 2))%nat.
Proof.
  intros H. replace len with ((len - 2) + 1 * 2) at 2 by lia.
  rewrite Z.div_add by lia.
  assert (0 <= (len - 2) / 2) by (apply Z.div_pos; lia). lia.
Qed.

(** With more fuel than bytes, [avr_op_analyze] returns; the chain of nested
    calls below it is at most [len / 2] long; the registry keeps its models
    and its cache, and the descriptor array stays [opcodes] up to the cycle
    defaults. *)
Lemma analyze_returns (an : RzAnalysis) (cpu : nat) :
  forall (fuel : nat) (g : Globals) (op : RzAnalysisOp) (addr : Z) (buf : list Z) (len : Z),
    globals_ok g -> (Z.to_nat len < fuel)%nat ->
    exists r, avr_op_analyze fuel an cpu g op addr buf len = Some r /\
      (r_nested r <= Z.to_nat (len / 2))%nat /\
      globals_ok (r_globals r) /\
      models (registry (r_globals r)) = models (registry g) /\
      cached (registry (r_globals r)) = cached (registry g).
Proof.
  induction fuel as [|fuel IH]; intros g op addr buf len [Hwf Htbl] Hfuel; [lia|].
  cbn [avr_op_analyze].
  destruct (len <? 2) eqn:Hlen.
  { eexists; split; [reflexivity|]. cbn.
       split; [lia|]. split; [split; assumption|]. split; reflexivity. }
  apply Z.ltb_ge in Hlen.
  destruct (scan_opcodes _ (opcodes_g g) 0) as [[[i d] h]|] eqn:Hscan.
  2: { eexists; split; [reflexivity|]. cbn.
       split; [lia|]. split; [split; assumption|]. split; reflexivity. }
  match goal with
  | |- context [call_handler _ _ _ _ _ _ _ _ ?o] => remember o as op1 eqn:Hop1
  end.
  assert (Hfin : forall hd : Handled,
    h_fail hd = 0 -> (h_nested hd <= Z.to_nat (len / 2))%nat ->
    opcodes_g (h_globals hd) = opcodes_g g \/ tbl_ok (opcodes_g (h_globals hd)) ->
    wf_registry (registry (h_globals hd)) ->
    models (registry (h_globals hd)) = models (registry g) ->
    cached (registry (h_globals hd)) = cached (registry g) ->
    exists r,
      (if truthy (h_fail hd)
       then Some {| r_desc := None; r_op := set_invalid_op (h_op hd) addr;
                    r_globals := h_globals hd; r_nested := h_nested hd |}
       else Some {| r_desc := Some i;
                    r_op := set_esil
                      (trim_trailing_comma
                         (esil (set_nopcode (if is_UNK (type (h_op hd)) then 1 else 0) (h_op hd))))
                      (set_nopcode (if is_UNK (type (h_op hd)) then 1 else 0) (h_op hd));
                    r_globals :=
                      if cycles (h_op hd) <=? 0
                      then {| registry := registry (h_globals hd);
                              opcodes_g := update_at i (set_d_cycles 2) (opcodes_g (h_globals hd)) |}
                      else h_globals hd;
                    r_nested := h_nested hd |}) = Some r /\
      (r_nested r <= Z.to_nat (len / 2))%nat /\
      globals_ok (r_globals r) /\
      models (registry (r_globals r)) = models (registry g) /\
      cached (registry (r_globals r)) = cached (registry g)).
  { intros hd Hf Hn Ht Hw Hm Hc. rewrite Hf. cbn [truthy Z.eqb negb].
    eexists; split; [reflexivity|]. cbn [r_nested r_globals].
    assert (Ht' : tbl_ok (opcodes_g (h_globals hd)))
      by (destruct Ht as [Ht|Ht]; [rewrite Ht; exact Htbl | exact Ht]).
    split; [exact Hn|].
    destruct (cycles (h_op hd) <=? 0); cbn [registry opcodes_g];
      (split; [split; [assumption|]|split; assumption]);
      unfold tbl_ok in *; cbn [opcodes_g]; rewrite ?update_strip; exact Ht'. }
  destruct (is_skip h) eqn:Hskip.
  - (* a compare-and-skip handler: one nested call on the rest of the buffer *)
    pose proof (skip_size _ _ _ _ _ Htbl Hscan Hskip) as Hsz.
    assert (Hs1 : size op1 = 2) by (subst op1; exact Hsz).
    destruct (IH g op_zero (ut64 (Avr.addr op1 + size op1)) (advance buf (size op1))
                (len - size op1) (conj Hwf Htbl) ltac:(lia))
      as (nx & Hnx & Hdepth & [Hwf' Htbl'] & Hms & Hca).
    pose proof (skip_handler_sim an an (models (registry g)) (models (registry g)) cpu
                  buf buf len (avr_op_analyze fuel an cpu) (avr_op_analyze fuel an cpu)
                  h g g op1 op1 Hskip Hlen eq_refl
                  (conj eq_refl (conj eq_refl (fun _ _ => eq_refl))) eq_refl eq_refl) as HS.
    rewrite Hnx in HS. specialize (HS eq_refl).
    destruct (call_handler an (models (registry g)) cpu buf len (avr_op_analyze fuel an cpu) h g op1)
      as [hd|].
    + destruct HS as (_ & _ & Hf & _ & Hg & _ & Hn & _).
      apply Hfin; rewrite ?Hg; try assumption.
      * rewrite Hn, Hs1 in *. pose proof (half_step len Hlen). lia.
      * right. exact Htbl'.
    + destruct HS as (port & write & Hio).
      exfalso. exact (io_dest_total _ _ _ _ Hwf Hio).
  - (* any other handler *)
    pose proof (handler_returns an (models (registry g)) cpu buf len (avr_op_analyze fuel an cpu)
                  h g op1 Hskip (fun port write => io_dest_total _ cpu port write Hwf)) as Hret.
    destruct (call_handler an (models (registry g)) cpu buf len (avr_op_analyze fuel an cpu) h g op1)
      as [hd|] eqn:Hcall; [|congruence].
    destruct (handler_globals _ _ _ _ _ _ _ _ _ _ Hskip Hcall) as (Hf & Hn & Ht & Hm & Hc).
    apply Hfin; try assumption.
    + rewrite Hn. lia.
    + left. exact Ht.
    + exact (wf_registry_same _ _ Hm Hc Hwf).
Qed.

(* ----------------------------------------------------------------- *)
(** *** The decode engine in two environments *)

Lemma tbl_rel_update (b : bool) (i : nat) (t t' : list OPCODE_DESC) (c c' : bool) :
  tbl_rel b t t' -> (b = true -> c = c') ->
  tbl_rel b (if c then update_at i (set_d_cycles 2) t else t)
            (if c' then update_at i (set_d_cycles 2) t' else t').
Proof.
  intros (Ht & Ht' & Heq) Hc. unfold tbl_rel, tbl_ok in *.
  split; [|split].
  - destruct c; rewrite ?update_strip; exact Ht.
  - destruct c'; rewrite ?update_strip; exact Ht'.
  - intros Hb. rewrite (Heq Hb), (Hc Hb). reflexivity.
Qed.

(** Two runs of [avr_op_analyze] on buffers with the same first [len]
    bytes, with interpreters that agree on [z], [eind] and [spmcsr], model
    arrays that look the same from the selected model, and descriptor arrays
    related by [tbl_rel b]: both return or neither does, with the same
    descriptor, the same nesting, and ops related by [op_rel b]. *)
Lemma analyze_sim (b : bool) (an an' : RzAnalysis) (cpu : nat) :
  regs_agree an an' ->
  forall (fuel : nat) (g g' : Globals) (op op' : RzAnalysisOp) (addr : Z)
         (buf buf' : list Z) (len : Z),
    view_agree (models (registry g)) (models (registry g')) cpu ->
    agree len buf buf' -> tbl_rel b (opcodes_g g) (opcodes_g g') -> op_rel b op op' ->
    match avr_op_analyze fuel an cpu g op addr buf len,
          avr_op_analyze fuel an' cpu g' op' addr buf' len with
    | Some r, Some r' =>
        r_desc r = r_desc r' /\ op_rel b (r_op r) (r_op r') /\ r_nested r = r_nested r' /\
        tbl_rel b (opcodes_g (r_globals r)) (opcodes_g (r_globals r'))
    | None, None => True
    | _, _ => False
    end.
Proof.
  intros Hregs. induction fuel as [|fuel IH];
    intros g g' op op' addr buf buf' len Hview Hbuf Htbl R; [exact I|].
  cbn [avr_op_analyze].
  destruct (len <? 2) eqn:Hlen.
  { cbn [r_desc r_op r_nested r_globals].
    split; [reflexivity|]. split; [exact R|]. split; [reflexivity|exact Htbl]. }
  apply Z.ltb_ge in Hlen.
  assert (H0 : at_ buf 0 = at_ buf' 0) by (apply (Hbuf 0%nat); lia).
  assert (H1 : at_ buf 1 = at_ buf' 1) by (apply (Hbuf 1%nat); lia).
  assert (H23 : 4 <= len -> at_ buf 2 = at_ buf' 2 /\ at_ buf 3 = at_ buf' 3)
    by (intros; split; [apply (Hbuf 2%nat)|apply (Hbuf 3%nat)]; lia).
  rewrite <- H0, <- H1.
  pose proof Htbl as (Ht & Ht' & Hteq).
  pose proof (scan_rel (ut16 (at_ buf 1 <<< 8 ||| at_ buf 0)) (opcodes_g g) (opcodes_g g') 0
                (eq_trans Ht (eq_sym Ht'))) as Hscan.
  destruct (scan_opcodes _ (opcodes_g g) 0) as [[[i d] h]|] eqn:E;
    destruct (scan_opcodes _ (opcodes_g g') 0) as [[[i' d'] h']|] eqn:E';
    try contradiction.
  2: { cbn [r_desc r_op r_nested r_globals].
       split; [reflexivity|]. split; [apply op_rel_invalid; exact R|].
       split; [reflexivity|exact Htbl]. }
  destruct Hscan as (<- & <- & Hd).
  assert (Hdeq : b = true -> d = d') by (intros Hb; rewrite (Hteq Hb) in E; congruence).
  pose proof (op_rel_defaults b d d' addr op op' Hd Hdeq R) as R1.
  match goal with
  | |- context [call_handler an _ _ _ _ _ _ _ ?o] => remember o as op1 eqn:Hop1
  end.
  match goal with
  | |- context [call_handler an' _ _ _ _ _ _ _ ?o] => remember o as op1' eqn:Hop1'
  end.
  assert (HS :
    match call_handler an (models (registry g)) cpu buf len (avr_op_analyze fuel an cpu) h g op1,
          call_handler an' (models (registry g')) cpu buf' len (avr_op_analyze fuel an' cpu) h g' op1'
    with
    | Some hd, Some hd' =>
        op_rel b (h_op hd) (h_op hd') /\ h_fail hd = h_fail hd' /\
        h_nested hd = h_nested hd' /\
        tbl_rel b (opcodes_g (h_globals hd)) (opcodes_g (h_globals hd'))
    | None, None => True
    | _, _ => False
    end).
  { destruct (is_skip h) eqn:Hskip.
    - (* compare-and-skip: the nested calls are related by induction *)
      assert (Hs1 : size op1 = 2)
        by (rewrite Hop1; exact (skip_size _ _ _ _ _ Ht E Hskip)).
      assert (Hs1' : size op1' = 2)
        by (rewrite Hop1'; exact (skip_size _ _ _ _ _ Ht' E' Hskip)).
      assert (Ha1 : Avr.addr op1 = addr) by (rewrite Hop1; reflexivity).
      assert (Ha1' : Avr.addr op1' = addr) by (rewrite Hop1'; reflexivity).
      pose proof (skip_handler_sim an an' _ _ cpu buf buf' len
                    (avr_op_analyze fuel an cpu) (avr_op_analyze fuel an' cpu)
                    h g g' op1 op1' Hskip Hlen (op_rel_sbc _ _ _ R1) Hview H0 H1) as HK.
      rewrite Ha1, Ha1', Hs1, Hs1' in HK.
      pose proof (IH g g' op_zero op_zero (ut64 (addr + 2)) (advance buf 2) (advance buf' 2)
                    (len - 2) Hview (agree_advance len 2 buf buf' ltac:(lia) Hbuf) Htbl
                    (op_rel_refl b op_zero)) as HN.
      destruct (avr_op_analyze fuel an cpu g op_zero _ _ _) as [nx|];
        destruct (avr_op_analyze fuel an' cpu g' op_zero _ _ _) as [nx'|];
        try contradiction.
      + destruct HN as (_ & Rn & Hn & Htn).
        destruct (sbc_reads _ _ (op_rel_sbc _ _ _ Rn)) as (_ & Hsz & _).
        specialize (HK Hsz).
        destruct (call_handler an _ _ _ _ _ _ _ _) as [hd|];
          destruct (call_handler an' _ _ _ _ _ _ _ _) as [hd'|];
          try contradiction; try exact I.
        destruct HK as (Ho & _ & Hf & Hf' & Hg & Hg' & Hm & Hm').
        rewrite Ho, Hf, Hf', Hg, Hg', Hm, Hm', Hn.
        split; [apply op_rel_refl|]. split; [reflexivity|]. split; [reflexivity|exact Htn].
      + destruct HK as [-> ->]. exact I.
    - (* any other handler *)
      pose proof (handler_sim b an an' _ _ cpu buf buf' len
                    (avr_op_analyze fuel an cpu) (avr_op_analyze fuel an' cpu)
                    h g g' op1 op1' Hskip Hregs Hview H0 H1 H23 R1) as HK.
      destruct (call_handler an _ _ _ _ _ _ _ _) as [hd|] eqn:C;
        destruct (call_handler an' _ _ _ _ _ _ _ _) as [hd'|] eqn:C';
        try contradiction; try exact I.
      destruct HK as (Ro & Hf & Hn).
      destruct (handler_globals _ _ _ _ _ _ _ _ _ _ Hskip C) as (_ & _ & Hg & _).
      destruct (handler_globals _ _ _ _ _ _ _ _ _ _ Hskip C') as (_ & _ & Hg' & _).
      rewrite Hg, Hg'. repeat split; assumption. }
  clear Hop1 Hop1' R1.
  destruct (call_handler an _ _ _ _ _ _ _ _) as [hd|];
    destruct (call_handler an' _ _ _ _ _ _ _ _) as [hd'|];
    try contradiction; try exact I.
  destruct HS as (Ro & Hf & Hn & Htr).
  rewrite Hf. destruct (truthy (h_fail hd')); cbn [r_desc r_op r_nested r_globals].
  - split; [reflexivity|]. split; [apply op_rel_invalid; exact Ro|].
    split; [exact Hn|exact Htr].
  - split; [reflexivity|]. split; [apply op_rel_finish; exact Ro|].
    split; [exact Hn|].
    assert (Hc : b = true -> (cycles (h_op hd) <=? 0) = (cycles (h_op hd') <=? 0)).
    { intros Hb. rewrite Hb in Ro. cbn in Ro. rewrite Ro. reflexivity. }
    pose proof (tbl_rel_update b i _ _ _ _ Htr Hc) as Hu.
    destruct (cycles (h_op hd) <=? 0); destruct (cycles (h_op hd') <=? 0);
      cbn [opcodes_g]; exact Hu.
Qed.

(* ----------------------------------------------------------------- *)
(** *** Nested decodes *)





(* ----------------------------------------------------------------- *)
(** *** Decoding the same input twice *)

(** Writing the memory-layout registers leaves [z], [eind] and [spmcsr]
    alone. *)
Lemma layout_keeps_regs (e : RzAnalysisEsil) (v1 v2 v3 v4 v5 : Z) (n : string) :
  n = "z" \/ n = "eind" \/ n = "spmcsr" ->
  regs (rz_analysis_esil_reg_write
          (rz_analysis_esil_reg_write
             (rz_analysis_esil_reg_write
                (rz_analysis_esil_reg_write
                   (rz_analysis_esil_reg_write e "_prog" v1) "_io" v2) "_sram" v3)
             "_eeprom" v4) "_page" v5) n
  = regs e n.
Proof. intros [-> | [-> | ->]]; reflexivity. Qed.

Lemma avr_op_sim (b : bool) (dis : list Z -> Z -> Z -> bool -> Z * string)
    (an an' : RzAnalysis) (g g' : Globals) (op : RzAnalysisOp) (addr : Z)
    (buf : list Z) (len : Z) :
  cpu an = cpu an' -> big_endian an = big_endian an' -> regs_agree an an' ->
  globals_ok g -> globals_ok g' ->
  (b = true -> opcodes_g g = opcodes_g g') ->
  exists o o',
    avr_op dis an g op addr buf len = Some o /\
    avr_op dis an' g' op addr buf len = Some o' /\
    o_ret o = o_ret o' /\ op_rel b (o_op o) (o_op o') /\
    tbl_rel b (opcodes_g (o_globals o)) (opcodes_g (o_globals o')) /\
    globals_ok (o_globals o) /\ globals_ok (o_globals o').
Proof.
  intros Hcpu Hbe (Hz & He & Hs) [Hwf Ht] [Hwf' Ht'] Hb.
  unfold avr_op. rewrite <- Hbe, <- Hcpu.
  destruct (if len >? 1 then dis buf len addr (big_endian an) else (-1, "invalid"))
    as [sz sb].
  cbv zeta.
  destruct (strcmp _ "invalid" =? 0).
  { eexists. eexists. split; [reflexivity|]. split; [reflexivity|].
    cbn [o_ret o_op o_globals].
    split; [reflexivity|]. split; [apply op_rel_refl|].
    split; [exact (conj Ht (conj Ht' Hb))|]. split; split; assumption. }
  rewrite (chain_fuel_wf _ Hwf), (chain_fuel_wf _ Hwf').
  destruct (get_cpu_model_resolves 18 (registry g) (cpu an) Hwf ltac:(lia))
    as (r1 & -> & Hw1 & _ & _ & _ & Hp1).
  destruct (get_cpu_model_resolves 18 (registry g') (cpu an) Hwf' ltac:(lia))
    as (r1' & -> & Hw1' & _ & _ & _ & Hp1').
  set (i := find_model cpu_models (cpu an) 0) in *.
  match goal with
  | |- context [avr_op_analyze _ ?a i {| registry := r1; opcodes_g := _ |}] => set (an1 := a)
  end.
  match goal with
  | |- context [avr_op_analyze _ ?a i {| registry := r1'; opcodes_g := _ |}] => set (an1' := a)
  end.
  set (g1 := {| registry := r1; opcodes_g := opcodes_g g |}).
  set (g1' := {| registry := r1'; opcodes_g := opcodes_g g' |}).
  match goal with
  | |- context [avr_op_analyze _ an1 i g1 ?o] => set (op1 := o)
  end.
  assert (Hregs : regs_agree an1 an1').
  { unfold regs_agree, an1, an1'; cbn [a_esil].
    rewrite !layout_keeps_regs by auto. auto. }
  destruct (analyze_returns an1 i (analyze_fuel len) g1 op1 addr buf len (conj Hw1 Ht)
              ltac:(unfold analyze_fuel; lia)) as (r & Hr & _ & Hok & _).
  destruct (analyze_returns an1' i (analyze_fuel len) g1' op1 addr buf len (conj Hw1' Ht')
              ltac:(unfold analyze_fuel; lia)) as (r' & Hr' & _ & Hok' & _).
  pose proof (analyze_sim b an1 an1' i Hregs (analyze_fuel len) g1 g1' op1 op1 addr buf buf len
                (view_agree_wf r1 r1' i Hw1 Hw1' (eq_trans Hp1 (eq_sym Hp1')))
                (fun _ _ => eq_refl) (conj Ht (conj Ht' Hb)) (op_rel_refl b op1)) as Hsim.
  rewrite Hr, Hr' in *. destruct Hsim as (_ & Ro & _ & Htr).
  eexists. eexists. split; [reflexivity|]. split; [reflexivity|].
  cbn [o_ret o_op o_globals].
  split; [reflexivity|]. split; [|split; [exact Htr|split; assumption]].
  destruct b; cbn in *.
  - rewrite Ro. reflexivity.
  - apply sbc_set_size. exact Ro.
Qed.

(* ----------------------------------------------------------------- *)
(** *** Two runs into different records *)

Lemma carried_reads (p p' a b : RzAnalysisOp) :
  carried p p' a b ->
  addr a = addr b /\ size a = size b /\ jump a = jump b /\ esil a = esil b /\
  type a = type b /\ cycles a = cycles b.
Proof.
  unfold carried, same_written.
  intros ((_ & Ha & Ht & _ & _ & Hs & He & _) & Hc & Hj & _).
  repeat split; assumption.
Qed.

Ltac kept_by_fields :=
  unfold carried, same_written, kept;
  let a := fresh "a" in let b := fresh "b" in let H := fresh "H" in
  intros a b H; destruct a, b; cbn in *;
  decompose [and] H; clear H;
  repeat split; first [assumption | reflexivity | left; reflexivity].

Section Carried.
Variables p p' : RzAnalysisOp.

Lemma kp_set_cycles v : forall a b, carried p p' a b -> carried p p' (set_cycles v a) (set_cycles v b).
Proof. kept_by_fields. Qed.
Lemma kp_set_mnemonic v : forall a b, carried p p' a b -> carried p p' (set_mnemonic v a) (set_mnemonic v b).
Proof. kept_by_fields. Qed.
Lemma kp_set_addr v : forall a b, carried p p' a b -> carried p p' (set_addr v a) (set_addr v b).
Proof. kept_by_fields. Qed.
Lemma kp_set_type v : forall a b, carried p p' a b -> carried p p' (set_type v a) (set_type v b).
Proof. kept_by_fields. Qed.
Lemma kp_set_type2 v : forall a b, carried p p' a b -> carried p p' (set_type2 v a) (set_type2 v b).
Proof. kept_by_fields. Qed.
Lemma kp_set_nopcode v : forall a b, carried p p' a b -> carried p p' (set_nopcode v a) (set_nopcode v b).
Proof. kept_by_fields. Qed.
Lemma kp_set_family v : forall a b, carried p p' a b -> carried p p' (set_family v a) (set_family v b).
Proof. kept_by_fields. Qed.
Lemma kp_set_eob v : forall a b, carried p p' a b -> carried p p' (set_eob v a) (set_eob v b).
Proof. kept_by_fields. Qed.
Lemma kp_set_size v : forall a b, carried p p' a b -> carried p p' (set_size v a) (set_size v b).
Proof. kept_by_fields. Qed.
Lemma kp_set_jump v : forall a b, carried p p' a b -> carried p p' (set_jump v a) (set_jump v b).
Proof. kept_by_fields. Qed.
Lemma kp_set_fail v : forall a b, carried p p' a b -> carried p p' (set_fail v a) (set_fail v b).
Proof. kept_by_fields. Qed.
Lemma kp_set_ptr v : forall a b, carried p p' a b -> carried p p' (set_ptr v a) (set_ptr v b).
Proof. kept_by_fields. Qed.
Lemma kp_set_val v : forall a b, carried p p' a b -> carried p p' (set_val v a) (set_val v b).
Proof. kept_by_fields. Qed.
Lemma kp_set_mmio_address v :
  forall a b, carried p p' a b -> carried p p' (set_mmio_address v a) (set_mmio_address v b).
Proof. kept_by_fields. Qed.
Lemma kp_set_esil v : forall a b, carried p p' a b -> carried p p' (set_esil v a) (set_esil v b).
Proof. kept_by_fields. Qed.

Lemma kp_ESIL_A s : forall a b, carried p p' a b -> carried p p' (ESIL_A s a) (ESIL_A s b).
Proof.
  intros a b R. unfold ESIL_A.
  rewrite (proj1 (proj2 (proj2 (proj2 (carried_reads _ _ _ _ R))))).
  apply kp_set_esil. exact R.
Qed.

Lemma kp_if (c : bool) (a a' b b' : RzAnalysisOp) :
  carried p p' a b -> carried p p' a' b' ->
  carried p p' (if c then a else a') (if c then b else b').
Proof. destruct c; auto. Qed.

Lemma kp_let_op (a a' : RzAnalysisOp) (f g : RzAnalysisOp -> RzAnalysisOp) :
  carried p p' a a' -> (forall x y, carried p p' x y -> carried p p' (f x) (g y)) ->
  carried p p' (let o := a in f o) (let o := a' in g o).
Proof. intros H K. exact (K a a' H). Qed.

Lemma kp_let_val {T : Type} (a a' : T) (f g : T -> RzAnalysisOp) :
  a = a' -> (forall v, carried p p' (f v) (g v)) ->
  carried p p' (let x := a in f x) (let x := a' in g x).
Proof. intros <- K. exact (K a). Qed.

Lemma kp_opt_let_op (a a' : RzAnalysisOp) (f g : RzAnalysisOp -> option RzAnalysisOp) :
  carried p p' a a' -> (forall x y, carried p p' x y -> carried_opt p p' (f x) (g y)) ->
  carried_opt p p' (let o := a in f o) (let o := a' in g o).
Proof. intros H K. exact (K a a' H). Qed.

Lemma kp_opt_let_val {T : Type} (a a' : T) (f g : T -> option RzAnalysisOp) :
  a = a' -> (forall v, carried_opt p p' (f v) (g v)) ->
  carried_opt p p' (let x := a in f x) (let x := a' in g x).
Proof. intros <- K. exact (K a). Qed.

Lemma kp_opt_some (a b : RzAnalysisOp) : carried p p' a b -> carried_opt p p' (Some a) (Some b).
Proof. intros H. exact H. Qed.

Lemma kp_opt_if (c : bool) (a a' b b' : option RzAnalysisOp) :
  carried_opt p p' a b -> carried_opt p p' a' b' ->
  carried_opt p p' (if c then a else a') (if c then b else b').
Proof. destruct c; auto. Qed.

Lemma kp_opt_match {T : Type} (x : option T) (f g : T -> option RzAnalysisOp) :
  (forall v, carried_opt p p' (f v) (g v)) ->
  carried_opt p p' (match x with Some v => f v | None => None end)
                   (match x with Some v => g v | None => None end).
Proof. destruct x; [auto | intros _; exact I]. Qed.

End Carried.

(** Walk two copies of a handler body in step. *)
Ltac kp_use R :=
  let Ha := fresh in let Hs := fresh in let Hj := fresh in let He := fresh in
  let Ht := fresh in let Hc := fresh in
  pose proof (carried_reads _ _ _ _ R) as (Ha & Hs & Hj & He & Ht & Hc);
  rewrite ?Ha, ?Hs, ?Hj, ?He, ?Ht, ?Hc; clear Ha Hs Hj He Ht Hc.

Ltac kp_helper := fail.

Ltac kp_solve :=
  lazymatch goal with
  | |- carried _ _ (__generic_push _ _) _ => kp_helper
  | |- carried _ _ (__generic_pop _ _) _ => kp_helper
  | |- carried _ _ (__generic_ld_st _ _ _ _ _ _ _) _ => kp_helper
  | |- carried ?p ?q (let x := ?A in @?F x) (let y := ?A' in @?G y) =>
      lazymatch type of A with
      | RzAnalysisOp =>
          apply (kp_let_op p q A A' F G);
          [ kp_solve
          | let x := fresh "o" in let y := fresh "o" in let R := fresh "R" in
            intros x y R; cbv beta; kp_use R; kp_solve ]
      | _ =>
          apply (kp_let_val p q A A' F G);
          [ reflexivity | let v := fresh "v" in intros v; cbv beta; kp_solve ]
      end
  | |- carried _ _ (if ?c then _ else _) (if ?c' then _ else _) => apply kp_if; kp_solve
  | |- carried _ _ (set_cycles _ _) _ => apply kp_set_cycles; kp_solve
  | |- carried _ _ (set_mnemonic _ _) _ => apply kp_set_mnemonic; kp_solve
  | |- carried _ _ (set_addr _ _) _ => apply kp_set_addr; kp_solve
  | |- carried _ _ (set_type _ _) _ => apply kp_set_type; kp_solve
  | |- carried _ _ (set_type2 _ _) _ => apply kp_set_type2; kp_solve
  | |- carried _ _ (set_nopcode _ _) _ => apply kp_set_nopcode; kp_solve
  | |- carried _ _ (set_family _ _) _ => apply kp_set_family; kp_solve
  | |- carried _ _ (set_eob _ _) _ => apply kp_set_eob; kp_solve
  | |- carried _ _ (set_size _ _) _ => apply kp_set_size; kp_solve
  | |- carried _ _ (set_jump _ _) _ => apply kp_set_jump; kp_solve
  | |- carried _ _ (set_fail _ _) _ => apply kp_set_fail; kp_solve
  | |- carried _ _ (set_ptr _ _) _ => apply kp_set_ptr; kp_solve
  | |- carried _ _ (set_val _ _) _ => apply kp_set_val; kp_solve
  | |- carried _ _ (set_mmio_address _ _) _ => apply kp_set_mmio_address; kp_solve
  | |- carried _ _ (set_esil _ _) _ => apply kp_set_esil; kp_solve
  | |- carried _ _ (ESIL_A _ _) _ => apply kp_ESIL_A; kp_solve
  | |- carried _ _ _ _ => assumption
  | |- carried_opt ?p ?q (let x := ?A in @?F x) (let y := ?A' in @?G y) =>
      lazymatch type of A with
      | RzAnalysisOp =>
          apply (kp_opt_let_op p q A A' F G);
          [ kp_solve
          | let x := fresh "o" in let y := fresh "o" in let R := fresh "R" in
            intros x y R; cbv beta; kp_use R; kp_solve ]
      | _ =>
          apply (kp_opt_let_val p q A A' F G);
          [ reflexivity | let v := fresh "v" in intros v; cbv beta; kp_solve ]
      end
  | |- carried_opt _ _ (if ?c then _ else _) (if ?c' then _ else _) => apply kp_opt_if; kp_solve
  | |- carried_opt _ _ (Some _) (Some _) => apply kp_opt_some; kp_solve
  | |- carried_opt ?p ?q (match ?x with Some v => @?F v | None => None end)
                         (match ?x with Some w => @?G w | None => None end) =>
      apply (kp_opt_match p q x F G); let v := fresh "v" in intros v; cbv beta; kp_solve
  end.

Lemma kp_generic_push (p p' : RzAnalysisOp) (n : Z) :
  forall a b, carried p p' a b -> carried p p' (__generic_push a n) (__generic_push b n).
Proof. intros a b R. unfold __generic_push. kp_solve. Qed.

Lemma kp_generic_pop (p p' : RzAnalysisOp) (n : Z) :
  forall a b, carried p p' a b -> carried p p' (__generic_pop a n) (__generic_pop b n).
Proof. intros a b R. unfold __generic_pop. kp_solve. Qed.

Lemma kp_generic_ld_st (p p' : RzAnalysisOp) (m : string) (ireg : ascii)
    (use_ramp prepostdec offset st : Z) :
  forall a b, carried p p' a b ->
    carried p p' (__generic_ld_st a m ireg use_ramp prepostdec offset st)
                 (__generic_ld_st b m ireg use_ramp prepostdec offset st).
Proof. intros a b R. unfold __generic_ld_st. kp_solve. Qed.

Ltac kp_helper ::=
  first [ apply kp_generic_push | apply kp_generic_pop | apply kp_generic_ld_st ];
  kp_solve.

(** The same walk for a body whose [let]s are gone: by fields. *)
Ltac kp_cbn :=
  cbn [h_op h_fail h_globals h_nested mnemonic addr type type2 nopcode cycles family eob
       size jump fail ptr val mmio_address esil set_mnemonic set_addr set_type set_type2
       set_nopcode set_cycles set_family set_eob set_size set_jump set_fail set_ptr set_val
       set_mmio_address set_esil ESIL_A].

Ltac kp_open R :=
  unfold carried, same_written, kept in R |- *;
  lazymatch type of R with
  | context [mnemonic ?a = mnemonic ?b] =>
      destruct a, b; cbn in R; decompose [and] R; clear R; subst; kp_cbn
  end.

Ltac kp_close :=
  kp_cbn; repeat split; first [assumption | reflexivity | left; reflexivity].

(** Whatever a handler writes it writes alike into both records, and what
    it leaves unwritten it leaves in both: no handler reads a field that the
    decoder has not written before. *)
Lemma handler_carried
    (an : RzAnalysis) (ms : list CPU_MODEL) (cpu : nat) (buf : list Z) (len : Z)
    (analyze : Globals -> RzAnalysisOp -> Z -> list Z -> Z -> option Analyzed)
    (h : inst_handler_t) (g : Globals) (p p' a b : RzAnalysisOp) :
  carried p p' a b ->
  match call_handler an ms cpu buf len analyze h g a,
        call_handler an ms cpu buf len analyze h g b with
  | Some hd, Some hd' =>
      h_fail hd = h_fail hd' /\ h_globals hd = h_globals hd' /\
      h_nested hd = h_nested hd' /\ carried p p' (h_op hd) (h_op hd')
  | None, None => True
  | _, _ => False
  end.
Proof.
  intros R.
  assert (Hpure : forall g0 x y, carried p p' x y ->
            match handled g0 x, handled g0 y with
            | Some hd, Some hd' =>
                h_fail hd = h_fail hd' /\ h_globals hd = h_globals hd' /\
                h_nested hd = h_nested hd' /\ carried p p' (h_op hd) (h_op hd')
            | None, None => True
            | _, _ => False
            end).
  { intros g0 x y Hxy. unfold handled. cbn [h_op h_fail h_globals h_nested].
    split; [reflexivity|]. split; [reflexivity|]. split; [reflexivity|exact Hxy]. }
  assert (Hopt : forall x y, carried_opt p p' x y ->
            match match x with Some o => handled g o | None => None end,
                  match y with Some o => handled g o | None => None end with
            | Some hd, Some hd' =>
                h_fail hd = h_fail hd' /\ h_globals hd = h_globals hd' /\
                h_nested hd = h_nested hd' /\ carried p p' (h_op hd) (h_op hd')
            | None, None => True
            | _, _ => False
            end).
  { intros [x|] [y|] Hxy; cbn [carried_opt] in Hxy; try contradiction; [|exact I].
    apply Hpure. exact Hxy. }
  destruct h; cbn [call_handler].
  all: lazymatch goal with
       | |- match handled _ _ with _ => _ end =>
           apply Hpure; open_handlers; kp_use R; kp_solve
       | |- match match _ with Some _ => _ | None => _ end with _ => _ end =>
           apply Hopt; open_handlers; kp_use R; kp_solve
       | _ => idtac
       end.
  - unfold _inst__cpse.
    destruct (len <? 2); [apply Hpure; exact R|]. cbv zeta.
    clear Hpure Hopt. kp_open R.
    destruct (analyze g op_zero _ _ _) as [nx|]; [|exact I]. kp_close.
  - unfold _inst__sbix.
    destruct (len <? 2); [apply Hpure; exact R|]. cbv zeta.
    clear Hpure Hopt. kp_open R.
    destruct (analyze g op_zero _ _ _) as [nx|]; [|exact I].
    destruct (__generic_io_dest _ 0 ms cpu) as [io_port|]; [|exact I]. kp_close.
  - unfold _inst__sbrx.
    destruct (len <? 2); [apply Hpure; exact R|]. cbv zeta.
    clear Hpure Hopt. kp_open R.
    destruct (analyze g op_zero _ _ _) as [nx|]; [|exact I]. kp_close.
  - unfold _inst__spm. cbv zeta.
    repeat match goal with |- context [if ?c =? ?v then _ else _] => destruct (c =? v) end;
      cbv beta iota; apply Hpure; kp_solve.
Qed.

Ltac sw_fields :=
  unfold same_written, kept;
  repeat split;
  first [ assumption | reflexivity | left; reflexivity | right; split; reflexivity ].

Ltac sw_open R :=
  unfold same_written, kept in R |- *;
  lazymatch type of R with
  | context [mnemonic ?a = mnemonic ?b] =>
      destruct a, b; cbn in R; decompose [and] R; clear R; subst
  end.

(** The engine's own assignments, on two records. *)
Lemma same_written_start (p p' : RzAnalysisOp) (addr : Z) (sb : string) :
  same_written p p' (set_mnemonic sb (set_invalid_op p addr))
                    (set_mnemonic sb (set_invalid_op p' addr)) /\
  cycles (set_mnemonic sb (set_invalid_op p addr))
  = cycles (set_mnemonic sb (set_invalid_op p' addr)).
Proof. split; [|reflexivity]. destruct p, p'. sw_fields. Qed.

Lemma same_written_eob (p p' a b : RzAnalysisOp) (v : bool) :
  same_written p p' a b -> same_written p p' (set_eob v a) (set_eob v b).
Proof. intros R. sw_open R. kp_cbn. sw_fields. Qed.

Lemma same_written_size (p p' a b : RzAnalysisOp) (v : Z) :
  same_written p p' a b -> same_written p p' (set_size v a) (set_size v b).
Proof. intros R. sw_open R. kp_cbn. sw_fields. Qed.

Lemma same_written_invalid (p p' a b : RzAnalysisOp) (addr : Z) :
  same_written p p' a b ->
  same_written p p' (set_invalid_op a addr) (set_invalid_op b addr).
Proof. intros R. sw_open R. unfold set_invalid_op. kp_cbn. sw_fields. Qed.

Lemma carried_defaults (p p' a b : RzAnalysisOp) (d : OPCODE_DESC) (addr : Z) :
  same_written p p' a b ->
  carried p p'
    (set_esil "" (set_addr addr (set_fail UT64_MAX (set_jump UT64_MAX
       (set_type (d_type d) (set_size (d_size d) (set_cycles (d_cycles d) a)))))))
    (set_esil "" (set_addr addr (set_fail UT64_MAX (set_jump UT64_MAX
       (set_type (d_type d) (set_size (d_size d) (set_cycles (d_cycles d) b))))))).
Proof. intros R. unfold carried. sw_open R. kp_cbn. sw_fields. Qed.

Lemma carried_same_written (p p' a b : RzAnalysisOp) :
  carried p p' a b -> same_written p p' a b /\ cycles a = cycles b.
Proof. intros (R & Hc & _). split; assumption. Qed.

(** Ops equal up to the cycle estimate are interchangeable on the left. *)
Lemma same_written_sbc (p p' a a' b : RzAnalysisOp) :
  sbc a a' -> same_written p p' a' b -> same_written p p' a b.
Proof.
  unfold sbc, erase_cycles. intros E R. destruct a, a'; cbn in E.
  injection E as -> -> -> -> -> -> -> -> -> -> -> -> -> ->. exact R.
Qed.

(** Records that agreed on the fields a decode can leave unwritten come out
    equal, the cycle estimate apart. *)
Lemma same_written_carried (p p' a b : RzAnalysisOp) :
  same_carried p p' -> same_written p p' a b -> sbc a b.
Proof.
  unfold same_carried, same_written, kept, sbc, erase_cycles.
  intros (C1 & C2 & C3 & C4 & C5 & C6 & C7)
         (H1 & H2 & H3 & H4 & H5 & H6 & H7 & K1 & K2 & K3 & K4 & K5 & K6 & K7).
  assert (E1 : type2 a = type2 b) by (destruct K1 as [|[-> ->]]; assumption).
  assert (E2 : eob a = eob b) by (destruct K2 as [|[-> ->]]; assumption).
  assert (E3 : jump a = jump b) by (destruct K3 as [|[-> ->]]; assumption).
  assert (E4 : fail a = fail b) by (destruct K4 as [|[-> ->]]; assumption).
  assert (E5 : ptr a = ptr b) by (destruct K5 as [|[-> ->]]; assumption).
  assert (E6 : val a = val b) by (destruct K6 as [|[-> ->]]; assumption).
  assert (E7 : mmio_address a = mmio_address b) by (destruct K7 as [|[-> ->]]; assumption).
  destruct a, b; cbn in *. subst. reflexivity.
Qed.

Lemma sbc_cycles (a b : RzAnalysisOp) : sbc a b -> cycles a = cycles b -> a = b.
Proof.
  unfold sbc, erase_cycles. intros E C. destruct a, b; cbn in *.
  injection E as -> -> -> -> -> -> -> -> -> -> -> -> -> ->. subst. reflexivity.
Qed.

(** One decode into two records: same descriptor, same globals, same
    nesting; the ops agree in what was written and keep what was not. *)
Lemma analyze_carried (fuel : nat) (an : RzAnalysis) (cpu : nat) (g : Globals)
    (p p' a b : RzAnalysisOp) (addr : Z) (buf : list Z) (len : Z) :
  same_written p p' a b -> cycles a = cycles b ->
  match avr_op_analyze fuel an cpu g a addr buf len,
        avr_op_analyze fuel an cpu g b addr buf len with
  | Some r, Some r' =>
      r_desc r = r_desc r' /\ r_globals r = r_globals r' /\ r_nested r = r_nested r' /\
      same_written p p' (r_op r) (r_op r') /\ cycles (r_op r) = cycles (r_op r')
  | None, None => True
  | _, _ => False
  end.
Proof.
  intros R Hc. destruct fuel as [|fuel]; cbn [avr_op_analyze]; [exact I|].
  destruct (len <? 2).
  { cbn [r_desc r_op r_globals r_nested].
    split; [reflexivity|]. split; [reflexivity|]. split; [reflexivity|].
    split; assumption. }
  cbv zeta.
  destruct (scan_opcodes _ (opcodes_g g) 0) as [[[i d] h]|].
  2: { cbn [r_desc r_op r_globals r_nested].
       split; [reflexivity|]. split; [reflexivity|]. split; [reflexivity|].
       split; [apply same_written_invalid; exact R|reflexivity]. }
  pose proof (handler_carried an (models (registry g)) cpu buf len
                (avr_op_analyze fuel an cpu) h g p p' _ _
                (carried_defaults p p' a b d addr R)) as Hh.
  destruct (call_handler an _ cpu buf len _ h g _) as [hd|];
    destruct (call_handler an _ cpu buf len _ h g _) as [hd'|];
    try exact Hh; try contradiction.
  destruct Hh as (Hf & Hg & Hn & Ro).
  destruct (carried_reads _ _ _ _ Ro) as (_ & _ & _ & He & Ht & Hcy).
  rewrite <- Hf, <- Hg, <- Hn, <- Hcy.
  destruct (truthy (h_fail hd)); cbn [r_desc r_op r_globals r_nested].
  - split; [reflexivity|]. split; [reflexivity|]. split; [reflexivity|].
    split; [apply same_written_invalid; exact (proj1 (carried_same_written _ _ _ _ Ro))
           |reflexivity].
  - split; [reflexivity|]. split; [reflexivity|]. split; [reflexivity|].
    apply carried_same_written.
    cbn [esil set_nopcode]. rewrite <- Ht, <- He.
    apply kp_set_esil. apply kp_set_nopcode. exact Ro.
Qed.

(** One call of [avr_op] into two records. *)
Lemma avr_op_carried (dis : list Z -> Z -> Z -> bool -> Z * string)
    (an : RzAnalysis) (g : Globals) (p p' : RzAnalysisOp) (addr : Z)
    (buf : list Z) (len : Z) :
  match avr_op dis an g p addr buf len, avr_op dis an g p' addr buf len with
  | Some o, Some o' =>
      o_ret o = o_ret o' /\ o_globals o = o_globals o' /\ o_esil o = o_esil o' /\
      same_written p p' (o_op o) (o_op o') /\ cycles (o_op o) = cycles (o_op o')
  | None, None => True
  | _, _ => False
  end.
Proof.
  unfold avr_op.
  destruct (if len >? 1 then dis buf len addr (big_endian an) else (-1, "invalid"))
    as [sz sb].
  cbv zeta.
  destruct (same_written_start p p' addr sb) as [R Hc].
  cbn [mnemonic set_mnemonic].
  destruct (strcmp sb "invalid" =? 0).
  { cbn [o_ret o_op o_globals o_esil].
    split; [reflexivity|]. split; [reflexivity|]. split; [reflexivity|].
    split; [apply same_written_eob; exact R|reflexivity]. }
  destruct (get_cpu_model _ (registry g) (cpu an)) as [[[cpu|] reg']|]; try exact I.
  match goal with
  | |- context [avr_op_analyze ?f ?a cpu ?g1 (set_mnemonic sb (set_invalid_op p addr))] =>
      pose proof (analyze_carried f a cpu g1 p p' _ _ addr buf len R Hc) as Hr
  end.
  match type of Hr with
  | match ?x with _ => _ end => destruct x as [r|]
  end;
  match type of Hr with
  | match ?y with _ => _ end => destruct y as [r'|]
  end; try exact Hr.
  destruct Hr as (_ & Hg & _ & Ro & Hcy).
  cbn [o_ret o_op o_globals o_esil].
  split; [reflexivity|]. split; [exact Hg|]. split; [reflexivity|].
  split; [apply same_written_size; exact Ro|exact Hcy].
Qed.

(** C2 fails as stated: IJMP (bytes 09 94) takes its jump target from the
    interpreter's [z] register, which is neither the input buffer nor the
    variant registry.  Same bytes, same address, same variant, same globals:
    with [z = 0] the target is 0, with [z = 0x100] it is 0x200. *)
Lemma indirect_jump_reads_interpreter :
  let r := avr_op_analyze (analyze_fuel 2) analysis0 7 globals_init op_zero 0 [0x09; 0x94] 2 in
  let r' := avr_op_analyze (analyze_fuel 2) analysis_z 7 globals_init op_zero 0 [0x09; 0x94] 2 in
  option_map r_desc r = Some (Some 4%nat) /\
  option_map (fun x => d_name x) (nth_error opcodes 4) = Some "ijmp" /\
  option_map (fun x => jump (r_op x)) r = Some 0 /\
  option_map (fun x => jump (r_op x)) r' = Some 0x200 /\
  option_map r_op r <> option_map r_op r'.
Proof.
  split; [vm_compute; reflexivity|]. split; [reflexivity|].
  split; [vm_compute; reflexivity|]. split; [vm_compute; reflexivity|].
  vm_compute. discriminate.
Qed.

(** The decode writes into the record it is handed and does not clear it:
    NOP (bytes 00 00) decoded into a fresh record and into a record whose
    [ptr] field holds 0x55 from an earlier use leaves 0 in the one and 0x55
    in the other.  Same bytes, address, variant, globals and interpreter. *)
Lemma unwritten_fields_keep_prior_content :
  let o := avr_op disassembler0 analysis0 globals_init op_zero 0 [0x00; 0x00] 2 in
  let o' := avr_op disassembler0 analysis0 globals_init (set_ptr 0x55 op_zero) 0
              [0x00; 0x00] 2 in
  option_map o_ret o = Some 2 /\ option_map o_ret o' = Some 2 /\
  option_map (fun x => ptr (o_op x)) o = Some 0 /\
  option_map (fun x => ptr (o_op x)) o' = Some 0x55 /\
  option_map (fun x => set_ptr 0 (o_op x)) o = option_map (fun x => set_ptr 0 (o_op x)) o'.
Proof.
  split; [vm_compute; reflexivity|]. split; [vm_compute; reflexivity|].
  split; [vm_compute; reflexivity|]. split; [vm_compute; reflexivity|].
  vm_compute. reflexivity.
Qed.

(** C2 (as amended): take two calls of [avr_op] on the same bytes, address,
    variant name and byte order, from any two reachable states of the
    globals (variant cache, filled back-pointers, error log, descriptor
    array), with interpreters that agree on the registers [z], [eind] and
    [spmcsr], and into any two op records.  Both calls return, with the
    same return value.  The two ops agree in mnemonic, address, type,
    nopcode, family, size and expression; each of the fields [type2], [eob],
    [jump], [fail], [ptr], [val] and [mmio_address] is either the same in
    both or was written by neither call, and then each record still holds
    what it held before.  So if the two records agreed on these seven fields
    before the calls - two fresh records, or one record used twice - the ops
    are equal in every field except possibly the cycle estimate.  When the
    two calls start from the same descriptor array the cycle estimates are
    equal as well and the descriptor arrays they leave are equal.  The
    globals a call leaves are again reachable, so this covers a call and any
    later call. *)
Theorem decode_twice_agrees_up_to_cycles
    (dis : list Z -> Z -> Z -> bool -> Z * string)
    (an an' : RzAnalysis) (g g' : Globals) (op op' : RzAnalysisOp) (addr : Z)
    (buf : list Z) (len : Z) :
  cpu an = cpu an' -> big_endian an = big_endian an' -> regs_agree an an' ->
  globals_ok g -> globals_ok g' ->
  exists o o',
    avr_op dis an g op addr buf len = Some o /\
    avr_op dis an' g' op' addr buf len = Some o' /\
    o_ret o = o_ret o' /\
    same_written op op' (o_op o) (o_op o') /\
    (same_carried op op' -> erase_cycles (o_op o) = erase_cycles (o_op o')) /\
    (opcodes_g g = opcodes_g g' ->
       cycles (o_op o) = cycles (o_op o') /\
       (same_carried op op' -> o_op o = o_op o') /\
       opcodes_g (o_globals o) = opcodes_g (o_globals o')) /\
    globals_ok (o_globals o) /\ globals_ok (o_globals o').
Proof.
  intros Hcpu Hbe Hregs Hg Hg'.
  destruct (avr_op_sim false dis an an' g g' op addr buf len Hcpu Hbe Hregs Hg Hg'
              ltac:(discriminate)) as (o & m & Ho & Hm & Hret & Hrel & _ & Hok & Hokm).
  pose proof (avr_op_carried dis an' g' op op' addr buf len) as Hc.
  rewrite Hm in Hc.
  destruct (avr_op dis an' g' op' addr buf len) as [o'|]; [|contradiction].
  destruct Hc as (Hret' & Hgl & _ & Hsw & Hcy).
  assert (Hw : same_written op op' (o_op o) (o_op o'))
    by exact (same_written_sbc _ _ _ _ _ Hrel Hsw).
  exists o, o'. split; [exact Ho|]. split; [reflexivity|].
  split; [congruence|]. split; [exact Hw|].
  split; [intros Hsc; exact (same_written_carried _ _ _ _ Hsc Hw)|].
  split; [|split; [exact Hok|rewrite <- Hgl; exact Hokm]].
  intros Ht.
  destruct (avr_op_sim true dis an an' g g' op addr buf len Hcpu Hbe Hregs Hg Hg'
              (fun _ => Ht)) as (q & q' & Hq & Hq' & _ & Hrel' & (_ & _ & Heq) & _).
  rewrite Ho in Hq. rewrite Hm in Hq'.
  assert (Eq : o = q) by congruence. assert (Eq' : m = q') by congruence.
  subst q q'. cbn [op_rel] in Hrel'.
  assert (Hcyc : cycles (o_op o) = cycles (o_op o')) by (rewrite Hrel'; exact Hcy).
  split; [exact Hcyc|]. split; [|rewrite <- Hgl; exact (Heq eq_refl)].
  intros Hsc. apply sbc_cycles; [exact (same_written_carried _ _ _ _ Hsc Hw)|exact Hcyc].
Qed.

Lemma decode_twice_agrees_up_to_cycles_witness :
  exists o o',
    avr_op disassembler0 analysis0 globals_init op_zero 0 [0x06; 0x90] 2 = Some o /\
    avr_op disassembler0 analysis0 globals_later (set_ptr 0x55 op_zero) 0 [0x06; 0x90] 2
      = Some o' /\
    o_ret o = o_ret o' /\
    same_written op_zero (set_ptr 0x55 op_zero) (o_op o) (o_op o') /\
    (same_carried op_zero (set_ptr 0x55 op_zero) ->
       erase_cycles (o_op o) = erase_cycles (o_op o')) /\
    (opcodes_g globals_init = opcodes_g globals_later ->
       cycles (o_op o) = cycles (o_op o') /\
       (same_carried op_zero (set_ptr 0x55 op_zero) -> o_op o = o_op o') /\
       opcodes_g (o_globals o) = opcodes_g (o_globals o')) /\
    globals_ok (o_globals o) /\ globals_ok (o_globals o').
Proof.
  apply (decode_twice_agrees_up_to_cycles disassembler0 analysis0 analysis0
           globals_init globals_later op_zero (set_ptr 0x55 op_zero) 0 [0x06; 0x90] 2).
  - reflexivity.
  - reflexivity.
  - repeat split.
  - split; [exact registry_init_wf|reflexivity].
  - split; [|reflexivity].
    split; [|split; [lia|reflexivity]].
    exists [false; false; false; false; false; false; false; false].
    split; reflexivity.
Defined.

End AvrProps.

(* ================================================================= *)
(** ** Further properties of the AVR plugin *)

Module AvrMoreProps.
Import Avr AvrAux AvrProps AvrEsil AvrEsilAux.

(* ----------------------------------------------------------------- *)
(** *** The variant cache *)

Lemma registry_eta (g : Registry) (ms : list CPU_MODEL) (c : option nat) (lg : list string) :
  models g = ms -> cached g = c -> errlog g = lg ->
  g = {| models := ms; cached := c; errlog := lg |}.
Proof. destruct g; cbn; intros -> -> ->; reflexivity. Qed.

(** Filling in a back-pointer that is already filled in changes nothing. *)
Lemma update_filled (g : Registry) (i : nat) :
  wf_registry g -> (i < 8)%nat ->
  inherit_cpu_p (model_at (models g) i) = static_parent (model_at cpu_models i) ->
  update_at i (set_inherit_cpu_p (static_parent (model_at cpu_models i))) (models g) = models g.
Proof.
  intros [[rs [Hlen Hms]] _] Hi. rewrite Hms. clear Hms.
  bools8 rs Hlen. rewrite resolved_by_normal.
  exact (proj2 (proj2 (update_resolved r2 r3 r4 r5 r6 i Hi))).
Qed.

(** X1 (stable lookup): a variant lookup leaves the registry in a state in
    which the same lookup returns the same model and changes nothing any
    more - whether the second call is answered from the one-slot cache or,
    for a name the cached model does not carry, by a new search. *)
Theorem variant_lookup_is_stable (g : Registry) (name : string) :
  wf_registry g ->
  exists i g1,
    get_cpu_model (chain_fuel (models g)) g name = Some (Some i, g1) /\
    get_cpu_model (chain_fuel (models g1)) g1 name = Some (Some i, g1) /\
    (i < 8)%nat /\ cached g1 = Some i /\ errlog g1 = errlog g /\ wf_registry g1.
Proof.
  intros Hwf. rewrite (chain_fuel_wf g Hwf).
  destruct (get_cpu_model_resolves 18 g name Hwf ltac:(lia))
    as (g1 & Hg & Hwf1 & Hlog & Hc & Hms & Hp).
  exists (find_model cpu_models name 0), g1.
  split; [exact Hg|]. rewrite (chain_fuel_wf g1 Hwf1).
  destruct (get_cpu_model_resolves 18 g1 name Hwf1 ltac:(lia))
    as (g2 & Hg2 & _ & Hlog2 & Hc2 & Hms2 & _).
  pose proof (find_model_bound name) as Hi.
  rewrite (update_filled g1 _ Hwf1 Hi Hp) in Hms2.
  assert (E : g2 = g1).
  { rewrite (registry_eta g2 _ _ _ Hms2 Hc2 Hlog2).
    symmetry. apply registry_eta; [reflexivity|exact Hc|reflexivity]. }
  rewrite E in Hg2.
  split; [exact Hg2|]. split; [exact Hi|]. split; [exact Hc|]. split; [exact Hlog|exact Hwf1].
Qed.

Lemma variant_lookup_is_stable_witness :
  exists i g1,
    get_cpu_model (chain_fuel cpu_models) (registry globals_init) "atmega2560"
      = Some (Some i, g1) /\
    get_cpu_model (chain_fuel (models g1)) g1 "atmega2560" = Some (Some i, g1) /\
    (i < 8)%nat /\ cached g1 = Some i /\ errlog g1 = [] /\ wf_registry g1.
Proof.
  exact (variant_lookup_is_stable (registry globals_init) "atmega2560" registry_init_wf).
Defined.

(** X2 (known names): a name that equals, up to letter case, the name of a
    model of the table selects that model and no other; the lookup logs
    nothing and leaves the model with its name, its program-counter width
    and its parent resolved. *)
Theorem known_variant_selects_its_model (g : Registry) (name : string) (i : nat) :
  wf_registry g -> (i < 8)%nat ->
  rz_str_casecmp name (model (model_at cpu_models i)) = 0 ->
  exists g1,
    get_cpu_model (chain_fuel (models g)) g name = Some (Some i, g1) /\
    model (model_at (models g1) i) = model (model_at cpu_models i) /\
    pc (model_at (models g1) i) = pc (model_at cpu_models i) /\
    inherit_cpu_p (model_at (models g1) i) = static_parent (model_at cpu_models i) /\
    errlog g1 = errlog g.
Proof.
  intros Hwf Hi Hname. rewrite (chain_fuel_wf g Hwf).
  destruct (get_cpu_model_resolves 18 g name Hwf ltac:(lia))
    as (g1 & Hg & Hwf1 & Hlog & Hc & Hms & Hp).
  rewrite (find_model_hit name i Hi Hname) in Hg, Hp.
  destruct (wf_static_facts g1 i Hwf1) as (_ & Hm & Hpc & _).
  exists g1. split; [exact Hg|]. split; [exact Hm|]. split; [exact Hpc|].
  split; [exact Hp|exact Hlog].
Qed.

Lemma known_variant_selects_its_model_witness :
  exists g1,
    get_cpu_model 18 (registry globals_init) "atMEGA88" = Some (Some 6%nat, g1) /\
    model (model_at (models g1) 6) = "ATmega88" /\
    pc (model_at (models g1) 6) = 8 /\
    inherit_cpu_p (model_at (models g1) 6) = Some 7%nat /\
    errlog g1 = [].
Proof.
  apply (known_variant_selects_its_model (registry globals_init) "atMEGA88" 6).
  - exact registry_init_wf.
  - lia.
  - reflexivity.
Defined.


(* ----------------------------------------------------------------- *)
(** *** The register-write hook *)

(** A lookup repeated on the registry it left behind. *)
Lemma get_cpu_model_again (g g1 : Registry) (name : string) :
  wf_registry g ->
  get_cpu_model 18 g name = Some (Some (find_model cpu_models name 0), g1) ->
  wf_registry g1 /\
  get_cpu_model 18 g1 name = Some (Some (find_model cpu_models name 0), g1).
Proof.
  intros Hwf Hg.
  destruct (get_cpu_model_resolves 18 g name Hwf ltac:(lia))
    as (g1' & Hg' & Hwf1 & Hlog & Hc & Hms & Hp).
  rewrite Hg in Hg'. injection Hg' as <-.
  split; [exact Hwf1|].
  destruct (get_cpu_model_resolves 18 g1 name Hwf1 ltac:(lia))
    as (g2 & Hg2 & _ & Hlog2 & Hc2 & Hms2 & _).
  rewrite (update_filled g1 _ Hwf1 (find_model_bound name) Hp) in Hms2.
  assert (E : g2 = g1).
  { rewrite (registry_eta g2 _ _ _ Hms2 Hc2 Hlog2).
    symmetry. apply registry_eta; [reflexivity|exact Hc|reflexivity]. }
  rewrite E in Hg2. exact Hg2.
Qed.

(** The program-counter widths of the table. *)
Lemma pc_widths (i : nat) :
  (i < 8)%nat -> In (pc (model_at cpu_models i)) [15; 17; 16; 8; 13].
Proof.
  intros Hi. destruct i as [|[|[|[|[|[|[|[|i]]]]]]]]; try lia; vm_compute; tauto.
Qed.

Lemma hook_run (g : Registry) (cpu_name name : string) (val : Z) :
  wf_registry g ->
  let i := find_model cpu_models cpu_name 0 in
  exists g1,
    get_cpu_model 18 g cpu_name = Some (Some i, g1) /\
    esil_avr_hook_reg_write true cpu_name g name val
    = Some (0, cropped (pc (model_at cpu_models i)) name val, g1) /\
    errlog g1 = errlog g.
Proof.
  intros Hwf i. unfold esil_avr_hook_reg_write. cbn [negb].
  rewrite (chain_fuel_wf g Hwf).
  destruct (get_cpu_model_resolves 18 g cpu_name Hwf ltac:(lia))
    as (g1 & Hg & Hwf1 & Hlog & _).
  fold i in Hg. rewrite Hg. exists g1. split; [reflexivity|]. split; [|exact Hlog].
  destruct (wf_static_facts g1 i Hwf1) as (_ & _ & Hpc & _).
  unfold CPU_PC_MASK. rewrite Hpc.
  pose proof (pc_widths i (find_model_bound cpu_name)) as Hw.
  unfold cropped, strcmp.
  assert (Hm : forall w, In w [15; 17; 16; 8; 13] ->
            MASK w = Z.ones w /\ ((w >? 8) = true -> MASK (w - 8) = Z.ones (w - 8)) /\ 0 <= w).
  { intros w Hin. cbn [In] in Hin.
    repeat (destruct Hin as [<- | Hin]; [repeat split; (reflexivity || lia || discriminate)|]).
    contradiction. }
  destruct (Hm _ Hw) as (Hmask & Hmask8 & Hw0).
  destruct (String.eqb name "pc"); cbn [Z.eqb].
  { rewrite Hmask, Z.land_ones by lia. reflexivity. }
  destruct (String.eqb name "pcl"); cbn [Z.eqb].
  { destruct (pc (model_at cpu_models i) <? 8); [|reflexivity].
    change (MASK 8) with (Z.ones 8). rewrite Z.land_ones by lia. reflexivity. }
  destruct (String.eqb name "pch"); cbn [Z.eqb]; [|reflexivity].
  destruct (pc (model_at cpu_models i) >? 8) eqn:Hgt; [|reflexivity].
  rewrite (Hmask8 eq_refl), Z.land_ones by (apply Z.gtb_lt in Hgt; lia). reflexivity.
Qed.

(** X3 (register-write hook): the hook always returns 0 and logs nothing.
    It crops a value written to [pc] to the program-counter width [w] of
    the selected variant; a value written to [pcl] to eight bits if
    [w < 8]; a value written to [pch] to [w - 8] bits, or to 0 if [w <= 8];
    it leaves the value of any other register alone.  Cropping twice is the
    same as cropping once. *)
Theorem reg_write_hook_crops_to_pc_width
    (g : Registry) (cpu_name name : string) (val : Z) :
  wf_registry g ->
  let w := pc (model_at cpu_models (find_model cpu_models cpu_name 0)) in
  exists g1 val',
    esil_avr_hook_reg_write true cpu_name g name val = Some (0, val', g1) /\
    errlog g1 = errlog g /\
    (name = "pc" -> val' = val mod 2 ^ w /\ 0 <= val' < 2 ^ w) /\
    (name = "pcl" -> val' = if w <? 8 then val mod 2 ^ 8 else val) /\
    (name = "pch" -> val' = if w >? 8 then val mod 2 ^ (w - 8) else 0) /\
    (name <> "pc" -> name <> "pcl" -> name <> "pch" -> val' = val) /\
    esil_avr_hook_reg_write true cpu_name g1 name val' = Some (0, val', g1).
Proof.
  intros Hwf w.
  destruct (hook_run g cpu_name name val Hwf) as (g1 & Hg & Hrun & Hlog).
  destruct (get_cpu_model_again g g1 cpu_name Hwf Hg) as [Hwf1 Hg1].
  exists g1, (cropped w name val).
  split; [exact Hrun|]. split; [exact Hlog|].
  pose proof (pc_widths _ (find_model_bound cpu_name)) as Hw. fold w in Hw.
  assert (Hw0 : 0 <= w) by (cbn [In] in Hw; lia).
  split; [|split; [|split; [|split]]].
  - intros ->. unfold cropped. cbn. split; [reflexivity|]. apply Z.mod_pos_bound. lia.
  - intros ->. reflexivity.
  - intros ->. reflexivity.
  - intros H1 H2 H3. unfold cropped.
    rewrite (proj2 (String.eqb_neq _ _) H1), (proj2 (String.eqb_neq _ _) H2),
      (proj2 (String.eqb_neq _ _) H3). reflexivity.
  - destruct (hook_run g1 cpu_name name (cropped w name val) Hwf1) as (g2 & Hg2 & Hrun2 & _).
    rewrite Hg1 in Hg2. injection Hg2 as <-. rewrite Hrun2. fold w.
    f_equal. f_equal. f_equal. unfold cropped.
    destruct (String.eqb name "pc"); [apply Z.mod_mod; lia|].
    destruct (String.eqb name "pcl").
    { destruct (w <? 8); [apply Z.mod_mod; lia|reflexivity]. }
    destruct (String.eqb name "pch"); [|reflexivity].
    destruct (w >? 8) eqn:Hgt; [|reflexivity].
    apply Z.mod_mod. apply Z.gtb_lt in Hgt. lia.
Qed.

Lemma reg_write_hook_crops_to_pc_width_witness :
  exists g1 val',
    esil_avr_hook_reg_write true "ATmega8" (registry globals_init) "pc" 0x12345
      = Some (0, val', g1) /\
    errlog g1 = errlog (registry globals_init) /\
    ("pc" = "pc" -> val' = 0x12345 mod 2 ^ 13 /\ 0 <= val' < 2 ^ 13) /\
    ("pc" = "pcl" -> val' = if 13 <? 8 then 0x12345 mod 2 ^ 8 else 0x12345) /\
    ("pc" = "pch" -> val' = if 13 >? 8 then 0x12345 mod 2 ^ (13 - 8) else 0) /\
    ("pc" <> "pc" -> "pc" <> "pcl" -> "pc" <> "pch" -> val' = 0x12345) /\
    esil_avr_hook_reg_write true "ATmega8" g1 "pc" val' = Some (0, val', g1).
Proof.
  exact (reg_write_hook_crops_to_pc_width (registry globals_init) "ATmega8" "pc" 0x12345
           registry_init_wf).
Defined.


(* ----------------------------------------------------------------- *)
(** *** Page fill and page write *)

Lemma land_shiftl_1 (a m : Z) :
  Z.land a (Z.shiftl m 1) = Z.shiftl (Z.land (Z.shiftr a 1) m) 1.
Proof.
  apply Z.bits_inj'. intros n Hn.
  rewrite Z.land_spec, !Z.shiftl_spec, Z.land_spec by lia.
  destruct (Z.eq_dec n 0) as [->|Hne].
  - rewrite (Z.testbit_neg_r m (0 - 1)) by lia. rewrite !andb_false_r. reflexivity.
  - rewrite Z.shiftr_spec by lia. replace (n - 1 + 1) with n by lia. reflexivity.
Qed.

(** Clearing bit 0 of the low [k] bits. *)
Lemma land_even_mask (a k : Z) :
  1 <= k ->
  Z.land a (Z.shiftl (Z.ones (k - 1)) 1) = 2 * ((a / 2) mod 2 ^ (k - 1)).
Proof.
  intros Hk. rewrite land_shiftl_1, Z.land_ones by lia.
  rewrite Z.shiftr_div_pow2, Z.shiftl_mul_pow2 by lia.
  change (2 ^ 1) with 2. lia.
Qed.

Lemma ut8_ut64 (v : Z) : ut8 (ut64 v) = v mod 2 ^ 8.
Proof.
  unfold ut8, ut64. apply Z.mod_mod_divide. exists (2 ^ 56). reflexivity.
Qed.

(** The straight-line part of the page fill. *)
Lemma page_fill_run
    (get_parm : RzAnalysisEsil -> string -> option Z)
    (g : Registry) (name : string) (e : RzAnalysisEsil)
    (t1 t2 t3 : string) (rest : list string) (A V0 V1 : Z) :
  wf_registry g ->
  stack e = t1 :: t2 :: t3 :: rest ->
  get_parm {| stack := t2 :: t3 :: rest; regs := regs e; mem := mem e |} t1 = Some A ->
  get_parm {| stack := t3 :: rest; regs := regs e; mem := mem e |} t2 = Some V0 ->
  get_parm {| stack := rest; regs := regs e; mem := mem e |} t3 = Some V1 ->
  let i := find_model cpu_models name 0 in
  let k := const_get_value (lookup_chain 8 i CPU_CONST_PARAM "page_size") in
  let addr := Z.land (ut64 A) (ut32 (Z.lxor (MASK k) 1)) in
  exists g',
    avr_custom_spm_page_fill get_parm true name g e
    = Some (true, g',
            rz_analysis_esil_mem_write
              (rz_analysis_esil_mem_write {| stack := rest; regs := regs e; mem := mem e |}
                 addr (V0 mod 2 ^ 8))
              (ut64 (addr + 1)) (V1 mod 2 ^ 8)) /\
    errlog g' = errlog g /\ (k = 5 \/ k = 7).
Proof.
  intros Hwf Hstack H1 H2 H3 i k addr.
  unfold avr_custom_spm_page_fill, __esil_pop_argument, rz_analysis_esil_pop.
  cbn [negb]. rewrite Hstack, H1. cbn [negb stack regs mem]. rewrite H2.
  cbn [negb stack regs mem]. rewrite H3. cbn [negb].
  rewrite (chain_fuel_wf g Hwf).
  destruct (get_cpu_model_resolves 18 g name Hwf ltac:(lia))
    as (g1 & Hg & Hwf1 & Hlog & Hc & Hms & Hp).
  fold i in Hg, Hp. rewrite Hg, (chain_fuel_wf g1 Hwf1).
  rewrite (const_by_name_resolved g1 i CPU_CONST_PARAM "page_size" Hwf1 Hp).
  pose proof (find_model_bound name) as Hi. fold i in Hi.
  destruct (page_geometry i Hi) as [Hfound Hkw]. fold k in Hkw.
  destruct (lookup_chain 8 i CPU_CONST_PARAM "page_size") as [citem|] eqn:Hl;
    [|contradiction]. fold k.
  rewrite !ut8_ut64.
  eexists. split; [reflexivity|]. split; [exact Hlog|].
  cbn [In] in Hkw.
  repeat (destruct Hkw as [Hkw|Hkw]; [injection Hkw as <- _; auto|]). contradiction.
Qed.

(** X4 (page fill): with the address [A] and the two values on the operand
    stack, the page-fill operation succeeds and stores the low byte of the
    first value at [A mod 2^k] with bit 0 cleared and the low byte of the
    second value at the next address - [k] the variant's page size in bits,
    so both bytes lie in [0, 2^k).  No other byte, no register, and nothing
    of the rest of the stack changes. *)
Theorem page_fill_writes_two_bytes
    (get_parm : RzAnalysisEsil -> string -> option Z)
    (g : Registry) (name : string) (e : RzAnalysisEsil)
    (t1 t2 t3 : string) (rest : list string) (A V0 V1 : Z) :
  wf_registry g ->
  stack e = t1 :: t2 :: t3 :: rest ->
  get_parm {| stack := t2 :: t3 :: rest; regs := regs e; mem := mem e |} t1 = Some A ->
  get_parm {| stack := t3 :: rest; regs := regs e; mem := mem e |} t2 = Some V0 ->
  get_parm {| stack := rest; regs := regs e; mem := mem e |} t3 = Some V1 ->
  0 <= A < 2 ^ 64 ->
  let k := const_get_value
             (lookup_chain 8 (find_model cpu_models name 0) CPU_CONST_PARAM "page_size") in
  let base := 2 * ((A / 2) mod 2 ^ (k - 1)) in
  exists g' e',
    avr_custom_spm_page_fill get_parm true name g e = Some (true, g', e') /\
    (forall a, mem e' a = if a =? base + 1 then V1 mod 2 ^ 8
                          else if a =? base then V0 mod 2 ^ 8 else mem e a) /\
    regs e' = regs e /\ stack e' = rest /\ errlog g' = errlog g /\
    0 <= base /\ base + 1 < 2 ^ k /\ base = A mod 2 ^ k - A mod 2.
Proof.
  intros Hwf Hstack H1 H2 H3 HA k base.
  destruct (page_fill_run get_parm g name e t1 t2 t3 rest A V0 V1 Hwf Hstack H1 H2 H3)
    as (g' & Hrun & Hlog & Hk).
  fold k in Hrun, Hk. clearbody k.
  assert (Hu : ut64 A = A) by (unfold ut64; apply Z.mod_small; exact HA).
  assert (Hmask : ut32 (Z.lxor (MASK k) 1) = Z.shiftl (Z.ones (k - 1)) 1)
    by (destruct Hk as [-> | ->]; reflexivity).
  rewrite Hu, Hmask, land_even_mask in Hrun by (destruct Hk; lia).
  fold base in Hrun.
  assert (Hb : 0 <= base /\ base + 1 < 2 ^ k /\ base = A mod 2 ^ k - A mod 2).
  { subst base. destruct Hk as [-> | ->];
      [change (2 ^ (5 - 1)) with 16; change (2 ^ 5) with 32
      |change (2 ^ (7 - 1)) with 64; change (2 ^ 7) with 128];
      clear; Z.div_mod_to_equations; lia. }
  assert (Hu1 : ut64 (base + 1) = base + 1).
  { unfold ut64. apply Z.mod_small.
    destruct Hb as (Hb0 & Hb1 & _).
    assert (2 ^ k <= 2 ^ 64) by (apply Z.pow_le_mono_r; destruct Hk; lia). lia. }
  rewrite Hu1 in Hrun.
  eexists. eexists. split; [exact Hrun|].
  split; [intros a; reflexivity|]. split; [reflexivity|]. split; [reflexivity|].
  split; [exact Hlog|exact Hb].
Qed.

Lemma page_fill_writes_two_bytes_witness :
  exists g' e',
    avr_custom_spm_page_fill decimal_parm true "ATmega8" (registry globals_init)
      {| stack := ["8201"; "513"; "258"]; regs := fun _ => 0; mem := fun _ => 0 |}
    = Some (true, g', e') /\
    mem e' 8 = 1 /\ mem e' 9 = 2 /\ mem e' 10 = 0 /\ mem e' 8200 = 0.
Proof.
  destruct (page_fill_writes_two_bytes decimal_parm (registry globals_init) "ATmega8"
              {| stack := ["8201"; "513"; "258"]; regs := fun _ => 0; mem := fun _ => 0 |}
              "8201" "513" "258" [] 8201 513 258
              registry_init_wf eq_refl eq_refl eq_refl eq_refl ltac:(lia))
    as (g' & e' & Hrun & Hm & _).
  exists g', e'. split; [exact Hrun|].
  rewrite !Hm. repeat split.
Defined.


Lemma read_bytes_length (e : RzAnalysisEsil) (n : nat) :
  forall a, List.length (esil_mem_read_bytes e a n) = n.
Proof. induction n as [|n IH]; intros a; cbn; [reflexivity|rewrite IH; reflexivity]. Qed.

Lemma read_bytes_nth (e : RzAnalysisEsil) (n : nat) :
  forall a j, (j < n)%nat ->
    nth j (esil_mem_read_bytes e a n) 0 = mem e (ut64 (a + Z.of_nat j)).
Proof.
  induction n as [|n IH]; intros a j Hj; [lia|].
  cbn [esil_mem_read_bytes]. destruct j as [|j].
  - cbn. rewrite Z.add_0_r. reflexivity.
  - cbn [nth]. rewrite IH by lia. f_equal. f_equal. lia.
Qed.

(** Writing a run of bytes that does not wrap around the address space. *)
Lemma write_bytes_spec (bytes : list Z) :
  forall (e : RzAnalysisEsil) (a : Z),
    0 <= a -> a + Z.of_nat (List.length bytes) <= 2 ^ 64 ->
    let e' := esil_mem_write_bytes e a bytes in
    regs e' = regs e /\ stack e' = stack e /\
    forall x, mem e' x =
      if (a <=? x) && (x <? a + Z.of_nat (List.length bytes))
      then nth (Z.to_nat (x - a)) bytes 0 else mem e x.
Proof.
  induction bytes as [|b r IH]; intros e a Ha Hlen; cbn [esil_mem_write_bytes].
  - split; [reflexivity|]. split; [reflexivity|]. intros x.
    cbn [List.length]. destruct (a <=? x) eqn:E1; [|reflexivity].
    destruct (x <? a + Z.of_nat 0) eqn:E2; [|reflexivity].
    apply Z.leb_le in E1. apply Z.ltb_lt in E2. lia.
  - cbn [List.length] in Hlen. rewrite Nat2Z.inj_succ in Hlen.
    destruct (IH (rz_analysis_esil_mem_write e (ut64 a) b) (a + 1) ltac:(lia) ltac:(lia))
      as (Hr & Hs & Hm).
    split; [rewrite Hr; reflexivity|]. split; [rewrite Hs; reflexivity|].
    intros x. rewrite Hm. cbn [List.length]. rewrite Nat2Z.inj_succ.
    assert (Hu : ut64 a = a) by (unfold ut64; apply Z.mod_small; lia).
    cbn [mem rz_analysis_esil_mem_write]. rewrite Hu.
    destruct (Z.eqb_spec x a) as [->|Hne].
    + replace (a + 1 <=? a) with false by (symmetry; apply Z.leb_gt; lia).
      replace (a <=? a) with true by (symmetry; apply Z.leb_le; lia).
      replace (a <? a + Z.succ (Z.of_nat (List.length r))) with true
        by (symmetry; apply Z.ltb_lt; lia).
      cbn [andb]. rewrite Z.sub_diag. reflexivity.
    + destruct (a + 1 <=? x) eqn:E1.
      * apply Z.leb_le in E1.
        replace (a <=? x) with true by (symmetry; apply Z.leb_le; lia).
        replace (x <? a + Z.succ (Z.of_nat (List.length r)))
          with (x <? a + 1 + Z.of_nat (List.length r))
          by (f_equal; lia).
        cbn [andb]. destruct (x <? a + 1 + Z.of_nat (List.length r)); [|reflexivity].
        replace (Z.to_nat (x - a)) with (S (Z.to_nat (x - (a + 1)))) by lia.
        reflexivity.
      * apply Z.leb_gt in E1. cbn [andb].
        replace (a <=? x) with false by (symmetry; apply Z.leb_gt; lia).
        reflexivity.
Qed.

(** The aligned, cropped target address of the page write. *)
Lemma page_write_target (k w A : Z) :
  In (k, w) [(7, 15); (7, 16); (7, 17); (5, 8); (5, 13)] ->
  Z.land A (Z.land (ut32 (Z.lnot (MASK k))) (MASK w)) = (A mod 2 ^ w) / 2 ^ k * 2 ^ k.
Proof.
  intros Hkw.
  assert (Hcases : (k = 7 \/ k = 5) /\ (w = 15 \/ w = 16 \/ w = 17 \/ w = 8 \/ w = 13)) by
    (cbn [In] in Hkw;
     repeat (destruct Hkw as [Hkw|Hkw]; [injection Hkw as <- <-; intuition lia|]);
     destruct Hkw).
  clear Hkw. destruct Hcases as (Hk & Hw).
  assert (Hmk : ut32 (Z.lnot (MASK k)) = Z.ldiff (Z.ones 32) (Z.ones k))
    by (destruct Hk as [-> | ->]; reflexivity).
  assert (Hmw : MASK w = Z.ones w)
    by (destruct Hw as [-> | [-> | [-> | [-> | ->]]]]; reflexivity).
  rewrite Hmk, Hmw, Z.land_assoc, align_to_page, Z.land_ones by lia.
  destruct Hk as [-> | ->]; destruct Hw as [-> | [-> | [-> | [-> | ->]]]];
    pow_numerals; Z.div_mod_to_equations; lia.
Qed.

(** The straight-line part of the page write. *)
Lemma page_write_run
    (get_parm : RzAnalysisEsil -> string -> option Z) (malloc_ok : Z -> bool)
    (g : Registry) (name : string) (e : RzAnalysisEsil)
    (t : string) (rest : list string) (A : Z) :
  wf_registry g ->
  stack e = t :: rest ->
  get_parm {| stack := rest; regs := regs e; mem := mem e |} t = Some A ->
  0 <= A < 2 ^ 64 ->
  let i := find_model cpu_models name 0 in
  let k := const_get_value (lookup_chain 8 i CPU_CONST_PARAM "page_size") in
  let w := pc (model_at cpu_models i) in
  let e1 := {| stack := rest; regs := regs e; mem := mem e |} in
  exists g1,
    errlog g1 = errlog g /\
    In (k, w) [(7, 15); (7, 16); (7, 17); (5, 8); (5, 13)] /\
    avr_custom_spm_page_write get_parm true malloc_ok name g e
    = if negb (malloc_ok (2 ^ k))
      then Some (false,
                 eprintf ("Cannot alloc a buffer for copying the temporary page." ++ nl) g1, e1)
      else Some (true, g1,
                 esil_mem_write_bytes e1 ((A mod 2 ^ w) / 2 ^ k * 2 ^ k)
                   (esil_mem_read_bytes e1 (regs e "_page") (Z.to_nat (2 ^ k)))).
Proof.
  intros Hwf Hstack Hparm HA i k w e1.
  unfold avr_custom_spm_page_write, __esil_pop_argument, rz_analysis_esil_pop.
  cbn [negb]. rewrite Hstack, Hparm. cbn [negb].
  rewrite (chain_fuel_wf g Hwf).
  destruct (get_cpu_model_resolves 18 g name Hwf ltac:(lia))
    as (g1 & Hg & Hwf1 & Hlog & Hc & Hms & Hp).
  fold i in Hg, Hp. rewrite Hg, (chain_fuel_wf g1 Hwf1).
  rewrite (const_by_name_resolved g1 i CPU_CONST_PARAM "page_size" Hwf1 Hp).
  pose proof (find_model_bound name) as Hi. fold i in Hi.
  destruct (page_geometry i Hi) as [Hfound Hkw]. fold k w in Hkw.
  destruct (lookup_chain 8 i CPU_CONST_PARAM "page_size") as [citem|] eqn:Hl;
    [|contradiction]. fold k.
  destruct (wf_static_facts g1 i Hwf1) as (_ & _ & Hpc & _).
  unfold CPU_PC_MASK. rewrite Hpc. fold w.
  assert (Hu : ut64 A = A) by (unfold ut64; apply Z.mod_small; exact HA).
  rewrite Hu, (page_write_target k w A Hkw).
  assert (Hn : to_int (Z.shiftl 1 k) = 2 ^ k).
  { cbn [In] in Hkw.
    repeat (destruct Hkw as [Hkw|Hkw]; [injection Hkw as <- _; reflexivity|]).
    contradiction. }
  rewrite Hn. exists g1. split; [exact Hlog|]. split; [exact Hkw|].
  unfold rz_analysis_esil_reg_read. cbn [regs]. fold e1.
  destruct (malloc_ok (2 ^ k)); reflexivity.
Qed.

(** X5 (page write): with the address [A] on the operand stack and the
    allocation granted, the page-write operation succeeds and copies the
    2^k bytes that start at the address held in the register [_page] to the
    page that holds [A mod 2^w] - [k] the variant's page size in bits, [w]
    its program-counter width.  The bytes are read before any is written;
    no byte outside the target page, no register, and nothing of the rest
    of the stack changes. *)
Theorem page_write_copies_temporary_page
    (get_parm : RzAnalysisEsil -> string -> option Z) (malloc_ok : Z -> bool)
    (g : Registry) (name : string) (e : RzAnalysisEsil)
    (t : string) (rest : list string) (A : Z) :
  wf_registry g ->
  stack e = t :: rest ->
  get_parm {| stack := rest; regs := regs e; mem := mem e |} t = Some A ->
  0 <= A < 2 ^ 64 ->
  let i := find_model cpu_models name 0 in
  let k := const_get_value (lookup_chain 8 i CPU_CONST_PARAM "page_size") in
  let w := pc (model_at cpu_models i) in
  let base := (A mod 2 ^ w) / 2 ^ k * 2 ^ k in
  malloc_ok (2 ^ k) = true ->
  exists g' e',
    avr_custom_spm_page_write get_parm true malloc_ok name g e = Some (true, g', e') /\
    (forall a, mem e' a =
       if (base <=? a) && (a <? base + 2 ^ k)
       then mem e (ut64 (regs e "_page" + (a - base))) else mem e a) /\
    regs e' = regs e /\ stack e' = rest /\ errlog g' = errlog g.
Proof.
  intros Hwf Hstack Hparm HA i k w base Hmalloc.
  destruct (page_write_run get_parm malloc_ok g name e t rest A Hwf Hstack Hparm HA)
    as (g1 & Hlog & Hkw & Hrun).
  fold i k w base in Hrun, Hkw. rewrite Hmalloc in Hrun. cbn [negb] in Hrun.
  clearbody k w.
  assert (Hk : (k = 7 \/ k = 5) /\ 0 <= base /\ base + 2 ^ k <= 2 ^ 64).
  { subst base. cbn [In] in Hkw.
    repeat (destruct Hkw as [Hkw|Hkw];
            [injection Hkw as <- <-; pow_numerals;
             (split; [lia|]); clear; Z.div_mod_to_equations; lia|]).
    contradiction. }
  destruct Hk as (Hk & Hb0 & Hb1).
  set (e1 := {| stack := rest; regs := regs e; mem := mem e |}) in *.
  set (bytes := esil_mem_read_bytes e1 (regs e "_page") (Z.to_nat (2 ^ k))) in *.
  assert (Hlen : Z.of_nat (List.length bytes) = 2 ^ k).
  { subst bytes. rewrite read_bytes_length. destruct Hk as [-> | ->]; reflexivity. }
  destruct (write_bytes_spec bytes e1 base Hb0 ltac:(lia)) as (Hr & Hs & Hm).
  eexists. eexists. split; [exact Hrun|].
  split; [|split; [exact Hr|split; [exact Hs|exact Hlog]]].
  intros a. rewrite Hm, Hlen.
  destruct ((base <=? a) && (a <? base + 2 ^ k)) eqn:Hin; [|reflexivity].
  apply andb_true_iff in Hin. destruct Hin as [H1 H2].
  apply Z.leb_le in H1. apply Z.ltb_lt in H2.
  subst bytes. rewrite read_bytes_nth by lia.
  cbn [mem e1]. f_equal. f_equal. lia.
Qed.

Lemma page_write_copies_temporary_page_witness :
  exists g' e',
    avr_custom_spm_page_write decimal_parm true (fun _ => true) "ATmega8"
      (registry globals_init) esil_with_page = Some (true, g', e') /\
    mem e' 0 = 0x10000 mod 251 /\ mem e' 31 = (0x10000 + 31) mod 251 /\
    mem e' 32 = 32 /\ mem e' 8200 = 8200 mod 251.
Proof.
  destruct (page_write_copies_temporary_page decimal_parm (fun _ => true)
              (registry globals_init) "ATmega8" esil_with_page "8200" [] 8200
              registry_init_wf eq_refl eq_refl ltac:(lia) eq_refl)
    as (g' & e' & Hrun & Hm & _).
  exists g', e'. split; [exact Hrun|].
  rewrite !Hm. repeat split.
Defined.


(* ----------------------------------------------------------------- *)
(** *** Failure of a custom operation *)

Lemma pop_keeps (get_parm : RzAnalysisEsil -> string -> option Z) (e : RzAnalysisEsil) :
  regs (snd (__esil_pop_argument get_parm e)) = regs e /\
  mem (snd (__esil_pop_argument get_parm e)) = mem e.
Proof.
  pose proof (pop_argument_keeps_regs_and_mem get_parm e) as H.
  destruct (__esil_pop_argument get_parm e) as [[ok v] e']. exact H.
Qed.

Ltac pop_step get_parm e :=
  let Hr := fresh "Hr" in let Hm := fresh "Hm" in
  let ok := fresh "ok" in let v := fresh "v" in let e' := fresh "e" in
  destruct (pop_keeps get_parm e) as [Hr Hm];
  destruct (__esil_pop_argument get_parm e) as [[ok v] e'];
  cbn [snd] in Hr, Hm; destruct ok; cbn [negb].

(** X6 (failure writes nothing): whichever of the four custom operations
    (DES round, page erase, page fill, page write) reports failure, it has
    written no register and no byte of memory; all it may have done is pop
    operands. *)
Theorem failed_custom_operation_writes_nothing
    (get_parm : RzAnalysisEsil -> string -> option Z) (sane : bool) (malloc_ok : Z -> bool)
    (permute_key : Z * Z -> Z * Z) (shift_key : Z -> bool -> Z * Z -> Z * Z)
    (pc2 permute_block0 : Z * Z -> Z * Z) (round : Z * Z -> Z * Z -> Z * Z)
    (permute_block1 permute_key_inv : Z * Z -> Z * Z)
    (name : string) (g : Registry) (e : RzAnalysisEsil) :
  (forall g' e',
     avr_custom_spm_page_erase get_parm sane name g e = Some (false, g', e') ->
     regs e' = regs e /\ mem e' = mem e) /\
  (forall g' e',
     avr_custom_spm_page_fill get_parm sane name g e = Some (false, g', e') ->
     regs e' = regs e /\ mem e' = mem e) /\
  (forall g' e',
     avr_custom_spm_page_write get_parm sane malloc_ok name g e = Some (false, g', e') ->
     regs e' = regs e /\ mem e' = mem e) /\
  (forall e',
     avr_custom_des get_parm permute_key shift_key pc2 permute_block0 round
       permute_block1 permute_key_inv sane e = (false, e') ->
     regs e' = regs e /\ mem e' = mem e).
Proof.
  split; [|split; [|split]].
  - intros g' e'. unfold avr_custom_spm_page_erase.
    destruct sane; cbn [negb]; [|intros [= <- <-]; split; reflexivity].
    pop_step get_parm e; [|intros [= <- <-]; split; assumption].
    destruct (get_cpu_model _ g name) as [[[c|] g1]|]; try discriminate.
    destruct (const_by_name _ g1 c CPU_CONST_PARAM "page_size") as [[k g2]|]; discriminate.
  - intros g' e'. unfold avr_custom_spm_page_fill.
    destruct sane; cbn [negb]; [|intros [= <- <-]; split; reflexivity].
    pop_step get_parm e; [|intros [= <- <-]; split; assumption].
    pop_step get_parm e0; [|intros [= <- <-]; split; congruence].
    pop_step get_parm e1; [|intros [= <- <-]; split; congruence].
    destruct (get_cpu_model _ g name) as [[[c|] g1]|]; try discriminate.
    destruct (const_by_name _ g1 c CPU_CONST_PARAM "page_size") as [[k g2]|]; discriminate.
  - intros g' e'. unfold avr_custom_spm_page_write.
    destruct sane; cbn [negb]; [|intros [= <- <-]; split; reflexivity].
    pop_step get_parm e; [|intros [= <- <-]; split; assumption].
    destruct (get_cpu_model _ g name) as [[[c|] g1]|]; try discriminate.
    destruct (const_by_name _ g1 c CPU_CONST_PARAM "page_size") as [[k g2]|]; try discriminate.
    destruct (malloc_ok _); cbn [negb]; [discriminate|].
    intros [= <- <-]. split; assumption.
  - intros e' H.
    pose proof (des_failure_writes_nothing get_parm permute_key shift_key pc2 permute_block0
                  round permute_block1 permute_key_inv sane e) as Hfail.
    pose proof (des_success get_parm permute_key shift_key pc2 permute_block0
                  round permute_block1 permute_key_inv e) as Hok.
    destruct sane.
    2: { unfold avr_custom_des in H. cbn [negb] in H. injection H as <-. split; reflexivity. }
    destruct (__esil_pop_argument get_parm e) as [[ok v] e1].
    rewrite H in Hfail, Hok. cbn [fst snd] in Hfail, Hok.
    destruct ok; [|apply Hfail; left; reflexivity].
    destruct (Z_lt_dec (to_int v) 0) as [Hlt|Hge]; [apply Hfail; right; left; exact Hlt|].
    destruct (Z_lt_dec 15 (to_int v)) as [Hgt|Hle]; [apply Hfail; right; right; exact Hgt|].
    specialize (Hok eq_refl ltac:(lia)). discriminate Hok.
Qed.


(* ----------------------------------------------------------------- *)
(** *** What no handler writes *)

Lemma fr_refl (a : RzAnalysisOp) : same_frame a a.
Proof. repeat split. Qed.

Ltac fr_by_fields :=
  unfold same_frame; let a := fresh "a" in let b := fresh "b" in
  intros a b; destruct a, b; cbn; tauto.

Lemma fr_set_cycles v : forall a b, same_frame a b -> same_frame (set_cycles v a) b.
Proof. fr_by_fields. Qed.
Lemma fr_set_type v : forall a b, same_frame a b -> same_frame (set_type v a) b.
Proof. fr_by_fields. Qed.
Lemma fr_set_type2 v : forall a b, same_frame a b -> same_frame (set_type2 v a) b.
Proof. fr_by_fields. Qed.
Lemma fr_set_family v : forall a b, same_frame a b -> same_frame (set_family v a) b.
Proof. fr_by_fields. Qed.
Lemma fr_set_eob v : forall a b, same_frame a b -> same_frame (set_eob v a) b.
Proof. fr_by_fields. Qed.
Lemma fr_set_jump v : forall a b, same_frame a b -> same_frame (set_jump v a) b.
Proof. fr_by_fields. Qed.
Lemma fr_set_fail v : forall a b, same_frame a b -> same_frame (set_fail v a) b.
Proof. fr_by_fields. Qed.
Lemma fr_set_ptr v : forall a b, same_frame a b -> same_frame (set_ptr v a) b.
Proof. fr_by_fields. Qed.
Lemma fr_set_val v : forall a b, same_frame a b -> same_frame (set_val v a) b.
Proof. fr_by_fields. Qed.
Lemma fr_set_mmio_address v :
  forall a b, same_frame a b -> same_frame (set_mmio_address v a) b.
Proof. fr_by_fields. Qed.
Lemma fr_set_esil v : forall a b, same_frame a b -> same_frame (set_esil v a) b.
Proof. fr_by_fields. Qed.
Lemma fr_ESIL_A s : forall a b, same_frame a b -> same_frame (ESIL_A s a) b.
Proof. unfold ESIL_A, set_esil. fr_by_fields. Qed.

Lemma fr_if (c : bool) (a a' b : RzAnalysisOp) :
  same_frame a b -> same_frame a' b -> same_frame (if c then a else a') b.
Proof. destruct c; auto. Qed.

Lemma fr_let_op (a b : RzAnalysisOp) (f : RzAnalysisOp -> RzAnalysisOp) :
  same_frame a b -> (forall x, same_frame x b -> same_frame (f x) b) ->
  same_frame (let o := a in f o) b.
Proof. intros H K. exact (K a H). Qed.

Lemma fr_let_val {T : Type} (a : T) (b : RzAnalysisOp) (f : T -> RzAnalysisOp) :
  (forall v, same_frame (f v) b) -> same_frame (let x := a in f x) b.
Proof. intros K. exact (K a). Qed.

Lemma fr_opt_let_op (a b : RzAnalysisOp) (f : RzAnalysisOp -> option RzAnalysisOp) :
  same_frame a b -> (forall x, same_frame x b -> same_frame_opt (f x) b) ->
  same_frame_opt (let o := a in f o) b.
Proof. intros H K. exact (K a H). Qed.

Lemma fr_opt_let_val {T : Type} (a : T) (b : RzAnalysisOp) (f : T -> option RzAnalysisOp) :
  (forall v, same_frame_opt (f v) b) -> same_frame_opt (let x := a in f x) b.
Proof. intros K. exact (K a). Qed.

Lemma fr_opt_if (c : bool) (a a' : option RzAnalysisOp) (b : RzAnalysisOp) :
  same_frame_opt a b -> same_frame_opt a' b -> same_frame_opt (if c then a else a') b.
Proof. destruct c; auto. Qed.

Lemma fr_opt_match {T : Type} (x : option T) (f : T -> option RzAnalysisOp)
    (b : RzAnalysisOp) :
  (forall v, same_frame_opt (f v) b) ->
  same_frame_opt (match x with Some v => f v | None => None end) b.
Proof. destruct x; [auto | intros _; exact I]. Qed.

Ltac fr_helper := fail.

(** Walk a handler body, one assignment at a time. *)
Ltac fr_solve :=
  lazymatch goal with
  | |- same_frame (__generic_push _ _) _ => fr_helper
  | |- same_frame (__generic_pop _ _) _ => fr_helper
  | |- same_frame (__generic_ld_st _ _ _ _ _ _ _) _ => fr_helper
  | |- same_frame (let x := ?A in @?F x) ?b =>
      lazymatch type of A with
      | RzAnalysisOp =>
          apply (fr_let_op A b F);
          [ fr_solve
          | let x := fresh "o" in let R := fresh "R" in
            intros x R; cbv beta; fr_solve ]
      | _ =>
          apply (fr_let_val A b F);
          let v := fresh "v" in intros v; cbv beta; fr_solve
      end
  | |- same_frame (if _ then _ else _) _ => apply fr_if; fr_solve
  | |- same_frame (set_cycles _ _) _ => apply fr_set_cycles; fr_solve
  | |- same_frame (set_type _ _) _ => apply fr_set_type; fr_solve
  | |- same_frame (set_type2 _ _) _ => apply fr_set_type2; fr_solve
  | |- same_frame (set_family _ _) _ => apply fr_set_family; fr_solve
  | |- same_frame (set_eob _ _) _ => apply fr_set_eob; fr_solve
  | |- same_frame (set_jump _ _) _ => apply fr_set_jump; fr_solve
  | |- same_frame (set_fail _ _) _ => apply fr_set_fail; fr_solve
  | |- same_frame (set_ptr _ _) _ => apply fr_set_ptr; fr_solve
  | |- same_frame (set_val _ _) _ => apply fr_set_val; fr_solve
  | |- same_frame (set_mmio_address _ _) _ => apply fr_set_mmio_address; fr_solve
  | |- same_frame (set_esil _ _) _ => apply fr_set_esil; fr_solve
  | |- same_frame (ESIL_A _ _) _ => apply fr_ESIL_A; fr_solve
  | |- same_frame _ _ => first [ assumption | apply fr_refl ]
  | |- same_frame_opt (let x := ?A in @?F x) ?b =>
      lazymatch type of A with
      | RzAnalysisOp =>
          apply (fr_opt_let_op A b F);
          [ fr_solve
          | let x := fresh "o" in let R := fresh "R" in
            intros x R; cbv beta; fr_solve ]
      | _ =>
          apply (fr_opt_let_val A b F);
          let v := fresh "v" in intros v; cbv beta; fr_solve
      end
  | |- same_frame_opt (if _ then _ else _) _ => apply fr_opt_if; fr_solve
  | |- same_frame_opt (Some _) _ => unfold same_frame_opt; fr_solve
  | |- same_frame_opt (match ?x with Some v => @?F v | None => None end) ?b =>
      apply (fr_opt_match x F b); let v := fresh "v" in intros v; cbv beta; fr_solve
  end.

Lemma fr_generic_push (n : Z) :
  forall a b, same_frame a b -> same_frame (__generic_push a n) b.
Proof. intros a b R. unfold __generic_push. fr_solve. Qed.

Lemma fr_generic_pop (n : Z) :
  forall a b, same_frame a b -> same_frame (__generic_pop a n) b.
Proof. intros a b R. unfold __generic_pop. fr_solve. Qed.

Lemma fr_generic_ld_st (m : string) (ireg : ascii) (use_ramp prepostdec offset st : Z) :
  forall a b, same_frame a b ->
    same_frame (__generic_ld_st a m ireg use_ramp prepostdec offset st) b.
Proof. intros a b R. unfold __generic_ld_st. fr_solve. Qed.

Ltac fr_helper ::=
  first [ apply fr_generic_push | apply fr_generic_pop | apply fr_generic_ld_st ];
  fr_solve.

(** No handler writes the address, the size, the mnemonic or [nopcode] of
    the op it is handed. *)
Lemma handler_frame
    (an : RzAnalysis) (ms : list CPU_MODEL) (cpu : nat) (buf : list Z) (len : Z)
    (analyze : Globals -> RzAnalysisOp -> Z -> list Z -> Z -> option Analyzed)
    (h : inst_handler_t) (g : Globals) (op : RzAnalysisOp) (hd : Handled) :
  call_handler an ms cpu buf len analyze h g op = Some hd ->
  same_frame (h_op hd) op.
Proof.
  assert (Hpure : forall g0 a, same_frame a op ->
            handled g0 a = Some hd -> same_frame (h_op hd) op).
  { intros g0 a Ha [= <-]. exact Ha. }
  assert (Hopt : forall a, same_frame_opt a op ->
            match a with Some o => handled g o | None => None end = Some hd ->
            same_frame (h_op hd) op).
  { intros [a|] Ha; [|discriminate]. intros [= <-]. exact Ha. }
  destruct h; cbn [call_handler].
  all: lazymatch goal with
       | |- handled _ _ = Some _ -> _ =>
           apply Hpure; open_handlers; fr_solve
       | |- match _ with Some _ => _ | None => _ end = Some _ -> _ =>
           apply Hopt; open_handlers; fr_solve
       | _ => idtac
       end.
  - (* cpse *)
    unfold _inst__cpse. destruct (len <? 2); [apply Hpure, fr_refl|].
    cbv zeta. destruct (analyze _ _ _ _ _); [|discriminate].
    intros [= <-]. cbn [h_op]. fr_solve.
  - (* sbix *)
    unfold _inst__sbix. destruct (len <? 2); [apply Hpure, fr_refl|].
    cbv zeta. destruct (analyze _ _ _ _ _); [|discriminate].
    destruct (__generic_io_dest _ _ _ _); [|discriminate].
    intros [= <-]. cbn [h_op]. fr_solve.
  - (* sbrx *)
    unfold _inst__sbrx. destruct (len <? 2); [apply Hpure, fr_refl|].
    cbv zeta. destruct (analyze _ _ _ _ _); [|discriminate].
    intros [= <-]. cbn [h_op]. fr_solve.
  - (* spm *)
    unfold _inst__spm. cbv zeta.
    repeat match goal with |- context [if ?c then _ else _] => destruct c end;
      cbv beta iota; apply Hpure; fr_solve.
Qed.


(* ----------------------------------------------------------------- *)
(** *** What a decode returns *)

Lemma handler_never_fails
    (an : RzAnalysis) (ms : list CPU_MODEL) (cpu : nat) (buf : list Z) (len : Z)
    (analyze : Globals -> RzAnalysisOp -> Z -> list Z -> Z -> option Analyzed)
    (h : inst_handler_t) (g : Globals) (op : RzAnalysisOp) (hd : Handled) :
  call_handler an ms cpu buf len analyze h g op = Some hd -> h_fail hd = 0.
Proof.
  destruct (is_skip h) eqn:Hskip.
  - destruct h; try discriminate Hskip; cbn [call_handler];
      unfold _inst__cpse, _inst__sbix, _inst__sbrx, handled;
      (destruct (len <? 2); [intros [= <-]; reflexivity|]);
      cbv zeta; (destruct (analyze _ _ _ _ _); [|discriminate]);
      try (destruct (__generic_io_dest _ _ _ _); [|discriminate]);
      intros [= <-]; reflexivity.
  - intros H. exact (proj1 (handler_globals _ _ _ _ _ _ _ _ _ _ Hskip H)).
Qed.

Lemma sizes_static :
  forallb (fun d => match d_handler d with
                    | Some _ => (d_size d =? 2) || (d_size d =? 4)
                    | None => true
                    end) opcodes = true.
Proof. vm_compute. reflexivity. Qed.

(** In any reachable descriptor array a descriptor with a handler has size
    2 or 4. *)
Lemma desc_size (t : list OPCODE_DESC) (d : OPCODE_DESC) (h : inst_handler_t) :
  tbl_ok t -> In d t -> d_handler d = Some h -> d_size d = 2 \/ d_size d = 4.
Proof.
  intros Ht Hin Hh.
  assert (Hs : In (strip d) (map strip opcodes)) by (rewrite <- Ht; apply in_map; exact Hin).
  apply in_map_iff in Hs. destruct Hs as (d0 & Hd0 & Hin0).
  destruct (strip_fields _ _ Hd0) as (_ & _ & Hh0 & Hs0 & _).
  pose proof sizes_static as Hall. rewrite forallb_forall in Hall.
  specialize (Hall d0 Hin0). rewrite Hh0, Hh in Hall.
  rewrite <- Hs0. apply orb_true_iff in Hall.
  destruct Hall as [H|H]; apply Z.eqb_eq in H; auto.
Qed.

Lemma scan_matches (ins : Z) :
  forall (t : list OPCODE_DESC) (n i : nat) (d : OPCODE_DESC) (h : inst_handler_t),
    scan_opcodes ins t n = Some (i, d, h) ->
    Z.land ins (d_mask d) = d_selector d /\ (n <= i)%nat /\ nth_error t (i - n) = Some d.
Proof.
  induction t as [|x t IH]; intros n i d h; cbn [scan_opcodes]; [discriminate|].
  destruct (d_handler x); [|discriminate].
  destruct (Z.eqb_spec (Z.land ins (d_mask x)) (d_selector x)) as [E|E].
  - intros [= <- <- <-]. split; [exact E|]. split; [lia|].
    rewrite Nat.sub_diag. reflexivity.
  - intros H. destruct (IH _ _ _ _ H) as (Hm & Hle & Hn).
    split; [exact Hm|]. split; [lia|].
    replace (i - n)%nat with (S (i - S n)) by lia. exact Hn.
Qed.

(** What a decode of at least two bytes returns. *)
Lemma decode_result
    (an : RzAnalysis) (cpu : nat) (g : Globals) (op : RzAnalysisOp) (addr : Z)
    (buf : list Z) (len : Z) :
  globals_ok g -> 2 <= len ->
  exists r,
    avr_op_analyze (analyze_fuel len) an cpu g op addr buf len = Some r /\
    match scan_opcodes (ut16 (Z.lor (Z.shiftl (at_ buf 1) 8) (at_ buf 0))) (opcodes_g g) 0 with
    | Some (i, d, h) =>
        r_desc r = Some i /\ nth_error (opcodes_g g) i = Some d /\
        Z.land (ut16 (Z.lor (Z.shiftl (at_ buf 1) 8) (at_ buf 0))) (d_mask d) = d_selector d /\
        Avr.addr (r_op r) = addr /\ mnemonic (r_op r) = mnemonic op /\
        size (r_op r) = d_size d /\
        archinfo RZ_ANALYSIS_ARCHINFO_MIN_OP_SIZE <= size (r_op r)
          <= archinfo RZ_ANALYSIS_ARCHINFO_MAX_OP_SIZE /\
        size (r_op r) mod archinfo RZ_ANALYSIS_ARCHINFO_ALIGN = 0
    | None =>
        r_desc r = None /\ r_op r = set_invalid_op op addr /\ r_globals r = g
    end.
Proof.
  intros Hg Hlen.
  destruct (analyze_returns an cpu (analyze_fuel len) g op addr buf len Hg
              ltac:(unfold analyze_fuel; lia)) as (r & Hr & _).
  exists r. split; [exact Hr|].
  unfold analyze_fuel in Hr. cbn [avr_op_analyze] in Hr.
  rewrite (proj2 (Z.ltb_ge len 2) Hlen) in Hr.
  destruct (scan_opcodes _ (opcodes_g g) 0) as [[[i d] h]|] eqn:Hscan.
  2: { injection Hr as <-. repeat split. }
  destruct (scan_matches _ _ _ _ _ _ Hscan) as (Hm & _ & Hn).
  rewrite Nat.sub_0_r in Hn.
  destruct (scan_in _ _ _ _ _ _ Hscan) as (Hin & Hh).
  pose proof (desc_size _ _ _ (proj2 Hg) Hin Hh) as Hsz.
  destruct (call_handler an _ cpu buf len _ h g _) as [hd|] eqn:Hcall; [|discriminate Hr].
  rewrite (handler_never_fails _ _ _ _ _ _ _ _ _ _ Hcall) in Hr.
  cbn [truthy Z.eqb negb] in Hr.
  destruct (handler_frame _ _ _ _ _ _ _ _ _ _ Hcall) as (Ha & Hs & Hmn & _).
  cbn [Avr.addr size mnemonic set_esil set_addr set_fail set_jump set_type set_size
       set_cycles] in Ha, Hs, Hmn.
  injection Hr as <-. cbn [r_desc r_op Avr.addr size mnemonic set_esil set_nopcode].
  split; [reflexivity|]. split; [exact Hn|]. split; [exact Hm|].
  split; [exact Ha|]. split; [exact Hmn|]. split; [exact Hs|].
  rewrite Hs. cbn [archinfo]. destruct Hsz as [-> | ->]; split; (lia || reflexivity).
Qed.

(** The loop passes over every descriptor in front of the one it stops at:
    none of them matches. *)
Lemma scan_first (ins : Z) :
  forall (t : list OPCODE_DESC) (n i : nat) (d : OPCODE_DESC) (h : inst_handler_t),
    scan_opcodes ins t n = Some (i, d, h) ->
    forall (j : nat) (d' : OPCODE_DESC),
      (j < i - n)%nat -> nth_error t j = Some d' ->
      d_handler d' <> None /\ Z.land ins (d_mask d') <> d_selector d'.
Proof.
  induction t as [|x t IH]; intros n i d h; cbn [scan_opcodes]; [discriminate|].
  destruct (d_handler x) as [hx|] eqn:Hx; [|discriminate].
  destruct (Z.eqb_spec (Z.land ins (d_mask x)) (d_selector x)) as [E|E].
  - intros [= <- <- <-] j d' Hj. lia.
  - intros H j d' Hj Hn. destruct j as [|j]; cbn [nth_error] in Hn.
    + injection Hn as <-. split; [rewrite Hx; discriminate|exact E].
    + apply (IH _ _ _ _ H j d'); [|exact Hn].
      pose proof (scan_matches _ _ _ _ _ _ H) as (_ & Hle & _). lia.
Qed.

(** A loop that finds nothing has passed over every descriptor in front of
    the end marker. *)
Lemma scan_none (ins : Z) :
  forall (t : list OPCODE_DESC) (n : nat),
    forallb (fun d => match d_handler d with Some _ => true | None => false end)
      (removelast t) = true ->
    scan_opcodes ins t n = None ->
    forall d', In d' (removelast t) -> Z.land ins (d_mask d') <> d_selector d'.
Proof.
  induction t as [|x t IH]; intros n Hall Hscan d' Hin; [contradiction|].
  destruct t as [|y t]; [contradiction|].
  change (removelast (x :: y :: t)) with (x :: removelast (y :: t)) in Hall, Hin.
  cbn [forallb] in Hall. apply andb_true_iff in Hall. destruct Hall as [Hx Hall].
  cbn [scan_opcodes] in Hscan.
  destruct (d_handler x) as [hx|]; [|discriminate Hx].
  destruct (Z.eqb_spec (Z.land ins (d_mask x)) (d_selector x)) as [E|E];
    [discriminate Hscan|].
  destruct Hin as [<- | Hin]; [exact E|].
  exact (IH (S n) Hall Hscan d' Hin).
Qed.

Lemma end_marker_static :
  opcodes = (removelast opcodes ++ [INST_LAST])%list /\ d_handler INST_LAST = None /\
  forallb (fun d => match d_handler d with Some _ => true | None => false end)
    (removelast opcodes) = true.
Proof. split; [reflexivity|]. split; reflexivity. Qed.

(** In any reachable descriptor array: if the loop finds nothing, no
    descriptor that has a handler matches. *)
Lemma scan_none_reachable (ins : Z) (t : list OPCODE_DESC) :
  tbl_ok t -> scan_opcodes ins t 0 = None ->
  forall d', In d' t -> d_handler d' <> None -> Z.land ins (d_mask d') <> d_selector d'.
Proof.
  intros Ht Hscan d' Hin Hh.
  pose proof (scan_rel ins t opcodes 0 Ht) as Hrel. rewrite Hscan in Hrel.
  destruct (scan_opcodes ins opcodes 0) as [[[i d] h]|] eqn:Hs; [contradiction|].
  assert (Hs' : In (strip d') (map strip opcodes)) by (rewrite <- Ht; apply in_map; exact Hin).
  apply in_map_iff in Hs'. destruct Hs' as (d0 & Hd0 & Hin0).
  destruct (strip_fields _ _ Hd0) as (Hm0 & Hs0 & Hh0 & _).
  rewrite <- Hm0, <- Hs0. rewrite <- Hh0 in Hh.
  destruct end_marker_static as (Happ & Hlast & Hall).
  rewrite Happ in Hin0. apply in_app_or in Hin0. destruct Hin0 as [Hin0|[<- |[]]].
  - exact (scan_none ins opcodes 0 Hall Hs d0 Hin0).
  - contradiction.
Qed.

(** X7 (decode result): on a buffer of at least two bytes [avr_op_analyze]
    returns, and which descriptor it returns is decided by the first word
    alone.  If it returns a descriptor, that descriptor has a handler and
    matches the word, and no descriptor in front of it in the array
    matches: it is the first match.  The op then has the caller's address and mnemonic and the
    descriptor's size, which is 2 or 4: within the bounds and the alignment
    [archinfo] advertises.  If it returns NULL, no descriptor that has a
    handler matches the word - no handler ever reports failure -, the op is
    the invalid op at that address and the globals are untouched. *)
Theorem decode_returns_first_matching_descriptor
    (an : RzAnalysis) (cpu : nat) (g : Globals) (op : RzAnalysisOp) (addr : Z)
    (buf : list Z) (len : Z) :
  globals_ok g -> 2 <= len ->
  let ins := ut16 (Z.lor (Z.shiftl (at_ buf 1) 8) (at_ buf 0)) in
  exists r,
    avr_op_analyze (analyze_fuel len) an cpu g op addr buf len = Some r /\
    match r_desc r with
    | Some i =>
        exists d h,
          nth_error (opcodes_g g) i = Some d /\ d_handler d = Some h /\
          Z.land ins (d_mask d) = d_selector d /\
          (forall j d', (j < i)%nat -> nth_error (opcodes_g g) j = Some d' ->
             Z.land ins (d_mask d') <> d_selector d') /\
          Avr.addr (r_op r) = addr /\ mnemonic (r_op r) = mnemonic op /\
          size (r_op r) = d_size d /\
          archinfo RZ_ANALYSIS_ARCHINFO_MIN_OP_SIZE <= size (r_op r)
            <= archinfo RZ_ANALYSIS_ARCHINFO_MAX_OP_SIZE /\
          size (r_op r) mod archinfo RZ_ANALYSIS_ARCHINFO_ALIGN = 0
    | None =>
        (forall d', In d' (opcodes_g g) -> d_handler d' <> None ->
           Z.land ins (d_mask d') <> d_selector d') /\
        r_op r = set_invalid_op op addr /\ r_globals r = g
    end.
Proof.
  intros Hg Hlen ins.
  destruct (decode_result an cpu g op addr buf len Hg Hlen) as (r & Hr & Hres).
  exists r. split; [exact Hr|]. fold ins in Hres.
  destruct (scan_opcodes ins (opcodes_g g) 0) as [[[i d] h]|] eqn:Hscan.
  - destruct Hres as (-> & Hn & Hm & Hrest).
    exists d, h. split; [exact Hn|].
    split; [exact (proj2 (scan_in _ _ _ _ _ _ Hscan))|]. split; [exact Hm|].
    split; [|exact Hrest].
    intros j d' Hj Hnj.
    apply (scan_first ins _ _ _ _ _ Hscan j d'); [lia|exact Hnj].
  - destruct Hres as (-> & Hop & Hgl).
    split; [|split; assumption].
    exact (scan_none_reachable ins _ (proj2 Hg) Hscan).
Qed.

Lemma decode_returns_first_matching_descriptor_witness :
  exists r,
    avr_op_analyze (analyze_fuel 4) analysis0 7 globals_init op_zero 0x100
      [0x0e; 0x94; 0x34; 0x12] 4 = Some r /\
    r_desc r = Some 49%nat /\
    option_map (fun x => d_name x) (nth_error opcodes 49) = Some "call" /\
    (forall j d', (j < 49)%nat -> nth_error opcodes j = Some d' ->
       Z.land 0x940e (d_mask d') <> d_selector d') /\
    Avr.addr (r_op r) = 0x100 /\ size (r_op r) = 4.
Proof.
  destruct (decode_returns_first_matching_descriptor analysis0 7 globals_init op_zero 0x100
              [0x0e; 0x94; 0x34; 0x12] 4
              (conj registry_init_wf eq_refl) ltac:(lia))
    as (r & Hr & Hrest).
  exists r. split; [exact Hr|].
  assert (Hd : r_desc r = Some 49%nat).
  { assert (E : option_map r_desc
                  (avr_op_analyze (analyze_fuel 4) analysis0 7 globals_init op_zero 0x100
                     [0x0e; 0x94; 0x34; 0x12] 4) = Some (Some 49%nat))
      by (vm_compute; reflexivity).
    rewrite Hr in E. injection E as E. exact E. }
  rewrite Hd in Hrest. destruct Hrest as (d & h & Hn & _ & _ & Hfirst & Ha & _ & Hs & _).
  split; [exact Hd|]. split; [reflexivity|].
  split; [exact Hfirst|]. split; [exact Ha|].
  rewrite Hs. apply (f_equal (option_map d_size)) in Hn.
  cbn [option_map] in Hn. injection Hn as <-. reflexivity.
Defined.


(* ----------------------------------------------------------------- *)
(** *** Relative branches *)

Lemma byte_in_bytes256 (b : Z) : 0 <= b < 256 -> In b bytes256.
Proof.
  intros Hb. unfold bytes256. apply in_map_iff. exists (Z.to_nat b).
  split; [lia|]. apply in_seq. lia.
Qed.

Lemma displacements_static :
  forallb (fun b0 => forallb (fun b1 =>
     let word := b1 * 256 + b0 in
     (disp_rjmp b0 b1 =? 2 * signed 12 (word mod 2 ^ 12) + 2)
     && (disp_rcall b0 b1 =? 2 * signed 12 (word mod 2 ^ 12) + 2)
     && (disp_brbx b0 b1 =? 2 * signed 7 ((word / 8) mod 2 ^ 7) + 2)) bytes256) bytes256 = true.
Proof. vm_compute. reflexivity. Qed.

Lemma displacements (b0 b1 : Z) :
  0 <= b0 < 256 -> 0 <= b1 < 256 ->
  let word := b1 * 256 + b0 in
  disp_rjmp b0 b1 = 2 * signed 12 (word mod 2 ^ 12) + 2 /\
  disp_rcall b0 b1 = 2 * signed 12 (word mod 2 ^ 12) + 2 /\
  disp_brbx b0 b1 = 2 * signed 7 ((word / 8) mod 2 ^ 7) + 2.
Proof.
  intros H0 H1 word.
  pose proof displacements_static as H. rewrite forallb_forall in H.
  specialize (H b0 (byte_in_bytes256 b0 H0)). rewrite forallb_forall in H.
  specialize (H b1 (byte_in_bytes256 b1 H1)). cbv zeta in H.
  apply andb_true_iff in H. destruct H as [H Hc].
  apply andb_true_iff in H. destruct H as [Ha Hb].
  apply Z.eqb_eq in Ha, Hb, Hc. fold word in Ha, Hb, Hc. auto.
Qed.

Lemma signed_range (n x : Z) :
  1 <= n -> 0 <= x < 2 ^ n -> - 2 ^ (n - 1) <= signed n x < 2 ^ (n - 1).
Proof.
  intros Hn Hx. unfold signed.
  assert (E : 2 ^ n = 2 * 2 ^ (n - 1))
    by (rewrite <- Z.pow_succ_r by lia; f_equal; lia).
  destruct (Z.ltb_spec x (2 ^ (n - 1))); lia.
Qed.

Lemma jump_generic_push (op : RzAnalysisOp) (n : Z) :
  jump (__generic_push op n) = jump op /\ fail (__generic_push op n) = fail op.
Proof.
  pose proof (proj2 (generic_push_text op n)) as H.
  split.
  - exact (f_equal jump H).
  - exact (f_equal fail H).
Qed.

(** X8 (relative branches): for instruction bytes [b0], [b1] the jump target
    computed by RJMP and by RCALL is [addr + 2 + 2*k] with [k] the low
    twelve bits of the instruction word read as a signed number, and the
    target computed by BRBS/BRBC is [addr + 2 + 2*k] with [k] bits 3..9 of
    the word read as a signed number, both as unsigned 64-bit values; RCALL
    and BRBx fall through to [addr + size]. *)
Theorem relative_branch_targets
    (ms : list CPU_MODEL) (cpui : nat) (buf : list Z) (len : Z) (op : RzAnalysisOp) :
  0 <= at_ buf 0 < 256 -> 0 <= at_ buf 1 < 256 -> 2 <= len ->
  let word := at_ buf 1 * 256 + at_ buf 0 in
  let k12 := signed 12 (word mod 2 ^ 12) in
  let k7 := signed 7 ((word / 8) mod 2 ^ 7) in
  jump (_inst__rjmp buf op) = ut64 (Avr.addr op + (2 * k12 + 2)) /\
  jump (_inst__rcall ms cpui buf len op) = ut64 (Avr.addr op + (2 * k12 + 2)) /\
  jump (_inst__brbx buf len op) = ut64 (Avr.addr op + (2 * k7 + 2)) /\
  fail (_inst__rcall ms cpui buf len op) = ut64 (Avr.addr op + size op) /\
  fail (_inst__brbx buf len op) = ut64 (Avr.addr op + size op) /\
  -2048 <= k12 < 2048 /\ -64 <= k7 < 64.
Proof.
  intros H0 H1 Hlen word k12 k7.
  destruct (displacements _ _ H0 H1) as (Hj & Hc & Hb).
  fold word in Hj, Hc, Hb. fold k12 in Hj, Hc. fold k7 in Hb.
  assert (Hl : (len <? 2) = false) by (apply Z.ltb_ge; exact Hlen).
  split; [|split; [|split; [|split; [|split; [|split]]]]].
  - unfold _inst__rjmp. cbn [jump ESIL_A set_esil set_jump]. rewrite <- Hj. reflexivity.
  - unfold _inst__rcall. rewrite Hl. cbv zeta.
    destruct (rz_str_ncasecmp _ _ _ =? 0); [|destruct (STR_BEGINS _ _ =? 0)];
      cbn [jump ESIL_A set_esil set_cycles];
      rewrite (proj1 (jump_generic_push _ _));
      cbn [jump Avr.addr ESIL_A set_esil set_fail set_jump];
      rewrite <- Hc; reflexivity.
  - unfold _inst__brbx. rewrite Hl. cbn [jump ESIL_A set_esil set_cycles set_fail set_jump].
    rewrite <- Hb. unfold disp_brbx. f_equal. lia.
  - unfold _inst__rcall. rewrite Hl. cbv zeta.
    destruct (rz_str_ncasecmp _ _ _ =? 0); [|destruct (STR_BEGINS _ _ =? 0)];
      cbn [fail ESIL_A set_esil set_cycles];
      rewrite (proj2 (jump_generic_push _ _));
      reflexivity.
  - unfold _inst__brbx. rewrite Hl. reflexivity.
  - exact (signed_range 12 _ ltac:(lia) (Z.mod_pos_bound _ (2 ^ 12) eq_refl)).
  - exact (signed_range 7 _ ltac:(lia) (Z.mod_pos_bound _ (2 ^ 7) eq_refl)).
Qed.

Lemma relative_branch_targets_witness :
  jump (_inst__rjmp [0xfe; 0xcf] (set_addr 0x100 op_zero)) = 0xfe /\
  jump (_inst__brbx [0xf1; 0xf7] 2 (set_size 2 (set_addr 0x100 op_zero))) = 0xfe.
Proof.
  pose proof (relative_branch_targets cpu_models 7 [0xfe; 0xcf] 2 (set_addr 0x100 op_zero)
                ltac:(cbn; lia) ltac:(cbn; lia) ltac:(lia)) as (Hj & _).
  pose proof (relative_branch_targets cpu_models 7 [0xf1; 0xf7] 2
                (set_size 2 (set_addr 0x100 op_zero))
                ltac:(cbn; lia) ltac:(cbn; lia) ltac:(lia)) as (_ & _ & Hb & _).
  split; [exact Hj|exact Hb].
Defined.


(* ----------------------------------------------------------------- *)
(** *** I/O ports and register names *)

Lemma registry_resolved_wf : wf_registry registry_resolved.
Proof.
  split; [|exact I]. exists [true; true; true; true; true; true; true; true].
  split; reflexivity.
Qed.

Lemma registry_resolved_parents (i : nat) :
  (i < 8)%nat ->
  inherit_cpu_p (model_at (models registry_resolved) i) = static_parent (model_at cpu_models i).
Proof.
  intros Hi. destruct i as [|[|[|[|[|[|[|[|i]]]]]]]]; try lia; reflexivity.
Qed.

Lemma io_dest_static :
  forallb (fun i => forallb (io_dest_consistent i) bytes256) (seq 0 8) = true.
Proof. vm_compute. reflexivity. Qed.

Lemma io_dest_ut8 (port write : Z) (ms : list CPU_MODEL) (cpu : nat) :
  __generic_io_dest (ut8 port) write ms cpu = __generic_io_dest port write ms cpu.
Proof.
  unfold __generic_io_dest. cbv zeta.
  assert (E : ut8 (ut8 port) = ut8 port) by (unfold ut8; apply Z.mod_mod; discriminate).
  rewrite E. reflexivity.
Qed.

(** X9 (port names): seen from a model whose parent is resolved, the read
    destination of an I/O port is either a register name - and then looking
    that name up among the register constants gives back the port - or the
    generic expression [_io,port,+,[1]]; the write destination is the same
    name followed by [,=], or the generic expression with [=[1]]. *)
Theorem io_port_names_round_trip (g : Registry) (i : nat) (port : Z) :
  wf_registry g -> (i < 8)%nat ->
  inherit_cpu_p (model_at (models g) i) = static_parent (model_at cpu_models i) ->
  let p := ut8 port in
  exists r,
    __generic_io_dest port 0 (models g) i = Some r /\
    match option_map fst (const_by_name 18 g i CPU_CONST_REG r) with
    | Some (Some c) =>
        const_get_value (Some c) = p /\
        __generic_io_dest port 1 (models g) i = Some (r ++ ",=")
    | Some None =>
        r = "_io," ++ fmt_d p ++ ",+,[1]" /\
        __generic_io_dest port 1 (models g) i = Some ("_io," ++ fmt_d p ++ ",+,=[1]")
    | None => False
    end.
Proof.
  intros Hwf Hi Hp p.
  destruct (view_agree_wf g registry_resolved i Hwf registry_resolved_wf
              (eq_trans Hp (eq_sym (registry_resolved_parents i Hi)))) as (_ & _ & Hio).
  rewrite <- (io_dest_ut8 port 0), <- (io_dest_ut8 port 1), !Hio. fold p.
  pose proof io_dest_static as H. rewrite forallb_forall in H.
  specialize (H i ltac:(apply in_seq; lia)). rewrite forallb_forall in H.
  assert (Hpr : 0 <= p < 256) by (subst p; unfold ut8; apply Z.mod_pos_bound; reflexivity).
  specialize (H p (byte_in_bytes256 p Hpr)). unfold io_dest_consistent in H.
  destruct (__generic_io_dest p 0 (models registry_resolved) i) as [r|]; [|discriminate].
  destruct (__generic_io_dest p 1 (models registry_resolved) i) as [wr|]; [|discriminate].
  exists r. split; [reflexivity|].
  rewrite (const_by_name_resolved g i CPU_CONST_REG r Hwf Hp). cbn [option_map fst].
  destruct (lookup_chain 8 i CPU_CONST_REG r) as [c|].
  - apply andb_true_iff in H. destruct H as [Hv Hw].
    apply Z.eqb_eq in Hv. apply String.eqb_eq in Hw. subst wr. split; [exact Hv|reflexivity].
  - apply andb_true_iff in H. destruct H as [Hr Hw].
    apply String.eqb_eq in Hr, Hw. subst. split; reflexivity.
Qed.

Lemma io_port_names_round_trip_witness :
  exists r,
    __generic_io_dest 0x3f 0 (models registry_resolved) 7 = Some r /\
    match option_map fst (const_by_name 18 registry_resolved 7 CPU_CONST_REG r) with
    | Some (Some c) =>
        const_get_value (Some c) = ut8 0x3f /\
        __generic_io_dest 0x3f 1 (models registry_resolved) 7 = Some (r ++ ",=")
    | Some None =>
        r = "_io," ++ fmt_d (ut8 0x3f) ++ ",+,[1]" /\
        __generic_io_dest 0x3f 1 (models registry_resolved) 7
        = Some ("_io," ++ fmt_d (ut8 0x3f) ++ ",+,=[1]")
    | None => False
    end.
Proof.
  apply (io_port_names_round_trip registry_resolved 7 0x3f).
  - exact registry_resolved_wf.
  - lia.
  - reflexivity.
Defined.


(* ----------------------------------------------------------------- *)
(** *** The memory layout registers *)



(* ----------------------------------------------------------------- *)
(** *** Page geometry *)

(** X11 (page size): whatever variant name is looked up, the selected model
    resolves the constant [page_size] - from its own groups or its parent's
    - without logging, to 5 or 7 bits; the page never exceeds the program
    space: the page-size bits are at most the program-counter width, which
    is at most 32. *)
Theorem every_variant_resolves_page_size (g : Registry) (name : string) :
  wf_registry g ->
  exists i g1 c,
    get_cpu_model (chain_fuel (models g)) g name = Some (Some i, g1) /\
    const_by_name (chain_fuel (models g1)) g1 i CPU_CONST_PARAM "page_size"
      = Some (Some c, g1) /\
    errlog g1 = errlog g /\
    (const_get_value (Some c) = 5 \/ const_get_value (Some c) = 7) /\
    const_get_value (Some c) <= pc (model_at (models g1) i) <= 32.
Proof.
  intros Hwf. rewrite (chain_fuel_wf g Hwf).
  destruct (get_cpu_model_resolves 18 g name Hwf ltac:(lia))
    as (g1 & Hg & Hwf1 & Hlog & Hc & Hms & Hp).
  set (i := find_model cpu_models name 0) in *.
  pose proof (find_model_bound name) as Hi. fold i in Hi.
  destruct (page_geometry i Hi) as [Hfound Hkw].
  destruct (wf_static_facts g1 i Hwf1) as (_ & _ & Hpc & _).
  destruct (lookup_chain 8 i CPU_CONST_PARAM "page_size") as [c|] eqn:Hl; [|contradiction].
  exists i, g1, c. split; [exact Hg|].
  rewrite (chain_fuel_wf g1 Hwf1),
    (const_by_name_resolved g1 i CPU_CONST_PARAM "page_size" Hwf1 Hp), Hl.
  split; [reflexivity|]. split; [exact Hlog|]. rewrite Hpc.
  cbn [In] in Hkw.
  repeat (destruct Hkw as [Hkw|Hkw];
          [injection Hkw as Hk Hw; change (const_get_value (Some c)) with
             (Z.land (MASK (csize c * 8)) (value c));
           rewrite <- Hk, <- Hw; split; [auto|lia]|]).
  contradiction.
Qed.

Lemma every_variant_resolves_page_size_witness :
  exists i g1 c,
    get_cpu_model (chain_fuel cpu_models) (registry globals_init) "ATmega88"
      = Some (Some i, g1) /\
    const_by_name (chain_fuel (models g1)) g1 i CPU_CONST_PARAM "page_size"
      = Some (Some c, g1) /\
    errlog g1 = [] /\
    (const_get_value (Some c) = 5 \/ const_get_value (Some c) = 7) /\
    const_get_value (Some c) <= pc (model_at (models g1) i) <= 32.
Proof.
  exact (every_variant_resolves_page_size (registry globals_init) "ATmega88" registry_init_wf).
Defined.


(* ----------------------------------------------------------------- *)
(** *** The instruction mask *)

Lemma store_byte_length (l : list Z) :
  forall i v, List.length (store_byte l i v) = List.length l.
Proof.
  induction l as [|x l IH]; intros i v; [reflexivity|].
  destruct i; cbn; [reflexivity|rewrite IH; reflexivity].
Qed.

Lemma ret_store_keeps (ret : MaskBuf) (i v : Z) :
  List.length (fst (ret_store ret i v)) = List.length (fst ret) /\
  (snd ret = true -> snd (ret_store ret i v) = true).
Proof.
  unfold ret_store. destruct ((0 <=? i) && (i <? Z.of_nat (List.length (fst ret)))); cbn [fst snd].
  - split; [apply store_byte_length|auto].
  - split; auto.
Qed.

Lemma ret_store_outside (ret : MaskBuf) (i v : Z) :
  Z.of_nat (List.length (fst ret)) <= i -> snd (ret_store ret i v) = true.
Proof.
  intros H. unfold ret_store.
  replace (i <? Z.of_nat (List.length (fst ret))) with false by (symmetry; apply Z.ltb_ge; exact H).
  rewrite andb_false_r. reflexivity.
Qed.






(** X13 (mask overrun): when the data is two or three bytes long and its
    first word matches a descriptor of a four-byte instruction (LDS, STS,
    CALL, JMP), [analysis_mask_avr] stores to [ret[2]] and [ret[3]] although
    the buffer it allocated has only [size] bytes: at least one of the two
    stores lies behind the end of the buffer. *)
Theorem analysis_mask_overruns_on_truncated_long_opcode
    (malloc_ok : Z -> bool) (an : RzAnalysis) (size : Z) (data : list Z) (at_addr : Z)
    (g : Globals) (op0 : RzAnalysisOp) (i : nat) (d : OPCODE_DESC) (h : inst_handler_t) :
  globals_ok g -> malloc_ok size = true -> 2 <= size < 4 ->
  scan_opcodes (ut16 (Z.lor (Z.shiftl (at_ data 1) 8) (at_ data 0))) (opcodes_g g) 0
    = Some (i, d, h) ->
  d_size d = 4 ->
  exists ret g',
    analysis_mask_avr (Some op0) malloc_ok an size data at_addr g = Some (Some (ret, true), g') /\
    List.length ret = Z.to_nat size.
Proof.
  intros [Hwf Ht] Hm Hsize Hscan Hd4. unfold analysis_mask_avr.
  rewrite Hm. cbn [negb]. rewrite (chain_fuel_wf _ Hwf).
  destruct (get_cpu_model_resolves 18 (registry g) (cpu an) Hwf ltac:(lia))
    as (r1 & -> & Hw1 & _).
  set (g1 := {| registry := r1; opcodes_g := opcodes_g g |}).
  set (c := find_model cpu_models (cpu an) 0).
  set (ret0 := (repeat 0xff (Z.to_nat size), false) : MaskBuf).
  assert (Hlen0 : Z.of_nat (List.length (fst ret0)) = size)
    by (subst ret0; cbn [fst]; rewrite repeat_length; lia).
  cbn [mask_loop].
  replace (0 + 1 <? size) with true by (symmetry; apply Z.ltb_lt; lia).
  rewrite Z.sub_0_r. change (advance data 0) with data.
  destruct (analyze_returns an c (analyze_fuel size) g1 op0 (ut64 (at_addr + 0)) data size
              (conj Hw1 Ht) ltac:(unfold analyze_fuel; lia)) as (r & Hr & _ & Hok & _).
  destruct (decode_result an c g1 op0 (ut64 (at_addr + 0)) data size (conj Hw1 Ht)
              ltac:(lia)) as (r' & Hr' & Hdec).
  rewrite Hr in Hr'. injection Hr' as <-.
  change (opcodes_g g1) with (opcodes_g g) in Hdec. rewrite Hscan in Hdec.
  destruct Hdec as (Hdesc & _ & _ & _ & _ & Hs & _).
  rewrite Hr. cbv zeta. rewrite Hdesc, Hs, Hd4.
  change (4 <? 1) with false. change (4 =? 4) with true. cbv iota. cbn [Z.add].
  match goal with
  | |- context [mask_loop _ an c size data at_addr 4 _ _ ?rt] => set (ret2 := rt)
  end.
  assert (H2 : List.length (fst ret2) = List.length (fst ret0) /\ snd ret2 = true).
  { set (ret1 := ret_store (ret_store ret0 2 0) 3 0).
    assert (H1 : List.length (fst ret1) = List.length (fst ret0) /\ snd ret1 = true).
    { subst ret1.
      destruct (ret_store_keeps ret0 2 0) as [Hl _].
      destruct (ret_store_keeps (ret_store ret0 2 0) 3 0) as [Hl' _].
      split; [congruence|]. apply ret_store_outside. rewrite Hl. lia. }
    destruct H1 as [Hl1 Hm1]. subst ret2. fold ret1. clearbody ret1.
    assert (K : forall x j v,
              List.length (fst x) = List.length (fst ret0) /\ snd x = true ->
              List.length (fst (ret_store x j v)) = List.length (fst ret0) /\
              snd (ret_store x j v) = true).
    { intros x j v [Hl Hmk]. destruct (ret_store_keeps x j v) as [Hl' Hm'].
      split; [congruence|auto]. }
    destruct (negb (ptr (r_op r) =? UT64_MAX) || negb (jump (r_op r) =? UT64_MAX));
      repeat apply K; split; assumption. }
  destruct H2 as [Hl2 Hm2].
  replace (Z.to_nat size) with (S (Z.to_nat (size - 1))) by lia.
  cbn [mask_loop].
  replace (4 + 1 <? size) with false by (symmetry; apply Z.ltb_ge; lia).
  destruct ret2 as [bytes mark]. cbn [fst snd] in *. subst mark.
  exists bytes, (r_globals r). split; [reflexivity|]. lia.
Qed.

Lemma analysis_mask_overruns_on_truncated_long_opcode_witness :
  exists ret g',
    analysis_mask_avr (Some op_zero) (fun _ => true) analysis0 2 [0x0e; 0x94] 0 globals_init
      = Some (Some (ret, true), g') /\
    List.length ret = 2%nat.
Proof.
  apply (analysis_mask_overruns_on_truncated_long_opcode (fun _ => true) analysis0 2
           [0x0e; 0x94] 0 globals_init op_zero 49 (nth 49 opcodes INST_LAST) H_call).
  - split; [exact registry_init_wf|reflexivity].
  - reflexivity.
  - lia.
  - reflexivity.
  - reflexivity.
Defined.

End AvrMoreProps.

(* ================================================================= *)
(** ** Properties of the ARM32 instruction lifters *)

Module ArmILProps.
Import ArmIL ArmILAux.

Lemma mem_str_In (v : string) (l : list string) : mem_str v l = true <-> In v l.
Proof.
  unfold mem_str. rewrite existsb_exists. split.
  - intros (x & Hin & Heq). apply String.eqb_eq in Heq. subst. exact Hin.
  - intros Hin. exists v. split; [exact Hin|apply String.eqb_refl].
Qed.

Lemma bound_app (l1 l2 : list string) : bound (l1 ++ l2) <-> bound l1 /\ bound l2.
Proof. unfold bound. rewrite forallb_app, andb_true_iff. reflexivity. Qed.

Lemma bound_In (l : list string) : bound l <-> (forall v, In v l -> In v regs_bound_32).
Proof.
  unfold bound. rewrite forallb_forall. split; intros H v Hv.
  - apply mem_str_In, H, Hv.
  - apply mem_str_In, H, Hv.
Qed.

Lemma reg_var_name_bound (r : arm_reg) (v : string) :
  reg_var_name r = Some v -> mem_str v regs_bound_32 = true /\ mem_str v flag_names = false.
Proof. destruct r; cbn; intros H; try discriminate H; injection H as <-; split; reflexivity. Qed.

Lemma read_reg_bound (addr : Z) (r : arm_reg) (x : RzILOpPure) :
  read_reg addr r = Some x -> bound (pure_globals x) /\ pure_locals x = [].
Proof.
  unfold read_reg. destruct (is_PC r).
  - intros [= <-]. split; reflexivity.
  - destruct (reg_var_name r) as [v|] eqn:E; [|discriminate].
    intros [= <-]. destruct (reg_var_name_bound r v E) as [Hb _].
    split; [|reflexivity]. unfold bound. cbn [pure_globals forallb]. rewrite Hb. reflexivity.
Qed.

Lemma shift_bound (val : option RzILOpPure) (t : arm_shifter) (d : Z) (x : RzILOpPure) :
  shift val t d = Some x ->
  exists v, val = Some v /\
    (bound (pure_globals v) -> bound (pure_globals x)) /\
    (pure_locals v = [] -> pure_locals x = []).
Proof.
  destruct val as [v|]; [|destruct t; discriminate].
  intros H. exists v. split; [reflexivity|].
  destruct t; cbn in H; injection H as <-; cbn; unfold DUP;
    rewrite ?app_nil_r; split; intros Hv; rewrite ?Hv; try exact Hv; try reflexivity.
  - apply bound_app. split; exact Hv.
Qed.

Section Lifted.
Variable ISREG ISIMM ISMEM : cs_insn -> nat -> bool.
Variable REGID : cs_insn -> nat -> arm_reg.
Variable IMM MEMDISP : cs_insn -> nat -> Z.
Variable OPCOUNT : cs_insn -> Z.
Variable seq_with_null : list (option RzILOpEffect) -> option RzILOpEffect.

Lemma arg_bound (insn : cs_insn) (n : nat) (c : bool) (a : RzILOpPure) :
  fst (arg ISIMM REGID IMM MEMDISP insn n c) = Some a ->
  bound (pure_globals a) /\ pure_locals a = [].
Proof.
  unfold arg, REG, MEMBASE, MEMINDEX.
  destruct (op_type (operands insn n)); cbn [fst]; try discriminate.
  - apply read_reg_bound.
  - intros [= <-]. split; reflexivity.
  - destruct (read_reg (address insn) (mem_base (operands insn n))) as [b|] eqn:Eb.
    2: { destruct (MEMDISP insn n >? 0), (MEMDISP insn n <? 0),
           (negb (is_INVALID (mem_index (operands insn n)))); cbn; discriminate. }
    destruct (read_reg_bound _ _ _ Eb) as [Hb Hl].
    set (base := if MEMDISP insn n >? 0 then _ else _).
    assert (Hbase : exists b', base = Some b' /\ bound (pure_globals b') /\ pure_locals b' = []).
    { subst base. destruct (MEMDISP insn n >? 0); [|destruct (MEMDISP insn n <? 0)];
        eexists; (split; [reflexivity|]); cbn; rewrite ?app_nil_r, ?Hl; split; auto. }
    destruct Hbase as (b' & -> & Hb' & Hl').
    destruct (negb (is_INVALID (mem_index (operands insn n)))).
    + destruct (shift _ _ _) as [s|] eqn:Es; [|discriminate].
      destruct (shift_bound _ _ _ _ Es) as (v & Hv & Hsb & Hsl).
      destruct (read_reg_bound _ _ _ Hv) as [Hvb Hvl].
      intros [= <-]. cbn. rewrite Hl', (Hsl Hvl). split; [|reflexivity].
      apply bound_app. split; [exact Hb'|exact (Hsb Hvb)].
    + intros [= <-]. split; assumption.
Qed.

Lemma arg_carry (insn : cs_insn) (n : nat) (c : bool) (k : RzILOpPure) :
  snd (arg ISIMM REGID IMM MEMDISP insn n c) = Some k ->
  (k = IL_TRUE \/ k = IL_FALSE) /\ c = true /\ op_type (operands insn n) = ARM_OP_IMM /\
  (ISIMM insn (n + 1) || (Avr.ut32 (IMM insn n) >? 0xff))%bool = true.
Proof.
  unfold arg. generalize (Z.testbit (Avr.ut32 (IMM insn n)) 31) as t. intros t.
  destruct (op_type (operands insn n)); cbn [snd]; try discriminate.
  destruct c; cbn [andb]; [|discriminate].
  destruct (ISIMM insn (n + 1) || (Avr.ut32 (IMM insn n) >? 255))%bool; [|discriminate].
  intros H. injection H as <-. destruct t; repeat split; auto.
Qed.

Lemma ok_no_locals (d : list string) (x : RzILOpPure) :
  pure_locals x = [] ->
  forallb (fun v => existsb (String.eqb v) d) (pure_locals x) = true.
Proof. intros ->. reflexivity. Qed.

Lemma facts_jmp (insn : cs_insn) (x : RzILOpPure) :
  is_str (id insn) = false ->
  bound (pure_globals x) -> pure_locals x = [] -> facts (REGID insn 0) insn (JMP x).
Proof.
  intros Hs Hb Hl. unfold facts. cbn [eff_globals scoped eff_writes eff_stores].
  rewrite (ok_no_locals _ _ Hl), Hs. split; [exact Hb|].
  split; [eexists; reflexivity|]. split; reflexivity.
Qed.

Lemma facts_write (insn : cs_insn) (x : RzILOpPure) (e : RzILOpEffect) :
  is_str (id insn) = false ->
  bound (pure_globals x) -> pure_locals x = [] ->
  write_reg (REGID insn 0) (Some x) = Some e -> facts (REGID insn 0) insn e.
Proof.
  intros Hs Hb Hl. unfold write_reg.
  destruct (reg_var_name (REGID insn 0)) as [v|] eqn:E; [|discriminate].
  intros [= <-]. destruct (reg_var_name_bound _ _ E) as [Hv _].
  unfold facts. rewrite E. cbn [eff_globals scoped eff_writes eff_stores writes_ok forallb].
  rewrite (ok_no_locals _ _ Hl), Hs, String.eqb_refl.
  split; [|split; [eexists; reflexivity|split; reflexivity]].
  unfold bound in *. cbn [forallb]. rewrite Hv, Hb. reflexivity.
Qed.

Lemma facts_ldr (insn : cs_insn) (e : RzILOpEffect) :
  match id insn with ARM_INS_LDR | ARM_INS_LDRB | ARM_INS_LDRH => True | _ => False end ->
  ldr ISREG ISIMM ISMEM REGID IMM MEMDISP insn = Some e -> facts (REGID insn 0) insn e.
Proof.
  intros Hid. unfold ldr, ARG.
  destruct (negb (ISREG insn 0) || negb (ISMEM insn 1)); [discriminate|].
  destruct (fst (arg ISIMM REGID IMM MEMDISP insn 1 false)) as [a|] eqn:Ea; [|discriminate].
  destruct (arg_bound _ _ _ _ Ea) as [Hb Hl].
  assert (Hs : is_str (id insn) = false) by (destruct (id insn); tauto).
  destruct (is_PC (REGID insn 0)).
  - intros [= <-]. apply facts_jmp; [exact Hs| |]; destruct (id insn); cbn; assumption.
  - apply facts_write; [exact Hs| |]; destruct (id insn); cbn; assumption.
Qed.

Lemma facts_str (insn : cs_insn) (e : RzILOpEffect) :
  is_str (id insn) = true ->
  str ISREG ISIMM ISMEM REGID IMM MEMDISP insn = Some e -> facts (REGID insn 0) insn e.
Proof.
  intros Hs. unfold str, ARG.
  destruct (negb (ISREG insn 0) || negb (ISMEM insn 1)); [discriminate|].
  destruct (fst (arg ISIMM REGID IMM MEMDISP insn 1 false)) as [a|] eqn:Ea; [|discriminate].
  destruct (fst (arg ISIMM REGID IMM MEMDISP insn 0 false)) as [v|] eqn:Ev; [|discriminate].
  destruct (arg_bound _ _ _ _ Ea) as [Hb Hl].
  destruct (arg_bound _ _ _ _ Ev) as [Hvb Hvl].
  intros [= <-]. unfold facts. rewrite Hs.
  assert (Hsets : sets_flags insn = false) by (unfold sets_flags; destruct (id insn); try discriminate Hs; reflexivity).
  destruct (id insn); try discriminate Hs;
    cbn [eff_globals scoped eff_writes eff_stores writes_ok forallb pure_globals pure_locals];
    rewrite Hl, Hvl; cbn [forallb andb];
    (split; [apply bound_app; split; assumption|]);
    (split; [eexists; reflexivity|split; reflexivity]).
Qed.

Lemma facts_b (insn : cs_insn) (e : RzILOpEffect) :
  id insn = ARM_INS_B ->
  b1 JMP (ARG ISIMM REGID IMM MEMDISP insn 0) = Some e -> facts (REGID insn 0) insn e.
Proof.
  intros Hid. unfold ARG.
  destruct (fst (arg ISIMM REGID IMM MEMDISP insn 0 false)) as [a|] eqn:Ea; [|discriminate].
  destruct (arg_bound _ _ _ _ Ea) as [Hb Hl].
  intros [= <-]. apply facts_jmp; [rewrite Hid; reflexivity|exact Hb|exact Hl].
Qed.


Ltac flag_tests :=
  change (mem_str "cf" flag_names) with true;
  change (mem_str "vf" flag_names) with true;
  change (mem_str "zf" flag_names) with true;
  change (mem_str "nf" flag_names) with true;
  cbn [andb]; rewrite ?orb_true_r; reflexivity.

Ltac bound_solve :=
  unfold bound in *;
  repeat first [rewrite forallb_app | progress cbn [forallb]];
  repeat match goal with
         | H : forallb _ _ = true |- _ => rewrite H
         | H : mem_str _ regs_bound_32 = true |- _ => rewrite H
         end;
  reflexivity.

Lemma facts_zn (v : RzILOpPure) :
  update_flags_zn seq_with_null (Some v)
  = Some (SEQ [SETG "zf" (IS_ZERO v); SETG "nf" (MSB v)]).
Proof. reflexivity. Qed.

Lemma facts_mov (insn : cs_insn) (e : RzILOpEffect) :
  id insn = ARM_INS_MOV ->
  mov ISREG ISIMM REGID IMM MEMDISP seq_with_null insn = Some e ->
  facts (REGID insn 0) insn e /\
  mem_str "vf" (eff_writes e) = false /\
  mem_str "cf" (eff_writes e)
  = match snd (arg ISIMM REGID IMM MEMDISP insn 1 (update_flags insn)) with
    | Some _ => true
    | None => false
    end.
Proof.
  intros Hid. unfold mov.
  destruct (negb (ISREG insn 0) || (negb (ISIMM insn 1) && negb (ISREG insn 1)));
    [discriminate|].
  pose proof (arg_bound insn 1 (update_flags insn)) as Hval.
  pose proof (arg_carry insn 1 (update_flags insn)) as Hcar.
  destruct (arg ISIMM REGID IMM MEMDISP insn 1 (update_flags insn)) as [val carry].
  cbn [fst snd] in *.
  destruct val as [v|]; [|discriminate].
  destruct (Hval v eq_refl) as [Hb Hl]. clear Hval.
  assert (Hs : is_str (id insn) = false) by (rewrite Hid; reflexivity).
  assert (Hsets : sets_flags insn = update_flags insn)
    by (unfold sets_flags; rewrite Hid; reflexivity).
  destruct (is_PC (REGID insn 0)).
  { destruct (update_flags insn) eqn:Hf; [discriminate|].
    intros [= <-]. split; [apply facts_jmp; assumption|]. split; [reflexivity|].
    destruct carry as [k|]; [|reflexivity].
    destruct (Hcar k eq_refl) as (_ & Hc & _). discriminate Hc. }
  destruct (write_reg (REGID insn 0) (Some v)) as [eff|] eqn:Ew; [|discriminate].
  pose proof (facts_write insn v eff Hs Hb Hl Ew) as Hw.
  unfold write_reg in Ew.
  destruct (reg_var_name (REGID insn 0)) as [rd|] eqn:Erd; [|discriminate].
  injection Ew as <-.
  destruct (reg_var_name_bound _ _ Erd) as [Hrd Hrdf].
  assert (Hcf : mem_str "cf" [rd] = false /\ mem_str "vf" [rd] = false).
  { unfold mem_str in *. cbn [existsb flag_names] in *.
    rewrite !orb_false_r in *. apply orb_false_iff in Hrdf. destruct Hrdf as [Hv Hrdf].
    apply orb_false_iff in Hrdf. destruct Hrdf as [Hc _].
    rewrite String.eqb_sym, Hc, String.eqb_sym, Hv. split; reflexivity. }
  destruct Hcf as [Hcf Hvf].
  destruct (update_flags insn) eqn:Hf.
  2: { intros [= <-]. split; [exact Hw|]. cbn [eff_writes]. rewrite Hcf, Hvf.
       split; [reflexivity|].
       destruct carry as [k|]; [|reflexivity].
       destruct (Hcar k eq_refl) as (_ & Hc & _). discriminate Hc. }
  rewrite facts_zn. unfold DUP, SEQN.
  unfold mem_str in Hcf, Hvf. cbn [existsb] in Hcf, Hvf. rewrite orb_false_r in Hcf, Hvf.
  destruct carry as [k|].
  - destruct (Hcar k eq_refl) as (Hk & _).
    cbn [all_present]. intros [= <-].
    unfold facts. rewrite Erd, Hsets.
    cbn [eff_globals eff_writes eff_stores scoped flat_map fold_left pure_globals
         pure_locals app writes_ok forallb].
    assert (Hkg : pure_globals k = [] /\ pure_locals k = [])
      by (destruct Hk as [-> | ->]; split; reflexivity).
    destruct Hkg as [Hkg Hkl].
    rewrite ?Hl, ?Hkg, ?Hkl, Hs, String.eqb_refl. cbn [forallb app].
    rewrite app_nil_r.
    split; [split; [|split; [eexists; reflexivity|split; [flag_tests|reflexivity]]]|].
    + bound_solve.
    + unfold mem_str. cbn [existsb]. rewrite Hcf, Hvf. split; reflexivity.
  - cbn [all_present]. intros [= <-].
    unfold facts. rewrite Erd, Hsets.
    cbn [eff_globals eff_writes eff_stores scoped flat_map fold_left pure_globals
         pure_locals app writes_ok forallb].
    rewrite ?Hl, Hs, String.eqb_refl.
    cbn [forallb app]. rewrite app_nil_r.
    split; [split; [|split; [eexists; reflexivity|split; [flag_tests|reflexivity]]]|].
    + bound_solve.
    + unfold mem_str. cbn [existsb]. rewrite Hcf, Hvf. split; reflexivity.
Qed.


Lemma facts_add (insn : cs_insn) (e : RzILOpEffect) :
  is_add (id insn) = true ->
  (sets_flags insn = true -> reg_var_name (REGID insn 0) <> None) ->
  add ISREG ISIMM REGID IMM MEMDISP OPCOUNT seq_with_null insn = Some e ->
  facts (REGID insn 0) insn e.
Proof.
  intros Hid Hnamed. unfold add, ARG.
  destruct (negb (ISREG insn 0)); [discriminate|].
  destruct (fst (arg ISIMM REGID IMM MEMDISP insn (if OPCOUNT insn >? 2 then 1 else 0)%nat false))
    as [a|] eqn:Ea; [|discriminate].
  destruct (fst (arg ISIMM REGID IMM MEMDISP insn (if OPCOUNT insn >? 2 then 2 else 1)%nat false))
    as [b|] eqn:Eb; [|discriminate].
  destruct (arg_bound _ _ _ _ Ea) as [Hab Hal].
  destruct (arg_bound _ _ _ _ Eb) as [Hbb Hbl].
  assert (Hs : is_str (id insn) = false) by (destruct (id insn); try discriminate Hid; reflexivity).
  set (res := if match id insn with ARM_INS_ADC => true | _ => false end
              then ADD (ADD a b) (ITE (VARG "cf") (U32 1) (U32 0)) else ADD a b).
  assert (Hres : bound (pure_globals res) /\ pure_locals res = []).
  { subst res. destruct (match id insn with ARM_INS_ADC => true | _ => false end);
      cbn [pure_globals pure_locals U32]; rewrite Hal, Hbl; (split; [bound_solve|reflexivity]). }
  destruct Hres as [Hrb Hrl].
  destruct (is_PC (REGID insn 0)) eqn:Hpc.
  { destruct (update_flags insn); [discriminate|].
    intros [= <-]. apply facts_jmp; assumption. }
  assert (Hsets : sets_flags insn
                  = if Avr.strcmp (mnemonic insn) "adc" =? 0 then false else update_flags insn).
  { unfold sets_flags. destruct (id insn); try discriminate Hid;
      destruct (update_flags insn), (Avr.strcmp (mnemonic insn) "adc" =? 0); reflexivity. }
  rewrite <- Hsets.
  destruct (sets_flags insn) eqn:Hflags.
  2: { intros H. exact (facts_write insn res e Hs Hrb Hrl H). }
  specialize (Hnamed eq_refl).
  unfold write_reg, REG, read_reg. rewrite Hpc.
  destruct (reg_var_name (REGID insn 0)) as [rd|] eqn:Erd; [|contradiction].
  destruct (reg_var_name_bound _ _ Erd) as [Hrd Hrdf].
  rewrite facts_zn. unfold SEQN, DUP. cbn [all_present b1 b2].
  intros [= <-].
  unfold facts. rewrite Erd, Hflags, Hs.
  split; [|split; [|split]].
  - destruct (match id insn with ARM_INS_ADC => true | _ => false end);
      cbn [eff_globals flat_map pure_globals app]; rewrite ?app_nil_r; bound_solve.
  - destruct (match id insn with ARM_INS_ADC => true | _ => false end);
      cbn [scoped fold_left pure_locals app]; rewrite ?Hal, ?Hbl, ?Hrl;
      cbn; eexists; reflexivity.
  - cbn [eff_writes flat_map app writes_ok forallb]. rewrite String.eqb_refl. flag_tests.
  - reflexivity.
Qed.

(** Everything [il_unconditional] returns satisfies [facts], provided no
    NULL reaches a sequence builder: an [add] that sets flags must name its
    destination. *)
Lemma il_unconditional_facts (insn : cs_insn) (e : RzILOpEffect) :
  (is_add (id insn) = true -> sets_flags insn = true ->
   reg_var_name (REGID insn 0) <> None) ->
  il_unconditional ISREG ISIMM ISMEM REGID IMM MEMDISP OPCOUNT seq_with_null insn = Some e ->
  facts (REGID insn 0) insn e.
Proof.
  intros Hnamed. unfold il_unconditional.
  destruct (id insn) eqn:Hid; try discriminate.
  - apply facts_b; exact Hid.
  - intros H. exact (proj1 (facts_mov insn e Hid H)).
  - apply facts_add; [rewrite Hid; reflexivity|].
    apply Hnamed. reflexivity.
  - apply facts_add; [rewrite Hid; reflexivity|].
    apply Hnamed. reflexivity.
  - apply facts_ldr; rewrite Hid; exact I.
  - apply facts_ldr; rewrite Hid; exact I.
  - apply facts_ldr; rewrite Hid; exact I.
  - apply facts_str; rewrite Hid; reflexivity.
  - apply facts_str; rewrite Hid; reflexivity.
  - apply facts_str; rewrite Hid; reflexivity.
Qed.


Lemma arg_carry_iff (insn : cs_insn) (n : nat) (c : bool) :
  snd (arg ISIMM REGID IMM MEMDISP insn n c) <> None <->
  c = true /\ op_type (operands insn n) = ARM_OP_IMM /\
  (ISIMM insn (n + 1) = true \/ 0xff < Avr.ut32 (IMM insn n)).
Proof.
  unfold arg. generalize (Z.testbit (Avr.ut32 (IMM insn n)) 31) as t. intros t.
  destruct (op_type (operands insn n)); cbn [snd];
    try (split; [intros H; contradiction | intros (_ & H & _); discriminate H]).
  destruct c; cbn [andb].
  2: { split; [intros H; contradiction | intros (H & _); discriminate H]. }
  destruct (ISIMM insn (n + 1)); cbn [orb].
  - split; [intros _; auto | intros _; discriminate].
  - destruct (Z.gtb_spec (Avr.ut32 (IMM insn n)) 255) as [Hgt|Hle].
    + split; [intros _; split; [reflexivity|split; [reflexivity|right; lia]] | intros _; discriminate].
    + split; [intros H; contradiction|].
      intros (_ & _ & [H|H]); [discriminate H|lia].
Qed.

Lemma writes_ok_In (dest : option string) (flags : bool) (l : list string) :
  writes_ok dest flags l = true ->
  forall v, In v l -> dest = Some v \/ (flags = true /\ In v flag_names).
Proof.
  unfold writes_ok. rewrite forallb_forall. intros H v Hv.
  specialize (H v Hv). apply orb_true_iff in H. destruct H as [H|H].
  - left. destruct dest as [n|]; [|discriminate].
    apply String.eqb_eq in H. subst. reflexivity.
  - right. apply andb_true_iff in H. destruct H as [-> H].
    split; [reflexivity|apply mem_str_In; exact H].
Qed.

Lemma str_writes_nothing (insn : cs_insn) (e : RzILOpEffect) :
  str ISREG ISIMM ISMEM REGID IMM MEMDISP insn = Some e -> eff_writes e = [].
Proof.
  unfold str.
  destruct (negb (ISREG insn 0) || negb (ISMEM insn 1)); [discriminate|].
  destruct (ARG ISIMM REGID IMM MEMDISP insn 1); [|discriminate].
  destruct (ARG ISIMM REGID IMM MEMDISP insn 0); [|discriminate].
  intros [= <-]. destruct (id insn); reflexivity.
Qed.

(** X14 (bound registers): every global variable mentioned by the IL that
    [rz_arm_cs_32_il] returns - read, assigned, or tested by the condition
    guard - is one of the names of [regs_bound_32].  In particular the
    program counter is never a variable: it is read as the constant
    instruction address.  (Precondition: an [add] that goes on to set flags
    names its destination register, so that no NULL is handed to the
    sequence builder.) *)
Theorem lifted_il_mentions_bound_registers (insn : cs_insn)
    (e : Arm.RzILOpEffect RzILOpEffect) :
  (is_add (id insn) = true -> sets_flags insn = true ->
   reg_var_name (REGID insn 0) <> None) ->
  rz_arm_cs_32_il_insn ISREG ISIMM ISMEM REGID IMM MEMDISP OPCOUNT seq_with_null insn = Some e ->
  forall v, In v (guarded_globals e) -> In v regs_bound_32.
Proof.
  intros Hnamed. unfold rz_arm_cs_32_il_insn, Arm.rz_arm_cs_32_il.
  destruct (il_unconditional ISREG ISIMM ISMEM REGID IMM MEMDISP OPCOUNT seq_with_null insn)
    as [u|] eqn:Eu; [|discriminate].
  destruct (il_unconditional_facts insn u Hnamed Eu) as (Hb & _).
  rewrite bound_In in Hb.
  destruct (Arm.cond (cc insn)) as [c|] eqn:Ec; intros [= <-]; cbn [guarded_globals].
  - intros v Hv. rewrite app_nil_r in Hv. apply in_app_or in Hv. destruct Hv as [Hv|Hv].
    + apply mem_str_In.
      assert (Hc : forallb (fun w => mem_str w regs_bound_32) (bool_globals c) = true)
        by (destruct (cc insn); try discriminate Ec; injection Ec as <-; reflexivity).
      rewrite forallb_forall in Hc. exact (Hc v Hv).
    + exact (Hb v Hv).
  - exact Hb.
Qed.

(** X15 (register discipline): the only register an instruction's IL assigns
    is the one named by its operand 0, and a flag is assigned only by [mov]
    with [update_flags] and by [add] with [update_flags] and a mnemonic
    other than "adc".  The IL stores to memory exactly if the instruction
    is [str], [strb] or [strh], and a store assigns no variable at all. *)
Theorem lift_assigns_destination_and_flags_only (insn : cs_insn) (e : RzILOpEffect) :
  (is_add (id insn) = true -> sets_flags insn = true ->
   reg_var_name (REGID insn 0) <> None) ->
  il_unconditional ISREG ISIMM ISMEM REGID IMM MEMDISP OPCOUNT seq_with_null insn = Some e ->
  (forall v, In v (eff_writes e) ->
     reg_var_name (REGID insn 0) = Some v \/ (sets_flags insn = true /\ In v flag_names)) /\
  (eff_stores e = true <-> is_str (id insn) = true) /\
  (is_str (id insn) = true -> eff_writes e = []).
Proof.
  intros Hnamed He.
  destruct (il_unconditional_facts insn e Hnamed He) as (_ & _ & Hw & Hs).
  split; [exact (writes_ok_In _ _ _ Hw)|]. split; [rewrite Hs; reflexivity|].
  intros Hstr. unfold il_unconditional in He.
  destruct (id insn); try discriminate Hstr; exact (str_writes_nothing insn e He).
Qed.

(** X16 (locals in scope): in the IL that [rz_arm_cs_32_il] returns every
    local variable is assigned before it is read. *)
Theorem lifted_locals_are_in_scope (insn : cs_insn) (e : Arm.RzILOpEffect RzILOpEffect) :
  (is_add (id insn) = true -> sets_flags insn = true ->
   reg_var_name (REGID insn 0) <> None) ->
  rz_arm_cs_32_il_insn ISREG ISIMM ISMEM REGID IMM MEMDISP OPCOUNT seq_with_null insn = Some e ->
  guarded_scoped e = true.
Proof.
  intros Hnamed. unfold rz_arm_cs_32_il_insn, Arm.rz_arm_cs_32_il.
  destruct (il_unconditional ISREG ISIMM ISMEM REGID IMM MEMDISP OPCOUNT seq_with_null insn)
    as [u|] eqn:Eu; [|discriminate].
  destruct (il_unconditional_facts insn u Hnamed Eu) as (_ & (d & Hd) & _).
  destruct (Arm.cond (cc insn)); intros [= <-]; cbn [guarded_scoped]; rewrite Hd; reflexivity.
Qed.

(** X17 (carry of mov): the IL of a [mov] assigns [cf] exactly if the
    instruction updates flags, its operand 1 is an immediate, and either
    operand 2 is an immediate too or the (32-bit) immediate exceeds 0xff;
    it never assigns [vf]. *)
Theorem mov_assigns_carry_iff_rotated_immediate (insn : cs_insn) (e : RzILOpEffect) :
  id insn = ARM_INS_MOV ->
  il_unconditional ISREG ISIMM ISMEM REGID IMM MEMDISP OPCOUNT seq_with_null insn = Some e ->
  (In "cf" (eff_writes e) <->
     update_flags insn = true /\ op_type (operands insn 1) = ARM_OP_IMM /\
     (ISIMM insn 2 = true \/ 0xff < Avr.ut32 (IMM insn 1))) /\
  ~ In "vf" (eff_writes e).
Proof.
  intros Hid He. unfold il_unconditional in He. rewrite Hid in He.
  destruct (facts_mov insn e Hid He) as (_ & Hvf & Hcf).
  split.
  - rewrite <- mem_str_In, Hcf.
    rewrite <- (arg_carry_iff insn 1 (update_flags insn)).
    destruct (snd (arg ISIMM REGID IMM MEMDISP insn 1 (update_flags insn)));
      split; intros H; try discriminate; try reflexivity; try congruence.
  - rewrite <- mem_str_In, Hvf. discriminate.
Qed.

End Lifted.

(** X18 (register names): [reg_var_name] gives distinct registers distinct
    names; every name it gives is bound in [regs_bound_32] and is not a
    flag; and every bound name other than the four flags is the name of a
    register. *)
Theorem reg_var_name_matches_bound_registers :
  (forall r r' v, reg_var_name r = Some v -> reg_var_name r' = Some v -> r = r') /\
  (forall r v, reg_var_name r = Some v -> In v regs_bound_32 /\ ~ In v flag_names) /\
  (forall v, In v regs_bound_32 -> ~ In v flag_names -> exists r, reg_var_name r = Some v).
Proof.
  split; [|split].
  - intros r r' v H H'.
    destruct r; cbn in H; try discriminate H; injection H as <-;
      destruct r'; cbn in H'; try discriminate H'; reflexivity.
  - intros r v H. destruct (reg_var_name_bound r v H) as [Hb Hf].
    split; [apply mem_str_In; exact Hb|].
    intros Hin. apply mem_str_In in Hin. congruence.
  - intros v Hin Hnf. unfold regs_bound_32 in Hin. cbn [In] in Hin.
    repeat (destruct Hin as [<- | Hin];
            [first [ exfalso; apply Hnf; cbn; tauto
                   | match goal with
                     | |- exists r, reg_var_name r = Some ?n =>
                         first [ exists ARM_REG_LR; reflexivity | exists ARM_REG_SP; reflexivity
                               | exists ARM_REG_R0; reflexivity | exists ARM_REG_R1; reflexivity
                               | exists ARM_REG_R2; reflexivity | exists ARM_REG_R3; reflexivity
                               | exists ARM_REG_R4; reflexivity | exists ARM_REG_R5; reflexivity
                               | exists ARM_REG_R6; reflexivity | exists ARM_REG_R7; reflexivity
                               | exists ARM_REG_R8; reflexivity | exists ARM_REG_R9; reflexivity
                               | exists ARM_REG_R10; reflexivity | exists ARM_REG_R11; reflexivity
                               | exists ARM_REG_R12; reflexivity
                               | exists ARM_REG_Q0; reflexivity | exists ARM_REG_Q1; reflexivity
                               | exists ARM_REG_Q2; reflexivity | exists ARM_REG_Q3; reflexivity
                               | exists ARM_REG_Q4; reflexivity | exists ARM_REG_Q5; reflexivity
                               | exists ARM_REG_Q6; reflexivity | exists ARM_REG_Q7; reflexivity
                               | exists ARM_REG_Q8; reflexivity | exists ARM_REG_Q9; reflexivity
                               | exists ARM_REG_Q10; reflexivity | exists ARM_REG_Q11; reflexivity
                               | exists ARM_REG_Q12; reflexivity | exists ARM_REG_Q13; reflexivity
                               | exists ARM_REG_Q14; reflexivity | exists ARM_REG_Q15; reflexivity ]
                     end ]|]).
    contradiction.
Qed.

(* ----------------------------------------------------------------- *)
(** *** Instances *)


Lemma lifted_il_mentions_bound_registers_witness :
  exists e, sample_il ops_adds insn_adds = Some e /\
    forall v, In v (guarded_globals e) -> In v regs_bound_32.
Proof.
  eexists. split; [reflexivity|].
  apply (lifted_il_mentions_bound_registers (sample_ISREG ops_adds) (sample_ISIMM ops_adds)
           (sample_ISMEM ops_adds) (sample_REGID ops_adds) (sample_IMM ops_adds)
           (sample_MEMDISP ops_adds) (sample_OPCOUNT ops_adds) sample_seq_with_null insn_adds).
  - intros _ _. discriminate.
  - reflexivity.
Defined.

Lemma lift_assigns_destination_and_flags_only_witness :
  exists e, sample_lift ops_adds insn_adds = Some e /\
    eff_writes e = ["r0"; "cf"; "vf"; "zf"; "nf"] /\
    (forall v, In v (eff_writes e) ->
       reg_var_name ARM_REG_R0 = Some v \/ (sets_flags insn_adds = true /\ In v flag_names)) /\
    (eff_stores e = true <-> is_str ARM_INS_ADD = true) /\
    (is_str ARM_INS_ADD = true -> eff_writes e = []).
Proof.
  eexists. split; [reflexivity|]. split; [reflexivity|].
  apply (lift_assigns_destination_and_flags_only (sample_ISREG ops_adds) (sample_ISIMM ops_adds)
           (sample_ISMEM ops_adds) (sample_REGID ops_adds) (sample_IMM ops_adds)
           (sample_MEMDISP ops_adds) (sample_OPCOUNT ops_adds) sample_seq_with_null insn_adds).
  - intros _ _. discriminate.
  - reflexivity.
Defined.

Lemma lifted_locals_are_in_scope_witness :
  exists e, sample_il ops_adds insn_adds = Some e /\ guarded_scoped e = true.
Proof.
  eexists. split; [reflexivity|].
  apply (lifted_locals_are_in_scope (sample_ISREG ops_adds) (sample_ISIMM ops_adds)
           (sample_ISMEM ops_adds) (sample_REGID ops_adds) (sample_IMM ops_adds)
           (sample_MEMDISP ops_adds) (sample_OPCOUNT ops_adds) sample_seq_with_null insn_adds).
  - intros _ _. discriminate.
  - reflexivity.
Defined.

Lemma mov_assigns_carry_iff_rotated_immediate_witness :
  exists e, sample_lift ops_movs insn_movs = Some e /\
    e = SEQ [SETG "r3" (U32 0x80000000); SETG "cf" IL_TRUE;
             SEQ [SETG "zf" (IS_ZERO (U32 0x80000000)); SETG "nf" (MSB (U32 0x80000000))]] /\
    (In "cf" (eff_writes e) <->
       update_flags insn_movs = true /\ op_type (operands insn_movs 1) = ARM_OP_IMM /\
       (sample_ISIMM ops_movs insn_movs 2 = true \/ 0xff < Avr.ut32 (sample_IMM ops_movs insn_movs 1))) /\
    ~ In "vf" (eff_writes e).
Proof.
  eexists. split; [reflexivity|]. split; [reflexivity|].
  apply (mov_assigns_carry_iff_rotated_immediate (sample_ISREG ops_movs) (sample_ISIMM ops_movs)
           (sample_ISMEM ops_movs) (sample_REGID ops_movs) (sample_IMM ops_movs)
           (sample_MEMDISP ops_movs) (sample_OPCOUNT ops_movs) sample_seq_with_null insn_movs).
  - reflexivity.
  - reflexivity.
Defined.

End ArmILProps.
